(** * Lowering of transformable operators (tinynn/converter/operators/tflite/transformable.py)

    A shallow embedding of [TransformableOperator] and its three subclasses
    [BatchNormOperator], [GenericConvOperator] and
    [GenericTransposeConvOperator], followed by the properties of the
    lowering that the design document states.

    Conventions of the embedding.
    - Python lists that are shared and mutated in place (the [inputs] and
      [outputs] of operators) live in a store of lists; an operator holds
      references into it, so aliasing between [self.inputs] and
      [conv_op.inputs] is visible.
    - A raised exception is a value of [exn]; the state reached when it was
      raised is kept, as in Python.
    - A numpy array is represented by its shape, its element type and, when
      the lowering itself builds it from integers, its values. *)

From Stdlib Require Import ZArith QArith Ascii.
From stdpp Require Import base tactics option list strings pretty gmap.

Local Open Scope nat_scope.

(** ** Numpy arrays, as far as the lowering looks at them *)

Inductive dtype :=
  | float16 | float32 | float64
  | int8 | uint8 | int16 | int32 | int64 | bool_.

Global Instance dtype_eq_dec : EqDecision dtype.
Proof. solve_decision. Defined.

(** [nd_data] is [Some] for the arrays the lowering builds itself with
    [np.array] or [np.zeros] (flattened, row-major; [0] also stands for
    [0.0]); it is [None] for sample arrays, whose values the lowering never
    reads. *)
Record ndarray := {
  nd_shape : list nat;
  nd_dtype : dtype;
  nd_data : option (list Z)
}.

Definition ndim (a : ndarray) : nat := length (nd_shape a).

(** ** Exceptions and results *)

Inductive exn :=
  | IndexError
  | AttributeError
  | TypeError
  | ValueError
  | KeyError
  | AssertionError (msg : string)
  | DanglingReference.

Inductive result (A : Type) :=
  | Ok (a : A)
  | Raise (e : exn).
Arguments Ok {A} a.
Arguments Raise {A} e.

Definition is_ok {A} (r : result A) : bool :=
  match r with Ok _ => true | Raise _ => false end.

(** ** Python sequences *)

(** Index normalisation of [l[i]]: negative indices count from the end. *)
Definition py_norm {A} (l : list A) (i : Z) : option nat :=
  if (0 <=? i)%Z then
    if (i <? Z.of_nat (length l))%Z then Some (Z.to_nat i) else None
  else
    if (- Z.of_nat (length l) <=? i)%Z
    then Some (Z.to_nat (Z.of_nat (length l) + i)) else None.

Definition py_getitem {A} (l : list A) (i : Z) : result A :=
  match py_norm l i with
  | Some n => match l !! n with Some x => Ok x | None => Raise IndexError end
  | None => Raise IndexError
  end.

Definition py_setitem {A} (l : list A) (i : Z) (x : A) : result (list A) :=
  match py_norm l i with
  | Some n => Ok (<[n:=x]> l)
  | None => Raise IndexError
  end.

(** [l.insert(i, x)]: the position is clamped to [0 .. len(l)]. *)
Definition py_insert {A} (l : list A) (i : Z) (x : A) : list A :=
  let n := Z.of_nat (length l) in
  let j := if (i <? 0)%Z then Z.max 0 (n + i) else Z.min i n in
  take (Z.to_nat j) l ++ x :: drop (Z.to_nat j) l.

(** [sum(l)] on a list of integers. *)
Definition py_sum (l : list Z) : Z := foldr Z.add 0%Z l.

(** [l[:-1]] *)
Definition py_init {A} (l : list A) : list A := take (length l - 1) l.

(** ** The numpy functions the lowering calls, on shapes and element types *)

Definition np_array_int32 (l : list Z) : ndarray :=
  {| nd_shape := [length l]; nd_dtype := int32; nd_data := Some l |}.

(** [np.array(shape, dtype='int32')] for a shape tuple. *)
Definition np_array_of_shape (s : list nat) : ndarray :=
  np_array_int32 (Z.of_nat <$> s).

(** [np.array(rows, dtype='int32')] for a list of pairs. *)
Definition np_array_pairs (rows : list (Z * Z)) : ndarray :=
  {| nd_shape := [length rows; 2];
     nd_dtype := int32;
     nd_data := Some (rows ≫= λ p, [p.1; p.2]) |}.

Definition np_zeros (n : nat) (d : dtype) : ndarray :=
  {| nd_shape := [n]; nd_dtype := d; nd_data := Some (replicate n 0%Z) |}.

(** The shape of [np.transpose(a, perm)]: axis [i] of the result is axis
    [perm[i]] of [a]; numpy rejects a [perm] that is not a permutation of
    the axes of [a]. *)
Definition is_perm_of_axes (perm : list Z) (n : nat) : bool :=
  bool_decide (length perm = n) &&
  forallb (λ k, bool_decide (Z.of_nat k ∈ perm)) (seq 0 n).

Definition permute_shape (s : list nat) (perm : list Z) : list nat :=
  (λ p, default 0 (s !! Z.to_nat p)) <$> perm.

Definition np_transpose (a : ndarray) (perm : list Z) : result ndarray :=
  if is_perm_of_axes perm (ndim a)
  then Ok {| nd_shape := permute_shape (nd_shape a) perm;
             nd_dtype := nd_dtype a; nd_data := None |}
  else Raise ValueError.

(** [np.expand_dims(a, 2)] *)
Definition np_expand_dims_2 (a : ndarray) : result ndarray :=
  if bool_decide (2 ≤ ndim a)
  then Ok {| nd_shape := take 2 (nd_shape a) ++ 1 :: drop 2 (nd_shape a);
             nd_dtype := nd_dtype a; nd_data := None |}
  else Raise ValueError.

(** [np.pad(a, pads)] with one [(before, after)] pair per axis. *)
Definition np_pad (a : ndarray) (pads : list (Z * Z)) : result ndarray :=
  if bool_decide (length pads = ndim a) &&
     forallb (λ p, (0 <=? p.1)%Z && (0 <=? p.2)%Z) pads
  then Ok {| nd_shape :=
               zip_with (λ d p, d + Z.to_nat p.1 + Z.to_nat p.2)
                        (nd_shape a) pads;
             nd_dtype := nd_dtype a; nd_data := None |}
  else Raise ValueError.

(** Shape of an elementwise operation on two arrays (numpy broadcasting):
    the shapes are aligned at their last axis; two sizes are compatible
    when they are equal or one of them is 1. *)
Fixpoint broadcast_rev (s1 s2 : list nat) : option (list nat) :=
  match s1, s2 with
  | [], s | s, [] => Some s
  | d1 :: r1, d2 :: r2 =>
      r ← broadcast_rev r1 r2;
      if bool_decide (d1 = d2) then Some (d1 :: r)
      else if bool_decide (d1 = 1) then Some (d2 :: r)
      else if bool_decide (d2 = 1) then Some (d1 :: r)
      else None
  end.

Definition broadcast_shapes (s1 s2 : list nat) : option (list nat) :=
  reverse <$> broadcast_rev (reverse s1) (reverse s2).

(** [a.reshape(new_shape)]: the number of elements has to stay the same. *)
Definition np_reshape (a : ndarray) (new_shape : list nat) : result ndarray :=
  if bool_decide (foldr Nat.mul 1 (nd_shape a) = foldr Nat.mul 1 new_shape)
  then Ok {| nd_shape := new_shape; nd_dtype := nd_dtype a; nd_data := None |}
  else Raise ValueError.

(** ** Tensors *)

(** Quantization parameters are only ever copied by the lowering. *)
Record QuantizationParameters := {
  scale : Q;
  zero_point : Z
}.

(** [Tensor(tensor, name, has_buffer=..., quantization=...)] *)
Record Tensor := {
  tensor : ndarray;
  name : string;
  has_buffer : bool;
  quantization : option QuantizationParameters
}.

Definition shape (t : Tensor) : list nat := nd_shape (tensor t).
Definition tensor_dtype (t : Tensor) : dtype := nd_dtype (tensor t).

(** ** Primitive operators *)

Inductive BuiltinOperator :=
  | ADD | CONV_2D | DEPTHWISE_CONV_2D | DEQUANTIZE | MUL | PAD
  | QUANTIZE | RESHAPE | SLICE | TRANSPOSE | TRANSPOSE_CONV.

Global Instance BuiltinOperator_eq_dec : EqDecision BuiltinOperator.
Proof. solve_decision. Defined.

Inductive ActivationFunctionType :=
  | NONE | RELU | RELU_N1_TO_1 | RELU6 | TANH | SIGN_BIT.

Inductive Padding := SAME | VALID.

(** The keyword arguments each operator is built with in this file. *)
Inductive OpOptions :=
  | NoOptions
  | AddOptions (fusedActivationFunction : ActivationFunctionType)
  | ReshapeOptions (newShape : ndarray)
  | Conv2dOptions (strideH strideW dilationHFactor dilationWFactor : Z)
      (fusedActivationFunction : ActivationFunctionType) (padding : Padding)
  | DepthwiseConv2dOptions (strideH strideW depthMultiplier
      dilationHFactor dilationWFactor : Z)
      (fusedActivationFunction : ActivationFunctionType) (padding : Padding)
  | TransposeConvOptions (strideH strideW : Z) (padding : Padding).

(** References to the lists of the store. *)
Abbreviation ref := nat.

(** An operator object. Its [inputs] and [outputs] are the list objects it
    was constructed with (the constructor keeps them, it does not copy:
    line 256 of the source reads the reordered weight back through
    [self.inputs] after assigning it through [conv_op.inputs]). *)
Record BaseOperator := {
  op : BuiltinOperator;
  inputs : ref;
  outputs : ref;
  options : OpOptions
}.

(** ** The graph container (an external collaborator) *)

Inductive NodeType :=
  | CONSTANT_NODE | INPUT_NODE | OUTPUT_NODE | OPERATOR_NODE.

Global Instance NodeType_eq_dec : EqDecision NodeType.
Proof. solve_decision. Defined.

(** A vertex of [graph_converter.graph]: its [name] and [node_type]
    attributes and the targets of its outgoing edges, in edge order. *)
Record Vertex := {
  v_name : string;
  node_type : NodeType;
  out_edges : list nat
}.

Record Graph := {
  vs : list Vertex;
  tensor_node_map : gmap string string
}.

(** ** The state of one lowering call *)

(** The store of list objects, the fields of the transformable operator
    [self] (each subclass uses its own subset of the parameter fields), the
    warnings issued so far, the calls made to [add_operator] (operator and
    [transform] flag) and the graph of the converter. *)
Record State := {
  heap : list (list (option Tensor));
  self_inputs : ref;
  self_outputs : ref;
  attr_count : nat;
  transform_count : nat;
  stride : list Z;
  padding : list Z;
  dilation : list Z;
  output_padding : list Z;
  groups : Z;
  eps : Q;
  fusedActivationFunction : ActivationFunctionType;
  warnings : list string;
  emitted : list (BaseOperator * bool);
  graph : Graph
}.

Definition set_heap (h : list (list (option Tensor))) (s : State) : State :=
  {| heap := h; self_inputs := self_inputs s; self_outputs := self_outputs s;
     attr_count := attr_count s; transform_count := transform_count s;
     stride := stride s; padding := padding s; dilation := dilation s;
     output_padding := output_padding s; groups := groups s; eps := eps s;
     fusedActivationFunction := fusedActivationFunction s;
     warnings := warnings s; emitted := emitted s; graph := graph s |}.

Definition set_self_inputs (r : ref) (s : State) : State :=
  {| heap := heap s; self_inputs := r; self_outputs := self_outputs s;
     attr_count := attr_count s; transform_count := transform_count s;
     stride := stride s; padding := padding s; dilation := dilation s;
     output_padding := output_padding s; groups := groups s; eps := eps s;
     fusedActivationFunction := fusedActivationFunction s;
     warnings := warnings s; emitted := emitted s; graph := graph s |}.

Definition set_self_outputs (r : ref) (s : State) : State :=
  {| heap := heap s; self_inputs := self_inputs s; self_outputs := r;
     attr_count := attr_count s; transform_count := transform_count s;
     stride := stride s; padding := padding s; dilation := dilation s;
     output_padding := output_padding s; groups := groups s; eps := eps s;
     fusedActivationFunction := fusedActivationFunction s;
     warnings := warnings s; emitted := emitted s; graph := graph s |}.

Definition set_attr_count (n : nat) (s : State) : State :=
  {| heap := heap s; self_inputs := self_inputs s;
     self_outputs := self_outputs s;
     attr_count := n; transform_count := transform_count s;
     stride := stride s; padding := padding s; dilation := dilation s;
     output_padding := output_padding s; groups := groups s; eps := eps s;
     fusedActivationFunction := fusedActivationFunction s;
     warnings := warnings s; emitted := emitted s; graph := graph s |}.

Definition set_transform_count (n : nat) (s : State) : State :=
  {| heap := heap s; self_inputs := self_inputs s;
     self_outputs := self_outputs s;
     attr_count := attr_count s; transform_count := n;
     stride := stride s; padding := padding s; dilation := dilation s;
     output_padding := output_padding s; groups := groups s; eps := eps s;
     fusedActivationFunction := fusedActivationFunction s;
     warnings := warnings s; emitted := emitted s; graph := graph s |}.

(** The four list-valued parameters are extended together (lines 168-171
    and 324-327). *)
Definition set_conv_params (st pd dl op : list Z) (s : State) : State :=
  {| heap := heap s; self_inputs := self_inputs s;
     self_outputs := self_outputs s;
     attr_count := attr_count s; transform_count := transform_count s;
     stride := st; padding := pd; dilation := dl;
     output_padding := op; groups := groups s; eps := eps s;
     fusedActivationFunction := fusedActivationFunction s;
     warnings := warnings s; emitted := emitted s; graph := graph s |}.

Definition set_warnings (w : list string) (s : State) : State :=
  {| heap := heap s; self_inputs := self_inputs s;
     self_outputs := self_outputs s;
     attr_count := attr_count s; transform_count := transform_count s;
     stride := stride s; padding := padding s; dilation := dilation s;
     output_padding := output_padding s; groups := groups s; eps := eps s;
     fusedActivationFunction := fusedActivationFunction s;
     warnings := w; emitted := emitted s; graph := graph s |}.

Definition set_graph (e : list (BaseOperator * bool)) (g : Graph)
    (s : State) : State :=
  {| heap := heap s; self_inputs := self_inputs s;
     self_outputs := self_outputs s;
     attr_count := attr_count s; transform_count := transform_count s;
     stride := stride s; padding := padding s; dilation := dilation s;
     output_padding := output_padding s; groups := groups s; eps := eps s;
     fusedActivationFunction := fusedActivationFunction s;
     warnings := warnings s; emitted := e; graph := g |}.

(** ** The monad of the lowering: state, and exceptions that keep it *)

Definition M (A : Type) : Type := State → result A * State.

Definition ret {A} (a : A) : M A := λ s, (Ok a, s).

Definition bind {A B} (m : M A) (k : A → M B) : M B :=
  λ s, match m s with
       | (Ok a, s') => k a s'
       | (Raise e, s') => (Raise e, s')
       end.

Definition raise {A} (e : exn) : M A := λ s, (Raise e, s).

Definition lift {A} (r : result A) : M A := λ s, (r, s).

Definition gets {A} (f : State → A) : M A := λ s, (Ok (f s), s).

Definition modify (f : State → State) : M unit := λ s, (Ok (), f s).

Notation "x <- m ;; k" := (bind m (λ x, k))
  (at level 100, m at next level, right associativity,
   format "'[v' x  <-  m  ;;  '/' k ']'").
Notation "m ;;; k" := (bind m (λ _, k))
  (at level 100, right associativity,
   format "'[v' m  ;;;  '/' k ']'").

(** [for x in l: body(x)], collecting the results as a list comprehension
    does. *)
Fixpoint mapM {A B} (f : A → M B) (l : list A) : M (list B) :=
  match l with
  | [] => ret []
  | x :: l' => y <- f x ;; ys <- mapM f l' ;; ret (y :: ys)
  end.

Definition forM_ {A} (l : list A) (f : A → M unit) : M unit :=
  foldr (λ x k, f x ;;; k) (ret ()) l.

(** *** The store *)

(** A list display [[a, b]], or any expression that builds a new list. *)
Definition new_list (l : list (option Tensor)) : M ref :=
  λ s, (Ok (length (heap s)), set_heap (heap s ++ [l]) s).

Definition read_list (r : ref) : M (list (option Tensor)) :=
  λ s, match heap s !! r with
       | Some l => (Ok l, s)
       | None => (Raise DanglingReference, s)
       end.

Definition write_list (r : ref) (l : list (option Tensor)) : M unit :=
  λ s, if bool_decide (r < length (heap s))
       then (Ok (), set_heap (<[r:=l]> (heap s)) s)
       else (Raise DanglingReference, s).

(** [r[i]] *)
Definition getitem (r : ref) (i : Z) : M (option Tensor) :=
  l <- read_list r ;; lift (py_getitem l i).

(** [r[i] = t] *)
Definition setitem (r : ref) (i : Z) (t : option Tensor) : M unit :=
  l <- read_list r ;; l' <- lift (py_setitem l i t) ;; write_list r l'.

(** Attribute access on a value that may be [None]. *)
Definition the (o : option Tensor) : M Tensor :=
  match o with Some t => ret t | None => raise AttributeError end.

(** An operator built from two list displays, as in
    [tfl_ops.TransposeOperator([a, b], [c])]: both lists are new objects. *)
Definition new_operator (code : BuiltinOperator)
    (ins outs : list (option Tensor)) (opts : OpOptions) : M BaseOperator :=
  i <- new_list ins ;;
  o <- new_list outs ;;
  ret {| op := code; inputs := i; outputs := o; options := opts |}.

(** ** class TransformableOperator *)

Module TransformableOperator.

(** [self.outputs[0].name] *)
Definition outputs_0_name : M string :=
  r <- gets self_outputs ;;
  o <- getitem r 0 ;;
  t <- the o ;;
  ret (name t).

(** The suffix added to the output name by the two factories. *)
Definition generated_suffix (kind : string) (count : nat) : string :=
  if bool_decide (count = 0) then "_te_" +:+ kind
  else "_te_" +:+ kind +:+ "_" +:+ pretty count.

Definition create_attr_tensor (t : ndarray) (name : option string)
    (quantization : option QuantizationParameters) : M Tensor :=
  name <- match name with
          | Some n => ret n
          | None =>
              c <- gets attr_count ;;
              o <- outputs_0_name ;;
              modify (set_attr_count (c + 1)) ;;;
              ret (o +:+ generated_suffix "attr" c)
          end ;;
  ret {| tensor := t; name := name; has_buffer := true;
         quantization := quantization |}.

Definition create_transform_tensor (t : ndarray) (name : option string)
    (quantization : option QuantizationParameters) : M Tensor :=
  name <- match name with
          | Some n => ret n
          | None =>
              c <- gets transform_count ;;
              o <- outputs_0_name ;;
              modify (set_transform_count (c + 1)) ;;;
              ret (o +:+ generated_suffix "transform" c)
          end ;;
  ret {| tensor := t; name := name; has_buffer := false;
         quantization := quantization |}.

Definition nhwc2nchw_perm : list Z := [0; 3; 1; 2]%Z.
Definition nchw2nhwc_perm : list Z := [0; 2; 3; 1]%Z.

Definition wrap_ops_with_nhwc_nchw_transposes (ops : list BaseOperator)
    (input_idx output_idx : Z) : M (list BaseOperator) :=
  first_op <- lift (py_getitem ops 0) ;;
  orig_input <- getitem (inputs first_op) input_idx ;;
  last_op <- lift (py_getitem ops (-1)) ;;
  orig_output <- getitem (outputs last_op) output_idx ;;
  nhwc2nchw_perm_tensor <-
    create_attr_tensor (np_array_int32 nhwc2nchw_perm) None None ;;
  nchw2nhwc_perm_tensor <-
    create_attr_tensor (np_array_int32 nchw2nhwc_perm) None None ;;
  orig_input_t <- the orig_input ;;
  a <- lift (np_transpose (tensor orig_input_t) nchw2nhwc_perm) ;;
  new_input <- create_transform_tensor a None (quantization orig_input_t) ;;
  orig_output_t <- the orig_output ;;
  b <- lift (np_transpose (tensor orig_output_t) nchw2nhwc_perm) ;;
  new_output <- create_transform_tensor b None (quantization orig_output_t) ;;
  nchw2nhwc_transpose <-
    new_operator TRANSPOSE [orig_input; Some nchw2nhwc_perm_tensor]
                 [Some new_input] NoOptions ;;
  nhwc2nchw_transpose <-
    new_operator TRANSPOSE [Some new_output; Some nhwc2nchw_perm_tensor]
                 [orig_output] NoOptions ;;
  setitem (inputs first_op) input_idx (Some new_input) ;;;
  setitem (outputs last_op) output_idx (Some new_output) ;;;
  ret ([nchw2nhwc_transpose] ++ ops ++ [nhwc2nchw_transpose]).

End TransformableOperator.

(** ** External collaborators *)

(** The graph container. [add_operator] and [try_restore_edges] belong to
    the converter, not to this file; their effect on the graph is left
    open. The embedding records every call of [add_operator]. *)
Class GraphConverter (Mapping : Type) := {
  add_operator_graph : State → BaseOperator → bool → Graph;
  try_restore_edges_graph : State → Mapping → Graph
}.

(** numpy's type promotion for an elementwise operation. *)
Class Numpy := {
  result_type : dtype → dtype → dtype
}.

Section collaborators.
Context {Mapping : Type} `{!GraphConverter Mapping}.

Definition add_operator (o : BaseOperator) (transform : bool) : M unit :=
  λ s, (Ok (), set_graph (emitted s ++ [(o, transform)])
                         (add_operator_graph s o transform) s).

Definition try_restore_edges (mapping : Mapping) : M unit :=
  λ s, (Ok (), set_graph (emitted s) (try_restore_edges_graph s mapping) s).
End collaborators.

Section numpy.
Context `{!Numpy}.

(** [a + b], [a * b], [a - b], [a / b] *)
Definition np_binop (a b : ndarray) : result ndarray :=
  match broadcast_shapes (nd_shape a) (nd_shape b) with
  | Some s => Ok {| nd_shape := s;
                    nd_dtype := result_type (nd_dtype a) (nd_dtype b);
                    nd_data := None |}
  | None => Raise ValueError
  end.

(** [np.sqrt(a, dtype='float32')] *)
Definition np_sqrt_float32 (a : ndarray) : ndarray :=
  {| nd_shape := nd_shape a; nd_dtype := float32; nd_data := None |}.

(** [np.array(x, dtype='float32')] for a Python float: a 0-d array. *)
Definition np_scalar_float32 : ndarray :=
  {| nd_shape := []; nd_dtype := float32; nd_data := None |}.
End numpy.

(** ** class BatchNormOperator *)

Module BatchNormOperator.
Section transform.
Context {Mapping : Type} `{!GraphConverter Mapping} `{!Numpy}.
Import TransformableOperator.

Definition input_index : Z := 0.
Definition weight_index : Z := 1.
Definition bias_index : Z := 2.
Definition running_mean_index : Z := 3.
Definition running_variance_index : Z := 4.
Definition output_index : Z := 0.

(** [assert all((x.buffer is not None for x in l))] *)
Fixpoint assert_all_buffers (l : list (option Tensor)) : M unit :=
  match l with
  | [] => ret ()
  | x :: l' =>
      t <- the x ;;
      if has_buffer t then assert_all_buffers l'
      else raise (AssertionError "")
  end.

Definition transform (mapping : Mapping) : M unit :=
  ins <- gets self_inputs ;;
  l <- read_list ins ;;
  assert_all_buffers (drop 1 l) ;;;
  w <- bind (getitem ins weight_index) the ;;
  b <- bind (getitem ins bias_index) the ;;
  mean <- bind (getitem ins running_mean_index) the ;;
  var <- bind (getitem ins running_variance_index) the ;;
  let eps := np_scalar_float32 in
  ve <- lift (np_binop (tensor var) eps) ;;
  new_w <- lift (np_binop (tensor w) (np_sqrt_float32 ve)) ;;
  wm <- lift (np_binop (tensor w) (tensor mean)) ;;
  ve' <- lift (np_binop (tensor var) eps) ;;
  q <- lift (np_binop wm (np_sqrt_float32 ve')) ;;
  new_b <- lift (np_binop (tensor b) q) ;;
  inp <- getitem ins input_index ;;
  c <- lift (py_getitem (nd_shape new_w) 0) ;;
  inp_t <- the inp ;;
  let new_shape := [1] ++ [c] ++ replicate (ndim (tensor inp_t) - 2) 1 in
  new_w <- lift (np_reshape new_w new_shape) ;;
  new_b <- lift (np_reshape new_b new_shape) ;;
  weight <- create_attr_tensor new_w None None ;;
  bias <- create_attr_tensor new_b None None ;;
  new_inp <-
    match quantization inp_t with
    | Some _ =>
        new_inp <- create_transform_tensor (tensor inp_t) None None ;;
        o <- new_operator DEQUANTIZE [inp] [Some new_inp] NoOptions ;;
        add_operator o false ;;;
        ret new_inp
    | None => ret inp_t
    end ;;
  m <- lift (np_binop (tensor new_inp) (tensor weight)) ;;
  mul_out <- create_transform_tensor m None None ;;
  o <- new_operator MUL [inp; Some weight] [Some mul_out] NoOptions ;;
  add_operator o false ;;;
  add_out <-
    match quantization inp_t with
    | Some _ =>
        a <- lift (np_binop (tensor mul_out) (tensor bias)) ;;
        t <- create_transform_tensor a None None ;;
        ret (Some t)
    | None =>
        outs <- gets self_outputs ;;
        getitem outs output_index
    end ;;
  fused <- gets fusedActivationFunction ;;
  o <- new_operator ADD [Some mul_out; Some bias] [add_out]
                    (AddOptions fused) ;;
  add_operator o true ;;;
  match quantization inp_t with
  | Some _ =>
      outs <- gets self_outputs ;;
      quant_out <- getitem outs output_index ;;
      o <- new_operator QUANTIZE [add_out] [quant_out] NoOptions ;;
      add_operator o true
  | None => ret ()
  end ;;;
  try_restore_edges mapping.

End transform.
End BatchNormOperator.

(** ** Steps shared by the two convolution lowerings *)

Section conv_common.
Import TransformableOperator.

(** [warnings.warn(msg)] *)
Definition warn (msg : string) : M unit :=
  modify (λ s, set_warnings (warnings s ++ [msg]) s).

(** Lines 168-171 and 324-327: [insert(0, _)] on the four parameter
    lists of [self]. *)
Definition extend_conv_params : M unit :=
  modify (λ s, set_conv_params (py_insert (stride s) 0 1%Z)
                               (py_insert (padding s) 0 0%Z)
                               (py_insert (dilation s) 0 1%Z)
                               (py_insert (output_padding s) 0 0%Z) s).

(** One element of the comprehension of lines 174-177 (329-332). *)
Definition reshape_output (t : option Tensor) : M Tensor :=
  t <- the t ;;
  a <- lift (np_expand_dims_2 (tensor t)) ;;
  o <- outputs_0_name ;;
  create_transform_tensor a (Some (o +:+ "_" +:+ name t +:+ "_4d_input"))
                          (quantization t).

(** [create_attr_tensor(np.array(t.shape, dtype='int32'))] *)
Definition shape_attr (t : Tensor) : M Tensor :=
  create_attr_tensor (np_array_of_shape (shape t)) None None.

(** [tfl_ops.ReshapeOperator([old, attr], [new], attr.tensor)] *)
Definition reshape_op (x : option Tensor * Tensor * Tensor)
    : M BaseOperator :=
  let '(old, new, attr) := x in
  new_operator RESHAPE [old; Some attr] [Some new]
               (ReshapeOptions (tensor attr)).

Definition reshape_op' (x : Tensor * option Tensor * Tensor)
    : M BaseOperator :=
  let '(old, new, attr) := x in
  new_operator RESHAPE [Some old; Some attr] [new]
               (ReshapeOptions (tensor attr)).

(** Lines 174-196 (329-350): the reshapes around a 1-d convolution, for
    the first [reshape_input_size] inputs and the first output; [self]
    gets new [inputs] and [outputs] lists. Returns [prev_ops] and
    [next_ops]. *)
Definition reshape_to_4d (reshape_input_size : nat)
    : M (list BaseOperator * list BaseOperator) :=
  ins <- gets self_inputs ;;
  l <- read_list ins ;;
  reshape_outputs <- mapM reshape_output (take reshape_input_size l) ;;
  reshape_attrs <- mapM shape_attr reshape_outputs ;;
  reshape_ops <-
    mapM reshape_op
      (zip (zip (take reshape_input_size l) reshape_outputs) reshape_attrs) ;;
  outs <- gets self_outputs ;;
  out0 <- bind (getitem outs 0) the ;;
  a <- lift (np_expand_dims_2 (tensor out0)) ;;
  conv_output <-
    create_transform_tensor a (Some (name out0 +:+ "_4d_output"))
                            (quantization out0) ;;
  lo <- read_list outs ;;
  conv_attrs <- mapM (λ t, bind (the t) shape_attr) (take 1 lo) ;;
  conv_ops <-
    mapM reshape_op' (zip (zip [conv_output] (take 1 lo)) conv_attrs) ;;
  ins' <- new_list ((Some <$> reshape_outputs) ++ drop reshape_input_size l) ;;
  modify (set_self_inputs ins') ;;;
  outs' <- new_list ([Some conv_output] ++ drop 1 lo) ;;
  modify (set_self_outputs outs') ;;;
  ret (reshape_ops, conv_ops).

(** The reordering of the weight (lines 240-245, 247-252, 389-394). *)
Definition reorder_weight (conv_op : BaseOperator) (perm : list Z)
    : M BaseOperator :=
  weight <- getitem (inputs conv_op) 1 ;;
  perm_tensor <- create_attr_tensor (np_array_int32 perm) None None ;;
  weight_t <- the weight ;;
  a <- lift (np_transpose (tensor weight_t) perm) ;;
  reordered_weight <-
    create_transform_tensor a None (quantization weight_t) ;;
  setitem (inputs conv_op) 1 (Some reordered_weight) ;;;
  new_operator TRANSPOSE [weight; Some perm_tensor]
               [Some reordered_weight] NoOptions.

Definition nchw2chwn_perm : list Z := [1; 2; 3; 0]%Z.
End conv_common.

(** ** class GenericConvOperator *)

Module GenericConvOperator.
Section transform.
Context {Mapping : Type} `{!GraphConverter Mapping}.
Import TransformableOperator.

Definition group_conv_warning : string :=
  "Group conv is not supported if official tflite interpreter is used".

(** Lines 164-200. *)
Definition normalize_dims (input_dim weight_dim : nat)
    : M (list BaseOperator * list BaseOperator) :=
  if bool_decide (weight_dim = 3) || bool_decide (input_dim = 3) then
    (if bool_decide (weight_dim = 3) then extend_conv_params else ret ()) ;;;
    reshape_to_4d (if bool_decide (weight_dim = 3) then 2 else 1)
  else if bool_decide (weight_dim ≠ 4) then
    raise (AssertionError "Only Conv[Transpose]1d/2d is supported")
  else ret ([], []).

(** Lines 202-216. *)
Definition select_primitive (input_tensor weight_tensor : Tensor)
    : M BaseOperator :=
  w1 <- lift (py_getitem (shape weight_tensor) 1) ;;
  depthwise <-
    (if bool_decide (w1 = 1) then
       w0 <- lift (py_getitem (shape weight_tensor) 0) ;;
       g <- gets groups ;;
       ret (bool_decide (Z.of_nat w0 = g))
     else ret false) ;;
  ins <- gets self_inputs ;;
  outs <- gets self_outputs ;;
  if depthwise then
    st <- gets stride ;;
    strideH <- lift (py_getitem st 0) ;;
    strideW <- lift (py_getitem st 1) ;;
    dl <- gets dilation ;;
    dilationH <- lift (py_getitem dl 0) ;;
    dilationW <- lift (py_getitem dl 1) ;;
    fused <- gets fusedActivationFunction ;;
    ret {| op := DEPTHWISE_CONV_2D; inputs := ins; outputs := outs;
           options := DepthwiseConv2dOptions strideH strideW 1
                        dilationH dilationW fused VALID |}
  else
    i1 <- lift (py_getitem (shape input_tensor) 1) ;;
    (if bool_decide (i1 ≠ w1) then warn group_conv_warning else ret ()) ;;;
    st <- gets stride ;;
    strideH <- lift (py_getitem st 0) ;;
    strideW <- lift (py_getitem st 1) ;;
    dl <- gets dilation ;;
    dilationH <- lift (py_getitem dl 0) ;;
    dilationW <- lift (py_getitem dl 1) ;;
    fused <- gets fusedActivationFunction ;;
    ret {| op := CONV_2D; inputs := ins; outputs := outs;
           options := Conv2dOptions strideH strideW dilationH dilationW
                        fused VALID |}.

(** Lines 222-235. *)
Definition pad_handling (ops : list BaseOperator) : M (list BaseOperator) :=
  pd <- gets padding ;;
  if bool_decide (0 < py_sum pd)%Z then
    pad_h <- lift (py_getitem pd 0) ;;
    pad_w <- lift (py_getitem pd 1) ;;
    let pad := [(0, 0); (pad_h, pad_h); (pad_w, pad_w); (0, 0)]%Z in
    pad_tensor <- create_attr_tensor (np_array_pairs pad) None None ;;
    first_op <- lift (py_getitem ops 0) ;;
    pad_input <- bind (getitem (outputs first_op) 0) the ;;
    pad_array <- lift (np_pad (tensor pad_input) pad) ;;
    pad_out <-
      create_transform_tensor pad_array None (quantization pad_input) ;;
    second_op <- lift (py_getitem ops 1) ;;
    setitem (inputs second_op) 0 (Some pad_out) ;;;
    pad_op <- new_operator PAD [Some pad_input; Some pad_tensor]
                           [Some pad_out] NoOptions ;;
    ret (py_insert ops 1 pad_op)
  else ret ops.

(** Lines 238-253. *)
Definition weight_handling (ops : list BaseOperator)
    (conv_op : BaseOperator) : M (list BaseOperator) :=
  reorder_op <-
    (if bool_decide (op conv_op = DEPTHWISE_CONV_2D)
     then reorder_weight conv_op nchw2chwn_perm
     else reorder_weight conv_op nchw2nhwc_perm) ;;
  ret (py_insert ops 1 reorder_op).

(** Lines 256-273. The branch of lines 268-271 passes the string
    ['float32'] (or ['int32']) as [dtype] to [torch.tensor], which only
    takes a [torch.dtype], after subscripting a [Tensor] object, which
    has no [__getitem__]: it raises [TypeError]. *)
Definition bias_handling (conv_op : BaseOperator) : M unit :=
  ins <- gets self_inputs ;;
  w <- bind (getitem ins 1) the ;;
  kernel_num <- lift (py_getitem (shape w) 0) ;;
  kernel_num <-
    (if bool_decide (op conv_op = DEPTHWISE_CONV_2D)
     then lift (py_getitem (shape w) 3) else ret kernel_num) ;;
  l <- read_list (inputs conv_op) ;;
  no_bias <-
    (if bool_decide (length l = 2) then ret true
     else b <- lift (py_getitem l 2) ;;
          ret (match b with None => true | Some _ => false end)) ;;
  if no_bias then
    x <- bind (getitem (inputs conv_op) 0) the ;;
    let bias :=
      if bool_decide (tensor_dtype x = float32)
      then np_zeros kernel_num float32
      else np_zeros kernel_num int32 in
    t <- create_attr_tensor bias None None ;;
    l <- read_list (inputs conv_op) ;;
    write_list (inputs conv_op) (l ++ [Some t])
  else
    b <- bind (getitem (inputs conv_op) 2) the ;;
    b0 <- lift (py_getitem (shape b) 0) ;;
    if bool_decide (b0 ≠ kernel_num) && bool_decide (b0 = 1) then
      x <- bind (getitem (inputs conv_op) 0) the ;;
      raise TypeError
    else ret ().

(** Lines 155-280: everything up to the restoration of the edges.
    Returns the emitted chain [ops]. *)
Definition lower (mapping : Mapping) : M (list BaseOperator) :=
  ins <- gets self_inputs ;;
  input_tensor <- getitem ins 0 ;;
  weight_tensor <- getitem ins 1 ;;
  input_tensor <- the input_tensor ;;
  weight_tensor <- the weight_tensor ;;
  let input_dim := length (shape input_tensor) in
  let weight_dim := length (shape weight_tensor) in
  around <- normalize_dims input_dim weight_dim ;;
  let prev_ops := around.1 in
  let next_ops := around.2 in
  ins <- gets self_inputs ;;
  weight_tensor <-
    (if bool_decide (weight_dim = 3) || bool_decide (input_dim = 3)
     then bind (getitem ins 1) the else ret weight_tensor) ;;
  conv_op <- select_primitive input_tensor weight_tensor ;;
  ops <- wrap_ops_with_nhwc_nchw_transposes [conv_op] 0 0 ;;
  conv_op <- lift (py_getitem ops 1) ;;
  ops <- pad_handling ops ;;
  ops <- weight_handling ops conv_op ;;
  bias_handling conv_op ;;;
  let ops := prev_ops ++ ops ++ next_ops in
  forM_ ops (λ o, add_operator o true) ;;;
  try_restore_edges mapping ;;;
  ret ops.

(** [graph_converter.graph.vs.find(name=node_name)] *)
Definition find_vertex (g : Graph) (node_name : string) : result Vertex :=
  match list_find (λ v, v_name v = node_name) (vs g) with
  | Some (_, v) => Ok v
  | None => Raise ValueError
  end.

Definition outdegree_message : string :=
  "The following node should be a part of the transformable node, but the outdegree of it is zero.".

(** The body of the loop of lines 282-289. *)
Definition check_operator (o : BaseOperator) : M unit :=
  out <- bind (getitem (outputs o) 0) the ;;
  let output_name := name out in
  g <- gets graph ;;
  node_name <- match tensor_node_map g !! output_name with
               | Some n => ret n
               | None => raise KeyError
               end ;;
  node <- lift (find_vertex g node_name) ;;
  if bool_decide (0 < length (out_edges node)) then
    target <- lift (py_getitem (out_edges node) 0) ;;
    next_node <- match vs g !! target with
                 | Some v => ret v
                 | None => raise IndexError
                 end ;;
    if bool_decide (node_type next_node ≠ CONSTANT_NODE) then ret ()
    else raise (AssertionError "")
  else raise (AssertionError outdegree_message).

Definition post_condition_check (ops : list BaseOperator) : M unit :=
  forM_ (py_init ops) check_operator.

Definition transform (mapping : Mapping) : M unit :=
  ops <- lower mapping ;;
  post_condition_check ops.

End transform.
End GenericConvOperator.

(** ** class GenericTransposeConvOperator *)

Module GenericTransposeConvOperator.
Section transform.
Context {Mapping : Type} `{!GraphConverter Mapping}.
Import TransformableOperator.

(** Lines 323-354. *)
Definition normalize_dims (weight_dim : nat)
    : M (list BaseOperator * list BaseOperator) :=
  if bool_decide (weight_dim = 3) then
    extend_conv_params ;;;
    reshape_to_4d 2
  else if bool_decide (weight_dim ≠ 4) then
    raise (AssertionError "Only Conv[Transpose]1d/2d is supported")
  else ret ([], []).

(** Lines 362-381. Returns [ops] and [output_shape]. *)
Definition pad_handling (ops : list BaseOperator) (conv_op : BaseOperator)
    : M (list BaseOperator * list nat) :=
  out0 <- bind (getitem (outputs conv_op) 0) the ;;
  let output_shape := shape out0 in
  pd <- gets padding ;;
  if bool_decide (0 < py_sum pd)%Z then
    pad_h <- lift (py_getitem pd 0) ;;
    pad_w <- lift (py_getitem pd 1) ;;
    let start := np_array_int32 [0; pad_h; pad_w; 0]%Z in
    second_op <- lift (py_getitem ops 1) ;;
    o <- bind (getitem (outputs second_op) 0) the ;;
    let size := np_array_of_shape (shape o) in
    start_tensor <- create_attr_tensor start None None ;;
    size_tensor <- create_attr_tensor size None None ;;
    slice_out <- getitem (outputs second_op) 0 ;;
    let pad_sizes := [(0, 0); (pad_h, pad_h); (pad_w, pad_w); (0, 0)]%Z in
    souts <- gets self_outputs ;;
    self_out <- bind (getitem souts 0) the ;;
    pad_array <- lift (np_pad (tensor self_out) pad_sizes) ;;
    slice_input <-
      create_transform_tensor pad_array None (quantization self_out) ;;
    setitem (outputs second_op) 0 (Some slice_input) ;;;
    slice_op <-
      new_operator SLICE
        [Some slice_input; Some start_tensor; Some size_tensor]
        [slice_out] NoOptions ;;
    ret (py_insert ops 2 slice_op, shape slice_input)
  else ret (ops, output_shape).

(** Lines 398-403. *)
Definition bias_handling (ops : list BaseOperator)
    : M (list BaseOperator) :=
  ins <- gets self_inputs ;;
  l <- read_list ins ;;
  if bool_decide (2 < length l) then
    b <- lift (py_getitem l 2) ;;
    match b with
    | Some bias_tensor =>
        before_last <- lift (py_getitem ops (-2)) ;;
        add_out <- getitem (outputs before_last) 0 ;;
        add_out_t <- the add_out ;;
        bias_transform <-
          create_transform_tensor (tensor add_out_t) None None ;;
        setitem (outputs before_last) 0 (Some bias_transform) ;;;
        add_op <- new_operator ADD [Some bias_transform; Some bias_tensor]
                               [add_out] NoOptions ;;
        ret (py_insert ops (Z.of_nat (length ops) - 1) add_op)
    | None => ret ops
    end
  else ret ops.

Definition transform (mapping : Mapping) : M unit :=
  ins <- gets self_inputs ;;
  weight_tensor <- bind (getitem ins 1) the ;;
  let weight_dim := length (shape weight_tensor) in
  around <- normalize_dims weight_dim ;;
  let prev_ops := around.1 in
  let next_ops := around.2 in
  ins <- gets self_inputs ;;
  l <- read_list ins ;;
  conv_inputs <- new_list (reverse (take 2 l)) ;;
  outs <- gets self_outputs ;;
  st <- gets stride ;;
  strideH <- lift (py_getitem st 0) ;;
  strideW <- lift (py_getitem st 1) ;;
  let conv_op :=
    {| op := TRANSPOSE_CONV; inputs := conv_inputs; outputs := outs;
       options := TransposeConvOptions strideH strideW VALID |} in
  ops <- wrap_ops_with_nhwc_nchw_transposes [conv_op] 1 0 ;;
  padded <- pad_handling ops conv_op ;;
  let ops := padded.1 in
  let output_shape := padded.2 in
  output_shape_tensor <-
    create_attr_tensor (np_array_of_shape output_shape) None None ;;
  ci <- read_list (inputs conv_op) ;;
  write_list (inputs conv_op) (py_insert ci 0 (Some output_shape_tensor)) ;;;
  reorder_op <- reorder_weight conv_op nchw2chwn_perm ;;
  let ops := py_insert ops 1 reorder_op in
  ops <- bias_handling ops ;;
  let ops := prev_ops ++ ops ++ next_ops in
  forM_ ops (λ o, add_operator o false) ;;;
  try_restore_edges mapping.

End transform.
End GenericTransposeConvOperator.


(** * Definitions used to state the properties *)

(** ** Sequences of factory calls within one lowering call *)

(** What a lowering does with the factories: it calls them, with or without
    an explicit name, and in between it may rebind [self.outputs] (line 196)
    or store into that list (line 64, through the alias
    [ops[-1].outputs]). *)
Inductive factory_call :=
  | Create_attr (t : ndarray) (name : option string)
      (quantization : option QuantizationParameters)
  | Create_transform (t : ndarray) (name : option string)
      (quantization : option QuantizationParameters)
  | Rebind_outputs (l : list (option Tensor))
  | Store_output (i : Z) (t : option Tensor).

(** Runs one call; returns the name when the factory generated it. *)
Definition run_call (c : factory_call) : M (option string) :=
  match c with
  | Create_attr t n q =>
      x <- TransformableOperator.create_attr_tensor t n q ;;
      ret (match n with None => Some (name x) | Some _ => None end)
  | Create_transform t n q =>
      x <- TransformableOperator.create_transform_tensor t n q ;;
      ret (match n with None => Some (name x) | Some _ => None end)
  | Rebind_outputs l =>
      r <- new_list l ;;
      modify (set_self_outputs r) ;;;
      ret None
  | Store_output i t =>
      r <- gets self_outputs ;;
      setitem r i t ;;;
      ret None
  end.

Definition generated_names (cs : list factory_call) : M (list string) :=
  l <- mapM run_call cs ;;
  ret (omap id l).

(** The name of the first output in a given [outputs] list. *)
Definition first_output_name (outs : option (list (option Tensor)))
    : option string :=
  l ← outs;
  match py_getitem l 0 with
  | Ok (Some t) => Some (name t)
  | _ => None
  end.

Definition current_outputs (s : State) : option (list (option Tensor)) :=
  heap s !! self_outputs s.

(** The names as the design describes them: the first output name, followed
    by the suffix of the kind, followed by the number of tensors of that kind
    generated before, unless that number is zero. *)
Definition described_name (outs : option (list (option Tensor)))
    (kind : string) (n : nat) : string :=
  default "" (first_output_name outs) +:+ "_te_" +:+ kind +:+
  (if bool_decide (n = 0) then "" else "_" +:+ pretty n).

Fixpoint described_names (outs : option (list (option Tensor)))
    (n_attr n_transform : nat) (cs : list factory_call) : list string :=
  match cs with
  | [] => []
  | Create_attr _ None _ :: cs =>
      described_name outs "attr" n_attr
        :: described_names outs (S n_attr) n_transform cs
  | Create_transform _ None _ :: cs =>
      described_name outs "transform" n_transform
        :: described_names outs n_attr (S n_transform) cs
  | Create_attr _ (Some _) _ :: cs | Create_transform _ (Some _) _ :: cs =>
      described_names outs n_attr n_transform cs
  | Rebind_outputs l :: cs =>
      described_names (Some l) n_attr n_transform cs
  | Store_output i t :: cs =>
      described_names
        (l ← outs; match py_setitem l i t with Ok l' => Some l' | _ => None end)
        n_attr n_transform cs
  end.

(** ** Concrete nodes *)

(** A sample array of the given shape and element type. *)
Definition sample (shape : list nat) (d : dtype) : ndarray :=
  {| nd_shape := shape; nd_dtype := d; nd_data := None |}.

(** A graph input or intermediate value. *)
Definition value_tensor (n : string) (shape : list nat) (d : dtype)
    (q : option QuantizationParameters) : Tensor :=
  {| tensor := sample shape d; name := n; has_buffer := false;
     quantization := q |}.

(** A constant (weight, bias, statistics). *)
Definition constant_tensor (n : string) (shape : list nat) (d : dtype)
    : Tensor :=
  {| tensor := sample shape d; name := n; has_buffer := true;
     quantization := None |}.

Definition empty_graph : Graph := {| vs := []; tensor_node_map := ∅ |}.

(** A freshly constructed transformable operator with the given [inputs] and
    [outputs] lists and convolution parameters: both counters are zero
    (lines 19-20), nothing was emitted. *)
Definition fresh_node (ins outs : list (option Tensor))
    (st pd dl op : list Z) (g : Z) : State :=
  {| heap := [ins; outs]; self_inputs := 0; self_outputs := 1;
     attr_count := 0; transform_count := 0;
     stride := st; padding := pd; dilation := dl; output_padding := op;
     groups := g; eps := 0%Q; fusedActivationFunction := NONE;
     warnings := []; emitted := []; graph := empty_graph |}.

(** An operator of the chain, resolved against the store of a state. *)
Definition resolve (s : State) (o : BaseOperator)
    : BuiltinOperator * list (option Tensor) * list (option Tensor) :=
  (op o, default [] (heap s !! inputs o), default [] (heap s !! outputs o)).

(** The operators handed to [add_operator], resolved in the final store. *)
Definition emitted_chain (s : State)
    : list (BuiltinOperator * list (option Tensor) * list (option Tensor)) :=
  (λ x, resolve s x.1) <$> emitted s.

Definition emitted_kinds (s : State) : list BuiltinOperator :=
  (λ x, op x.1) <$> emitted s.

(** A graph converter that leaves the graph alone: enough to observe the
    calls made to it. *)
Definition silent_converter : GraphConverter unit :=
  {| add_operator_graph := λ s _ _, graph s;
     try_restore_edges_graph := λ s _, graph s |}.

(** A graph converter that gives every added operator a vertex named after
    its first output and an edge from the vertex of every input that has
    one, as far as the post-condition check of the convolution looks. *)
Definition producer_vertex (s : State) (t : option Tensor) : option nat :=
  t ← t;
  n ← tensor_node_map (graph s) !! name t;
  fst <$> list_find (λ v, v_name v = n) (vs (graph s)).

Definition add_out_edge (target : nat) (g : list Vertex) (source : nat)
    : list Vertex :=
  alter (λ v, {| v_name := v_name v; node_type := node_type v;
                 out_edges := out_edges v ++ [target] |}) source g.

Definition linking_add (s : State) (o : BaseOperator) (_ : bool) : Graph :=
  let ins := default [] (heap s !! inputs o) in
  let outs := default [] (heap s !! outputs o) in
  let me := length (vs (graph s)) in
  let node_name := "node_" +:+ pretty me in
  let v := {| v_name := node_name; node_type := OPERATOR_NODE;
              out_edges := [] |} in
  {| vs := foldl (add_out_edge me) (vs (graph s) ++ [v])
                 (omap (producer_vertex s) ins);
     tensor_node_map :=
       foldr (λ t m, <[name t := node_name]> m) (tensor_node_map (graph s))
             (omap id outs) |}.

Definition linking_converter : GraphConverter unit :=
  {| add_operator_graph := linking_add;
     try_restore_edges_graph := λ s _, graph s |}.

(** A graph converter that gives every added operator a vertex and records
    the names of its outputs, but adds no edge. *)
Definition isolating_add (s : State) (o : BaseOperator) (_ : bool) : Graph :=
  let outs := default [] (heap s !! outputs o) in
  let node_name := "node_" +:+ pretty (length (vs (graph s))) in
  {| vs := vs (graph s) ++ [{| v_name := node_name;
                               node_type := OPERATOR_NODE;
                               out_edges := [] |}];
     tensor_node_map :=
       foldr (λ t m, <[name t := node_name]> m) (tensor_node_map (graph s))
             (omap id outs) |}.

Definition isolating_converter : GraphConverter unit :=
  {| add_operator_graph := isolating_add;
     try_restore_edges_graph := λ s _, graph s |}.

(** The node of the end-to-end example of the design: input (1,3,8,8),
    weight (4,3,3,3), stride (1,1), padding (1,1), no bias, one group. *)
Definition conv2d_example : State :=
  fresh_node [Some (value_tensor "x" [1; 3; 8; 8] float32 None);
              Some (constant_tensor "w" [4; 3; 3; 3] float32)]
             [Some (value_tensor "y" [1; 4; 8; 8] float32 None)]
             [1; 1]%Z [1; 1]%Z [1; 1]%Z [0; 0]%Z 1%Z.

(** A depthwise 2-d convolution: input (1,4,8,8), weight (4,1,3,5), four
    groups, no padding. *)
Definition depthwise_example : State :=
  fresh_node [Some (value_tensor "x" [1; 4; 8; 8] float32 None);
              Some (constant_tensor "w" [4; 1; 3; 5] float32)]
             [Some (value_tensor "y" [1; 4; 6; 4] float32 None)]
             [1; 1]%Z [0; 0]%Z [1; 1]%Z [0; 0]%Z 4%Z.

(** A 1-d convolution: input (1,3,8), weight (4,3,3), no padding. *)
Definition conv1d_example : State :=
  fresh_node [Some (value_tensor "x" [1; 3; 8] float32 None);
              Some (constant_tensor "w" [4; 3; 3] float32)]
             [Some (value_tensor "y" [1; 4; 6] float32 None)]
             [1]%Z [0]%Z [1]%Z [0]%Z 1%Z.

(** The same 2-d convolution on a double-precision input. *)
Definition conv2d_float64_example : State :=
  fresh_node [Some (value_tensor "x" [1; 3; 8; 8] float64 None);
              Some (constant_tensor "w" [4; 3; 3; 3] float64)]
             [Some (value_tensor "y" [1; 4; 8; 8] float64 None)]
             [1; 1]%Z [1; 1]%Z [1; 1]%Z [0; 0]%Z 1%Z.

(** A grouped convolution that is not depthwise: 4 input channels in 2
    groups, weight (4,2,3,3). *)
Definition grouped_example : State :=
  fresh_node [Some (value_tensor "x" [1; 4; 8; 8] float32 None);
              Some (constant_tensor "w" [4; 2; 3; 3] float32)]
             [Some (value_tensor "y" [1; 4; 6; 6] float32 None)]
             [1; 1]%Z [0; 0]%Z [1; 1]%Z [0; 0]%Z 2%Z.

(** A 2-d convolution with a bias of length 1 for 4 output channels. *)
Definition scalar_bias_example : State :=
  fresh_node [Some (value_tensor "x" [1; 3; 8; 8] float32 None);
              Some (constant_tensor "w" [4; 3; 3; 3] float32);
              Some (constant_tensor "b" [1] float32)]
             [Some (value_tensor "y" [1; 4; 6; 6] float32 None)]
             [1; 1]%Z [0; 0]%Z [1; 1]%Z [0; 0]%Z 1%Z.

(** A 2-d convolution with a bias of length 4 for 4 output channels. *)
Definition conv2d_bias_example : State :=
  fresh_node [Some (value_tensor "x" [1; 3; 8; 8] float32 None);
              Some (constant_tensor "w" [4; 3; 3; 3] float32);
              Some (constant_tensor "b" [4] float32)]
             [Some (value_tensor "y" [1; 4; 6; 6] float32 None)]
             [1; 1]%Z [0; 0]%Z [1; 1]%Z [0; 0]%Z 1%Z.

(** A 1-d transposed convolution: input (1,3,8), weight (3,4,3). *)
Definition deconv1d_example : State :=
  fresh_node [Some (value_tensor "x" [1; 3; 8] float32 None);
              Some (constant_tensor "w" [3; 4; 3] float32)]
             [Some (value_tensor "y" [1; 4; 10] float32 None)]
             [1]%Z [0]%Z [1]%Z [0]%Z 1%Z.

(** A 2-d transposed convolution: input (1,3,8,8), weight (3,4,3,3). *)
Definition deconv2d_example : State :=
  fresh_node [Some (value_tensor "x" [1; 3; 8; 8] float32 None);
              Some (constant_tensor "w" [3; 4; 3; 3] float32)]
             [Some (value_tensor "y" [1; 4; 10; 10] float32 None)]
             [1; 1]%Z [0; 0]%Z [1; 1]%Z [0; 0]%Z 1%Z.

(** Batch normalization of a quantized input (1,4,8,8) over 4 channels,
    and of the same input without quantization. *)
Definition uint8_params : QuantizationParameters :=
  {| scale := 1 # 2; zero_point := 128 |}.

Definition batch_norm_node (q : option QuantizationParameters) (d : dtype)
    : State :=
  fresh_node [Some (value_tensor "x" [1; 4; 8; 8] d q);
              Some (constant_tensor "weight" [4] float32);
              Some (constant_tensor "bias" [4] float32);
              Some (constant_tensor "running_mean" [4] float32);
              Some (constant_tensor "running_var" [4] float32)]
             [Some (value_tensor "y" [1; 4; 8; 8] d q)]
             [] [] [] [] 0%Z.

Definition quantized_batch_norm_example : State :=
  batch_norm_node (Some uint8_params) uint8.

Definition float_batch_norm_example : State :=
  batch_norm_node None float32.

(** A promotion table for the examples: equal types stay, anything else
    goes to [float32]. *)
Definition example_promotion : Numpy :=
  {| result_type := λ a b, if decide (a = b) then a else float32 |}.

(** The names and shapes of the tensors of a resolved operator. *)
Definition tensor_summary (t : option Tensor) : option (string * list nat) :=
  (λ t, (name t, shape t)) <$> t.

Definition summary
    (x : BuiltinOperator * list (option Tensor) * list (option Tensor))
    : BuiltinOperator * list (option (string * list nat))
      * list (option (string * list nat)) :=
  (x.1.1, tensor_summary <$> x.1.2, tensor_summary <$> x.2).

(** ** The statements of the design, as written *)

(** The number of emitted operators according to the design: the
    convolution, two layout transposes, the weight transpose, one pad when
    some padding amount is nonzero, two reshapes when input and weight have
    rank 3. *)
Definition stated_count (padding_nonzero rank_3 : bool) : nat :=
  1 + 2 + 1 + (if padding_nonzero then 1 else 0) + (if rank_3 then 2 else 0).

(** The order of the end-to-end example according to the design. *)
Definition stated_order : list BuiltinOperator :=
  [TRANSPOSE; PAD; TRANSPOSE; CONV_2D; TRANSPOSE].

(** The depthwise weight layout according to the design: spatial, spatial,
    output channels, 1. *)
Definition stated_depthwise_layout (weight_shape : list nat) : list nat :=
  match weight_shape with
  | [o; _; h; w] => [h; w; o; 1]
  | _ => []
  end.

Definition is_floating (d : dtype) : bool :=
  match d with float16 | float32 | float64 => true | _ => false end.

(** Input [j] and output [j] of the [i]-th emitted operator. *)
Definition emitted_input (s : State) (i j : nat) : option (option Tensor) :=
  x ← emitted_chain s !! i; x.1.2 !! j.

Definition emitted_output (s : State) (i j : nat) : option (option Tensor) :=
  x ← emitted_chain s !! i; x.2 !! j.

(** The element type of the first input of a node. *)
Definition input_dtype (s : State) : option dtype :=
  l ← heap s !! self_inputs s; o ← l !! 0; tensor_dtype <$> o.

(** * Definitions used by the proofs *)

(** ** Weakest preconditions of runs *)

(** [wp E m Q s]: running [m] from [s] either returns a value and a state
    satisfying [Q], or raises an exception satisfying [E]. *)
Definition wp {A} (E : exn → State → Prop) (m : M A)
    (Q : A → State → Prop) (s : State) : Prop :=
  match m s with
  | (Ok a, s') => Q a s'
  | (Raise e, s') => E e s'
  end.

(** Any exception is acceptable: properties of the runs that return. *)
Definition any_exn : exn → State → Prop := λ _ _, True.

(** No exception is acceptable: the run returns. *)
Definition no_exn : exn → State → Prop := λ _ _, False.

(** ** Decoding generated names *)

Definition chars (s : string) : list ascii := String.list_ascii_of_string s.

Definition is_digit (a : ascii) : bool := bool_decide (is_Some (Ascii.is_nat a)).

Global Arguments is_digit : simpl never.

Fixpoint span_digits (l : list ascii) : list ascii :=
  match l with
  | a :: l' => if is_digit a then a :: span_digits l' else []
  | [] => []
  end.

Definition rchars (s : string) : list ascii := reverse (chars s).

(** The last letter of the kind of a generated name, and its counter. *)
Definition kind_letter (kind : string) : ascii := default "_"%char (head (rchars kind)).

Global Arguments kind_letter : simpl never.

Definition is_kind (kind : string) : Prop := kind = "attr" ∨ kind = "transform".

Definition step_outputs (c : factory_call)
    (outs : option (list (option Tensor))) : option (list (option Tensor)) :=
  match c with
  | Rebind_outputs l => Some l
  | Store_output i t =>
      l ← outs; match py_setitem l i t with Ok l' => Some l' | _ => None end
  | _ => outs
  end.

Definition step_attr_count (c : factory_call) (n : nat) : nat :=
  match c with Create_attr _ None _ => S n | _ => n end.

Definition step_transform_count (c : factory_call) (n : nat) : nat :=
  match c with Create_transform _ None _ => S n | _ => n end.

Definition step_name (c : factory_call) (s : State) : option string :=
  match c with
  | Create_attr _ None _ =>
      Some (described_name (current_outputs s) "attr" (attr_count s))
  | Create_transform _ None _ =>
      Some (described_name (current_outputs s) "transform" (transform_count s))
  | _ => None
  end.

(** The calls of the factories made by the lowering of the 2-d convolution
    [conv2d_example], with the store into [self.outputs] of line 64. *)
Definition example_calls : list factory_call :=
  [Create_attr (np_array_int32 [0; 3; 1; 2]%Z) None None;
   Create_attr (np_array_int32 [0; 2; 3; 1]%Z) None None;
   Create_transform (sample [1; 8; 8; 3] float32) None None;
   Create_transform (sample [1; 8; 8; 4] float32) (Some "named") None;
   Create_transform (sample [1; 8; 8; 4] float32) None None;
   Store_output 0 (Some (value_tensor "y_te_transform_1" [1; 8; 8; 4]
                                      float32 None));
   Create_attr (np_array_int32 [0; 2; 3; 1]%Z) None None;
   Create_transform (sample [4; 3; 3; 3] float32) None None].

(** ** The outcome of the layout transpose wrapper *)

Section wrap_outcome.
Import TransformableOperator.

(** Where the wrapper acts: the first and the last operator of the chain,
    their [inputs] and [outputs] lists in the store, the positions
    designated by [input_idx] and [output_idx], the tensors found there,
    and the name of the first output of [self]. *)
Record wrap_site := {
  first_op : BaseOperator;
  last_op : BaseOperator;
  lin : list (option Tensor);
  lout : list (option Tensor);
  ni : nat;
  no : nat;
  orig_input : Tensor;
  orig_output : Tensor;
  base : string
}.

Definition wrap_site_of (ops : list BaseOperator) (input_idx output_idx : Z)
    (s : State) (w : wrap_site) : Prop :=
  ops !! 0 = Some (first_op w) ∧ last ops = Some (last_op w) ∧
  heap s !! inputs (first_op w) = Some (lin w) ∧
  py_norm (lin w) input_idx = Some (ni w) ∧
  lin w !! ni w = Some (Some (orig_input w)) ∧
  heap s !! outputs (last_op w) = Some (lout w) ∧
  py_norm (lout w) output_idx = Some (no w) ∧
  lout w !! no w = Some (Some (orig_output w)) ∧
  ndim (tensor (orig_input w)) = 4 ∧ ndim (tensor (orig_output w)) = 4 ∧
  first_output_name (current_outputs s) = Some (base w).

(** The transform tensor that stands for [t] in channel-last layout. *)
Definition channel_last (t : Tensor) (n : string) : Tensor :=
  {| tensor := {| nd_shape := permute_shape (shape t) nchw2nhwc_perm;
                  nd_dtype := tensor_dtype t; nd_data := None |};
     name := n; has_buffer := false; quantization := quantization t |}.

Definition perm_tensor (perm : list Z) (n : string) : Tensor :=
  {| tensor := np_array_int32 perm; name := n; has_buffer := true;
     quantization := None |}.

Definition new_input (s : State) (w : wrap_site) : Tensor :=
  channel_last (orig_input w)
    (base w +:+ generated_suffix "transform" (transform_count s)).

Definition new_output (s : State) (w : wrap_site) : Tensor :=
  channel_last (orig_output w)
    (base w +:+ generated_suffix "transform" (transform_count s + 1)).

Definition nhwc2nchw_perm_tensor (s : State) (w : wrap_site) : Tensor :=
  perm_tensor nhwc2nchw_perm
    (base w +:+ generated_suffix "attr" (attr_count s)).

Definition nchw2nhwc_perm_tensor (s : State) (w : wrap_site) : Tensor :=
  perm_tensor nchw2nhwc_perm
    (base w +:+ generated_suffix "attr" (attr_count s + 1)).

Definition pre_transpose (s : State) : BaseOperator :=
  {| op := TRANSPOSE; inputs := length (heap s);
     outputs := S (length (heap s)); options := NoOptions |}.

Definition post_transpose (s : State) : BaseOperator :=
  {| op := TRANSPOSE; inputs := S (S (length (heap s)));
     outputs := S (S (S (length (heap s)))); options := NoOptions |}.

(** The [inputs] list of the first operator after the wrapper, and the
    [outputs] list of the last one (they may be the same list). *)
Definition redirected_inputs (s : State) (w : wrap_site)
    : list (option Tensor) :=
  <[ni w := Some (new_input s w)]> (lin w).

Definition redirected_outputs (s : State) (w : wrap_site)
    : list (option Tensor) :=
  <[no w := Some (new_output s w)]>
    (if decide (inputs (first_op w) = outputs (last_op w))
     then redirected_inputs s w else lout w).

Definition wrap_heap (s : State) (w : wrap_site)
    : list (list (option Tensor)) :=
  <[outputs (last_op w) := redirected_outputs s w]>
    (<[inputs (first_op w) := redirected_inputs s w]>
       (heap s ++
        [[Some (orig_input w); Some (nchw2nhwc_perm_tensor s w)];
         [Some (new_input s w)];
         [Some (new_output s w); Some (nhwc2nchw_perm_tensor s w)];
         [Some (orig_output w)]])).

Definition wrap_state (s : State) (w : wrap_site) : State :=
  set_heap (wrap_heap s w)
    (set_transform_count (transform_count s + 2)
       (set_attr_count (attr_count s + 2) s)).

Definition wrap_chain (s : State) (ops : list BaseOperator)
    : list BaseOperator :=
  [pre_transpose s] ++ ops ++ [post_transpose s].
End wrap_outcome.

(** The part of [wrap_site_of] that is about the store. *)
Definition wrap_site_of_heap (s : State) (w : wrap_site) : Prop :=
  heap s !! inputs (first_op w) = Some (lin w) ∧
  heap s !! outputs (last_op w) = Some (lout w).

(** The convolution of [conv2d_example] before it is wrapped, and the site
    at which the wrapper acts on the chain made of it alone. *)
Definition example_conv_op : BaseOperator :=
  {| op := CONV_2D; inputs := 0; outputs := 1;
     options := Conv2dOptions 1 1 1 1 NONE VALID |}.

Definition example_site : wrap_site :=
  {| first_op := example_conv_op; last_op := example_conv_op;
     lin := [Some (value_tensor "x" [1; 3; 8; 8] float32 None);
             Some (constant_tensor "w" [4; 3; 3; 3] float32)];
     lout := [Some (value_tensor "y" [1; 4; 8; 8] float32 None)];
     ni := 0; no := 0;
     orig_input := value_tensor "x" [1; 3; 8; 8] float32 None;
     orig_output := value_tensor "y" [1; 4; 8; 8] float32 None;
     base := "y" |}.

(** ** The outcome of the steps of the convolution lowerings *)

Section conv_outcome.
Import TransformableOperator.

(** Line 202. *)
Definition selects_depthwise (weight_tensor : Tensor) (g : Z) : bool :=
  bool_decide (shape weight_tensor !! 1 = Some 1) &&
  bool_decide (Z.of_nat <$> shape weight_tensor !! 0 = Some g).

(** Line 210. *)
Definition channels_differ (input_tensor weight_tensor : Tensor) : bool :=
  bool_decide (shape input_tensor !! 1 ≠ shape weight_tensor !! 1).

Definition conv_primitive (depthwise : bool) (s : State)
    (strideH strideW dilationH dilationW : Z) : BaseOperator :=
  {| op := if depthwise then DEPTHWISE_CONV_2D else CONV_2D;
     inputs := self_inputs s; outputs := self_outputs s;
     options :=
       if depthwise
       then DepthwiseConv2dOptions strideH strideW 1 dilationH dilationW
              (fusedActivationFunction s) VALID
       else Conv2dOptions strideH strideW dilationH dilationW
              (fusedActivationFunction s) VALID |}.

Definition warned (input_tensor weight_tensor : Tensor) (s : State)
    : State :=
  if negb (selects_depthwise weight_tensor (groups s)) &&
     channels_differ input_tensor weight_tensor
  then set_warnings (warnings s ++ [GenericConvOperator.group_conv_warning]) s
  else s.

(** Lines 222-235: the pad amounts, the tensors and the state. *)
Definition pad_amounts (pad_h pad_w : Z) : list (Z * Z) :=
  [(0, 0); (pad_h, pad_h); (pad_w, pad_w); (0, 0)]%Z.

Definition padded_array (a : ndarray) (pad_h pad_w : Z) : ndarray :=
  {| nd_shape :=
       zip_with (λ d p, d + Z.to_nat p.1 + Z.to_nat p.2)
                (nd_shape a) (pad_amounts pad_h pad_w);
     nd_dtype := nd_dtype a; nd_data := None |}.

Definition pad_tensor (s : State) (b : string) (pad_h pad_w : Z) : Tensor :=
  {| tensor := np_array_pairs (pad_amounts pad_h pad_w);
     name := b +:+ generated_suffix "attr" (attr_count s);
     has_buffer := true; quantization := None |}.

Definition pad_out (s : State) (b : string) (pad_input : Tensor)
    (pad_h pad_w : Z) : Tensor :=
  {| tensor := padded_array (tensor pad_input) pad_h pad_w;
     name := b +:+ generated_suffix "transform" (transform_count s);
     has_buffer := false; quantization := quantization pad_input |}.

Definition pad_state (s : State) (b : string) (r : ref)
    (l : list (option Tensor)) (pad_input : Tensor) (pad_h pad_w : Z)
    : State :=
  set_heap
    (<[r := <[0 := Some (pad_out s b pad_input pad_h pad_w)]> l]> (heap s)
     ++ [[Some pad_input; Some (pad_tensor s b pad_h pad_w)];
         [Some (pad_out s b pad_input pad_h pad_w)]])
    (set_transform_count (transform_count s + 1)
       (set_attr_count (attr_count s + 1) s)).

Definition pad_operator (s : State) : BaseOperator :=
  {| op := PAD; inputs := length (heap s); outputs := S (length (heap s));
     options := NoOptions |}.

(** Lines 238-253 and 388-395. *)
Definition reordered_weight (s : State) (b : string) (weight : Tensor)
    (perm : list Z) : Tensor :=
  {| tensor := {| nd_shape := permute_shape (shape weight) perm;
                  nd_dtype := tensor_dtype weight; nd_data := None |};
     name := b +:+ generated_suffix "transform" (transform_count s);
     has_buffer := false; quantization := quantization weight |}.

Definition weight_perm_tensor (s : State) (b : string) (perm : list Z)
    : Tensor :=
  perm_tensor perm (b +:+ generated_suffix "attr" (attr_count s)).

Definition reorder_state (s : State) (b : string) (r : ref)
    (l : list (option Tensor)) (weight : Tensor) (perm : list Z) : State :=
  set_heap
    (<[r := <[1 := Some (reordered_weight s b weight perm)]> l]> (heap s)
     ++ [[Some weight; Some (weight_perm_tensor s b perm)];
         [Some (reordered_weight s b weight perm)]])
    (set_transform_count (transform_count s + 1)
       (set_attr_count (attr_count s + 1) s)).

Definition reorder_operator (s : State) : BaseOperator :=
  {| op := TRANSPOSE; inputs := length (heap s);
     outputs := S (length (heap s)); options := NoOptions |}.

Definition weight_perm (conv_op : BaseOperator) : list Z :=
  if bool_decide (op conv_op = DEPTHWISE_CONV_2D)
  then nchw2chwn_perm else nchw2nhwc_perm.

(** Lines 256-266. *)
Definition zero_bias (s : State) (b : string) (kernel_num : nat)
    (d : dtype) : Tensor :=
  {| tensor := if bool_decide (d = float32)
               then np_zeros kernel_num float32
               else np_zeros kernel_num int32;
     name := b +:+ generated_suffix "attr" (attr_count s);
     has_buffer := true; quantization := None |}.

Definition bias_state (s : State) (b : string) (r : ref)
    (l : list (option Tensor)) (kernel_num : nat) (d : dtype) : State :=
  set_heap (<[r := l ++ [Some (zero_bias s b kernel_num d)]]> (heap s))
           (set_attr_count (attr_count s + 1) s).

(** The state after [for op in ops: add_operator(op, transform=t)]. *)
Definition emit_all `{!GraphConverter Mapping} (t : bool)
    (ops : list BaseOperator) (s : State) : State :=
  foldl (λ s o, set_graph (emitted s ++ [(o, t)])
                          (add_operator_graph s o t) s) s ops.
End conv_outcome.

(** ** The outcome of the dimensionality normalization *)

(** [t'] is the transform tensor that stands for [t] with a unit axis
    inserted at position 2. *)
Definition lifted (t t' : Tensor) : Prop :=
  shape t' = take 2 (shape t) ++ 1 :: drop 2 (shape t) ∧
  tensor_dtype t' = tensor_dtype t ∧
  quantization t' = quantization t ∧
  has_buffer t' = false.

(** What lines 164-200 (323-354) do to a node whose [inputs] list is
    [ox :: ow :: rest]: nothing when neither rank is 3; otherwise [self] gets
    new [inputs] and [outputs] lists holding the lifted tensors, the
    parameter lists are extended when the weight has rank 3, and the
    reshape operators are returned. [both] says whether the weight is
    reshaped too. *)
Definition normalized (does both : bool) (s : State)
    (ox ow : option Tensor) (rest : list (option Tensor))
    (r : list BaseOperator * list BaseOperator) (s1 : State) : Prop :=
  if does then
    ∃ x x' y y' ow' lo_rest ext,
      ox = Some x ∧ lifted x x' ∧
      heap s !! self_outputs s = Some (Some y :: lo_rest) ∧ lifted y y' ∧
      (if both then ∃ w w', ow = Some w ∧ ow' = Some w' ∧ lifted w w'
       else ow' = ow) ∧
      heap s1 = heap s ++ ext ∧
      length (heap s) ≤ self_inputs s1 ∧ length (heap s) ≤ self_outputs s1 ∧
      self_inputs s1 ≠ self_outputs s1 ∧
      heap s1 !! self_inputs s1 = Some (Some x' :: ow' :: rest) ∧
      heap s1 !! self_outputs s1 = Some (Some y' :: lo_rest) ∧
      length r.1 = (if both then 2 else 1) ∧ length r.2 = 1 ∧
      Forall (λ o, op o = RESHAPE) (r.1 ++ r.2) ∧
      stride s1 = (if both then 1%Z :: stride s else stride s) ∧
      padding s1 = (if both then 0%Z :: padding s else padding s) ∧
      dilation s1 = (if both then 1%Z :: dilation s else dilation s) ∧
      output_padding s1 =
        (if both then 0%Z :: output_padding s else output_padding s) ∧
      attr_count s1 = attr_count s + (if both then 3 else 2) ∧
      transform_count s1 = transform_count s ∧
      groups s1 = groups s ∧
      fusedActivationFunction s1 = fusedActivationFunction s ∧
      warnings s1 = warnings s ∧ emitted s1 = emitted s ∧ graph s1 = graph s
  else s1 = s ∧ r = ([], []).

(** The transform tensor built by lines 175-177 (184-187) from [t]. *)
Definition expand_tensor (t : Tensor) (n : string) : Tensor :=
  {| tensor := {| nd_shape := take 2 (nd_shape (tensor t)) ++
                              1 :: drop 2 (nd_shape (tensor t));
                  nd_dtype := nd_dtype (tensor t); nd_data := None |};
     name := n; has_buffer := false; quantization := quantization t |}.

(** ** The node before the lowering *)

(** The input and the weight of a node: [self.inputs[0]] and
    [self.inputs[1]]. *)
Definition node_input (s : State) : option Tensor :=
  l ← heap s !! self_inputs s; o ← l !! 0; o.

Definition node_weight (s : State) : option Tensor :=
  l ← heap s !! self_inputs s; o ← l !! 1; o.

(** The number of operators the convolution lowering emits: convolution,
    two layout transposes, weight transpose; a pad when the padding amounts
    sum to more than zero; three reshapes when the weight has rank 3, two
    when only the input has. *)
Definition emitted_count (padding : list Z) (input_dim weight_dim : nat)
    : nat :=
  1 + 2 + 1 + (if bool_decide (0 < py_sum padding)%Z then 1 else 0)
  + (if bool_decide (weight_dim = 3) then 3
     else if bool_decide (input_dim = 3) then 2 else 0).

(** ** The outcome of the lowering of a convolution *)

Section conv_lowering_outcome.
Import TransformableOperator.

(** [t'] is [t] lifted to four axes when [b] holds, and [t] itself
    otherwise. *)
Definition lifted_if (b : bool) (t t' : Tensor) : Prop :=
  if b then lifted t t' else t' = t.

(** [s'] differs from [s] in the store and the counters of the factories
    only. *)
Definition same_node (s s' : State) : Prop :=
  self_inputs s' = self_inputs s ∧ self_outputs s' = self_outputs s ∧
  stride s' = stride s ∧ padding s' = padding s ∧
  dilation s' = dilation s ∧ output_padding s' = output_padding s ∧
  groups s' = groups s ∧
  fusedActivationFunction s' = fusedActivationFunction s ∧
  warnings s' = warnings s ∧ emitted s' = emitted s.

(** What a returning run of the lowering of a convolution has built. *)
Record conv_parts := {
  input_tensor : Tensor;      (* self.inputs[0] at the call *)
  weight_tensor : Tensor;     (* self.inputs[1] at the call *)
  rest_inputs : list (option Tensor); (* self.inputs[2:] at the call *)
  input_4d : Tensor;
  weight_4d : Tensor;
  conv_input : Tensor;        (* the first input of the primitive *)
  reordered : Tensor;         (* the output of the weight transpose *)
  perm_attr : Tensor;         (* its permutation *)
  bias_added : list (option Tensor);
  prev_ops : list BaseOperator;
  transpose_in : BaseOperator;
  reorder_op : BaseOperator;
  pad_ops : list BaseOperator;
  conv_op : BaseOperator;
  transpose_out : BaseOperator;
  next_ops : list BaseOperator
}.

Definition weight_rank3 (p : conv_parts) : bool :=
  bool_decide (ndim (tensor (weight_tensor p)) = 3).

Definition some_rank3 (p : conv_parts) : bool :=
  weight_rank3 p || bool_decide (ndim (tensor (input_tensor p)) = 3).

Definition conv_lowered (s : State) (ops : list BaseOperator) (s' : State)
    (p : conv_parts) : Prop :=
  let depthwise := selects_depthwise (weight_4d p) (groups s) in
  let perm := if depthwise then nchw2chwn_perm else nchw2nhwc_perm in
  heap s !! self_inputs s
    = Some (Some (input_tensor p) :: Some (weight_tensor p) :: rest_inputs p) ∧
  lifted_if (some_rank3 p) (input_tensor p) (input_4d p) ∧
  lifted_if (weight_rank3 p) (weight_tensor p) (weight_4d p) ∧
  ndim (tensor (weight_4d p)) = 4 ∧
  (* the chain *)
  ops = prev_ops p ++ [transpose_in p; reorder_op p] ++ pad_ops p
        ++ [conv_op p; transpose_out p] ++ next_ops p ∧
  length (prev_ops p) + length (next_ops p)
    = (if some_rank3 p then if weight_rank3 p then 3 else 2 else 0) ∧
  Forall (λ o, op o = RESHAPE) (prev_ops p ++ next_ops p) ∧
  op (transpose_in p) = TRANSPOSE ∧ op (reorder_op p) = TRANSPOSE ∧
  op (transpose_out p) = TRANSPOSE ∧
  Forall (λ o, op o = PAD) (pad_ops p) ∧
  length (pad_ops p)
    = (if bool_decide (0 < py_sum (padding s))%Z then 1 else 0) ∧
  (∃ sh sw dh dw,
     conv_op p = conv_primitive depthwise s' sh sw dh dw) ∧
  (* the node *)
  stride s' = (if weight_rank3 p then 1%Z :: stride s else stride s) ∧
  padding s' = (if weight_rank3 p then 0%Z :: padding s else padding s) ∧
  dilation s' = (if weight_rank3 p then 1%Z :: dilation s else dilation s) ∧
  output_padding s' =
    (if weight_rank3 p then 0%Z :: output_padding s else output_padding s) ∧
  (if some_rank3 p
   then length (heap s) ≤ self_inputs s' ∧ length (heap s) ≤ self_outputs s'
   else self_inputs s' = self_inputs s ∧ self_outputs s' = self_outputs s) ∧
  warnings s' =
    warnings s ++
    (if negb depthwise && channels_differ (input_tensor p) (weight_4d p)
     then [GenericConvOperator.group_conv_warning] else []) ∧
  emitted s' = emitted s ++ ((λ o, (o, true)) <$> ops) ∧
  (* the store *)
  heap s' !! inputs (reorder_op p)
    = Some [Some (weight_4d p); Some (perm_attr p)] ∧
  tensor (perm_attr p) = np_array_int32 perm ∧
  heap s' !! outputs (reorder_op p) = Some [Some (reordered p)] ∧
  shape (reordered p) = permute_shape (shape (weight_4d p)) perm ∧
  heap s' !! self_inputs s'
    = Some (Some (conv_input p) :: Some (reordered p)
            :: rest_inputs p ++ bias_added p) ∧
  (self_inputs s ≠ self_outputs s →
   tensor_dtype (conv_input p) = tensor_dtype (input_tensor p)) ∧
  (rest_inputs p = [] ∨ rest_inputs p !! 0 = Some None →
   ∃ zb k, bias_added p = [Some zb] ∧ shape (weight_4d p) !! 0 = Some k ∧
           has_buffer zb = true ∧
           tensor zb =
             if bool_decide (tensor_dtype (conv_input p) = float32)
             then np_zeros k float32 else np_zeros k int32) ∧
  (∀ bias, rest_inputs p !! 0 = Some (Some bias) →
           bias_added p = [] ∧
           ∃ k b0, shape (weight_4d p) !! 0 = Some k ∧
                   shape bias !! 0 = Some b0 ∧ ¬ (b0 ≠ k ∧ b0 = 1)).
End conv_lowering_outcome.

(** The value of a run that returned. *)
Definition returned {A} (d : A) (r : result A) : A :=
  match r with Ok a => a | Raise _ => d end.

(** ** The post-condition check *)

Section post_condition_outcome.
Import GenericConvOperator.

(** [op.outputs[0]] *)
Definition first_output (s : State) (o : BaseOperator) : option Tensor :=
  l ← heap s !! outputs o; t ← l !! 0; t.

(** The node of the graph that stands for the first output of [o]. *)
Definition output_node (s : State) (o : BaseOperator) : option Vertex :=
  out ← first_output s o;
  node_name ← tensor_node_map (graph s) !! name out;
  match find_vertex (graph s) node_name with
  | Ok v => Some v
  | Raise _ => None
  end.

(** [graph.vs[node.out_edges()[0].target]] *)
Definition first_successor (s : State) (node : Vertex) : option Vertex :=
  target ← out_edges node !! 0; vs (graph s) !! target.

(** What lines 282-289 assert of an operator. *)
Definition checked (s : State) (o : BaseOperator) : Prop :=
  ∃ node next,
    output_node s o = Some node ∧ 0 < length (out_edges node) ∧
    first_successor s node = Some next ∧ node_type next ≠ CONSTANT_NODE.

(** The node of [o] is there, and one of the two assertions fails. *)
Definition violates (s : State) (o : BaseOperator) : Prop :=
  ∃ node,
    output_node s o = Some node ∧
    (length (out_edges node) = 0 ∨
     ∃ next, first_successor s node = Some next ∧
             node_type next = CONSTANT_NODE).
End post_condition_outcome.

(** ** Independence of the graph *)

(** The state with the graph forgotten. *)
Definition without_graph (s : State) : State :=
  set_graph (emitted s) empty_graph s.

(** Two computations that, run from states that differ in the graph only,
    give the same result and states that differ in the graph only. *)
Definition graph_blind {A} (m1 m2 : M A) : Prop :=
  ∀ s1 s2, without_graph s1 = without_graph s2 →
    (m1 s1).1 = (m2 s2).1 ∧ without_graph (m1 s1).2 = without_graph (m2 s2).2.

(** ** The node after a lowering with a weight of rank 3 *)




(** ** The outcome of the lowering of a BatchNorm *)

(** What the lowering of a BatchNorm over the input [inp] leaves in [s']:
    the operators emitted after those of [s], resolved in the store of
    [s']. *)
Definition batch_norm_lowered (s s' : State) (inp : Tensor) : Prop :=
  match quantization inp with
  | Some _ =>
      ∃ deq mul add quant new_inp weight mul_out bias add_out out,
        emitted s' = emitted s ++ [(deq, false); (mul, false); (add, true);
                                   (quant, true)] ∧
        resolve s' deq = (DEQUANTIZE, [Some inp], [Some new_inp]) ∧
        resolve s' mul = (MUL, [Some inp; Some weight], [Some mul_out]) ∧
        resolve s' add = (ADD, [Some mul_out; Some bias], [Some add_out]) ∧
        resolve s' quant = (QUANTIZE, [Some add_out], [out]) ∧
        (heap s !! self_outputs s ≫= λ l, l !! 0) = Some out ∧
        quantization new_inp = None ∧ new_inp ≠ inp
  | None =>
      ∃ mul add weight mul_out bias out,
        emitted s' = emitted s ++ [(mul, false); (add, true)] ∧
        resolve s' mul = (MUL, [Some inp; Some weight], [Some mul_out]) ∧
        resolve s' add = (ADD, [Some mul_out; Some bias], [out]) ∧
        (heap s !! self_outputs s ≫= λ l, l !! 0) = Some out
  end.

(** ** What a lowering leaves alone *)

(** [m] leaves the observation [f] of the state as it is, however it
    ends. *)
Definition keeps {A X} (f : State → X) (m : M A) : Prop :=
  ∀ s, f (m s).2 = f s.

(** What the graph converter has been given. *)
Definition handed_over (s : State) : list (BaseOperator * bool) * Graph :=
  (emitted s, graph s).

(** When [m] raises, the graph converter has been given nothing. *)
Definition hands_over_last {A} (m : M A) : Prop :=
  ∀ s e s', m s = (Raise e, s') → handed_over s' = handed_over s.

(** [m] only ever adds lists to the store. *)
Definition store_grows {A} (m : M A) : Prop :=
  ∀ s, ∃ ext, heap (m s).2 = heap s ++ ext.

(** The fields of a node besides the store, the counters of the factories
    and what was handed over. *)
Definition node_itself (s : State) :=
  (self_inputs s, self_outputs s, stride s, padding s, dilation s,
   output_padding s, groups s, eps s, fusedActivationFunction s, warnings s).

(** ** What a lowering raises *)

(** Every exception [m] raises satisfies [P]. *)
Definition raises_only {A} (P : exn → Prop) (m : M A) : Prop :=
  ∀ s e s', m s = (Raise e, s') → P e.

Definition no_assertion (e : exn) : Prop := ∀ msg, e ≠ AssertionError msg.

(** The message of lines 200 and 354. *)
Definition rank_message : string := "Only Conv[Transpose]1d/2d is supported".

(** A node whose weight has a rank that no lowering supports, and whose
    input has rank 4. *)
Definition rank5_weight_example : State :=
  fresh_node [Some (value_tensor "x" [1; 3; 8; 8] float32 None);
              Some (constant_tensor "w" [4; 3; 3; 3; 3] float32)]
             [Some (value_tensor "y" [1; 4; 6; 6] float32 None)]
             [1; 1]%Z [0; 0]%Z [1; 1]%Z [0; 0]%Z 1%Z.

(** The same weight with an input of rank 3: the convolution lowering gets
    past line 199 and fails when it reorders the weight. *)
Definition rank5_weight_rank3_input_example : State :=
  fresh_node [Some (value_tensor "x" [1; 3; 8] float32 None);
              Some (constant_tensor "w" [4; 3; 3; 3; 3] float32)]
             [Some (value_tensor "y" [1; 4; 6] float32 None)]
             [1; 1]%Z [0; 0]%Z [1; 1]%Z [0; 0]%Z 1%Z.

(** A transposed convolution with a weight of rank 4 and an input of
    rank 3: the layout wrapper fails on the input. *)
Definition deconv_rank3_input_example : State :=
  fresh_node [Some (value_tensor "x" [1; 3; 8] float32 None);
              Some (constant_tensor "w" [3; 4; 3; 3] float32)]
             [Some (value_tensor "y" [1; 4; 10; 10] float32 None)]
             [1; 1]%Z [0; 0]%Z [1; 1]%Z [0; 0]%Z 1%Z.

(** ** The first output of a node *)

(** [self.outputs[0]], when it is a tensor. *)
Definition node_output (s : State) : option Tensor :=
  l ← heap s !! self_outputs s; o ← l !! 0; o.

(** ** The constants of a BatchNorm *)

(** A tensor with a buffer. *)
Definition buffered (o : option Tensor) : Prop :=
  ∃ t, o = Some t ∧ has_buffer t = true.

(** The first tensor of [l] that has no buffer, with only buffered tensors
    before it. *)
Definition first_without_buffer (l : list (option Tensor)) : Prop :=
  ∃ pre t post,
    l = pre ++ Some t :: post ∧ Forall buffered pre ∧ has_buffer t = false.

(** The folded scale and shift of a BatchNorm over [inp], as the emitted
    multiply and add hold them in [s']: two constants of shape
    (1, C, 1, ..., 1) with as many axes as the input, where C is the first
    axis of the broadcast of weight and running variance. *)
Definition batch_norm_folded (s s' : State) (inp : Tensor) : Prop :=
  ∃ mul add weight bias mul_out add_out l w var c rest_shape,
    (mul, false) ∈ emitted s' ∧ (add, true) ∈ emitted s' ∧
    resolve s' mul = (MUL, [Some inp; Some weight], [Some mul_out]) ∧
    resolve s' add = (ADD, [Some mul_out; Some bias], [add_out]) ∧
    options add = AddOptions (fusedActivationFunction s) ∧
    has_buffer weight = true ∧ has_buffer bias = true ∧
    heap s !! self_inputs s = Some l ∧
    l !! 1 = Some (Some w) ∧ l !! 4 = Some (Some var) ∧
    broadcast_shapes (shape w) (shape var) = Some (c :: rest_shape) ∧
    shape weight = 1 :: c :: replicate (ndim (tensor inp) - 2) 1 ∧
    shape bias = 1 :: c :: replicate (ndim (tensor inp) - 2) 1 ∧
    broadcast_shapes (shape inp) (shape weight) = Some (shape mul_out).

(** ** The steps of the lowering of a transposed convolution *)

Section transpose_conv_steps.
Import TransformableOperator.

(** Lines 367-381: the tensors, the state and the operator of the slice. *)
Definition slice_start_tensor (s : State) (b : string) (pad_h pad_w : Z)
    : Tensor :=
  {| tensor := np_array_int32 [0; pad_h; pad_w; 0]%Z;
     name := b +:+ generated_suffix "attr" (attr_count s);
     has_buffer := true; quantization := None |}.

Definition slice_size_tensor (s : State) (b : string) (o : Tensor) : Tensor :=
  {| tensor := np_array_of_shape (shape o);
     name := b +:+ generated_suffix "attr" (attr_count s + 1);
     has_buffer := true; quantization := None |}.

Definition slice_state (s : State) (b : string) (r : ref)
    (l : list (option Tensor)) (o self_out : Tensor) (pad_h pad_w : Z)
    : State :=
  set_heap
    (<[r := <[0 := Some (pad_out s b self_out pad_h pad_w)]> l]> (heap s)
     ++ [[Some (pad_out s b self_out pad_h pad_w);
          Some (slice_start_tensor s b pad_h pad_w);
          Some (slice_size_tensor s b o)];
         [Some o]])
    (set_transform_count (transform_count s + 1)
       (set_attr_count (attr_count s + 2) s)).

Definition slice_operator (s : State) : BaseOperator :=
  {| op := SLICE; inputs := length (heap s); outputs := S (length (heap s));
     options := NoOptions |}.

(** Lines 399-403: the tensor, the state and the operator of the add. *)
Definition bias_transform (s : State) (b : string) (add_out : Tensor)
    : Tensor :=
  {| tensor := tensor add_out;
     name := b +:+ generated_suffix "transform" (transform_count s);
     has_buffer := false; quantization := None |}.

Definition add_state (s : State) (b : string) (r : ref)
    (l : list (option Tensor)) (add_out bias : Tensor) : State :=
  set_heap
    (<[r := <[0 := Some (bias_transform s b add_out)]> l]> (heap s)
     ++ [[Some (bias_transform s b add_out); Some bias]; [Some add_out]])
    (set_transform_count (transform_count s + 1) s).

Definition add_operator_of (s : State) : BaseOperator :=
  {| op := ADD; inputs := length (heap s); outputs := S (length (heap s));
     options := NoOptions |}.
End transpose_conv_steps.

Section transpose_conv_outcome.
Import TransformableOperator.

(** ** The outcome of the lowering of a transposed convolution *)

(** [op.inputs[0]] *)
Definition first_input (s : State) (o : BaseOperator) : option Tensor :=
  l ← heap s !! inputs o; t ← l !! 0; t.

(** Each operator of [ops] reads, as its first input, the first output of
    the operator before it. *)
Definition linked (s : State) (ops : list BaseOperator) : Prop :=
  ∀ i a b, ops !! i = Some a → ops !! S i = Some b →
    ∃ t, first_output s a = Some t ∧ first_input s b = Some t.

(** A node whose [inputs] and [outputs] are two lists. *)
Definition two_lists (s : State) : Prop :=
  self_inputs s ≠ self_outputs s ∧ self_outputs s < length (heap s).

(** What a returning run of the lowering of a transposed convolution has
    built. *)
Record deconv_parts := {
  d_input : option Tensor;            (* self.inputs[0] at the call *)
  d_weight : Tensor;                  (* self.inputs[1] at the call *)
  d_rest : list (option Tensor);      (* self.inputs[2:] at the call *)
  d_input_4d : Tensor;
  d_weight_4d : Tensor;
  d_output_4d : Tensor;
  d_input_nhwc : Tensor;              (* the output of the leading transpose *)
  d_output_nhwc : Tensor;             (* the input of the trailing transpose *)
  d_output_shape : Tensor;            (* the first input of the primitive *)
  d_reordered : Tensor;               (* the output of the weight transpose *)
  d_perm : Tensor;                    (* its permutation *)
  d_conv_out : Tensor;                (* the first output of the primitive *)
  d_prev : list BaseOperator;
  d_transpose_in : BaseOperator;
  d_reorder : BaseOperator;
  d_conv : BaseOperator;
  d_slices : list BaseOperator;
  d_adds : list BaseOperator;
  d_transpose_out : BaseOperator;
  d_next : list BaseOperator
}.

Definition deconv_rank3 (p : deconv_parts) : bool :=
  bool_decide (ndim (tensor (d_weight p)) = 3).

(** The emitted chain, and its part from the primitive to the trailing
    transpose. *)
Definition deconv_flow (p : deconv_parts) : list BaseOperator :=
  [d_conv p] ++ d_slices p ++ d_adds p ++ [d_transpose_out p].

Definition deconv_chain (p : deconv_parts) : list BaseOperator :=
  d_prev p ++ [d_transpose_in p; d_reorder p] ++ deconv_flow p ++ d_next p.

Definition has_bias (rest : list (option Tensor)) : bool :=
  match rest !! 0 with Some (Some _) => true | _ => false end.

Definition deconv_lowered (s s' : State) (p : deconv_parts) : Prop :=
  (* the node at the call *)
  heap s !! self_inputs s
    = Some (d_input p :: Some (d_weight p) :: d_rest p) ∧
  (ndim (tensor (d_weight p)) = 3 ∨ ndim (tensor (d_weight p)) = 4) ∧
  lifted_if (deconv_rank3 p) (d_weight p) (d_weight_4d p) ∧
  (∃ x, d_input p = Some x ∧ lifted_if (deconv_rank3 p) x (d_input_4d p)) ∧
  (∃ y, node_output s = Some y ∧ lifted_if (deconv_rank3 p) y (d_output_4d p)) ∧
  ndim (tensor (d_input_4d p)) = 4 ∧ ndim (tensor (d_weight_4d p)) = 4 ∧
  ndim (tensor (d_output_4d p)) = 4 ∧
  (* the chain *)
  emitted s' = emitted s ++ ((λ o, (o, false)) <$> deconv_chain p) ∧
  length (d_prev p) = (if deconv_rank3 p then 2 else 0) ∧
  length (d_next p) = (if deconv_rank3 p then 1 else 0) ∧
  Forall (λ o, op o = RESHAPE) (d_prev p ++ d_next p) ∧
  op (d_transpose_in p) = TRANSPOSE ∧ op (d_reorder p) = TRANSPOSE ∧
  op (d_conv p) = TRANSPOSE_CONV ∧ op (d_transpose_out p) = TRANSPOSE ∧
  Forall (λ o, op o = SLICE) (d_slices p) ∧
  length (d_slices p)
    = (if bool_decide (0 < py_sum (padding s))%Z then 1 else 0) ∧
  Forall (λ o, op o = ADD) (d_adds p) ∧
  length (d_adds p) = (if has_bias (d_rest p) then 1 else 0) ∧
  (* the node after the call *)
  stride s' = (if deconv_rank3 p then 1%Z :: stride s else stride s) ∧
  padding s' = (if deconv_rank3 p then 0%Z :: padding s else padding s) ∧
  (∃ sh sw, stride s' !! 0 = Some sh ∧ stride s' !! 1 = Some sw ∧
            options (d_conv p) = TransposeConvOptions sh sw VALID) ∧
  outputs (d_conv p) = self_outputs s' ∧
  heap s' !! self_inputs s'
    = Some (Some (d_input_4d p) :: Some (d_weight_4d p) :: d_rest p) ∧
  (* the store *)
  (∃ perm_in,
     heap s' !! inputs (d_transpose_in p)
       = Some [Some (d_input_4d p); Some perm_in] ∧
     tensor perm_in = np_array_int32 nchw2nhwc_perm) ∧
  heap s' !! outputs (d_transpose_in p) = Some [Some (d_input_nhwc p)] ∧
  shape (d_input_nhwc p) = permute_shape (shape (d_input_4d p)) nchw2nhwc_perm ∧
  heap s' !! inputs (d_reorder p)
    = Some [Some (d_weight_4d p); Some (d_perm p)] ∧
  tensor (d_perm p) = np_array_int32 nchw2chwn_perm ∧
  heap s' !! outputs (d_reorder p) = Some [Some (d_reordered p)] ∧
  shape (d_reordered p)
    = permute_shape (shape (d_weight_4d p)) nchw2chwn_perm ∧
  heap s' !! inputs (d_conv p)
    = Some [Some (d_output_shape p); Some (d_reordered p);
            Some (d_input_nhwc p)] ∧
  has_buffer (d_output_shape p) = true ∧
  tensor (d_output_shape p) = np_array_of_shape (shape (d_conv_out p)) ∧
  first_output s' (d_conv p) = Some (d_conv_out p) ∧
  (∃ perm_out,
     heap s' !! inputs (d_transpose_out p)
       = Some [Some (d_output_nhwc p); Some perm_out] ∧
     tensor perm_out = np_array_int32 nhwc2nchw_perm) ∧
  heap s' !! outputs (d_transpose_out p) = Some [Some (d_output_4d p)] ∧
  shape (d_output_nhwc p)
    = permute_shape (shape (d_output_4d p)) nchw2nhwc_perm ∧
  (d_slices p = [] → shape (d_conv_out p) = shape (d_output_nhwc p)) ∧
  (∀ sl, d_slices p = [sl] →
     ∃ start size slice_out ph pw,
       padding s' !! 0 = Some ph ∧ padding s' !! 1 = Some pw ∧
       heap s' !! inputs sl
         = Some [Some (d_conv_out p); Some start; Some size] ∧
       heap s' !! outputs sl = Some [Some slice_out] ∧
       tensor start = np_array_int32 [0; ph; pw; 0]%Z ∧
       tensor size = np_array_of_shape (shape slice_out) ∧
       shape slice_out = shape (d_output_nhwc p) ∧
       shape (d_conv_out p)
         = nd_shape (padded_array (tensor (d_output_nhwc p)) ph pw)) ∧
  (∀ ad, d_adds p = [ad] →
     ∃ bias add_in,
       d_rest p !! 0 = Some (Some bias) ∧
       heap s' !! inputs ad = Some [Some add_in; Some bias] ∧
       heap s' !! outputs ad = Some [Some (d_output_nhwc p)] ∧
       tensor add_in = tensor (d_output_nhwc p)) ∧
  linked s' (deconv_flow p) ∧
  (* the lists that were there *)
  (∀ k l, heap s !! k = Some l →
          deconv_rank3 p = true ∨ k ≠ self_outputs s →
          heap s' !! k = Some l).
End transpose_conv_outcome.

(** The kinds of the operators the lowering of a transposed convolution
    emits, in order. *)
Definition deconv_kinds (rank3 padded bias : bool) : list BuiltinOperator :=
  (if rank3 then [RESHAPE; RESHAPE] else []) ++
  [TRANSPOSE; TRANSPOSE; TRANSPOSE_CONV] ++
  (if padded then [SLICE] else []) ++ (if bias then [ADD] else []) ++
  [TRANSPOSE] ++ (if rank3 then [RESHAPE] else []).

(** A 2-d transposed convolution with padding and a bias: input (1,3,8,8),
    weight (3,4,3,3), bias (4), stride (2,2), padding (1,1). *)
Definition deconv2d_bias_example : State :=
  fresh_node [Some (value_tensor "x" [1; 3; 8; 8] float32 None);
              Some (constant_tensor "w" [3; 4; 3; 3] float32);
              Some (constant_tensor "b" [4] float32)]
             [Some (value_tensor "y" [1; 4; 15; 15] float32 None)]
             [2; 2]%Z [1; 1]%Z [1; 1]%Z [0; 0]%Z 1%Z.

Section conv_flow_outcome.
Import TransformableOperator.

(** ** The flow of data through the lowered convolution *)

(** What a returning run of the lowering of a convolution has wired, from
    the leading transpose to the trailing one: the chain [ops], the input
    and the output of the node in four axes and in channel-last layout, and
    the first input of the primitive. *)
Definition conv_flowed (s : State) (ops : list BaseOperator) (s' : State)
    : Prop :=
  ∃ before transpose_in reorder pads conv transpose_out after
    x w y input_4d output_4d input_nhwc output_nhwc conv_in perm_in perm_out,
    let lifts := bool_decide (ndim (tensor w) = 3)
                 || bool_decide (ndim (tensor x) = 3) in
    node_input s = Some x ∧ node_weight s = Some w ∧ node_output s = Some y ∧
    lifted_if lifts x input_4d ∧ lifted_if lifts y output_4d ∧
    (* the chain *)
    ops = before ++ [transpose_in; reorder] ++ pads
          ++ [conv; transpose_out] ++ after ∧
    Forall (λ o, op o = PAD) pads ∧
    length pads = (if bool_decide (0 < py_sum (padding s))%Z then 1 else 0) ∧
    inputs conv = self_inputs s' ∧ outputs conv = self_outputs s' ∧
    (* the two layout transposes *)
    resolve s' transpose_in
      = (TRANSPOSE, [Some input_4d; Some perm_in], [Some input_nhwc]) ∧
    tensor perm_in = np_array_int32 [0; 2; 3; 1]%Z ∧
    shape input_nhwc = permute_shape (shape input_4d) [0; 2; 3; 1]%Z ∧
    resolve s' transpose_out
      = (TRANSPOSE, [Some output_nhwc; Some perm_out], [Some output_4d]) ∧
    tensor perm_out = np_array_int32 [0; 3; 1; 2]%Z ∧
    shape output_nhwc = permute_shape (shape output_4d) [0; 2; 3; 1]%Z ∧
    (* the primitive and the pad *)
    first_input s' conv = Some conv_in ∧
    first_output s' conv = Some output_nhwc ∧
    (pads = [] → conv_in = input_nhwc) ∧
    (∀ pad, pads = [pad] →
       ∃ paddings pad_h pad_w,
         padding s' !! 0 = Some pad_h ∧ padding s' !! 1 = Some pad_w ∧
         (0 ≤ pad_h)%Z ∧ (0 ≤ pad_w)%Z ∧
         resolve s' pad
           = (PAD, [Some input_nhwc; Some paddings], [Some conv_in]) ∧
         has_buffer paddings = true ∧
         tensor paddings
           = np_array_pairs [(0, 0); (pad_h, pad_h); (pad_w, pad_w); (0, 0)]%Z ∧
         shape conv_in
           = nd_shape (padded_array (tensor input_nhwc) pad_h pad_w) ∧
         quantization conv_in = quantization input_nhwc) ∧
    linked s' ([transpose_in] ++ pads ++ [conv; transpose_out]) ∧
    (* the lists that were there *)
    (∀ k l, heap s !! k = Some l →
            lifts = true ∨ (k ≠ self_inputs s ∧ k ≠ self_outputs s) →
            heap s' !! k = Some l).
End conv_flow_outcome.

Section reshapes_outcome.
Import TransformableOperator.

(** ** The reshapes around a 1-d convolution *)

(** In the store of [s], [o] is the reshape of lines 179-180 (334-335): it
    reads [t] and a constant that holds the shape of its output [t'], which
    is named after the first output [base] of the node and after [t]. *)
Definition reshape_in_at (s : State) (base : string) (o : BaseOperator)
    (t t' : Tensor) : Prop :=
  ∃ attr,
    op o = RESHAPE ∧
    heap s !! inputs o = Some [Some t; Some attr] ∧
    heap s !! outputs o = Some [Some t'] ∧
    options o = ReshapeOptions (tensor attr) ∧
    has_buffer attr = true ∧
    tensor attr = np_array_of_shape (shape t') ∧
    name t' = base +:+ "_" +:+ name t +:+ "_4d_input".

(** In the store of [s], [o] is the reshape of lines 190-191 (344-345): it
    reads the output in four axes [y'] and a constant that holds the shape
    of the output [y] of the node, which it writes. *)
Definition reshape_out_at (s : State) (o : BaseOperator) (y' y : Tensor)
    : Prop :=
  ∃ attr,
    op o = RESHAPE ∧
    heap s !! inputs o = Some [Some y'; Some attr] ∧
    heap s !! outputs o = Some [Some y] ∧
    options o = ReshapeOptions (tensor attr) ∧
    has_buffer attr = true ∧
    tensor attr = np_array_of_shape (shape y) ∧
    name y' = name y +:+ "_4d_output".

(** The lists of an operator are neither of the two lists of the node. *)
Definition own_lists (s : State) (o : BaseOperator) : Prop :=
  inputs o ≠ self_inputs s ∧ inputs o ≠ self_outputs s ∧
  outputs o ≠ self_inputs s ∧ outputs o ≠ self_outputs s.

(** What lines 174-196 (329-350) return and leave: the reshapes [r.1] of
    the first inputs of the node, the reshape [r.2] of its output, and the
    new lists of the node. *)
Definition reshaped (s : State)
    (r : list BaseOperator * list BaseOperator) (s1 : State) : Prop :=
  ∃ l l1 y y' rest_out back,
    heap s !! self_inputs s = Some l ∧
    heap s1 !! self_inputs s1 = Some l1 ∧
    heap s !! self_outputs s = Some (Some y :: rest_out) ∧
    heap s1 !! self_outputs s1 = Some (Some y' :: rest_out) ∧
    (∀ i o, r.1 !! i = Some o →
       ∃ t t', l !! i = Some (Some t) ∧ l1 !! i = Some (Some t') ∧
               reshape_in_at s1 (name y) o t t') ∧
    r.2 = [back] ∧ reshape_out_at s1 back y' y ∧
    Forall (own_lists s1) (r.1 ++ r.2).

(** The reshapes of a lowered 1-d convolution in the emitted chain [ops];
    [both] says whether the weight is reshaped too. The chain starts with
    the reshapes of the input and of the weight, whose outputs the leading
    transpose and the weight transpose read, and it ends with the reshape
    that reads the output of the trailing transpose and writes the output
    of the node. *)
Definition reshapes_around (both : bool) (s : State)
    (ops : list BaseOperator) (s' : State) : Prop :=
  ∃ x y input_4d output_4d reshape_in front transpose_in middle
    transpose_out reshape_out,
    node_input s = Some x ∧ node_output s = Some y ∧
    ops = front ++ [transpose_in] ++ middle ++ [transpose_out; reshape_out] ∧
    Forall (λ o, op o ≠ RESHAPE)
           ([transpose_in] ++ middle ++ [transpose_out]) ∧
    (* the input *)
    front !! 0 = Some reshape_in ∧
    reshape_in_at s' (name y) reshape_in x input_4d ∧ lifted x input_4d ∧
    first_input s' transpose_in = Some input_4d ∧
    (* the weight *)
    (if both
     then ∃ w weight_4d reshape_weight reorder,
            node_weight s = Some w ∧ front = [reshape_in; reshape_weight] ∧
            reshape_in_at s' (name y) reshape_weight w weight_4d ∧
            lifted w weight_4d ∧
            middle !! 0 = Some reorder ∧
            first_input s' reorder = Some weight_4d
     else front = [reshape_in]) ∧
    (* the output *)
    first_output s' transpose_out = Some output_4d ∧
    reshape_out_at s' reshape_out output_4d y ∧ lifted y output_4d.

(** The reshapes a lowered transposed convolution of rank 3 has emitted. *)
Definition deconv_reshaped (s s' : State) (p : deconv_parts) : Prop :=
  deconv_rank3 p = true →
  ∃ x y reshape_in reshape_weight reshape_out,
    d_input p = Some x ∧ node_output s = Some y ∧
    d_prev p = [reshape_in; reshape_weight] ∧ d_next p = [reshape_out] ∧
    reshape_in_at s' (name y) reshape_in x (d_input_4d p) ∧
    reshape_in_at s' (name y) reshape_weight (d_weight p) (d_weight_4d p) ∧
    reshape_out_at s' reshape_out (d_output_4d p) y.

(** The reshapes a lowered convolution has returned, when the weight or the
    input has rank 3. *)
Definition conv_reshaped (s : State) (ops : list BaseOperator) (s' : State)
    : Prop :=
  ∀ x w, node_input s = Some x → node_weight s = Some w →
    ndim (tensor w) = 3 ∨ ndim (tensor x) = 3 →
    reshapes_around (bool_decide (ndim (tensor w) = 3)) s ops s'.
End reshapes_outcome.
(** * Reasoning about runs of the lowering *)



Section wp_rules.
Context {A B : Type} (E : exn → State → Prop).
Implicit Types (s : State) (Q : A → State → Prop).

Lemma wp_ret (a : A) Q s : Q a s → wp E (ret a) Q s.
Proof. done. Qed.

Lemma wp_bind (m : M B) (k : B → M A) Q s :
  wp E m (λ b s', wp E (k b) Q s') s → wp E (bind m k) Q s.
Proof. unfold wp, bind. by destruct (m s) as [[b|e] s']. Qed.

Lemma wp_bind_inv (m : M B) (k : B → M A) Q s :
  wp E (bind m k) Q s → wp E m (λ b s', wp E (k b) Q s') s.
Proof. unfold wp, bind. by destruct (m s) as [[b|e] s']. Qed.

Lemma wp_raise e Q s : E e s → wp E (raise e) Q s.
Proof. done. Qed.

Lemma wp_lift (r : result A) Q s :
  match r with Ok a => Q a s | Raise e => E e s end → wp E (lift r) Q s.
Proof. done. Qed.

Lemma wp_gets (f : State → A) Q s : Q (f s) s → wp E (gets f) Q s.
Proof. done. Qed.

Lemma wp_mono (m : M A) Q Q' s :
  (∀ a s', Q a s' → Q' a s') → wp E m Q s → wp E m Q' s.
Proof. unfold wp. destruct (m s) as [[a|e] s']; auto. Qed.

Lemma wp_and (m : M A) Q Q' s :
  wp E m Q s → wp any_exn m Q' s → wp E m (λ a s', Q a s' ∧ Q' a s') s.
Proof. unfold wp. by destruct (m s) as [[a|e] s']. Qed.

Lemma wp_run (m : M A) Q s a s' :
  wp E m Q s → m s = (Ok a, s') → Q a s'.
Proof. unfold wp. intros H Heq. by rewrite Heq in H. Qed.

Lemma wp_total_run (m : M A) Q s :
  wp no_exn m Q s → ∃ a s', m s = (Ok a, s') ∧ Q a s'.
Proof. unfold wp. destruct (m s) as [[a|e] s']; [eauto | done]. Qed.
End wp_rules.

Lemma wp_weaken {A} E (m : M A) Q s : wp no_exn m Q s → wp E m Q s.
Proof. unfold wp. by destruct (m s) as [[a|e] s']. Qed.

Lemma wp_lift_ok {A} E (r : result A) a (Q : A → State → Prop) s :
  r = Ok a → Q a s → wp E (lift r) Q s.
Proof. by intros ->. Qed.

Lemma wp_modify E (f : State → State) (Q : unit → State → Prop) s :
  Q () (f s) → wp E (modify f) Q s.
Proof. done. Qed.

Lemma wp_new_list E l (Q : ref → State → Prop) s :
  Q (length (heap s)) (set_heap (heap s ++ [l]) s) → wp E (new_list l) Q s.
Proof. done. Qed.

Lemma wp_read_list E r (Q : list (option Tensor) → State → Prop) s :
  match heap s !! r with
  | Some l => Q l s
  | None => E DanglingReference s
  end → wp E (read_list r) Q s.
Proof. unfold wp, read_list. by destruct (heap s !! r). Qed.

Lemma wp_write_list E r l (Q : unit → State → Prop) s :
  (if bool_decide (r < length (heap s))
   then Q () (set_heap (<[r:=l]> (heap s)) s)
   else E DanglingReference s) → wp E (write_list r l) Q s.
Proof. unfold wp, write_list. by case_bool_decide. Qed.

Lemma wp_the E o (Q : Tensor → State → Prop) s :
  match o with Some t => Q t s | None => E AttributeError s end →
  wp E (the o) Q s.
Proof. by destruct o. Qed.

Lemma wp_add_operator `{!GraphConverter Mapping} E o t
    (Q : unit → State → Prop) s :
  Q () (set_graph (emitted s ++ [(o, t)]) (add_operator_graph s o t) s) →
  wp E (add_operator o t) Q s.
Proof. done. Qed.

Lemma wp_try_restore_edges `{!GraphConverter Mapping} E (mapping : Mapping)
    (Q : unit → State → Prop) s :
  Q () (set_graph (emitted s) (try_restore_edges_graph s mapping) s) →
  wp E (try_restore_edges mapping) Q s.
Proof. done. Qed.

Lemma wp_lift_any {A} (r : result A) (Q : A → State → Prop) s :
  (∀ a, r = Ok a → Q a s) → wp any_exn (lift r) Q s.
Proof. intros H. apply wp_lift. destruct r; [by apply H|done]. Qed.

Lemma wp_the_any o (Q : Tensor → State → Prop) s :
  (∀ t, o = Some t → Q t s) → wp any_exn (the o) Q s.
Proof. intros H. apply wp_the. destruct o; [by apply H|done]. Qed.

Lemma wp_read_list_any r (Q : list (option Tensor) → State → Prop) s :
  (∀ l, heap s !! r = Some l → Q l s) → wp any_exn (read_list r) Q s.
Proof.
  intros H. apply wp_read_list. destruct (heap s !! r); [by apply H|done].
Qed.

Lemma wp_write_list_any r l (Q : unit → State → Prop) s :
  (r < length (heap s) → Q () (set_heap (<[r:=l]> (heap s)) s)) →
  wp any_exn (write_list r l) Q s.
Proof.
  intros H. apply wp_write_list. case_bool_decide; [by apply H|done].
Qed.

(** One step of symbolic execution. Steps that can raise leave the case of
    the exception to [E]; with [any_exn] it is closed at once. *)
Ltac wp_exn := first [exact I | assumption | idtac].

Ltac wp_step :=
  lazymatch goal with
  | |- wp _ (bind _ _) _ _ => apply wp_bind
  | |- wp _ (ret _) _ _ => apply wp_ret
  | |- wp _ (gets _) _ _ => apply wp_gets
  | |- wp _ (modify _) _ _ => apply wp_modify
  | |- wp _ (raise _) _ _ => apply wp_raise; wp_exn
  | |- wp any_exn (lift _) _ _ =>
      apply wp_lift_any; let a := fresh "a" in let H := fresh "Hr" in
      intros a H
  | |- wp any_exn (the ?o) _ _ =>
      apply wp_the_any; let t := fresh "t" in let H := fresh "Ho" in
      intros t H; first [is_var o; subst o | injection H as <- | idtac]
  | |- wp any_exn (read_list _) _ _ =>
      apply wp_read_list_any; let l := fresh "l" in let H := fresh "Hl" in
      intros l H
  | |- wp any_exn (write_list _ _) _ _ =>
      apply wp_write_list_any; let H := fresh "Hw" in intros H
  | |- wp _ (lift ?r) _ _ =>
      apply wp_lift; let H := fresh "Hr" in destruct r eqn:H; [|wp_exn]
  | |- wp _ (the ?o) _ _ =>
      apply wp_the; let H := fresh "Ho" in destruct o eqn:H; [|wp_exn]
  | |- wp _ (new_list _) _ _ => apply wp_new_list
  | |- wp _ (read_list ?r) ?Q ?s =>
      apply wp_read_list;
      let H := fresh "Hl" in destruct (heap s !! r) eqn:H; [|wp_exn]
  | |- wp _ (write_list ?r _) _ ?s =>
      apply wp_write_list;
      let H := fresh "Hw" in
      destruct (bool_decide (r < length (heap s))) eqn:H;
      [apply bool_decide_eq_true_1 in H|wp_exn]
  | |- wp _ (add_operator _ _) _ _ => apply wp_add_operator
  | |- wp _ (try_restore_edges _) _ _ => apply wp_try_restore_edges
  | |- wp _ (getitem _ _) _ _ => unfold getitem
  | |- wp _ (setitem _ _ _) _ _ => unfold setitem
  | |- wp _ (new_operator _ _ _ _) _ _ => unfold new_operator
  | |- wp _ (warn _) _ _ => unfold warn
  | |- wp _ ?m _ _ =>
      lazymatch m with
      | context [if ?b then _ else _] => destruct b eqn:?
      | context [match ?x with _ => _ end] => destruct x eqn:?
      end
  end; cbn beta.

Ltac wp_steps := repeat wp_step.

(** [x <- lift r ;; k] and [x <- the o ;; k] with chosen names, for the
    runs that return. *)
Tactic Notation "wp_lift" "as" ident(x) ident(H) :=
  first [apply wp_bind, wp_lift_any | apply wp_lift_any]; intros x H;
  cbn beta.

Tactic Notation "wp_the" "as" ident(x) :=
  first [apply wp_bind, wp_the_any | apply wp_the_any];
  let H := fresh in
  intros x H;
  first [ lazymatch type of H with ?o = _ => is_var o; subst o end
        | injection H as <- | idtac ];
  cbn beta.

(** * The boundary-tensor factory *)

(** ** Generated names are decoded by their last characters *)

Lemma chars_app s1 s2 : chars (s1 +:+ s2) = chars s1 ++ chars s2.
Proof. induction s1 as [|a s1 IH]; simpl; [done|]. by rewrite <-IH. Qed.

Lemma chars_inj s1 s2 : chars s1 = chars s2 → s1 = s2.
Proof.
  intros H. rewrite <-(String.string_of_list_ascii_of_string s1),
    <-(String.string_of_list_ascii_of_string s2). unfold chars in H. by rewrite H.
Qed.

Lemma pretty_N_char_digit x : is_digit (pretty_N_char x) = true.
Proof. unfold pretty_N_char. by repeat case_match. Qed.

Lemma pretty_N_go_digits x s :
  ∃ d, chars (pretty_N_go x s) = d ++ chars s ∧ Forall (λ a, is_digit a = true) d ∧
       ((0 < x)%N → d ≠ []).
Proof.
  revert s. induction (N.lt_wf_0 x) as [x _ IH]; intros s.
  destruct (decide (x = 0%N)) as [->|Hx].
  { exists []. rewrite pretty_N_go_0. split_and!; [done|constructor|lia]. }
  rewrite pretty_N_go_step by lia.
  destruct (IH (x `div` 10)%N) with (s := String (pretty_N_char (x `mod` 10)) s)
    as (d & Hd & Hall & _).
  { apply N.div_lt; lia. }
  exists (d ++ [pretty_N_char (x `mod` 10)]). split_and!.
  - rewrite Hd. simpl. by rewrite <-app_assoc.
  - apply Forall_app. split; [done|]. repeat constructor. apply pretty_N_char_digit.
  - intros _. by destruct d.
Qed.

Lemma pretty_nat_digits (c : nat) :
  Forall (λ a, is_digit a = true) (chars (pretty c)) ∧ chars (pretty c) ≠ [].
Proof.
  unfold pretty, pretty_nat, pretty, pretty_N. case_decide as Hc.
  { split; [|done]. repeat constructor. }
  destruct (pretty_N_go_digits (N.of_nat c) "") as (d & Hd & Hall & Hne).
  simpl in Hd. rewrite app_nil_r in Hd. rewrite Hd. split; [done|]. apply Hne. lia.
Qed.

Lemma span_digits_app d a l :
  Forall (λ a, is_digit a = true) d → is_digit a = false →
  span_digits (d ++ a :: l) = d.
Proof.
  induction 1 as [|x d Hx _ IH]; intros Ha; simpl.
  - by rewrite Ha.
  - rewrite Hx. f_equal. by apply IH.
Qed.

Lemma rchars_generated b kind c :
  is_kind kind →
  ∃ rest,
    rchars (b +:+ TransformableOperator.generated_suffix kind c) =
      (if bool_decide (c = 0) then []
       else reverse (chars (pretty c)) ++ ["_"%char]) ++ kind_letter kind :: rest
    ∧ is_digit (kind_letter kind) = false.
Proof.
  intros Hk. unfold rchars, TransformableOperator.generated_suffix. case_bool_decide.
  - destruct Hk as [-> | ->]; rewrite !chars_app, !reverse_app; simpl;
      eexists; (split; [reflexivity | done]).
  - destruct Hk as [-> | ->]; rewrite !chars_app, !reverse_app; simpl;
      eexists; (split; [rewrite <-!app_assoc; reflexivity | done]).
Qed.

Lemma span_digits_counter (n : nat) a rest :
  is_digit a = false →
  span_digits
    ((if bool_decide (n = 0) then []
      else reverse (chars (pretty n)) ++ ["_"%char]) ++ a :: rest) =
  if bool_decide (n = 0) then [] else reverse (chars (pretty n)).
Proof.
  intros Ha. case_bool_decide; simpl; [by rewrite Ha|].
  rewrite <-app_assoc. simpl. apply span_digits_app; [|done].
  apply Forall_reverse, pretty_nat_digits.
Qed.

Lemma generated_name_inj b b' kind kind' c c' :
  is_kind kind → is_kind kind' →
  b +:+ TransformableOperator.generated_suffix kind c = b' +:+ TransformableOperator.generated_suffix kind' c' →
  kind = kind' ∧ c = c'.
Proof.
  intros Hk Hk' Heq.
  destruct (rchars_generated b kind c Hk) as (rest & Hr & Hd).
  destruct (rchars_generated b' kind' c' Hk') as (rest' & Hr' & Hd').
  rewrite Heq in Hr. rewrite Hr in Hr'. clear Hr Heq.
  pose proof (f_equal span_digits Hr') as Hs.
  rewrite !span_digits_counter in Hs by done.
  assert (c = c') as <-.
  { destruct (pretty_nat_digits c) as [_ Hne].
    destruct (pretty_nat_digits c') as [_ Hne'].
    destruct (decide (c = 0)) as [->|Hc], (decide (c' = 0)) as [->|Hc'];
      rewrite ?bool_decide_eq_true_2, ?bool_decide_eq_false_2 in Hs by done;
      try done.
    - symmetry in Hs. by apply (f_equal reverse) in Hs;
        rewrite reverse_involutive in Hs.
    - by apply (f_equal reverse) in Hs; rewrite reverse_involutive in Hs.
    - apply (inj reverse) in Hs. apply chars_inj in Hs.
      by apply (inj pretty) in Hs. }
  split; [|done].
  apply app_inv_head in Hr'. injection Hr' as Hl _.
  destruct Hk as [-> | ->], Hk' as [-> | ->]; done.
Qed.

(** ** Runs of factory calls *)

Lemma append_assoc_string (a b c : string) : (a +:+ b) +:+ c = a +:+ b +:+ c.
Proof. apply chars_inj. by rewrite !chars_app, app_assoc. Qed.

Lemma append_empty_r (a : string) : a +:+ "" = a.
Proof. apply chars_inj. by rewrite chars_app, app_nil_r. Qed.

Lemma described_name_generated outs kind n :
  described_name outs kind n =
  default "" (first_output_name outs) +:+
    TransformableOperator.generated_suffix kind n.
Proof.
  unfold described_name, TransformableOperator.generated_suffix.
  case_bool_decide; [by rewrite append_empty_r|done].
Qed.

Lemma wp_outputs_0_name E (Q : string → State → Prop) s :
  match first_output_name (current_outputs s) with
  | Some b => Q b s
  | None => ∀ e, E e s
  end →
  wp E TransformableOperator.outputs_0_name Q s.
Proof.
  unfold first_output_name, current_outputs,
    TransformableOperator.outputs_0_name, getitem.
  intros H. apply wp_bind, wp_gets, wp_bind, wp_bind, wp_read_list.
  destruct (heap s !! self_outputs s) as [l|]; simpl in *; [|apply H].
  apply wp_lift.
  destruct (py_getitem l 0) as [[t|]|]; simpl in *; [|apply H..].
  exact H.
Qed.

Lemma run_call_spec c s :
  wp any_exn (run_call c)
     (λ r s', r = step_name c s ∧
              current_outputs s' = step_outputs c (current_outputs s) ∧
              attr_count s' = step_attr_count c (attr_count s) ∧
              transform_count s' = step_transform_count c (transform_count s))
     s.
Proof.
  destruct c as [t [n|] q|t [n|] q|l|i t]; simpl.
  - unfold TransformableOperator.create_attr_tensor. by wp_steps.
  - unfold TransformableOperator.create_attr_tensor. wp_steps.
    apply wp_outputs_0_name.
    destruct (first_output_name (current_outputs s)) as [b|] eqn:Hb; [|done].
    wp_steps. rewrite described_name_generated, Hb. simpl.
    by rewrite Nat.add_1_r.
  - unfold TransformableOperator.create_transform_tensor. by wp_steps.
  - unfold TransformableOperator.create_transform_tensor. wp_steps.
    apply wp_outputs_0_name.
    destruct (first_output_name (current_outputs s)) as [b|] eqn:Hb; [|done].
    wp_steps. rewrite described_name_generated, Hb. simpl.
    by rewrite Nat.add_1_r.
  - wp_steps. unfold current_outputs. simpl.
    by rewrite lookup_app_r, Nat.sub_diag.
  - wp_steps. unfold current_outputs. simpl. rewrite Hl. simpl. rewrite Hr.
    by rewrite list_lookup_insert_eq.
Qed.

Lemma mapM_run_call_spec cs s :
  wp any_exn (mapM run_call cs)
     (λ l s', omap id l =
              described_names (current_outputs s) (attr_count s)
                              (transform_count s) cs)
     s.
Proof.
  revert s. induction cs as [|c cs IH]; intros s; simpl; [done|].
  apply wp_bind. eapply wp_mono; [|apply run_call_spec].
  intros r s1 (-> & Houts & Hattr & Htrans). simpl.
  apply wp_bind. eapply wp_mono; [|apply IH].
  intros l s2 Hl. apply wp_ret. rewrite Houts, Hattr, Htrans in Hl.
  destruct c as [t [n|] q|t [n|] q|l'|i t]; simpl in *;
    first [exact Hl | f_equal; exact Hl].
Qed.

(** Every described name carries a counter that is not below the counter of
    its kind at the start. *)
Lemma described_names_counters outs na nt cs x :
  x ∈ described_names outs na nt cs →
  ∃ b c, (x = b +:+ TransformableOperator.generated_suffix "attr" c ∧ na ≤ c)
       ∨ (x = b +:+ TransformableOperator.generated_suffix "transform" c
          ∧ nt ≤ c).
Proof.
  revert outs na nt.
  induction cs as [|c cs IH]; intros outs na nt; simpl; [by intros ?%elem_of_nil|].
  destruct c as [t [n|] q|t [n|] q|l|i t]; simpl; try apply IH.
  - intros [->|Hx]%elem_of_cons.
    + rewrite described_name_generated. eauto.
    + destruct (IH _ _ _ Hx) as (b & c & [[-> ?]|[-> ?]]);
        exists b, c; [left|right]; split; (done || lia).
  - intros [->|Hx]%elem_of_cons.
    + rewrite described_name_generated. eauto.
    + destruct (IH _ _ _ Hx) as (b & c & [[-> ?]|[-> ?]]);
        exists b, c; [left|right]; split; (done || lia).
Qed.

Lemma described_names_NoDup outs na nt cs :
  NoDup (described_names outs na nt cs).
Proof.
  revert outs na nt.
  induction cs as [|c cs IH]; intros outs na nt; simpl; [constructor|].
  destruct c as [t [n|] q|t [n|] q|l|i t]; simpl; try apply IH.
  - constructor; [|apply IH]. intros Hx.
    apply described_names_counters in Hx as (b & c & [[Heq ?]|[Heq ?]]);
      rewrite described_name_generated in Heq;
      apply generated_name_inj in Heq as [? ?];
      unfold is_kind; (done || lia || auto).
  - constructor; [|apply IH]. intros Hx.
    apply described_names_counters in Hx as (b & c & [[Heq ?]|[Heq ?]]);
      rewrite described_name_generated in Heq;
      apply generated_name_inj in Heq as [? ?];
      unfold is_kind; (done || lia || auto).
Qed.

(** C9, as amended. In every run of factory calls of one lowering call, the
    names generated for the calls without an explicit name are the current
    first output name of the operator followed by [_te_attr] (or
    [_te_transform]) and, from the second tensor of the kind on, by [_1],
    [_2], ...; and no two of the generated names are equal, whatever happens
    to [self.outputs] between the calls. *)
Theorem factory_generated_names cs s names s' :
  generated_names cs s = (Ok names, s') →
  names = described_names (current_outputs s) (attr_count s)
                          (transform_count s) cs
  ∧ NoDup names.
Proof.
  intros Hrun.
  assert (names = described_names (current_outputs s) (attr_count s)
                                  (transform_count s) cs) as ->.
  { apply (wp_run any_exn (generated_names cs)
             (λ n _, n = described_names (current_outputs s) (attr_count s)
                                         (transform_count s) cs) s names s');
      [|done].
    unfold generated_names.
    apply wp_bind. eapply wp_mono; [|apply mapM_run_call_spec].
    intros l s1 Hl. by apply wp_ret. }
  split; [done|]. apply described_names_NoDup.
Qed.

Lemma factory_generated_names_witness :
  (generated_names example_calls conv2d_example).1 =
    Ok ["y_te_attr"; "y_te_attr_1"; "y_te_transform"; "y_te_transform_1";
        "y_te_transform_1_te_attr_2"; "y_te_transform_1_te_transform_2"]
  ∧ NoDup ["y_te_attr"; "y_te_attr_1"; "y_te_transform"; "y_te_transform_1";
           "y_te_transform_1_te_attr_2"; "y_te_transform_1_te_transform_2"].
Proof.
  split; [reflexivity|].
  exact (proj2 (factory_generated_names example_calls conv2d_example _ _
                  eq_refl)).
Defined.

(** C9, as stated, fails: the first attribute tensor of an operator whose
    first output is [y] is named [y_te_attr], not [y_attr]. *)
Lemma factory_name_is_not_output_attr :
  ∃ t s',
    TransformableOperator.create_attr_tensor
      (np_array_int32 [0; 3; 1; 2]%Z) None None conv2d_example = (Ok t, s')
    ∧ first_output_name (current_outputs conv2d_example) = Some "y"
    ∧ attr_count conv2d_example = 0
    ∧ name t = "y_te_attr"
    ∧ name t ≠ "y" +:+ "_attr".
Proof. do 2 eexists. split; [reflexivity|]. by split_and!. Qed.

(** * Rules for the building blocks *)

Ltac st_simpl :=
  cbv [set_heap set_self_inputs set_self_outputs set_attr_count
       set_transform_count set_conv_params set_warnings set_graph];
  cbn [heap self_inputs self_outputs attr_count transform_count stride
       padding dilation output_padding groups eps fusedActivationFunction
       warnings emitted graph fst snd].

Ltac st_simpl_in H :=
  cbv [set_heap set_self_inputs set_self_outputs set_attr_count
       set_transform_count set_conv_params set_warnings set_graph] in H;
  cbn [heap self_inputs self_outputs attr_count transform_count stride
       padding dilation output_padding groups eps fusedActivationFunction
       warnings emitted graph fst snd] in H.

(** ** Python indexing *)

Lemma py_getitem_Ok {A} (l : list A) i n x :
  py_norm l i = Some n → l !! n = Some x → py_getitem l i = Ok x.
Proof. unfold py_getitem. by intros -> ->. Qed.

Lemma py_getitem_inv {A} (l : list A) i x :
  py_getitem l i = Ok x → ∃ n, py_norm l i = Some n ∧ l !! n = Some x.
Proof.
  unfold py_getitem. destruct (py_norm l i) as [n|]; [|done].
  destruct (l !! n) eqn:?; [|done]. intros [= ->]. eauto.
Qed.

Lemma py_setitem_Ok {A} (l : list A) i n x :
  py_norm l i = Some n → py_setitem l i x = Ok (<[n:=x]> l).
Proof. unfold py_setitem. by intros ->. Qed.

Lemma py_norm_lt {A} (l : list A) i n : py_norm l i = Some n → n < length l.
Proof. unfold py_norm. repeat case_match; intros [= <-]; lia. Qed.

Lemma py_norm_nonneg {A} (l : list A) (n : nat) :
  n < length l → py_norm l (Z.of_nat n) = Some n.
Proof.
  intros Hn. unfold py_norm.
  rewrite (proj2 (Z.leb_le 0 (Z.of_nat n))) by lia.
  rewrite (proj2 (Z.ltb_lt _ _)) by lia. by rewrite Nat2Z.id.
Qed.

Lemma py_norm_nonneg_inv {A} (l : list A) (i : Z) n :
  (0 ≤ i)%Z → py_norm l i = Some n → n = Z.to_nat i.
Proof.
  intros Hi. unfold py_norm. rewrite (proj2 (Z.leb_le 0 i)) by done.
  by case_match; intros [= <-].
Qed.

Lemma py_norm_length {A} (l l' : list A) i :
  length l = length l' → py_norm l i = py_norm l' i.
Proof. unfold py_norm. by intros ->. Qed.

Lemma py_getitem_0 {A} (l : list A) x : py_getitem l 0 = Ok x ↔ l !! 0 = Some x.
Proof.
  unfold py_getitem, py_norm. simpl. destruct l as [|y l]; simpl; [done|].
  split; by intros [= ->].
Qed.

Lemma py_getitem_nat {A} (l : list A) (n : nat) x :
  py_getitem l (Z.of_nat n) = Ok x ↔ l !! n = Some x.
Proof.
  split.
  - intros (m & Hm & Hx)%py_getitem_inv.
    apply py_norm_nonneg_inv in Hm; [|lia]. by rewrite Nat2Z.id in Hm; subst.
  - intros Hx. eapply py_getitem_Ok; [|done].
    apply py_norm_nonneg. by eapply lookup_lt_Some.
Qed.

Lemma py_getitem_1 {A} (l : list A) x :
  py_getitem l 1 = Ok x ↔ l !! 1 = Some x.
Proof. apply (py_getitem_nat l 1). Qed.

Lemma py_getitem_3 {A} (l : list A) x :
  py_getitem l 3 = Ok x ↔ l !! 3 = Some x.
Proof. apply (py_getitem_nat l 3). Qed.

Ltac getitems :=
  repeat match goal with
    | H : py_getitem _ 0 = Ok _ |- _ => apply py_getitem_0 in H
    | H : py_getitem _ 1 = Ok _ |- _ => apply py_getitem_1 in H
    | H : py_getitem _ 3 = Ok _ |- _ => apply py_getitem_3 in H
    | H : bool_decide _ = true |- _ => apply bool_decide_eq_true in H
    | H : bool_decide _ = false |- _ => apply bool_decide_eq_false in H
    end.


Lemma py_insert_1 {A} (x y : A) (l : list A) z :
  py_insert (x :: y :: l) 1 z = x :: z :: y :: l.
Proof.
  unfold py_insert. change (1 <? 0)%Z with false. cbv beta iota zeta.
  replace (Z.to_nat (1 `min` Z.of_nat (length (x :: y :: l)))) with 1
    by (simpl length; lia).
  done.
Qed.

Lemma length_py_insert {A} (l : list A) i x :
  length (py_insert l i x) = S (length l).
Proof.
  unfold py_insert. rewrite length_app. simpl.
  rewrite length_take, length_drop. lia.
Qed.

(** ** The store *)

Lemma lookup_insert_alias {A} (h : list A) i j x y :
  i < length h → h !! j = Some y →
  <[i:=x]> h !! j = Some (if decide (i = j) then x else y).
Proof.
  intros Hi Hj. case_decide as Hd.
  - subst. by apply list_lookup_insert_eq.
  - by rewrite list_lookup_insert_ne.
Qed.

Lemma wp_getitem_any r i (Q : option Tensor → State → Prop) s :
  (∀ l n x, heap s !! r = Some l → py_norm l i = Some n → l !! n = Some x →
            Q x s) →
  wp any_exn (getitem r i) Q s.
Proof.
  intros H. unfold getitem. wp_steps.
  apply py_getitem_inv in Hr as (n & ? & ?). eauto.
Qed.

Lemma wp_getitem_ok E r i l n x (Q : option Tensor → State → Prop) s :
  heap s !! r = Some l → py_norm l i = Some n → l !! n = Some x →
  Q x s → wp E (getitem r i) Q s.
Proof.
  intros Hl Hn Hx H. unfold getitem. apply wp_bind, wp_read_list.
  rewrite Hl. apply wp_lift. by rewrite (py_getitem_Ok _ _ _ _ Hn Hx).
Qed.

Lemma wp_setitem_any r i x (Q : unit → State → Prop) s :
  (∀ l n, heap s !! r = Some l → py_norm l i = Some n →
          Q () (set_heap (<[r:=<[n:=x]> l]> (heap s)) s)) →
  wp any_exn (setitem r i x) Q s.
Proof.
  intros H. unfold setitem. wp_steps.
  unfold py_setitem in Hr. destruct (py_norm l i) as [n|] eqn:Hn; [|done].
  injection Hr as <-. eauto.
Qed.

Lemma wp_setitem_ok E r i l n x (Q : unit → State → Prop) s :
  heap s !! r = Some l → py_norm l i = Some n →
  Q () (set_heap (<[r:=<[n:=x]> l]> (heap s)) s) →
  wp E (setitem r i x) Q s.
Proof.
  intros Hl Hn H. unfold setitem. apply wp_bind, wp_read_list. rewrite Hl.
  apply wp_bind, wp_lift. rewrite (py_setitem_Ok _ _ _ _ Hn).
  apply wp_write_list. rewrite bool_decide_eq_true_2; [done|].
  by eapply lookup_lt_Some.
Qed.

Lemma wp_new_operator E code ins outs opts
    (Q : BaseOperator → State → Prop) s :
  Q {| op := code; inputs := length (heap s);
       outputs := S (length (heap s)); options := opts |}
    (set_heap (heap s ++ [ins; outs]) s) →
  wp E (new_operator code ins outs opts) Q s.
Proof.
  intros H. unfold new_operator. wp_steps. st_simpl.
  rewrite length_app, Nat.add_1_r, <-app_assoc. done.
Qed.

(** ** The factories *)

Section factory_rules.
Import TransformableOperator.

Lemma wp_create_attr_tensor_any t q (Q : Tensor → State → Prop) s :
  (∀ b, first_output_name (current_outputs s) = Some b →
        Q {| tensor := t; name := b +:+ generated_suffix "attr" (attr_count s);
             has_buffer := true; quantization := q |}
          (set_attr_count (attr_count s + 1) s)) →
  wp any_exn (create_attr_tensor t None q) Q s.
Proof.
  intros H. unfold create_attr_tensor. wp_steps. apply wp_outputs_0_name.
  destruct (first_output_name (current_outputs s)) as [b|] eqn:Hb; [|done].
  wp_steps. by apply H.
Qed.

Lemma wp_create_attr_tensor_ok E t q b (Q : Tensor → State → Prop) s :
  first_output_name (current_outputs s) = Some b →
  Q {| tensor := t; name := b +:+ generated_suffix "attr" (attr_count s);
       has_buffer := true; quantization := q |}
    (set_attr_count (attr_count s + 1) s) →
  wp E (create_attr_tensor t None q) Q s.
Proof.
  intros Hb H. unfold create_attr_tensor.
  apply wp_bind, wp_bind, wp_gets, wp_bind, wp_outputs_0_name.
  rewrite Hb. by apply wp_bind, wp_modify, wp_ret, wp_ret.
Qed.

Lemma wp_create_transform_tensor_any t q (Q : Tensor → State → Prop) s :
  (∀ b, first_output_name (current_outputs s) = Some b →
        Q {| tensor := t;
             name := b +:+ generated_suffix "transform" (transform_count s);
             has_buffer := false; quantization := q |}
          (set_transform_count (transform_count s + 1) s)) →
  wp any_exn (create_transform_tensor t None q) Q s.
Proof.
  intros H. unfold create_transform_tensor. wp_steps.
  apply wp_outputs_0_name.
  destruct (first_output_name (current_outputs s)) as [b|] eqn:Hb; [|done].
  wp_steps. by apply H.
Qed.

Lemma wp_create_transform_tensor_ok E t q b
    (Q : Tensor → State → Prop) s :
  first_output_name (current_outputs s) = Some b →
  Q {| tensor := t;
       name := b +:+ generated_suffix "transform" (transform_count s);
       has_buffer := false; quantization := q |}
    (set_transform_count (transform_count s + 1) s) →
  wp E (create_transform_tensor t None q) Q s.
Proof.
  intros Hb H. unfold create_transform_tensor.
  apply wp_bind, wp_bind, wp_gets, wp_bind, wp_outputs_0_name.
  rewrite Hb. by apply wp_bind, wp_modify, wp_ret, wp_ret.
Qed.

Lemma wp_create_transform_tensor_named E t n q
    (Q : Tensor → State → Prop) s :
  Q {| tensor := t; name := n; has_buffer := false; quantization := q |} s →
  wp E (create_transform_tensor t (Some n) q) Q s.
Proof. done. Qed.
End factory_rules.

(** ** Stepping through runs that return *)

Lemma wp_outputs_0_name_any (Q : string → State → Prop) s :
  (∀ b, first_output_name (current_outputs s) = Some b → Q b s) →
  wp any_exn TransformableOperator.outputs_0_name Q s.
Proof.
  intros H. apply wp_outputs_0_name.
  destruct (first_output_name (current_outputs s)); [by apply H|done].
Qed.

Ltac wp_any :=
  lazymatch goal with
  | |- wp _ (getitem _ _) _ _ =>
      apply wp_getitem_any;
      let l := fresh "l" in let n := fresh "n" in let x := fresh "x" in
      let Hl := fresh "Hl" in let Hn := fresh "Hn" in let Hx := fresh "Hx" in
      intros l n x Hl Hn Hx
  | |- wp _ (setitem _ _ _) _ _ =>
      apply wp_setitem_any;
      let l := fresh "l" in let n := fresh "n" in
      let Hl := fresh "Hl" in let Hn := fresh "Hn" in
      intros l n Hl Hn
  | |- wp _ (TransformableOperator.create_attr_tensor _ None _) _ _ =>
      apply wp_create_attr_tensor_any;
      let b := fresh "b" in let Hb := fresh "Hb" in intros b Hb
  | |- wp _ (TransformableOperator.create_transform_tensor _ None _) _ _ =>
      apply wp_create_transform_tensor_any;
      let b := fresh "b" in let Hb := fresh "Hb" in intros b Hb
  | |- wp _ (TransformableOperator.create_transform_tensor _ (Some _) _) _ _ =>
      apply wp_create_transform_tensor_named
  | |- wp _ TransformableOperator.outputs_0_name _ _ =>
      apply wp_outputs_0_name_any;
      let b := fresh "b" in let Hb := fresh "Hb" in intros b Hb
  | |- wp _ (new_operator _ _ _ _) _ _ => apply wp_new_operator
  | |- _ => wp_step
  end;
  st_simpl; cbn [take drop mapM zip_with]; rewrite ?take_0, ?drop_0;
  cbn [mapM zip_with fmap list_fmap app].

Lemma np_expand_dims_2_inv a b :
  np_expand_dims_2 a = Ok b →
  b = {| nd_shape := take 2 (nd_shape a) ++ 1 :: drop 2 (nd_shape a);
         nd_dtype := nd_dtype a; nd_data := None |}.
Proof. unfold np_expand_dims_2. case_bool_decide; [|done]. by intros [= <-]. Qed.

Lemma lookup_app_at {A} (l k : list A) i j :
  i = length l + j → (l ++ k) !! i = k !! j.
Proof. intros ->. rewrite lookup_app_r by lia. f_equal. lia. Qed.

Lemma first_output_name_inv outs b :
  first_output_name outs = Some b →
  ∃ y rest, outs = Some (Some y :: rest) ∧ name y = b.
Proof.
  unfold first_output_name. destruct outs as [l|]; [|done]. simpl.
  destruct (py_getitem l 0) as [[y|]|] eqn:Hy; try done.
  intros [= <-]. apply py_getitem_0 in Hy. destruct l as [|? rest]; [done|].
  injection Hy as ->. eauto.
Qed.

Ltac same_base :=
  unfold current_outputs in *; st_simpl;
  repeat match goal with H : _ |- _ => progress st_simpl_in H end;
  repeat match goal with
    | H1 : first_output_name ?o = Some ?b,
      H2 : first_output_name ?o = Some ?c |- _ =>
        rewrite H1 in H2; injection H2 as <-
    end.

Lemma wp_reshape_to_4d_any (both : bool) (Q : _ → State → Prop) s ox ow rest :
  heap s !! self_inputs s = Some (ox :: ow :: rest) →
  (∀ r s1, normalized true both s ox ow rest r s1 → Q r s1) →
  wp any_exn (reshape_to_4d (if both then 2 else 1)) Q
     (if both
      then set_conv_params (1%Z :: stride s) (0%Z :: padding s)
             (1%Z :: dilation s) (0%Z :: output_padding s) s
      else s).
Proof.
  intros Hlin H. unfold reshape_to_4d.
  destruct both.
  - st_simpl. wp_any. wp_any. wp_any. wp_any. st_simpl_in Hl.
    rewrite Hlin in Hl. injection Hl as <-.
    cbn [take mapM]. unfold reshape_output, shape_attr, reshape_op, reshape_op'.
    repeat wp_any. same_base.
    apply first_output_name_inv in Hb as (y & lo_rest & Hlo & Hy).
    pose proof (lookup_lt_Some _ _ _ Hlo) as Hlt.
    rewrite <-app_assoc, lookup_app_l in Hl, Hl0 by done.
    rewrite Hlo in Hl, Hl0. injection Hl as <-. injection Hl0 as <-.
    apply py_norm_nonneg_inv in Hn; [|done]. vm_compute in Hn. subst n.
    injection Hx as <-.
    cbn [take mapM zip_with]. repeat wp_any.
    apply np_expand_dims_2_inv in Hr, Hr0, Hr1. subst a a0 a1.
    apply H. unfold normalized.
    eexists t, (expand_tensor t _), y, (expand_tensor y _),
      (Some (expand_tensor t0 _)), lo_rest, _.
    split_and!; try done; st_simpl; cbn [fst snd].
    + eexists t0, _. by split_and!.
    + rewrite <-!app_assoc. reflexivity.
    + rewrite !length_app. lia.
    + rewrite !length_app. cbn [length]. lia.
    + rewrite !length_app. cbn [length]. lia.
    + rewrite <-!app_assoc. cbn [app].
      rewrite (lookup_app_at _ _ _ 6) by (rewrite !length_app; cbn [length]; lia).
      reflexivity.
    + rewrite <-!app_assoc. cbn [app].
      rewrite (lookup_app_at _ _ _ 7) by (rewrite !length_app; cbn [length]; lia).
      reflexivity.
    + by repeat constructor.
    + lia.
  - st_simpl. wp_any. wp_any. wp_any. wp_any. st_simpl_in Hl.
    rewrite Hlin in Hl. injection Hl as <-.
    cbn [take mapM]. unfold reshape_output, shape_attr, reshape_op, reshape_op'.
    rewrite ?take_0. cbn [mapM].
    repeat wp_any. same_base.
    apply first_output_name_inv in Hb as (y & lo_rest & Hlo & Hy).
    pose proof (lookup_lt_Some _ _ _ Hlo) as Hlt.
    rewrite lookup_app_l in Hl, Hl0 by done.
    rewrite Hlo in Hl, Hl0. injection Hl as <-. injection Hl0 as <-.
    apply py_norm_nonneg_inv in Hn; [|done]. vm_compute in Hn. subst n.
    injection Hx as <-.
    cbn [take mapM zip_with]. repeat wp_any.
    apply np_expand_dims_2_inv in Hr, Hr0. subst a a0.
    apply H. unfold normalized.
    eexists t, (expand_tensor t _), y, (expand_tensor y _), ow, lo_rest, _.
    split_and!; try done; st_simpl; cbn [fst snd].
    + rewrite <-!app_assoc. reflexivity.
    + rewrite !length_app. lia.
    + rewrite !length_app. cbn [length]. lia.
    + rewrite !length_app. cbn [length]. lia.
    + rewrite <-!app_assoc. cbn [app].
      rewrite (lookup_app_at _ _ _ 4) by (rewrite !length_app; cbn [length]; lia).
      reflexivity.
    + rewrite <-!app_assoc. cbn [app].
      rewrite (lookup_app_at _ _ _ 5) by (rewrite !length_app; cbn [length]; lia).
      reflexivity.
    + by repeat constructor.
    + lia.
Qed.


(** * The layout transpose wrapper *)

Section wrap_rules.
Import TransformableOperator.

Lemma py_getitem_last {A} (l : list A) x :
  py_getitem l (-1) = Ok x ↔ last l = Some x.
Proof.
  rewrite last_lookup. unfold py_getitem, py_norm.
  change (0 <=? -1)%Z with false. cbv iota.
  destruct l as [|y l]; [done|].
  rewrite (proj2 (Z.leb_le _ _)) by (simpl length; lia).
  replace (Z.to_nat (Z.of_nat (length (y :: l)) + -1))
    with (pred (length (y :: l))) by (simpl length; lia).
  destruct ((y :: l) !! pred (length (y :: l))); split; by intros [= ->].
Qed.

Lemma is_perm_of_axes_4 (perm : list Z) n :
  perm = nchw2nhwc_perm ∨ perm = nchw2chwn_perm ∨ perm = nhwc2nchw_perm →
  is_perm_of_axes perm n = true ↔ n = 4.
Proof.
  intros Hp. unfold is_perm_of_axes. split.
  - intros [H _]%andb_true_iff. apply bool_decide_eq_true in H.
    by destruct Hp as [->| [->| ->]].
  - intros ->. by destruct Hp as [->| [->| ->]].
Qed.

Lemma np_transpose_4 a perm :
  perm = nchw2nhwc_perm ∨ perm = nchw2chwn_perm ∨ perm = nhwc2nchw_perm →
  ndim a = 4 →
  np_transpose a perm =
    Ok {| nd_shape := permute_shape (nd_shape a) perm;
          nd_dtype := nd_dtype a; nd_data := None |}.
Proof.
  intros Hp Hn. unfold np_transpose.
  by rewrite (proj2 (is_perm_of_axes_4 perm _ Hp) Hn).
Qed.

Lemma np_transpose_4_inv a perm b :
  perm = nchw2nhwc_perm ∨ perm = nchw2chwn_perm ∨ perm = nhwc2nchw_perm →
  np_transpose a perm = Ok b →
  ndim a = 4 ∧
  b = {| nd_shape := permute_shape (nd_shape a) perm;
         nd_dtype := nd_dtype a; nd_data := None |}.
Proof.
  intros Hp. unfold np_transpose.
  destruct (is_perm_of_axes perm (ndim a)) eqn:H; [|done].
  apply (is_perm_of_axes_4 _ _ Hp) in H. by intros [= <-].
Qed.

Lemma current_outputs_counters s h a t :
  current_outputs
    {| heap := h; self_inputs := self_inputs s;
       self_outputs := self_outputs s; attr_count := a;
       transform_count := t; stride := stride s; padding := padding s;
       dilation := dilation s; output_padding := output_padding s;
       groups := groups s; eps := eps s;
       fusedActivationFunction := fusedActivationFunction s;
       warnings := warnings s; emitted := emitted s; graph := graph s |} =
  h !! self_outputs s.
Proof. done. Qed.

Lemma wp_wrap_any ops i o (Q : list BaseOperator → State → Prop) s :
  (∀ w, wrap_site_of ops i o s w → Q (wrap_chain s ops) (wrap_state s w)) →
  wp any_exn (wrap_ops_with_nhwc_nchw_transposes ops i o) Q s.
Proof.
  intros H.
  unfold wrap_ops_with_nhwc_nchw_transposes.
  wp_step. wp_step. wp_step. apply wp_getitem_any. intros lin ni orig_input Hlin Hni Hoi.
  wp_step. wp_step. wp_step. apply wp_getitem_any. intros lout no orig_output Hlout Hno Hoo.
  wp_step. apply wp_create_attr_tensor_any. intros b Hb. st_simpl.
  wp_step. apply wp_create_attr_tensor_any. intros b' Hb'. st_simpl.
  wp_step. wp_step.
  wp_step. wp_step.
  wp_step. apply wp_create_transform_tensor_any. intros b2 Hb2. st_simpl.
  wp_step. wp_step. wp_step. wp_step.
  wp_step. apply wp_create_transform_tensor_any. intros b3 Hb3. st_simpl.
  wp_step. apply wp_new_operator. st_simpl.
  wp_step. apply wp_new_operator. st_simpl.
  wp_step. apply wp_setitem_any. st_simpl. intros l1 n1 Hl1 Hn1.
  wp_step. apply wp_setitem_any. st_simpl. intros l2 n2 Hl2 Hn2.
  wp_step.
  st_simpl_in Hb'. st_simpl_in Hb2. st_simpl_in Hb3.
  rewrite current_outputs_counters in Hb', Hb2, Hb3.
  unfold current_outputs in Hb. rewrite Hb in Hb', Hb2, Hb3.
  injection Hb' as <-. injection Hb2 as <-. injection Hb3 as <-.
  apply py_getitem_0 in Hr. apply py_getitem_last in Hr0.
  apply np_transpose_4_inv in Hr1 as [Hd1 ->]; [|by left].
  apply np_transpose_4_inv in Hr2 as [Hd2 ->]; [|by left].
  pose proof (lookup_lt_Some _ _ _ Hlin) as Hlt1.
  pose proof (lookup_lt_Some _ _ _ Hlout) as Hlt2.
  rewrite <-app_assoc in Hl1, Hl2. cbn [app] in Hl1, Hl2.
  rewrite lookup_app_l in Hl1 by done.
  rewrite Hlin in Hl1. injection Hl1 as <-.
  rewrite Hni in Hn1. injection Hn1 as <-.
  set (w := {| first_op := a; last_op := a0; lin := lin; lout := lout; ni := ni; no := no;
               orig_input := t; orig_output := t0; base := b |}).
  assert (wrap_site_of ops i o s w) as Hw by (by unfold wrap_site_of, w, current_outputs).
  specialize (H w Hw).
  assert (l2 = if decide (inputs a = outputs a0) then redirected_inputs s w else lout) as ->.
  { rewrite list_lookup_insert in Hl2. rewrite length_app in Hl2.
    case_decide as Hd.
    - destruct Hd as [Hd _]. rewrite decide_True by done. by injection Hl2 as <-.
    - rewrite decide_False by (intros ?; apply Hd; split; [done|lia]).
      rewrite lookup_app_l in Hl2 by done. congruence. }
  assert (n2 = no) as ->.
  { assert (py_norm (if decide (inputs a = outputs a0) then redirected_inputs s w else lout) o = py_norm lout o) as Hp.
    { apply py_norm_length. case_decide as Hd; [|done].
      unfold redirected_inputs. rewrite length_insert. simpl. rewrite Hd in Hlin. congruence. }
    rewrite Hp in Hn2. congruence. }
  rewrite <-app_assoc. cbn [app].
  replace (attr_count s + 1 + 1) with (attr_count s + 2) by lia.
  replace (transform_count s + 1 + 1) with (transform_count s + 2) by lia.
  rewrite length_app. cbn [length]. replace (length (heap s) + 2) with (S (S (length (heap s)))) by lia.
  exact H.
Qed.

Lemma wp_wrap_ok E ops i o w (Q : list BaseOperator → State → Prop) s :
  wrap_site_of ops i o s w →
  Q (wrap_chain s ops) (wrap_state s w) →
  wp E (wrap_ops_with_nhwc_nchw_transposes ops i o) Q s.
Proof.
  intros (Hfirst & Hlast & Hlin & Hni & Hoi & Hlout & Hno & Hoo & Hd1 & Hd2 & Hb) H.
  pose proof (lookup_lt_Some _ _ _ Hlin) as Hlt1.
  pose proof (lookup_lt_Some _ _ _ Hlout) as Hlt2.
  unfold wrap_ops_with_nhwc_nchw_transposes.
  apply wp_bind. eapply wp_lift_ok; [by apply py_getitem_0|].
  apply wp_bind. eapply wp_getitem_ok; [done..|].
  apply wp_bind. eapply wp_lift_ok; [by apply py_getitem_last|].
  apply wp_bind. eapply wp_getitem_ok; [done..|].
  apply wp_bind. eapply wp_create_attr_tensor_ok; [done|]. st_simpl.
  apply wp_bind. eapply wp_create_attr_tensor_ok; [done|]. st_simpl.
  apply wp_bind, wp_the. 
  apply wp_bind. eapply wp_lift_ok; [by apply np_transpose_4; [left|]|].
  apply wp_bind. eapply wp_create_transform_tensor_ok; [done|]. st_simpl.
  apply wp_bind, wp_the.
  apply wp_bind. eapply wp_lift_ok; [by apply np_transpose_4; [left|]|].
  apply wp_bind. eapply wp_create_transform_tensor_ok; [done|]. st_simpl.
  apply wp_bind, wp_new_operator. st_simpl.
  apply wp_bind, wp_new_operator. st_simpl.
  apply wp_bind. eapply wp_setitem_ok.
  { st_simpl. rewrite <-app_assoc. by rewrite lookup_app_l. }
  { done. }
  st_simpl.
  apply wp_bind. eapply wp_setitem_ok.
  { st_simpl. apply lookup_insert_alias.
    - rewrite !length_app. lia.
    - rewrite <-app_assoc. rewrite lookup_app_l by done. exact Hlout. }
  { rewrite <-Hno. apply py_norm_length.
    case_decide as Hd; [|done].
    rewrite length_insert. rewrite Hd in Hlin. congruence. }
  st_simpl. apply wp_ret.
  rewrite <-app_assoc. cbn [app].
  replace (attr_count s + 1 + 1) with (attr_count s + 2) by lia.
  replace (transform_count s + 1 + 1) with (transform_count s + 2) by lia.
  rewrite length_app. cbn [length].
  replace (length (heap s) + 2) with (S (S (length (heap s)))) by lia.
  exact H.
Qed.

Lemma wrap_heap_fresh s w k x :
  wrap_site_of_heap s w →
  [[Some (orig_input w); Some (nchw2nhwc_perm_tensor s w)];
   [Some (new_input s w)];
   [Some (new_output s w); Some (nhwc2nchw_perm_tensor s w)];
   [Some (orig_output w)]] !! k = Some x →
  wrap_heap s w !! (length (heap s) + k) = Some x.
Proof.
  intros [Hlin Hlout] Hk. unfold wrap_heap.
  pose proof (lookup_lt_Some _ _ _ Hlin). pose proof (lookup_lt_Some _ _ _ Hlout).
  rewrite !list_lookup_insert_ne by lia.
  rewrite lookup_app_r by lia. by replace (length (heap s) + k - length (heap s)) with k by lia.
Qed.

Lemma wrap_heap_old s w r l :
  wrap_site_of_heap s w →
  heap s !! r = Some l →
  wrap_heap s w !! r =
    Some (if decide (outputs (last_op w) = r) then redirected_outputs s w
          else if decide (inputs (first_op w) = r) then redirected_inputs s w
          else l).
Proof.
  intros [Hlin Hlout] Hl. unfold wrap_heap.
  pose proof (lookup_lt_Some _ _ _ Hlin). pose proof (lookup_lt_Some _ _ _ Hlout).
  apply lookup_insert_alias; [rewrite length_insert, length_app; lia|].
  apply lookup_insert_alias; [rewrite length_app; lia|].
  by apply lookup_app_l_Some.
Qed.

Lemma wrap_site_heap ops i o s w :
  wrap_site_of ops i o s w → wrap_site_of_heap s w.
Proof. by intros (_ & _ & ? & _ & _ & ? & _). Qed.

Lemma wrap_site_bounds ops i o s w :
  wrap_site_of ops i o s w → ni w < length (lin w) ∧ no w < length (lout w).
Proof.
  intros (_ & _ & _ & Hni & _ & _ & Hno & _).
  split; by eapply py_norm_lt.
Qed.

Lemma length_redirected_outputs ops i o s w :
  wrap_site_of ops i o s w →
  length (redirected_outputs s w) = length (lout w).
Proof.
  intros Hw. pose proof (wrap_site_heap _ _ _ _ _ Hw) as [Hlin Hlout].
  unfold redirected_outputs, redirected_inputs. rewrite length_insert.
  case_decide as Hd; [|done]. rewrite length_insert.
  rewrite Hd in Hlin. congruence.
Qed.

(** C7. For a chain whose first operator has a rank-4 tensor at
    [input_idx] and whose last operator has one at [output_idx], the wrapper
    returns [[pre-transpose] ++ chain ++ [post-transpose]]. The pre-transpose
    reads the original input tensor and the post-transpose writes the
    original output tensor; the two positions of the chain are redirected to
    two new transform tensors that carry the permuted shape and the
    quantization of the originals; no other position of any list of the
    store changes. *)
Theorem wrap_ops_with_nhwc_nchw_transposes_spec ops input_idx output_idx s w :
  wrap_site_of ops input_idx output_idx s w →
  let s' := wrap_state s w in
  wrap_ops_with_nhwc_nchw_transposes ops input_idx output_idx s =
    (Ok ([pre_transpose s] ++ ops ++ [post_transpose s]), s')
  ∧ resolve s' (pre_transpose s) =
      (TRANSPOSE, [Some (orig_input w); Some (nchw2nhwc_perm_tensor s w)],
       [Some (new_input s w)])
  ∧ resolve s' (post_transpose s) =
      (TRANSPOSE, [Some (new_output s w); Some (nhwc2nchw_perm_tensor s w)],
       [Some (orig_output w)])
  ∧ (has_buffer (new_input s w) = false
     ∧ shape (new_input s w) = permute_shape (shape (orig_input w)) [0; 2; 3; 1]%Z
     ∧ quantization (new_input s w) = quantization (orig_input w))
  ∧ (has_buffer (new_output s w) = false
     ∧ shape (new_output s w) = permute_shape (shape (orig_output w)) [0; 2; 3; 1]%Z
     ∧ quantization (new_output s w) = quantization (orig_output w))
  ∧ (∃ l, heap s' !! outputs (last_op w) = Some l
          ∧ l !! no w = Some (Some (new_output s w)))
  ∧ (∃ l, heap s' !! inputs (first_op w) = Some l
          ∧ (l !! ni w = Some (Some (new_input s w))
             ∨ inputs (first_op w) = outputs (last_op w) ∧ ni w = no w))
  ∧ (∀ r l, heap s !! r = Some l →
       ∃ l', heap s' !! r = Some l' ∧ length l' = length l
             ∧ ∀ j, l' !! j ≠ l !! j →
                    r = inputs (first_op w) ∧ j = ni w
                    ∨ r = outputs (last_op w) ∧ j = no w).
Proof.
  intros Hw s'.
  pose proof (wrap_site_heap _ _ _ _ _ Hw) as Hh.
  pose proof (wrap_site_bounds _ _ _ _ _ Hw) as [Hni Hno].
  pose proof (length_redirected_outputs _ _ _ _ _ Hw) as Hlen.
  pose proof Hh as [Hlin Hlout].
  split_and!.
  - destruct (wp_total_run
                (wrap_ops_with_nhwc_nchw_transposes ops input_idx output_idx)
                (λ r s1, r = wrap_chain s ops ∧ s1 = wrap_state s w) s)
      as (r & s1 & -> & -> & ->); [|done].
    eapply wp_wrap_ok; [exact Hw|done].
  - unfold resolve, s', wrap_state, pre_transpose. st_simpl. cbn [op inputs outputs].
    rewrite <-(Nat.add_0_r (length (heap s))) at 1.
    rewrite (wrap_heap_fresh s w 0 _ Hh eq_refl).
    replace (S (length (heap s))) with (length (heap s) + 1) by lia.
    by rewrite (wrap_heap_fresh s w 1 _ Hh eq_refl).
  - unfold resolve, s', wrap_state, post_transpose. st_simpl. cbn [op inputs outputs].
    replace (S (S (S (length (heap s))))) with (length (heap s) + 3) by lia.
    replace (S (S (length (heap s)))) with (length (heap s) + 2) by lia.
    rewrite (wrap_heap_fresh s w 2 _ Hh eq_refl).
    by rewrite (wrap_heap_fresh s w 3 _ Hh eq_refl).
  - done.
  - done.
  - done.
  - done.
  - done.
  - done.
  - exists (redirected_outputs s w). split.
    + unfold s', wrap_state. st_simpl.
      rewrite (wrap_heap_old s w _ _ Hh Hlout). by rewrite decide_True.
    + unfold redirected_outputs. apply list_lookup_insert_eq.
      case_decide as Hd; [|done]. unfold redirected_inputs.
      rewrite length_insert. rewrite Hd in Hlin. congruence.
  - unfold s', wrap_state. st_simpl.
    rewrite (wrap_heap_old s w _ _ Hh Hlin). eexists; split; [done|].
    case_decide as Hd.
    + unfold redirected_outputs. rewrite decide_True by done.
      destruct (decide (ni w = no w)) as [Heq|Hne]; [by right|left].
      rewrite list_lookup_insert_ne by done.
      unfold redirected_inputs. by apply list_lookup_insert_eq.
    + rewrite decide_True by done. left.
      unfold redirected_inputs. by apply list_lookup_insert_eq.
  - intros r l Hl. unfold s', wrap_state. st_simpl.
    rewrite (wrap_heap_old s w _ _ Hh Hl). eexists; split; [done|].
    destruct (decide (outputs (last_op w) = r)) as [<-|Hro].
    + assert (l = lout w) as -> by congruence. split; [done|].
      intros j Hj. unfold redirected_outputs in Hj.
      destruct (decide (j = no w)) as [->|Hjo]; [by right|].
      rewrite list_lookup_insert_ne in Hj by done.
      case_decide as Hd; [|done].
      assert (lin w = lout w) as Heq by (rewrite Hd in Hlin; congruence).
      unfold redirected_inputs in Hj. rewrite Heq in Hj.
      destruct (decide (j = ni w)) as [->|Hji]; [by left|].
      by rewrite list_lookup_insert_ne in Hj.
    + destruct (decide (inputs (first_op w) = r)) as [<-|Hri].
      * assert (l = lin w) as -> by congruence.
        unfold redirected_inputs. rewrite length_insert. split; [done|].
        intros j Hj. destruct (decide (j = ni w)) as [->|Hji]; [by left|].
        by rewrite list_lookup_insert_ne in Hj.
      * done.
Qed.

Lemma wrap_ops_with_nhwc_nchw_transposes_witness :
  wrap_ops_with_nhwc_nchw_transposes [example_conv_op] 0 0 conv2d_example =
    (Ok ([pre_transpose conv2d_example] ++ [example_conv_op] ++
         [post_transpose conv2d_example]),
     wrap_state conv2d_example example_site).
Proof.
  refine (proj1 (wrap_ops_with_nhwc_nchw_transposes_spec
                   [example_conv_op] 0 0 conv2d_example example_site _)).
  repeat split; reflexivity.
Defined.

(** The wrapper returns in no other situation. *)
Lemma wrap_ops_returns_inv ops i o s r s' :
  wrap_ops_with_nhwc_nchw_transposes ops i o s = (Ok r, s') →
  ∃ w, wrap_site_of ops i o s w ∧ r = wrap_chain s ops
       ∧ s' = wrap_state s w.
Proof.
  apply (wp_run any_exn _
           (λ r s', ∃ w, wrap_site_of ops i o s w ∧ r = wrap_chain s ops
                         ∧ s' = wrap_state s w)).
  apply wp_wrap_any. eauto.
Qed.
End wrap_rules.

(** * The steps of the convolution lowering *)

Section conv_rules.
Context {Mapping : Type} `{!GraphConverter Mapping}.
Import TransformableOperator GenericConvOperator.

Lemma wp_select_primitive_any input_tensor weight_tensor
    (Q : BaseOperator → State → Prop) s :
  (∀ sh sw dh dw,
     stride s !! 0 = Some sh → stride s !! 1 = Some sw →
     dilation s !! 0 = Some dh → dilation s !! 1 = Some dw →
     Q (conv_primitive (selects_depthwise weight_tensor (groups s)) s
                       sh sw dh dw)
       (warned input_tensor weight_tensor s)) →
  wp any_exn (select_primitive input_tensor weight_tensor) Q s.
Proof.
  intros H. unfold select_primitive.
  wp_step. wp_step. wp_step. apply py_getitem_1 in Hr.
  destruct (bool_decide (a = 1)) eqn:Ha.
  - apply bool_decide_eq_true in Ha as ->.
    wp_step. wp_step. wp_step. wp_step. wp_step. wp_step. wp_step. wp_step.
    getitems.
    assert (selects_depthwise weight_tensor (groups s)
            = bool_decide (Z.of_nat a = groups s)) as Hsel.
    { unfold selects_depthwise. rewrite Hr, Hr0.
      rewrite (bool_decide_eq_true_2 (Some 1 = Some 1)) by done.
      apply bool_decide_ext. simpl. split; [by intros [= ?]|by intros ->]. }
    unfold warned, channels_differ in H. rewrite Hsel in H.
    destruct (bool_decide (Z.of_nat a = groups s)) eqn:Hg;
      repeat wp_step; st_simpl; getitems.
    + by apply H.
    + rewrite Hr in H. 
      match goal with Hi : shape input_tensor !! 1 = Some _ |- _ =>
        rewrite Hi in H end.
      simpl in H. rewrite bool_decide_eq_true_2 in H by congruence.
      by apply H.
    + rewrite Hr in H. 
      match goal with Hi : shape input_tensor !! 1 = Some _ |- _ =>
        rewrite Hi in H end.
      simpl in H. rewrite bool_decide_eq_false_2 in H by naive_solver.
      by apply H.
  - apply bool_decide_eq_false in Ha.
    assert (selects_depthwise weight_tensor (groups s) = false) as Hsel.
    { unfold selects_depthwise. rewrite Hr.
      rewrite bool_decide_eq_false_2; [done|congruence]. }
    unfold warned, channels_differ in H. rewrite Hsel in H.
    repeat wp_step; st_simpl; getitems.
    + rewrite Hr in H. 
      match goal with Hi : shape input_tensor !! 1 = Some _ |- _ =>
        rewrite Hi in H end.
      simpl in H. rewrite bool_decide_eq_true_2 in H by congruence.
      by apply H.
    + rewrite Hr in H. 
      match goal with Hi : shape input_tensor !! 1 = Some _ |- _ =>
        rewrite Hi in H end.
      simpl in H. rewrite bool_decide_eq_false_2 in H by naive_solver.
      by apply H.
Qed.

Lemma np_pad_inv a pad_h pad_w arr :
  np_pad a (pad_amounts pad_h pad_w) = Ok arr →
  ndim a = 4 ∧ (0 ≤ pad_h)%Z ∧ (0 ≤ pad_w)%Z ∧
  arr = padded_array a pad_h pad_w.
Proof.
  unfold np_pad. destruct (_ && _) eqn:Hc; [|done].
  intros [= <-]. apply andb_true_iff in Hc as [Hn Hp].
  apply bool_decide_eq_true in Hn. simpl in Hn, Hp.
  split_and!; [done|lia..|done].
Qed.

Lemma np_pad_ok a pad_h pad_w :
  ndim a = 4 → (0 ≤ pad_h)%Z → (0 ≤ pad_w)%Z →
  np_pad a (pad_amounts pad_h pad_w) = Ok (padded_array a pad_h pad_w).
Proof.
  intros Hn Hh Hw. unfold np_pad.
  rewrite bool_decide_eq_true_2 by done. simpl.
  by rewrite !(proj2 (Z.leb_le 0 _)) by done.
Qed.

Lemma wp_pad_handling_any ops (Q : list BaseOperator → State → Prop) s :
  ((0 < py_sum (padding s))%Z →
   ∀ pad_h pad_w first second lo pad_input b l,
     padding s !! 0 = Some pad_h → padding s !! 1 = Some pad_w →
     ops !! 0 = Some first → ops !! 1 = Some second →
     heap s !! outputs first = Some lo → lo !! 0 = Some (Some pad_input) →
     (0 ≤ pad_h)%Z → (0 ≤ pad_w)%Z → ndim (tensor pad_input) = 4 →
     first_output_name (current_outputs s) = Some b →
     heap s !! inputs second = Some l → 0 < length l →
     Q (py_insert ops 1 (pad_operator s))
       (pad_state s b (inputs second) l pad_input pad_h pad_w)) →
  (¬ (0 < py_sum (padding s))%Z → Q ops s) →
  wp any_exn (pad_handling ops) Q s.
Proof.
  intros Hpad Hno. unfold pad_handling.
  wp_step. wp_step.
  destruct (bool_decide (0 < py_sum (padding s))%Z) eqn:Hsum; getitems;
    [|by apply wp_ret, Hno].
  wp_lift as pad_h Hph. wp_lift as pad_w Hpw.
  wp_step. apply wp_create_attr_tensor_any. intros b Hb. st_simpl.
  wp_lift as first Hfirst.
  wp_step. wp_step.
  apply wp_getitem_any. intros lo n x Hlo Hn Hx. st_simpl_in Hlo.
  wp_the as pad_input.
  wp_lift as arr Harr.
  wp_step. apply wp_create_transform_tensor_any. intros b' Hb'. st_simpl.
  wp_lift as second Hsecond.
  wp_step. apply wp_setitem_any. intros l n' Hl Hn'. st_simpl.
  wp_step. apply wp_new_operator. st_simpl. wp_step.
  getitems. st_simpl_in Hl. st_simpl_in Hb'.
  rewrite current_outputs_counters in Hb'. unfold current_outputs in Hb.
  rewrite Hb in Hb'. injection Hb' as <-.
  apply py_norm_nonneg_inv in Hn; [|done]. apply py_norm_lt in Hn' as Hlt.
  apply py_norm_nonneg_inv in Hn'; [|done]. vm_compute in Hn, Hn'. subst n n'.
  apply np_pad_inv in Harr as (Hd & Hh & Hw & ->).
  rewrite length_insert.
  apply (Hpad Hsum pad_h pad_w first second lo pad_input b l); auto with lia.
Qed.

Lemma wp_reorder_weight_any conv_op perm
    (Q : BaseOperator → State → Prop) s :
  perm = nchw2nhwc_perm ∨ perm = nchw2chwn_perm ∨ perm = nhwc2nchw_perm →
  (∀ l weight b,
     heap s !! inputs conv_op = Some l → l !! 1 = Some (Some weight) →
     ndim (tensor weight) = 4 →
     first_output_name (current_outputs s) = Some b →
     Q (reorder_operator s)
       (reorder_state s b (inputs conv_op) l weight perm)) →
  wp any_exn (reorder_weight conv_op perm) Q s.
Proof.
  intros Hperm H. unfold reorder_weight.
  wp_step. apply wp_getitem_any. intros l n x Hl Hn Hx.
  wp_step. apply wp_create_attr_tensor_any. intros b Hb. st_simpl.
  wp_the as weight.
  wp_lift as arr Harr.
  wp_step. apply wp_create_transform_tensor_any. intros b' Hb'. st_simpl.
  wp_step. apply wp_setitem_any. intros l' n' Hl' Hn'. st_simpl.
  apply wp_new_operator. st_simpl.
  st_simpl_in Hl'. st_simpl_in Hb'.
  rewrite current_outputs_counters in Hb'. unfold current_outputs in Hb.
  rewrite Hb in Hb'. injection Hb' as <-.
  rewrite Hl in Hl'. injection Hl' as <-.
  rewrite Hn in Hn'. injection Hn' as <-.
  apply py_norm_nonneg_inv in Hn; [|done]. vm_compute in Hn. subst n.
  apply np_transpose_4_inv in Harr as [Hd ->]; [|done].
  rewrite length_insert.
  by apply (H l weight b).
Qed.

Lemma wp_weight_handling_any ops conv_op
    (Q : list BaseOperator → State → Prop) s :
  (∀ l weight b,
     heap s !! inputs conv_op = Some l → l !! 1 = Some (Some weight) →
     ndim (tensor weight) = 4 →
     first_output_name (current_outputs s) = Some b →
     Q (py_insert ops 1 (reorder_operator s))
       (reorder_state s b (inputs conv_op) l weight (weight_perm conv_op))) →
  wp any_exn (weight_handling ops conv_op) Q s.
Proof.
  intros H. unfold weight_handling, weight_perm in *. wp_step.
  destruct (bool_decide (op conv_op = DEPTHWISE_CONV_2D));
    (apply wp_reorder_weight_any; [auto|]);
    intros l weight b ????; apply wp_ret; by apply H.
Qed.

Lemma wp_bias_handling_any conv_op (Q : unit → State → Prop) s :
  (∀ lw w k0 kernel_num l,
     heap s !! self_inputs s = Some lw → lw !! 1 = Some (Some w) →
     shape w !! 0 = Some k0 →
     shape w !! (if bool_decide (op conv_op = DEPTHWISE_CONV_2D)
                 then 3 else 0) = Some kernel_num →
     heap s !! inputs conv_op = Some l →
     (length l = 2 ∨ l !! 2 = Some None →
      ∀ x b, l !! 0 = Some (Some x) →
             first_output_name (current_outputs s) = Some b →
             Q () (bias_state s b (inputs conv_op) l kernel_num
                              (tensor_dtype x)))
     ∧ (length l ≠ 2 →
        ∀ bias b0, l !! 2 = Some (Some bias) → shape bias !! 0 = Some b0 →
                   ¬ (b0 ≠ kernel_num ∧ b0 = 1) → Q () s)) →
  wp any_exn (bias_handling conv_op) Q s.
Proof.
  intros H. unfold bias_handling.
  wp_step. wp_step. wp_step. wp_step.
  apply wp_getitem_any. intros lw n w Hlw Hn Hw.
  apply py_norm_nonneg_inv in Hn; [|done]. vm_compute in Hn. subst n.
  wp_the as wt. wp_lift as k0 Hk0.
  apply wp_bind.
  apply wp_mono with
    (Q := λ kernel_num s',
       s' = s ∧
       shape wt !! (if bool_decide (op conv_op = DEPTHWISE_CONV_2D)
                    then 3 else 0) = Some kernel_num).
  2:{ destruct (bool_decide (op conv_op = DEPTHWISE_CONV_2D)).
      - wp_step. getitems. done.
      - wp_step. getitems. done. }
  intros kernel_num ? [-> Hk].
  wp_step. wp_step. rename l into lc.
  getitems.
  specialize (H lw wt k0 kernel_num lc Hlw Hw Hk0 Hk Hl) as [Hnone Hsome].
  apply wp_bind.
  apply wp_mono with
    (Q := λ (no_bias : bool) s',
       s' = s ∧
       if no_bias then length lc = 2 ∨ lc !! 2 = Some None
       else length lc ≠ 2 ∧ ∃ bias, lc !! 2 = Some (Some bias)).
  2:{ destruct (bool_decide (length lc = 2)) eqn:Hlen; getitems.
      - wp_step. split; [done|by left].
      - wp_lift as bo Hbo. wp_step. apply (py_getitem_nat _ 2) in Hbo.
        destruct bo; split; eauto. }
  intros no_bias ? [-> Hcase]. destruct no_bias.
  - wp_step. wp_step. apply wp_getitem_any. intros l0 n x Hl0 Hn Hx.
    apply py_norm_nonneg_inv in Hn; [|done]. vm_compute in Hn. subst n.
    wp_the as xt.
    wp_step. apply wp_create_attr_tensor_any. intros b Hb. st_simpl.
    wp_step. wp_step. wp_step. st_simpl.
    st_simpl_in Hl1. rewrite Hl in Hl0, Hl1.
    injection Hl0 as <-. injection Hl1 as <-.
    by apply (Hnone Hcase xt b).
  - destruct Hcase as [Hlen [bias Hbias]].
    wp_step. wp_step. apply wp_getitem_any. intros l0 n x Hl0 Hn Hx.
    apply py_norm_nonneg_inv in Hn; [|done]. vm_compute in Hn. subst n.
    rewrite Hl in Hl0. injection Hl0 as <-.
    rewrite Hbias in Hx. injection Hx as <-.
    wp_step. wp_lift as b0 Hb0. getitems.
    destruct (bool_decide (b0 ≠ kernel_num) && bool_decide (b0 = 1)) eqn:Hc.
    + wp_step. wp_step. apply wp_getitem_any. intros. repeat wp_step.
    + wp_step. apply (Hsome Hlen bias b0); [done..|].
      intros [??]. apply andb_false_iff in Hc as [Hc|Hc];
        apply bool_decide_eq_false in Hc; done.
Qed.
End conv_rules.

(** ** Emission and dimensionality normalization *)

Section emission.
Context {Mapping : Type} `{!GraphConverter Mapping}.

Lemma wp_emit_all E t ops (Q : unit → State → Prop) s :
  Q () (emit_all t ops s) →
  wp E (forM_ ops (λ o, add_operator o t)) Q s.
Proof.
  revert s. induction ops as [|o ops IH]; intros s H; [done|].
  simpl. apply wp_bind, wp_add_operator. by apply IH.
Qed.

Lemma emit_all_spec t ops s :
  emit_all t ops s =
    set_graph (emitted s ++ ((λ o, (o, t)) <$> ops))
              (graph (emit_all t ops s)) s.
Proof.
  revert s. induction ops as [|o ops IH]; intros s.
  - simpl. rewrite app_nil_r. by destruct s.
  - simpl. rewrite IH. st_simpl. by rewrite <-app_assoc.
Qed.

Lemma emit_all_emitted t ops s :
  emitted (emit_all t ops s) = emitted s ++ ((λ o, (o, t)) <$> ops).
Proof. by rewrite emit_all_spec. Qed.

Lemma emit_all_heap t ops s : heap (emit_all t ops s) = heap s.
Proof. by rewrite emit_all_spec. Qed.

Lemma py_insert_0 {A} (l : list A) x : py_insert l 0 x = x :: l.
Proof.
  unfold py_insert. change (0 <? 0)%Z with false. cbv beta iota zeta.
  by replace (Z.to_nat (0 `min` Z.of_nat (length l))) with 0 by lia.
Qed.

Import GenericConvOperator.

Lemma wp_normalize_dims_any input_dim weight_dim (Q : _ → State → Prop)
    s ox ow rest :
  heap s !! self_inputs s = Some (ox :: ow :: rest) →
  (∀ r s1,
     normalized (bool_decide (weight_dim = 3) || bool_decide (input_dim = 3))
                (bool_decide (weight_dim = 3)) s ox ow rest r s1 →
     (bool_decide (weight_dim = 3) || bool_decide (input_dim = 3) = false →
      weight_dim = 4) →
     Q r s1) →
  wp any_exn (normalize_dims input_dim weight_dim) Q s.
Proof.
  intros Hlin H. unfold normalize_dims.
  destruct (bool_decide (weight_dim = 3) || bool_decide (input_dim = 3))
    eqn:Hdoes.
  - apply wp_bind.
    destruct (bool_decide (weight_dim = 3)) eqn:Hboth.
    + unfold extend_conv_params. apply wp_modify. rewrite !py_insert_0.
      apply (wp_reshape_to_4d_any true Q s ox ow rest Hlin).
      intros r s1 Hn. by apply H.
    + apply wp_ret.
      apply (wp_reshape_to_4d_any false Q s ox ow rest Hlin).
      intros r s1 Hn. by apply H.
  - destruct (bool_decide (weight_dim ≠ 4)) eqn:H4; [done|].
    apply bool_decide_eq_false in H4. apply wp_ret, H; [done|].
    intros _. by destruct (decide (weight_dim = 4)).
Qed.
End emission.

(** * The lowering of a convolution, step by step *)

Section conv_lowering_rules.
Import TransformableOperator.

Lemma same_node_trans s1 s2 s3 :
  same_node s1 s2 → same_node s2 s3 → same_node s1 s3.
Proof. unfold same_node. intros ? ?. destruct_and!. split_and!; congruence. Qed.

Lemma same_node_pad_state s b r l t h w :
  same_node s (pad_state s b r l t h w).
Proof. by repeat split. Qed.

Lemma same_node_reorder_state s b r l t p :
  same_node s (reorder_state s b r l t p).
Proof. by repeat split. Qed.

Lemma same_node_bias_state s b r l k d :
  same_node s (bias_state s b r l k d).
Proof. by repeat split. Qed.

Lemma wrap_conv_inputs conv s site x' ow rest :
  wrap_site_of [conv] 0 0 s site →
  heap s !! inputs conv = Some (Some x' :: ow :: rest) →
  first_op site = conv ∧ last_op site = conv ∧ orig_input site = x' ∧
  ∃ c, wrap_heap s site !! inputs conv = Some (Some c :: ow :: rest) ∧
       (inputs conv ≠ outputs conv → c = new_input s site).
Proof.
  intros Hsite Hin.
  pose proof (wrap_site_heap _ _ _ _ _ Hsite) as Hheap.
  destruct Hsite as (Hf & Hl & Hlin & Hni & Hoi & Hlout & Hno & Hoo & _).
  injection Hf as Hf. injection Hl as Hl.
  rewrite <-Hf in Hlin. rewrite Hin in Hlin. injection Hlin as Hlin.
  rewrite <-Hlin in Hni, Hoi.
  apply py_norm_nonneg_inv in Hni; [|done]. cbn in Hni.
  apply py_norm_nonneg_inv in Hno; [|done]. cbn in Hno.
  rewrite Hni in Hoi. injection Hoi as Hoi.
  split_and!; [done..|].
  rewrite (wrap_heap_old _ _ _ _ Hheap Hin).
  unfold redirected_outputs, redirected_inputs.
  rewrite <-Hlin, Hni, Hno, <-Hf, <-Hl.
  destruct (decide (outputs conv = inputs conv)) as [Heq|Hne].
  - rewrite decide_True by done. eexists. split; [done|]. by intros [].
  - rewrite decide_True by done. eexists. split; [done|]. done.
Qed.

Lemma normalized_inv does both s x w rest r s1 :
  (both = true → does = true) →
  heap s !! self_inputs s = Some (Some x :: Some w :: rest) →
  normalized does both s (Some x) (Some w) rest r s1 →
  ∃ x' w',
    heap s1 !! self_inputs s1 = Some (Some x' :: Some w' :: rest) ∧
    lifted_if does x x' ∧ lifted_if both w w' ∧
    length r.1 + length r.2 = (if does then if both then 3 else 2 else 0) ∧
    Forall (λ o, op o = RESHAPE) (r.1 ++ r.2) ∧
    stride s1 = (if both then 1%Z :: stride s else stride s) ∧
    padding s1 = (if both then 0%Z :: padding s else padding s) ∧
    dilation s1 = (if both then 1%Z :: dilation s else dilation s) ∧
    output_padding s1 =
      (if both then 0%Z :: output_padding s else output_padding s) ∧
    groups s1 = groups s ∧
    fusedActivationFunction s1 = fusedActivationFunction s ∧
    warnings s1 = warnings s ∧ emitted s1 = emitted s ∧
    (if does
     then length (heap s) ≤ self_inputs s1 ∧ length (heap s) ≤ self_outputs s1 ∧
          self_inputs s1 ≠ self_outputs s1
     else s1 = s).
Proof.
  intros Hb Hlin. unfold normalized, lifted_if. destruct does.
  - intros (x0 & x' & y & y' & ow' & lo_rest & ext & [= <-] & Hx & Hy & Hy' & Hw
            & Hh & Hi & Ho & Hio & Hin & Hout & Hl1 & Hl2 & Hre & Hrest).
    destruct both.
    + destruct Hw as (w0 & w' & [= <-] & -> & Hw).
      exists x', w'. rewrite Hl1, Hl2. by destruct_and!.
    + subst ow'. exists x', w. rewrite Hl1, Hl2. by destruct_and!.
  - intros [-> ->]. destruct both; [by specialize (Hb eq_refl)|].
    exists x, w. by rewrite Hlin.
Qed.

Lemma warned_same_node x w s :
  warned x w s
  = set_warnings
      (warnings s ++
       (if negb (selects_depthwise w (groups s)) && channels_differ x w
        then [GenericConvOperator.group_conv_warning] else [])) s.
Proof.
  unfold warned. destruct (_ && _); [done|].
  rewrite app_nil_r. by destruct s.
Qed.

Lemma lifted_if_dtype b t t' :
  lifted_if b t t' → tensor_dtype t' = tensor_dtype t.
Proof. destruct b; [by intros (_ & ? & _)|by intros ->]. Qed.


Lemma lookup_update_app {A} (h ext : list A) r l l' :
  h !! r = Some l → (<[r := l']> h ++ ext) !! r = Some l'.
Proof.
  intros H. apply lookup_app_l_Some, list_lookup_insert_eq.
  by eapply lookup_lt_Some.
Qed.

Lemma py_insert_after_head {A} (x : A) (l : list A) z :
  py_insert (x :: l) 1 z = x :: z :: l.
Proof.
  unfold py_insert. change (1 <? 0)%Z with false. cbv beta iota zeta.
  replace (Z.to_nat (1 `min` Z.of_nat (length (x :: l)))) with 1
    by (simpl length; lia).
  done.
Qed.

Lemma kernel_num_spec s b w conv :
  ndim (tensor w) = 4 →
  shape (reordered_weight s b w (weight_perm conv))
    !! (if bool_decide (op conv = DEPTHWISE_CONV_2D) then 3 else 0)
  = shape w !! 0.
Proof.
  unfold ndim, weight_perm. change (nd_shape (tensor w)) with (shape w).
  intros H. unfold reordered_weight, shape at 1. cbn [tensor nd_shape].
  destruct (shape w) as [|a [|b' [|c [|d [|]]]]]; try done.
  by destruct (bool_decide (op conv = DEPTHWISE_CONV_2D)).
Qed.

Lemma weight_perm_conv_primitive d s sh sw dh dw :
  weight_perm (conv_primitive d s sh sw dh dw)
  = if d then nchw2chwn_perm else nchw2nhwc_perm.
Proof. by destruct d. Qed.

Lemma conv_primitive_ext d s s' sh sw dh dw :
  self_inputs s' = self_inputs s → self_outputs s' = self_outputs s →
  fusedActivationFunction s' = fusedActivationFunction s →
  conv_primitive d s sh sw dh dw = conv_primitive d s' sh sw dh dw.
Proof. unfold conv_primitive. by intros -> -> ->. Qed.

End conv_lowering_rules.

Section lower.
Context {Mapping : Type} `{!GraphConverter Mapping}.
Import TransformableOperator GenericConvOperator.

Lemma emitted_state_fields t ops s E G :
  let sf := set_graph E G (emit_all t ops s) in
  heap sf = heap s ∧ self_inputs sf = self_inputs s ∧
  self_outputs sf = self_outputs s ∧ stride sf = stride s ∧
  padding sf = padding s ∧ dilation sf = dilation s ∧
  output_padding sf = output_padding s ∧ groups sf = groups s ∧
  fusedActivationFunction sf = fusedActivationFunction s ∧
  warnings sf = warnings s ∧ emitted sf = E.
Proof. rewrite emit_all_spec. by repeat split. Qed.

Lemma lower_outcome (mapping : Mapping) s :
  wp any_exn (lower mapping) (λ ops s', ∃ p, conv_lowered s ops s' p) s.
Proof.
  unfold lower.
  wp_any. wp_any. wp_any. wp_any.
  rename l into lin, x into ox, Hl into Hlin, Hx into Hox.
  apply py_norm_nonneg_inv in Hn; [|done]. vm_compute in Hn. subst n.
  wp_any. wp_any. rename x into ow, Hx into How.
  rewrite Hlin in Hl. injection Hl as <-.
  apply py_norm_nonneg_inv in Hn; [|done]. vm_compute in Hn. subst n.
  wp_the as x. wp_the as w.
  destruct lin as [|? [|? rest]]; try done.
  injection Hox as ->. injection How as ->.
  wp_any. apply (wp_normalize_dims_any _ _ _ _ _ _ _ Hlin).
  intros r s1 Hnorm H4.
  apply normalized_inv in Hnorm as (x' & w' & Hlin1 & Hx' & Hw' & Hlen & Hre
    & Hstride & Hpadding & Hdilation & Hop & Hgroups & Hfused & Hwarn & Hemit
    & Hframe); [|by intros ->|done].
  wp_any. wp_any. apply wp_bind.
  apply (wp_mono _ _ (λ b s', s' = s1 ∧ b = w')).
  2:{ destruct (_ || _) eqn:Hdoes.
      - apply wp_bind, wp_getitem_any. intros l n o Hl Hn Ho.
        rewrite Hlin1 in Hl. injection Hl as <-.
        apply py_norm_nonneg_inv in Hn; [|done]. vm_compute in Hn. subst n.
        injection Ho as <-. by apply wp_the_any; intros ? [= <-].
      - apply wp_ret. split; [done|].
        apply orb_false_iff in Hdoes as [Hb _]. rewrite Hb in Hw'.
        exact (eq_sym Hw'). }
  intros ? ? [-> ->].
  apply wp_bind, wp_select_primitive_any. intros sh sw dh dw Hsh Hsw Hdh Hdw.
  rewrite warned_same_node.
  set (extra := if _ && _ then _ else _).
  apply wp_bind, wp_wrap_any. intros site Hsite.
  set (conv := conv_primitive _ _ _ _ _ _) in *.
  set (s2 := set_warnings _ s1) in *.
  assert (heap s2 !! inputs conv = Some (Some x' :: Some w' :: rest)) as Hin2
    by done.
  destruct (wrap_conv_inputs _ _ _ _ _ _ Hsite Hin2)
    as (Hfo & Hlo & Hoi & c3 & Hc3 & Hc3eq).
  pose proof (wrap_site_heap _ _ _ _ _ Hsite) as Hsh2.
  pose proof (wrap_heap_fresh s2 site 1 _ Hsh2 eq_refl) as Hpre_out.
  set (s3 := wrap_state s2 site) in *.
  wp_lift as conv0 Hconv0. apply py_getitem_1 in Hconv0. injection Hconv0 as <-.
  apply wp_bind.
  apply (wp_mono _ _ (λ ops4 s4, ∃ pads c4,
    ops4 = pre_transpose s2 :: pads ++ [conv; post_transpose s2] ∧
    Forall (λ o, op o = PAD) pads ∧
    length pads = (if bool_decide (0 < py_sum (padding s1))%Z then 1 else 0) ∧
    same_node s3 s4 ∧
    heap s4 !! inputs conv = Some (Some c4 :: Some w' :: rest) ∧
    (inputs conv ≠ outputs conv → tensor_dtype c4 = tensor_dtype x'))).
  2:{ apply wp_pad_handling_any.
      - intros Hsum pad_h pad_w first second lo pad_input b l Hph Hpw Hfirst
          Hsecond Hlo3 Hpi Hph0 Hpw0 Hnd Hb Hl Hlen'.
        injection Hfirst as <-. injection Hsecond as <-.
        exists [pad_operator s3], (pad_out s3 b pad_input pad_h pad_w).
        split_and!.
        + apply py_insert_1.
        + by repeat constructor.
        + by rewrite bool_decide_eq_true_2.
        + apply same_node_pad_state.
        + change (heap s3) with (wrap_heap s2 site) in Hl.
          rewrite Hc3 in Hl. injection Hl as <-.
          by eapply lookup_update_app.
        + intros _. change (heap s3) with (wrap_heap s2 site) in Hlo3.
          change (outputs (pre_transpose s2)) with (S (length (heap s2))) in Hlo3.
          rewrite Nat.add_1_r in Hpre_out. rewrite Hpre_out in Hlo3.
          injection Hlo3 as <-. injection Hpi as <-. by subst x'.
      - intros Hsum. exists [], c3. split_and!; try done.
        + by rewrite bool_decide_eq_false_2.
        + intros Hne. rewrite (Hc3eq Hne). by subst x'. }
  intros ops4 s4 (pads & c4 & -> & Hpads & Hlpads & Hsame4 & Hin4 & Hc4).
  apply wp_bind, wp_weight_handling_any. intros l5 weight b5 Hl5 Hweight Hw4 Hb5.
  rewrite Hin4 in Hl5. injection Hl5 as <-. injection Hweight as <-.
  rewrite py_insert_after_head.
  set (s5 := reorder_state _ _ _ _ _ _).
  set (rw := reordered_weight s4 b5 w' (weight_perm conv)).
  assert (heap s5 !! inputs conv = Some (Some c4 :: Some rw :: rest)) as Hin5.
  { by eapply lookup_update_app. }
  assert (inputs conv < length (heap s4)) as Hlt by (by eapply lookup_lt_Some).
  assert (heap s5 !! inputs (reorder_operator s4)
          = Some [Some w'; Some (weight_perm_tensor s4 b5 (weight_perm conv))])
    as Hrin.
  { unfold s5, reorder_state. st_simpl.
    rewrite (lookup_app_at _ _ _ 0); [done|]. rewrite length_insert. simpl. lia. }
  assert (heap s5 !! outputs (reorder_operator s4) = Some [Some rw]) as Hrout.
  { unfold s5, reorder_state. st_simpl.
    rewrite (lookup_app_at _ _ _ 1); [done|]. rewrite length_insert. simpl. lia. }
  assert (same_node s3 s5) as Hsame5.
  { eapply same_node_trans; [done|]. apply same_node_reorder_state. }
  apply wp_bind.
  apply (wp_mono _ _ (λ _ s6, ∃ bias,
    same_node s3 s6 ∧
    heap s6 !! inputs conv = Some (Some c4 :: Some rw :: rest ++ bias) ∧
    heap s6 !! inputs (reorder_operator s4)
      = Some [Some w'; Some (weight_perm_tensor s4 b5 (weight_perm conv))] ∧
    heap s6 !! outputs (reorder_operator s4) = Some [Some rw] ∧
    (rest = [] ∨ rest !! 0 = Some None →
     ∃ zb k, bias = [Some zb] ∧ shape w' !! 0 = Some k ∧
             has_buffer zb = true ∧
             tensor zb = if bool_decide (tensor_dtype c4 = float32)
                         then np_zeros k float32 else np_zeros k int32) ∧
    (∀ bt, rest !! 0 = Some (Some bt) →
           bias = [] ∧
           ∃ k b0, shape w' !! 0 = Some k ∧ shape bt !! 0 = Some b0 ∧
                   ¬ (b0 ≠ k ∧ b0 = 1)))).
  2:{ apply wp_bias_handling_any.
      intros lw rw' k0 kernel_num l6 Hlw Hrw Hk0 Hkn Hl6.
      assert (self_inputs s5 = inputs conv) as HI
        by (by destruct Hsame5 as (-> & _)).
      rewrite HI, Hin5 in Hlw. injection Hlw as <-. injection Hrw as <-.
      rewrite Hin5 in Hl6. injection Hl6 as <-.
      unfold rw in Hkn. rewrite kernel_num_spec in Hkn by done.
      assert (inputs conv < length (heap s5)) as Hlt5
        by (by eapply lookup_lt_Some).
      split.
      - intros Hnobias x0 b [= <-] Hb.
        exists [Some (zero_bias s5 b kernel_num (tensor_dtype c4))].
        assert (∀ bt, rest !! 0 ≠ Some (Some bt)) as Hrest.
        { intros bt Hbt. destruct Hnobias as [Hlen2|Hnone].
          - by destruct rest.
          - simpl in Hnone. congruence. }
        split_and!.
        + eapply same_node_trans; [done|]. apply same_node_bias_state.
        + unfold bias_state. st_simpl. by apply list_lookup_insert_eq.
        + unfold bias_state. st_simpl.
          rewrite list_lookup_insert_ne; [done|].
          change (inputs (reorder_operator s4)) with (length (heap s4)). lia.
        + unfold bias_state. st_simpl.
          rewrite list_lookup_insert_ne; [done|].
          change (outputs (reorder_operator s4)) with (S (length (heap s4))).
          lia.
        + intros _. eexists _, kernel_num. split_and!; done.
        + intros bt Hbt. by destruct (Hrest bt).
      - intros Hlen2 bias b0 Hbias Hb0 Hnot. exists [].
        rewrite app_nil_r. split_and!; try done.
        + intros [->|Hnone]; [done|]. simpl in Hbias. congruence.
        + intros bt Hbt. simpl in Hbias. rewrite Hbt in Hbias.
          injection Hbias as ->. split; [done|]. by exists kernel_num, b0. }
  intros [] s6 (bias & Hsame6 & Hin6 & Hrin6 & Hrout6 & Hnobias & Hbias).
  apply wp_bind, wp_emit_all. apply wp_bind, wp_try_restore_edges. apply wp_ret.
  rewrite emit_all_emitted.
  match goal with
  | |- ∃ p, conv_lowered _ _ (set_graph ?E ?G (emit_all ?t ?o ?st)) _ =>
      destruct (emitted_state_fields t o st E G)
        as (Hfh & HfI & HfO & Hfstride & Hfpad & Hfdil & Hfop & Hfg & Hff
            & Hfw & Hfe);
      set (sf := set_graph E G (emit_all t o st)) in *
  end.
  destruct Hsame6 as (H6I & H6O & H6stride & H6pad & H6dil & H6op & H6g & H6f
                      & H6w & H6e).
  change (self_inputs s3) with (inputs conv) in H6I.
  change (self_outputs s3) with (outputs conv) in H6O.
  change (stride s3) with (stride s1) in H6stride.
  change (padding s3) with (padding s1) in H6pad.
  change (dilation s3) with (dilation s1) in H6dil.
  change (output_padding s3) with (output_padding s1) in H6op.
  change (groups s3) with (groups s1) in H6g.
  change (fusedActivationFunction s3) with (fusedActivationFunction s1) in H6f.
  change (warnings s3) with (warnings s1 ++ extra) in H6w.
  change (emitted s3) with (emitted s1) in H6e.
  exists {| input_tensor := x; weight_tensor := w; rest_inputs := rest;
            input_4d := x'; weight_4d := w'; conv_input := c4;
            reordered := rw;
            perm_attr := weight_perm_tensor s4 b5 (weight_perm conv);
            bias_added := bias; prev_ops := r.1;
            transpose_in := pre_transpose s2;
            reorder_op := reorder_operator s4; pad_ops := pads;
            conv_op := conv; transpose_out := post_transpose s2;
            next_ops := r.2 |}.
  unfold conv_lowered, some_rank3, weight_rank3.
  cbn [input_tensor weight_tensor rest_inputs input_4d weight_4d conv_input
       reordered perm_attr bias_added prev_ops transpose_in reorder_op
       pad_ops conv_op transpose_out next_ops].
  change (ndim (tensor w)) with (length (shape w)).
  change (ndim (tensor x)) with (length (shape x)).
  rewrite <-Hgroups.
  split_and!.
  all: try done.
  - cbn [app]. by rewrite <-app_assoc.
  - rewrite Hlpads, Hpadding. by destruct (bool_decide (length (shape w) = 3)).
  - exists sh, sw, dh, dw.
    apply conv_primitive_ext;
      [by rewrite HfI, H6I | by rewrite HfO, H6O | by rewrite Hff, H6f].
  - congruence.
  - congruence.
  - congruence.
  - congruence.
  - rewrite HfI, HfO, H6I, H6O.
    destruct (_ || _); [by destruct Hframe as (? & ? & ?)|by subst s1].
  - rewrite Hfw, H6w. by rewrite Hwarn.
  - rewrite Hfe, H6e. by rewrite Hemit.
  - by rewrite Hfh.
  - unfold conv. by rewrite weight_perm_conv_primitive.
  - by rewrite Hfh.
  - unfold rw, conv. by rewrite weight_perm_conv_primitive.
  - by rewrite Hfh, HfI, H6I.
  - intros Hne. rewrite Hc4.
    + by eapply lifted_if_dtype.
    + change (self_inputs s1 ≠ self_outputs s1).
      destruct (_ || _); [by destruct Hframe as (? & ? & ?)|by subst s1].
Qed.
End lower.

(** * The lowerings on concrete nodes *)

(** C3, as amended. The end-to-end example of the design (input (1,3,8,8),
    weight (4,3,3,3), stride (1,1), padding (1,1), no bias, one group) emits
    exactly five operators, in the order transpose-in, transpose-weight,
    pad, convolution, transpose-out; the final output tensor is [y] of shape
    (1,4,8,8); the bias given to the convolution is an all-zero vector of
    shape (4,). *)
Theorem conv2d_example_lowering :
  let run := @GenericConvOperator.transform unit linking_converter ()
               conv2d_example in
  run.1 = Ok ()
  ∧ summary <$> emitted_chain run.2 =
      [(TRANSPOSE, [Some ("x", [1; 3; 8; 8]); Some ("y_te_attr_1", [4])],
        [Some ("y_te_transform", [1; 8; 8; 3])]);
       (TRANSPOSE,
        [Some ("w", [4; 3; 3; 3]); Some ("y_te_transform_1_te_attr_3", [4])],
        [Some ("y_te_transform_1_te_transform_3", [4; 3; 3; 3])]);
       (PAD,
        [Some ("y_te_transform", [1; 8; 8; 3]);
         Some ("y_te_transform_1_te_attr_2", [4; 2])],
        [Some ("y_te_transform_1_te_transform_2", [1; 10; 10; 3])]);
       (CONV_2D,
        [Some ("y_te_transform_1_te_transform_2", [1; 10; 10; 3]);
         Some ("y_te_transform_1_te_transform_3", [4; 3; 3; 3]);
         Some ("y_te_transform_1_te_attr_4", [4])],
        [Some ("y_te_transform_1", [1; 8; 8; 4])]);
       (TRANSPOSE,
        [Some ("y_te_transform_1", [1; 8; 8; 4]); Some ("y_te_attr", [4])],
        [Some ("y", [1; 4; 8; 8])])]
  ∧ emitted_input run.2 3 2 =
      Some (Some {| tensor := np_zeros 4 float32;
                    name := "y_te_transform_1_te_attr_4";
                    has_buffer := true; quantization := None |})
  ∧ np_zeros 4 float32 =
      {| nd_shape := [4]; nd_dtype := float32;
         nd_data := Some [0; 0; 0; 0]%Z |}.
Proof. by vm_compute. Qed.

(** C3, as stated, fails: the pad is the third operator, not the second. *)
Lemma conv2d_example_order_differs :
  let run := @GenericConvOperator.transform unit linking_converter ()
               conv2d_example in
  run.1 = Ok ()
  ∧ emitted_kinds run.2 = [TRANSPOSE; TRANSPOSE; PAD; CONV_2D; TRANSPOSE]
  ∧ emitted_kinds run.2 ≠ stated_order.
Proof. by vm_compute. Qed.

(** C2, as stated, fails: a 1-d convolution without padding emits seven
    operators (three reshapes), not six. *)
Lemma conv1d_example_count_differs :
  let run := @GenericConvOperator.transform unit linking_converter ()
               conv1d_example in
  run.1 = Ok ()
  ∧ emitted_kinds run.2 =
      [RESHAPE; RESHAPE; TRANSPOSE; TRANSPOSE; CONV_2D; TRANSPOSE; RESHAPE]
  ∧ length (emitted run.2) ≠ stated_count false true.
Proof. by vm_compute. Qed.

(** C4, as stated, fails: for the depthwise convolution with weight
    (4,1,3,5) the reordered weight has shape (1,3,5,4), not (3,5,4,1). *)
Lemma depthwise_example_layout_differs :
  let run := @GenericConvOperator.transform unit linking_converter ()
               depthwise_example in
  run.1 = Ok ()
  ∧ emitted_kinds run.2 = [TRANSPOSE; TRANSPOSE; DEPTHWISE_CONV_2D; TRANSPOSE]
  ∧ summary <$> emitted_chain run.2 !! 1 =
      Some (TRANSPOSE,
            [Some ("w", [4; 1; 3; 5]);
             Some ("y_te_transform_1_te_attr_2", [4])],
            [Some ("y_te_transform_1_te_transform_2", [1; 3; 5; 4])])
  ∧ permute_shape [4; 1; 3; 5] nchw2chwn_perm = [1; 3; 5; 4]
  ∧ permute_shape [4; 1; 3; 5] nchw2chwn_perm
    ≠ stated_depthwise_layout [4; 1; 3; 5].
Proof. by vm_compute. Qed.

(** C5, as stated, fails: for a double-precision input the synthesized bias
    is integral. *)
Lemma float64_example_bias_is_integral :
  let run := @GenericConvOperator.transform unit linking_converter ()
               conv2d_float64_example in
  run.1 = Ok ()
  ∧ input_dtype conv2d_float64_example = Some float64
  ∧ is_floating float64 = true
  ∧ emitted_input run.2 3 2 =
      Some (Some {| tensor := np_zeros 4 int32;
                    name := "y_te_transform_1_te_attr_4";
                    has_buffer := true; quantization := None |})
  ∧ is_floating int32 = false.
Proof. by vm_compute. Qed.

(** The branch that should replicate a bias of length 1 raises. *)
Lemma scalar_bias_example_raises :
  (@GenericConvOperator.transform unit linking_converter ()
     scalar_bias_example).1 = Raise TypeError.
Proof. by vm_compute. Qed.

(** On a quantized input the four operators are emitted in the order
    dequantize, multiply, add, quantize, but the multiply reads the
    quantized input [x], not the output [y_te_transform] of the
    dequantize. *)
Lemma quantized_batch_norm_mul_reads_input :
  let run := @BatchNormOperator.transform unit linking_converter
               example_promotion () quantized_batch_norm_example in
  run.1 = Ok ()
  ∧ summary <$> emitted_chain run.2 =
      [(DEQUANTIZE, [Some ("x", [1; 4; 8; 8])],
        [Some ("y_te_transform", [1; 4; 8; 8])]);
       (MUL, [Some ("x", [1; 4; 8; 8]); Some ("y_te_attr", [1; 4; 1; 1])],
        [Some ("y_te_transform_1", [1; 4; 8; 8])]);
       (ADD,
        [Some ("y_te_transform_1", [1; 4; 8; 8]);
         Some ("y_te_attr_1", [1; 4; 1; 1])],
        [Some ("y_te_transform_2", [1; 4; 8; 8])]);
       (QUANTIZE, [Some ("y_te_transform_2", [1; 4; 8; 8])],
        [Some ("y", [1; 4; 8; 8])])]
  ∧ emitted_input run.2 1 0 ≠ emitted_output run.2 0 0.
Proof. by vm_compute. Qed.

(** Without quantization neither a dequantize nor a quantize is emitted. *)
Lemma float_batch_norm_example_lowering :
  let run := @BatchNormOperator.transform unit linking_converter
               example_promotion () float_batch_norm_example in
  run.1 = Ok () ∧ emitted_kinds run.2 = [MUL; ADD].
Proof. by vm_compute. Qed.

(** * The lowering of a convolution: general statements *)

Lemma py_sum_nonneg l : Forall (λ p, 0 ≤ p)%Z l → (0 ≤ py_sum l)%Z.
Proof. induction 1; simpl; lia. Qed.

Lemma py_sum_pos_iff l :
  Forall (λ p, 0 ≤ p)%Z l →
  (0 < py_sum l)%Z ↔ Exists (λ p, p ≠ 0%Z) l.
Proof.
  induction 1 as [|p l Hp Hl IH]; simpl.
  - split; [lia|by intros ?%Exists_nil].
  - pose proof (py_sum_nonneg l Hl). rewrite Exists_cons, <-IH. lia.
Qed.

Section check.
Import GenericConvOperator.

Lemma check_operator_state o s : (check_operator o s).2 = s.
Proof.
  unfold check_operator, getitem, read_list, bind, lift, the, gets, ret, raise.
  repeat (case_match; simplify_eq/=; try done).
Qed.

Lemma post_condition_check_state ops s : (post_condition_check ops s).2 = s.
Proof.
  unfold post_condition_check. generalize (py_init ops). intros l.
  revert s. induction l as [|o l IH]; intros s; [done|].
  simpl. unfold bind at 1.
  pose proof (check_operator_state o s) as Ho.
  destruct (check_operator o s) as [[[]|e] s1]; simpl in Ho; subst s1; [|done].
  apply IH.
Qed.
End check.

Section selection.
Import TransformableOperator GenericConvOperator.

Ltac getitem_ok := by first [apply py_getitem_0 | apply py_getitem_1].

(** The selection of the primitive returns whenever the tensors have at
    least two axes and the node has two strides and two dilations: the
    warning does not stop it. *)
Lemma select_primitive_returns x w s sh sw st dh dw dl :
  2 ≤ ndim (tensor x) → 2 ≤ ndim (tensor w) →
  stride s = sh :: sw :: st → dilation s = dh :: dw :: dl →
  select_primitive x w s
  = (Ok (conv_primitive (selects_depthwise w (groups s)) s sh sw dh dw),
     warned x w s).
Proof.
  unfold ndim. change (nd_shape (tensor ?t)) with (shape t).
  intros Hx Hw Hst Hdl.
  destruct (shape w) as [|w0 [|w1 ws]] eqn:Hsw; simpl in Hw; try lia.
  destruct (shape x) as [|x0 [|x1 xs]] eqn:Hsx; simpl in Hx; try lia.
  assert (selects_depthwise w (groups s)
          = bool_decide (w1 = 1) && bool_decide (Z.of_nat w0 = groups s))
    as Hsel.
  { unfold selects_depthwise. rewrite Hsw. simpl. f_equal.
    - apply bool_decide_ext. split; [by intros [= ->]|by intros ->].
    - apply bool_decide_ext. split; [by intros [= ->]|by intros ->]. }
  assert (channels_differ x w = bool_decide (x1 ≠ w1)) as Hch.
  { unfold channels_differ. rewrite Hsw, Hsx. simpl.
    apply bool_decide_ext. split; intros H ?; apply H; congruence. }
  enough (wp no_exn (select_primitive x w)
            (λ c s', c = conv_primitive (selects_depthwise w (groups s)) s
                           sh sw dh dw
                     ∧ s' = warned x w s) s) as Hwp.
  { by destruct (wp_total_run _ _ _ Hwp) as (c & s' & Hrun & -> & ->). }
  unfold select_primitive, warned. rewrite Hsel, Hch, Hsw, Hsx.
  apply wp_bind, (wp_lift_ok _ _ w1); [getitem_ok|].
  apply wp_bind.
  destruct (bool_decide (w1 = 1)); cbn [andb].
  - apply wp_bind, (wp_lift_ok _ _ w0); [getitem_ok|].
    apply wp_bind, wp_gets, wp_ret.
    apply wp_bind, wp_gets. apply wp_bind, wp_gets.
    destruct (bool_decide (Z.of_nat w0 = groups s)); cbn [negb andb].
    + apply wp_bind, wp_gets. rewrite Hst.
      apply wp_bind, (wp_lift_ok _ _ sh); [getitem_ok|].
      apply wp_bind, (wp_lift_ok _ _ sw); [getitem_ok|].
      apply wp_bind, wp_gets. rewrite Hdl.
      apply wp_bind, (wp_lift_ok _ _ dh); [getitem_ok|].
      apply wp_bind, (wp_lift_ok _ _ dw); [getitem_ok|].
      apply wp_bind, wp_gets. by apply wp_ret.
    + apply wp_bind, (wp_lift_ok _ _ x1); [getitem_ok|].
      apply wp_bind.
      destruct (bool_decide (x1 ≠ w1)); [unfold warn; apply wp_modify|apply wp_ret].
      all: apply wp_bind, wp_gets; st_simpl; rewrite Hst.
      all: apply wp_bind, (wp_lift_ok _ _ sh); [getitem_ok|].
      all: apply wp_bind, (wp_lift_ok _ _ sw); [getitem_ok|].
      all: apply wp_bind, wp_gets; st_simpl; rewrite Hdl.
      all: apply wp_bind, (wp_lift_ok _ _ dh); [getitem_ok|].
      all: apply wp_bind, (wp_lift_ok _ _ dw); [getitem_ok|].
      all: apply wp_bind, wp_gets; by apply wp_ret.
  - apply wp_ret. apply wp_bind, wp_gets. apply wp_bind, wp_gets.
    apply wp_bind, (wp_lift_ok _ _ x1); [getitem_ok|].
    apply wp_bind.
    destruct (bool_decide (x1 ≠ w1)); [unfold warn; apply wp_modify|apply wp_ret].
    all: apply wp_bind, wp_gets; st_simpl; rewrite Hst.
    all: apply wp_bind, (wp_lift_ok _ _ sh); [getitem_ok|].
    all: apply wp_bind, (wp_lift_ok _ _ sw); [getitem_ok|].
    all: apply wp_bind, wp_gets; st_simpl; rewrite Hdl.
    all: apply wp_bind, (wp_lift_ok _ _ dh); [getitem_ok|].
    all: apply wp_bind, (wp_lift_ok _ _ dw); [getitem_ok|].
    all: apply wp_bind, wp_gets; by apply wp_ret.
Qed.
End selection.

(** The facts of [conv_lowered], by name. *)
Ltac lowered_facts H :=
  destruct H as (Hlin & Hx4 & Hw4 & Hnd4 & Hops & Hreshapes & Hreshape & Htin
                 & Hreorder & Htout & Hpads & Hlpads & Hconv & Hstride
                 & Hpadding & Hdilation & Hop & Hrefs & Hwarn & Hemit & Hrin
                 & Hperm & Hrout & Hrshape & Hinputs & Hdtype & Hnobias
                 & Hbias).

Section conv_claims.
Context {Mapping : Type} `{!GraphConverter Mapping}.
Import GenericConvOperator.

Lemma lower_returns (mapping : Mapping) s ops s' :
  lower mapping s = (Ok ops, s') → ∃ p, conv_lowered s ops s' p.
Proof.
  apply (wp_run any_exn _ (λ ops s', ∃ p, conv_lowered s ops s' p)).
  apply lower_outcome.
Qed.

Lemma transform_state (mapping : Mapping) s ops s' :
  lower mapping s = (Ok ops, s') → (transform mapping s).2 = s'.
Proof.
  intros H. unfold transform, bind. rewrite H.
  apply post_condition_check_state.
Qed.

Lemma conv_lowered_node s ops s' p :
  conv_lowered s ops s' p →
  node_input s = Some (input_tensor p) ∧
  node_weight s = Some (weight_tensor p).
Proof.
  intros (Hlin & _). unfold node_input, node_weight. by rewrite Hlin.
Qed.

(** C2, as amended. Every lowering of a convolution that returns emits
    exactly 1 (the convolution) + 2 (the two layout transposes) + 1 (the
    weight transpose) operators, plus 1 when the padding amounts sum to
    more than zero (for amounts that are not negative: when one of them is
    not zero), plus 3 when the weight has rank 3 (the reshapes of input,
    weight and output) or 2 when only the input has rank 3. The post-condition
    check that follows does not change what was emitted. *)
Theorem conv_lowering_emitted_count (mapping : Mapping) s ops s' :
  lower mapping s = (Ok ops, s') →
  ∃ x w,
    node_input s = Some x ∧ node_weight s = Some w ∧
    (transform mapping s).2 = s' ∧
    emitted s' = emitted s ++ ((λ o, (o, true)) <$> ops) ∧
    length ops = emitted_count (padding s) (ndim (tensor x)) (ndim (tensor w)) ∧
    (Forall (λ p, 0 ≤ p)%Z (padding s) →
     (0 < py_sum (padding s))%Z ↔ Exists (λ p, p ≠ 0%Z) (padding s)).
Proof.
  intros Hrun. destruct (lower_returns _ _ _ _ Hrun) as [p Hp].
  destruct (conv_lowered_node _ _ _ _ Hp) as [Hx Hw].
  exists (input_tensor p), (weight_tensor p).
  split_and!; [done|done|by eapply transform_state| | |apply py_sum_pos_iff].
  - by lowered_facts Hp.
  - lowered_facts Hp. rewrite Hops.
    rewrite !length_app. cbn [length]. rewrite Hlpads.
    unfold emitted_count, some_rank3, weight_rank3 in *.
    destruct (bool_decide (0 < py_sum (padding s))%Z),
      (bool_decide (ndim (tensor (weight_tensor p)) = 3)),
      (bool_decide (ndim (tensor (input_tensor p)) = 3));
      simpl in Hreshapes |- *; lia.
Qed.

Lemma selects_depthwise_iff w g :
  selects_depthwise w g = true ↔
  shape w !! 1 = Some 1 ∧ Z.of_nat <$> shape w !! 0 = Some g.
Proof.
  unfold selects_depthwise.
  by rewrite andb_true_iff, !bool_decide_eq_true.
Qed.

(** C6. For every lowering of a convolution with a rank-4 weight that
    returns, the depthwise primitive, with depth multiplier 1, is selected if
    and only if the second axis of the weight is 1 and its first axis is the
    group count; otherwise the standard convolution is selected, and when
    moreover the channel count of the input differs from the second axis of
    the weight, the warning is recorded; in every case the chain is
    emitted. *)
Theorem conv_lowering_primitive_selection (mapping : Mapping) s ops s' x w :
  lower mapping s = (Ok ops, s') →
  node_input s = Some x → node_weight s = Some w → ndim (tensor w) = 4 →
  let depthwise := selects_depthwise w (groups s) in
  (depthwise = true ↔
   shape w !! 1 = Some 1 ∧ Z.of_nat <$> shape w !! 0 = Some (groups s)) ∧
  ∃ before conv after,
    ops = before ++ conv :: after ∧
    Forall (λ o, op o = RESHAPE ∨ op o = TRANSPOSE ∨ op o = PAD)
           (before ++ after) ∧
    op conv = (if depthwise then DEPTHWISE_CONV_2D else CONV_2D) ∧
    (depthwise = true →
     ∃ sh sw dh dw f, options conv = DepthwiseConv2dOptions sh sw 1 dh dw f VALID) ∧
    emitted s' = emitted s ++ ((λ o, (o, true)) <$> ops) ∧
    warnings s' =
      warnings s ++
      (if negb depthwise && channels_differ x w
       then [group_conv_warning] else []).
Proof.
  intros Hrun Hx Hw Hrank depthwise. split; [apply selects_depthwise_iff|].
  destruct (lower_returns _ _ _ _ Hrun) as [p Hp].
  destruct (conv_lowered_node _ _ _ _ Hp) as [Hx' Hw'].
  rewrite Hx in Hx'. rewrite Hw in Hw'.
  injection Hx' as Hx'. injection Hw' as Hw'.
  lowered_facts Hp. unfold weight_rank3 in *. rewrite <-Hw' in *.
  rewrite bool_decide_eq_false_2 in Hw4 by (rewrite Hrank; lia).
  unfold lifted_if in Hw4. rewrite Hw4, <-Hx' in *.
  fold depthwise in Hconv, Hwarn.
  destruct Hconv as (sh & sw & dh & dw & Hconv).
  exists (prev_ops p ++ [transpose_in p; reorder_op p] ++ pad_ops p),
    (conv_op p), (transpose_out p :: next_ops p).
  split_and!.
  - rewrite Hops. by rewrite <-!app_assoc.
  - rewrite <-!app_assoc. cbn [app].
    apply Forall_app in Hreshape as [Hprev Hnext].
    apply Forall_app. split; [by eapply Forall_impl; [done|]; auto|].
    repeat apply Forall_cons_2; auto.
    apply Forall_app. split; [by eapply Forall_impl; [done|]; auto|].
    apply Forall_cons_2; auto. by eapply Forall_impl; [done|]; auto.
  - rewrite Hconv. by destruct depthwise.
  - intros Hd. rewrite Hconv, Hd. simpl. eauto 6.
  - done.
  - done.
Qed.

(** C4, as amended. For every lowering of a convolution that returns, the
    chain holds one primitive, which is the depthwise one exactly when the
    depthwise primitive is selected. The emitted weight transpose reads the
    4-axis weight, of shape [(o, i, kh, kw)], and the permutation
    [[1,2,3,0]] when the primitive is the depthwise one, [[0,2,3,1]]
    otherwise; its output is the second input of the primitive and has the
    shape that the permutation gives, which is [(1, kh, kw, o)] for
    depthwise and [(o, kh, kw, i)] for the standard convolution. *)
Theorem conv_lowering_weight_layout (mapping : Mapping) s ops s' :
  lower mapping s = (Ok ops, s') →
  ∃ w w4 o i kh kw reorder perm_t rw conv l,
    let depthwise := selects_depthwise w4 (groups s) in
    let perm := if depthwise then [1; 2; 3; 0]%Z else [0; 2; 3; 1]%Z in
    node_weight s = Some w ∧
    lifted_if (bool_decide (ndim (tensor w) = 3)) w w4 ∧
    shape w4 = [o; i; kh; kw] ∧
    reorder ∈ ops ∧ op reorder = TRANSPOSE ∧
    heap s' !! inputs reorder = Some [Some w4; Some perm_t] ∧
    tensor perm_t = np_array_int32 perm ∧
    heap s' !! outputs reorder = Some [Some rw] ∧
    shape rw = permute_shape (shape w4) perm ∧
    shape rw = (if depthwise then [1; kh; kw; o] else [o; kh; kw; i]) ∧
    (* the primitive and the weight it is given *)
    conv ∈ ops ∧
    op conv = (if depthwise then DEPTHWISE_CONV_2D else CONV_2D) ∧
    (∀ o', o' ∈ ops → op o' = CONV_2D ∨ op o' = DEPTHWISE_CONV_2D →
           o' = conv) ∧
    tensor perm_t
      = np_array_int32 (if bool_decide (op conv = DEPTHWISE_CONV_2D)
                        then [1; 2; 3; 0]%Z else [0; 2; 3; 1]%Z) ∧
    heap s' !! inputs conv = Some l ∧ l !! 1 = Some (Some rw).
Proof.
  intros Hrun. destruct (lower_returns _ _ _ _ Hrun) as [p Hp].
  destruct (conv_lowered_node _ _ _ _ Hp) as [_ Hw].
  lowered_facts Hp.
  assert (∃ o i kh kw, shape (weight_4d p) = [o; i; kh; kw])
    as (o & i & kh & kw & Hshape).
  { unfold ndim in Hnd4. change (nd_shape (tensor ?t)) with (shape t) in Hnd4.
    destruct (shape (weight_4d p)) as [|o [|i [|kh [|kw [|]]]]]; try done.
    eauto. }
  destruct Hconv as (sh & sw & dh & dw & Hconv).
  assert (op (conv_op p)
          = (if selects_depthwise (weight_4d p) (groups s)
             then DEPTHWISE_CONV_2D else CONV_2D)) as Hconv_op.
  { by rewrite Hconv. }
  exists (weight_tensor p), (weight_4d p), o, i, kh, kw, (reorder_op p),
    (perm_attr p), (reordered p), (conv_op p),
    (Some (conv_input p) :: Some (reordered p)
     :: rest_inputs p ++ bias_added p).
  cbv zeta. split_and!; try done.
  - rewrite Hops, !elem_of_app, !elem_of_cons. auto 10.
  - rewrite Hrshape, Hshape.
    destruct (selects_depthwise _ _) eqn:Hd; [|done].
    apply selects_depthwise_iff in Hd as [H1 _]. rewrite Hshape in H1.
    by injection H1 as ->.
  - rewrite Hops, !elem_of_app, !elem_of_cons. auto 10.
  - intros o' Hin Hkind.
    apply Forall_app in Hreshape as [Hprev Hnext].
    rewrite Forall_forall in Hprev, Hnext, Hpads.
    rewrite Hops, !elem_of_app, !elem_of_cons in Hin.
    destruct Hin as [Hin|[[->|[->|Hin]]|[Hin|[[->|[->|Hin]]|Hin]]]];
      try done.
    + apply Hprev in Hin. rewrite Hin in Hkind. by destruct Hkind.
    + rewrite Htin in Hkind. by destruct Hkind.
    + rewrite Hreorder in Hkind. by destruct Hkind.
    + by apply elem_of_nil in Hin.
    + apply Hpads in Hin. rewrite Hin in Hkind. by destruct Hkind.
    + rewrite Htout in Hkind. by destruct Hkind.
    + by apply elem_of_nil in Hin.
    + apply Hnext in Hin. rewrite Hin in Hkind. by destruct Hkind.
  - rewrite Hperm, Hconv_op.
    by destruct (selects_depthwise _ _).
  - by rewrite Hconv.
Qed.

(** C5, as amended. For every lowering of a convolution that returns, on a
    node whose [inputs] and [outputs] are two lists: when no bias was
    supplied, the node having two inputs, the bias attached to the
    primitive, its third and last input, is a zero vector whose length is
    the output-channel count (axis 0 of the 4-axis weight, which is axis 0
    of the reordered weight given to the primitive, or its axis 3 for
    depthwise), of type float32 when the input has type float32 and int32
    otherwise; a supplied bias, other than one of length 1 where the
    output-channel count is not 1, passes through unchanged. Nothing is
    said of a third input that is [None], nor of a bias of length 1 that
    would have to be replicated. *)
Theorem conv_lowering_bias (mapping : Mapping) s ops s' :
  lower mapping s = (Ok ops, s') → self_inputs s ≠ self_outputs s →
  ∃ x w w4 rest k conv l cin rw,
    heap s !! self_inputs s = Some (Some x :: Some w :: rest) ∧
    lifted_if (bool_decide (ndim (tensor w) = 3)) w w4 ∧
    shape w4 !! 0 = Some k ∧
    conv ∈ ops ∧ (op conv = CONV_2D ∨ op conv = DEPTHWISE_CONV_2D) ∧
    heap s' !! inputs conv = Some l ∧
    take 2 l = [Some cin; Some rw] ∧
    tensor_dtype cin = tensor_dtype x ∧
    shape rw !! (if bool_decide (op conv = DEPTHWISE_CONV_2D) then 3 else 0)
      = Some k ∧
    (rest = [] →
     ∃ zb, drop 2 l = [Some zb] ∧ has_buffer zb = true ∧
           tensor zb = np_zeros k (if bool_decide (tensor_dtype x = float32)
                                   then float32 else int32)) ∧
    (∀ bias, rest !! 0 = Some (Some bias) →
             ¬ (shape bias !! 0 = Some 1 ∧ k ≠ 1) →
             drop 2 l = rest).
Proof.
  intros Hrun Hne. destruct (lower_returns _ _ _ _ Hrun) as [p Hp].
  lowered_facts Hp.
  assert (∃ o i kh kw, shape (weight_4d p) = [o; i; kh; kw])
    as (k & i & kh & kw & Hshape).
  { unfold ndim in Hnd4. change (nd_shape (tensor ?t)) with (shape t) in Hnd4.
    destruct (shape (weight_4d p)) as [|o [|i [|kh [|kw [|]]]]]; try done.
    eauto. }
  assert (shape (weight_4d p) !! 0 = Some k) as Hk by (by rewrite Hshape).
  destruct Hconv as (sh & sw & dh & dw & Hconv).
  exists (input_tensor p), (weight_tensor p), (weight_4d p), (rest_inputs p),
    k, (conv_op p), (Some (conv_input p) :: Some (reordered p)
                     :: rest_inputs p ++ bias_added p),
    (conv_input p), (reordered p).
  split_and!; try done.
  - rewrite Hops, !elem_of_app, !elem_of_cons. auto 10.
  - rewrite Hconv. destruct (selects_depthwise _ _); auto.
  - by rewrite Hconv.
  - by apply Hdtype.
  - rewrite Hrshape, Hshape, Hconv.
    by destruct (selects_depthwise _ _).
  - intros Hno.
    destruct (Hnobias (or_introl Hno)) as (zb & k' & -> & Hk' & Hbuf & Hzb).
    rewrite Hk in Hk'. injection Hk' as <-.
    exists zb. rewrite Hno. split_and!; try done.
    rewrite Hzb, (Hdtype Hne).
    destruct (decide (tensor_dtype (input_tensor p) = float32)) as [E|E];
      [by rewrite !bool_decide_eq_true_2 by done
      |by rewrite !bool_decide_eq_false_2 by done].
  - intros bias Hb _. destruct (Hbias bias Hb) as (-> & _).
    by rewrite app_nil_r.
Qed.
End conv_claims.

Lemma conv_lowering_emitted_count_witness :
  let run := @GenericConvOperator.lower unit linking_converter ()
               conv1d_example in
  run = (Ok (returned [] run.1), run.2)
  ∧ length (returned [] run.1) = 7.
Proof.
  intros run.
  assert (run = (Ok (returned [] run.1), run.2)) as Hrun by (by vm_compute).
  split; [exact Hrun|].
  destruct (@conv_lowering_emitted_count unit linking_converter ()
              conv1d_example _ _ Hrun)
    as (x & w & Hx & Hw & _ & _ & Hlen & _).
  vm_compute in Hx, Hw. injection Hx as <-. injection Hw as <-.
  exact Hlen.
Defined.

Lemma conv_lowering_primitive_selection_witness :
  let run := @GenericConvOperator.lower unit linking_converter ()
               grouped_example in
  run = (Ok (returned [] run.1), run.2)
  ∧ op <$> returned [] run.1 = [TRANSPOSE; TRANSPOSE; CONV_2D; TRANSPOSE]
  ∧ warnings run.2 = [GenericConvOperator.group_conv_warning].
Proof.
  intros run.
  assert (run = (Ok (returned [] run.1), run.2)) as Hrun by (by vm_compute).
  split; [exact Hrun|]. split; [by vm_compute|].
  destruct (@conv_lowering_primitive_selection unit linking_converter ()
              grouped_example _ _
              (value_tensor "x" [1; 4; 8; 8] float32 None)
              (constant_tensor "w" [4; 2; 3; 3] float32)
              Hrun eq_refl eq_refl eq_refl)
    as (_ & before & conv & after & _ & _ & _ & _ & _ & Hwarn).
  exact Hwarn.
Defined.

Lemma conv_lowering_weight_layout_witness :
  let run := @GenericConvOperator.lower unit linking_converter ()
               depthwise_example in
  run = (Ok (returned [] run.1), run.2)
  ∧ ∃ reorder rw conv l,
      reorder ∈ returned [] run.1 ∧
      heap run.2 !! outputs reorder = Some [Some rw] ∧
      shape rw = [1; 3; 5; 4] ∧
      conv ∈ returned [] run.1 ∧ op conv = DEPTHWISE_CONV_2D ∧
      heap run.2 !! inputs conv = Some l ∧ l !! 1 = Some (Some rw).
Proof.
  intros run.
  assert (run = (Ok (returned [] run.1), run.2)) as Hrun by (by vm_compute).
  split; [exact Hrun|].
  destruct (@conv_lowering_weight_layout unit linking_converter ()
              depthwise_example _ _ Hrun)
    as (w & w4 & o & i & kh & kw & reorder & perm_t & rw & conv & l & Hw & Hw4
        & Hshape & Hin & _ & _ & _ & Hout & _ & Hrw & Hcin & Hcop & _ & _
        & Hl & Hl1).
  vm_compute in Hw. injection Hw as <-. vm_compute in Hw4. subst w4.
  vm_compute in Hshape. injection Hshape as <- <- <- <-.
  exists reorder, rw, conv, l.
  exact (conj Hin (conj Hout (conj Hrw (conj Hcin (conj Hcop
           (conj Hl Hl1)))))).
Defined.

Lemma conv_lowering_bias_witness :
  let run := @GenericConvOperator.lower unit linking_converter ()
               conv2d_float64_example in
  let run_b := @GenericConvOperator.lower unit linking_converter ()
                 conv2d_bias_example in
  run = (Ok (returned [] run.1), run.2)
  ∧ run_b = (Ok (returned [] run_b.1), run_b.2)
  ∧ (∃ conv l zb,
       conv ∈ returned [] run.1 ∧ heap run.2 !! inputs conv = Some l ∧
       drop 2 l = [Some zb] ∧ tensor zb = np_zeros 4 int32)
  ∧ (∃ conv l,
       conv ∈ returned [] run_b.1 ∧ heap run_b.2 !! inputs conv = Some l ∧
       drop 2 l = [Some (constant_tensor "b" [4] float32)]).
Proof.
  intros run run_b.
  assert (run = (Ok (returned [] run.1), run.2)) as Hrun by (by vm_compute).
  assert (run_b = (Ok (returned [] run_b.1), run_b.2)) as Hrun_b
    by (by vm_compute).
  split; [exact Hrun|]. split; [exact Hrun_b|]. split.
  - destruct (@conv_lowering_bias unit linking_converter ()
                conv2d_float64_example _ _ Hrun)
      as (x & w & w4 & rest & k & conv & l & cin & rw & Hlin & Hw4 & Hk & Hin
          & _ & Hl & _ & _ & _ & Hno & _); [by vm_compute|].
    vm_compute in Hlin. injection Hlin as <- <- <-.
    vm_compute in Hw4. subst w4. vm_compute in Hk. injection Hk as <-.
    destruct (Hno eq_refl) as (zb & Hdrop & _ & Hzb).
    exists conv, l, zb.
    exact (conj Hin (conj Hl (conj Hdrop Hzb))).
  - destruct (@conv_lowering_bias unit linking_converter ()
                conv2d_bias_example _ _ Hrun_b)
      as (x & w & w4 & rest & k & conv & l & cin & rw & Hlin & Hw4 & Hk & Hin
          & _ & Hl & _ & _ & _ & _ & Hbias); [by vm_compute|].
    vm_compute in Hlin. injection Hlin as <- <- <-.
    vm_compute in Hw4. subst w4. vm_compute in Hk. injection Hk as <-.
    assert (¬ (shape (constant_tensor "b" [4] float32) !! 0 = Some 1 ∧ 4 ≠ 1))
      as Hnot by (by intros [[=] _]).
    exists conv, l.
    exact (conj Hin (conj Hl (Hbias _ eq_refl Hnot))).
Defined.

(** * The post-condition check of the convolution *)

Section post_condition.
Import TransformableOperator GenericConvOperator.

Lemma py_getitem_0_eq {A} (l : list A) :
  py_getitem l 0
  = match l !! 0 with Some x => Ok x | None => Raise IndexError end.
Proof. unfold py_getitem, py_norm. by destruct l. Qed.

Lemma check_operator_ok o s r s' :
  check_operator o s = (r, s') → s' = s ∧ (r = Ok () ↔ checked s o).
Proof.
  unfold check_operator, checked, output_node, first_successor, first_output,
    getitem, read_list, bind, lift, the, gets, ret, raise.
  destruct (heap s !! outputs o) as [l|] eqn:Hl; simpl.
  2:{ intros [= <- <-]. split; [done|]. split; [done|]. by intros (?&?&?&_). }
  rewrite py_getitem_0_eq.
  destruct (l !! 0) as [[out|]|] eqn:Hout; simpl.
  2,3: intros [= <- <-]; split; [done|]; split; [done|]; by intros (?&?&?&_).
  destruct (tensor_node_map (graph s) !! name out) as [n|] eqn:Hn; simpl.
  2: intros [= <- <-]; split; [done|]; split; [done|]; by intros (?&?&?&_).
  destruct (find_vertex (graph s) n) as [node|e] eqn:Hnode; simpl.
  2: intros [= <- <-]; split; [done|]; split; [done|]; by intros (?&?&?&_).
  case_bool_decide as Hdeg.
  2:{ intros [= <- <-]. split; [done|]. split; [done|].
      intros (?&?&[= <-]&?&_). lia. }
  rewrite py_getitem_0_eq.
  destruct (out_edges node !! 0) as [target|] eqn:Htarget; simpl.
  2:{ intros [= <- <-]. split; [done|]. split; [done|].
      intros (?&?&[= <-]&?&H&_). by rewrite Htarget in H. }
  destruct (vs (graph s) !! target) as [next|] eqn:Hnext; simpl.
  2:{ intros [= <- <-]. split; [done|]. split; [done|].
      intros (?&?&[= <-]&?&H&_). rewrite Htarget in H. simpl in H. congruence. }
  case_bool_decide as Htype; intros [= <- <-]; (split; [done|]).
  - split; [|done]. intros _. exists node, next. rewrite Htarget. by simpl.
  - split; [done|]. intros (?&?&[= <-]&?&H&?).
    rewrite Htarget in H. simpl in H. congruence.
Qed.

Lemma check_operator_violation o s :
  violates s o → ∃ m, check_operator o s = (Raise (AssertionError m), s).
Proof.
  unfold check_operator, violates, output_node, first_successor, first_output,
    getitem, read_list, bind, lift, the, gets, ret, raise.
  intros (node & Hnode & Hbad).
  destruct (heap s !! outputs o) as [l|]; [|done]. simpl in *.
  rewrite py_getitem_0_eq.
  destruct (l !! 0) as [[out|]|]; try done. simpl in *.
  destruct (tensor_node_map (graph s) !! name out) as [n|]; [|done].
  simpl in *.
  destruct (find_vertex (graph s) n) as [node'|e]; [|done].
  injection Hnode as ->.
  case_bool_decide as Hdeg; [|eauto].
  destruct Hbad as [Hzero|(next & Hnext & Htype)]; [lia|].
  rewrite py_getitem_0_eq.
  destruct (out_edges node !! 0) as [target|]; [|done]. simpl in *.
  rewrite Hnext. rewrite bool_decide_eq_false_2 by (by intros []). eauto.
Qed.

Lemma forM_check_operator l s r s' :
  forM_ l check_operator s = (r, s') →
  s' = s ∧ (r = Ok () ↔ Forall (checked s) l).
Proof.
  revert r. induction l as [|o l IH]; intros r; simpl.
  - intros [= <- <-]. split; [done|]. split; [by constructor|done].
  - unfold bind at 1.
    destruct (check_operator o s) as [r1 s1] eqn:Ho.
    apply check_operator_ok in Ho as [-> Ho].
    destruct r1 as [[]|e].
    + intros Hl. apply IH in Hl as [-> Hl]. split; [done|].
      rewrite Forall_cons, <-Hl. split; [|tauto]. split; [by apply Ho|done].
    + intros [= <- <-]. split; [done|]. split; [done|].
      intros [Hc _]%Forall_cons. by apply Ho in Hc.
Qed.

Lemma forM_check_operator_violation pre o post s :
  Forall (checked s) pre → violates s o →
  ∃ m, forM_ (pre ++ o :: post) check_operator s
       = (Raise (AssertionError m), s).
Proof.
  intros Hpre Ho. induction Hpre as [|o' pre Ho' Hpre IH]; simpl.
  - unfold bind. destruct (check_operator_violation _ _ Ho) as [m ->]. eauto.
  - unfold bind at 1.
    destruct (check_operator o' s) as [r1 s1] eqn:Hc.
    apply check_operator_ok in Hc as [-> Hc].
    apply Hc in Ho' as ->. exact IH.
Qed.

Lemma py_init_app {A} (pre post : list A) :
  post ≠ [] → py_init (pre ++ post) = pre ++ py_init post.
Proof.
  intros Hpost. unfold py_init. rewrite length_app.
  destruct post as [|x post]; [done|]. cbn [length].
  rewrite take_app_ge by lia. f_equal. f_equal. lia.
Qed.

Lemma py_init_cons {A} (x : A) (post : list A) :
  post ≠ [] → py_init (x :: post) = x :: py_init post.
Proof.
  intros Hpost. unfold py_init. destruct post as [|y post]; [done|].
  cbn [length]. replace (S (S (length post)) - 1) with (S (S (length post) - 1)) by lia.
  done.
Qed.
End post_condition.

(** ** The transposed convolution never looks at the graph *)

Import TransformableOperator.

Ltac same_fields H :=
  let s1 := lazymatch type of H with without_graph ?a = _ => a end in
  let s2 := lazymatch type of H with _ = without_graph ?b => b end in
  destruct s1, s2; unfold without_graph, set_graph in H; simpl in H;
  injection H; intros; subst; clear H.

Section graph_blind.
Context {A B : Type}.

Lemma graph_blind_ret (a : A) : graph_blind (ret a) (ret a).
Proof. by intros s1 s2 H. Qed.

Lemma graph_blind_raise e : graph_blind (@raise A e) (raise e).
Proof. by intros s1 s2 H. Qed.

Lemma graph_blind_lift (r : result A) : graph_blind (lift r) (lift r).
Proof. by intros s1 s2 H. Qed.

Lemma graph_blind_bind (m1 m2 : M A) (k1 k2 : A → M B) :
  graph_blind m1 m2 → (∀ a, graph_blind (k1 a) (k2 a)) →
  graph_blind (bind m1 k1) (bind m2 k2).
Proof.
  intros Hm Hk s1 s2 H. unfold bind.
  destruct (Hm s1 s2 H) as [Hr Hs].
  destruct (m1 s1) as [[a|e] s1'], (m2 s2) as [[a'|e'] s2'];
    simpl in *; try discriminate.
  - injection Hr as ->. by apply Hk.
  - injection Hr as ->. by split.
Qed.

Lemma graph_blind_gets (f : State → A) :
  (∀ s, f s = f (without_graph s)) → graph_blind (gets f) (gets f).
Proof.
  intros Hf s1 s2 H. split; [|done]. simpl. by rewrite (Hf s1), (Hf s2), H.
Qed.
End graph_blind.

Lemma graph_blind_modify (f : State → State) :
  (∀ s, without_graph (f s) = without_graph (f (without_graph s))) →
  graph_blind (modify f) (modify f).
Proof.
  intros Hf s1 s2 H. split; [done|]. simpl. by rewrite (Hf s1), (Hf s2), H.
Qed.

Lemma graph_blind_new_list l : graph_blind (new_list l) (new_list l).
Proof. intros s1 s2 H. same_fields H. split; reflexivity. Qed.

Lemma graph_blind_read_list r : graph_blind (read_list r) (read_list r).
Proof.
  intros s1 s2 H. same_fields H. unfold read_list. simpl.
  destruct (_ !! r); split; reflexivity.
Qed.

Lemma graph_blind_write_list r l :
  graph_blind (write_list r l) (write_list r l).
Proof.
  intros s1 s2 H. same_fields H. unfold write_list. simpl.
  case_bool_decide; split; reflexivity.
Qed.

Lemma graph_blind_the o : graph_blind (the o) (the o).
Proof. destruct o; [apply graph_blind_ret|apply graph_blind_raise]. Qed.

Lemma graph_blind_mapM {A B} (f : A → M B) l :
  (∀ a, graph_blind (f a) (f a)) → graph_blind (mapM f l) (mapM f l).
Proof.
  intros Hf. induction l as [|a l IH]; simpl; [apply graph_blind_ret|].
  apply graph_blind_bind; [done|]. intros b.
  apply graph_blind_bind; [done|]. intros bs. apply graph_blind_ret.
Qed.

Lemma graph_blind_forM_ {A} (f1 f2 : A → M unit) l :
  (∀ a, graph_blind (f1 a) (f2 a)) → graph_blind (forM_ l f1) (forM_ l f2).
Proof.
  intros Hf. induction l as [|a l IH]; simpl; [apply graph_blind_ret|].
  apply graph_blind_bind; [done|]. by intros _.
Qed.

Lemma graph_blind_add_operator {Mapping}
    (c1 c2 : GraphConverter Mapping) o t :
  graph_blind (@add_operator _ c1 o t) (@add_operator _ c2 o t).
Proof. intros s1 s2 H. same_fields H. split; reflexivity. Qed.

Lemma graph_blind_try_restore_edges {Mapping}
    (c1 c2 : GraphConverter Mapping) m1 m2 :
  graph_blind (@try_restore_edges _ c1 m1) (@try_restore_edges _ c2 m2).
Proof. intros s1 s2 H. same_fields H. split; reflexivity. Qed.

Ltac blind_field := intros s; by destruct s.

Ltac blind_step :=
  cbv zeta;
  lazymatch goal with
  | |- graph_blind (bind _ _) (bind _ _) =>
      apply graph_blind_bind; [|intros ?]
  | |- graph_blind (ret _) _ => apply graph_blind_ret
  | |- graph_blind (raise _) _ => apply graph_blind_raise
  | |- graph_blind (lift _) _ => apply graph_blind_lift
  | |- graph_blind (gets _) _ => apply graph_blind_gets; blind_field
  | |- graph_blind (modify _) _ => apply graph_blind_modify; blind_field
  | |- graph_blind (new_list _) _ => apply graph_blind_new_list
  | |- graph_blind (read_list _) _ => apply graph_blind_read_list
  | |- graph_blind (write_list _ _) _ => apply graph_blind_write_list
  | |- graph_blind (the _) _ => apply graph_blind_the
  | |- graph_blind (mapM _ _) _ => apply graph_blind_mapM; intros ?
  | |- graph_blind (forM_ _ _) _ => apply graph_blind_forM_; intros ?
  | |- graph_blind (add_operator _ _) _ => apply graph_blind_add_operator
  | |- graph_blind (try_restore_edges _) _ =>
      apply graph_blind_try_restore_edges
  | |- graph_blind (getitem _ _) _ => unfold getitem
  | |- graph_blind (setitem _ _ _) _ => unfold setitem
  | |- graph_blind (new_operator _ _ _ _) _ => unfold new_operator
  | |- graph_blind outputs_0_name _ => unfold outputs_0_name
  | |- graph_blind (create_attr_tensor _ _ _) _ => unfold create_attr_tensor
  | |- graph_blind (create_transform_tensor _ _ _) _ =>
      unfold create_transform_tensor
  | |- graph_blind (wrap_ops_with_nhwc_nchw_transposes _ _ _) _ =>
      unfold wrap_ops_with_nhwc_nchw_transposes
  | |- graph_blind extend_conv_params _ => unfold extend_conv_params
  | |- graph_blind (reshape_output _) _ => unfold reshape_output
  | |- graph_blind (shape_attr _) _ => unfold shape_attr
  | |- graph_blind (reshape_op _) _ => unfold reshape_op
  | |- graph_blind (reshape_op' _) _ => unfold reshape_op'
  | |- graph_blind (reshape_to_4d _) _ => unfold reshape_to_4d
  | |- graph_blind (reorder_weight _ _) _ => unfold reorder_weight
  | |- graph_blind (GenericTransposeConvOperator.normalize_dims _) _ =>
      unfold GenericTransposeConvOperator.normalize_dims
  | |- graph_blind (GenericTransposeConvOperator.pad_handling _ _) _ =>
      unfold GenericTransposeConvOperator.pad_handling
  | |- graph_blind (GenericTransposeConvOperator.bias_handling _) _ =>
      unfold GenericTransposeConvOperator.bias_handling
  | |- graph_blind (if ?b then _ else _) _ => destruct b
  | |- graph_blind (match ?x with _ => _ end) _ => destruct x
  end.

Lemma transpose_conv_graph_blind {Mapping} (c1 c2 : GraphConverter Mapping)
    m1 m2 :
  graph_blind (@GenericTransposeConvOperator.transform _ c1 m1)
              (@GenericTransposeConvOperator.transform _ c2 m2).
Proof.
  unfold GenericTransposeConvOperator.transform.
  repeat blind_step.
Qed.

(** ** The check after the lowering of a convolution *)

Section post_condition_claims.
Context {Mapping : Type} `{!GraphConverter Mapping}.
Import GenericConvOperator.

(** C8. Once the lowering of a convolution has emitted its chain and
    restored the edges, [transform] returns exactly when every emitted
    operator but the last has a node for its first output with out-degree at
    least 1 whose first successor is not a constant node; when the first
    operator for which this fails has its node in the graph, [transform]
    raises an assertion error. The lowering of a transposed convolution never
    looks at the graph: its result and its final state, graph apart, are the
    same whatever the graph and the converter are. *)
Theorem conv_post_condition_check (mapping : Mapping) s ops s1 :
  lower mapping s = (Ok ops, s1) →
  emitted s1 = emitted s ++ ((λ o, (o, true)) <$> ops) ∧
  (transform mapping s = (Ok (), s1) ↔ Forall (checked s1) (py_init ops)) ∧
  (∀ pre o post,
     ops = pre ++ o :: post → post ≠ [] →
     Forall (checked s1) pre → violates s1 o →
     ∃ m, transform mapping s = (Raise (AssertionError m), s1)) ∧
  (∀ (other : GraphConverter Mapping) (mapping' : Mapping),
     graph_blind (GenericTransposeConvOperator.transform mapping)
       (@GenericTransposeConvOperator.transform _ other mapping')).
Proof.
  intros Hrun. split_and!.
  - destruct (lower_returns _ _ _ _ Hrun) as [p Hp]. lowered_facts Hp. done.
  - unfold transform, bind, post_condition_check. rewrite Hrun.
    destruct (forM_ (py_init ops) check_operator s1) as [r s2] eqn:Hcheck.
    apply forM_check_operator in Hcheck as [-> Hcheck].
    rewrite <-Hcheck. split; [by intros [= ->]|by intros ->].
  - intros pre o post -> Hpost Hpre Ho.
    unfold transform, bind, post_condition_check. rewrite Hrun.
    rewrite py_init_app, py_init_cons by done.
    by apply forM_check_operator_violation.
  - intros other mapping'. apply transpose_conv_graph_blind.
Qed.
End post_condition_claims.

Lemma conv_post_condition_check_witness :
  let run := @GenericConvOperator.lower unit linking_converter ()
               conv2d_example in
  run = (Ok (returned [] run.1), run.2)
  ∧ Forall (checked run.2) (py_init (returned [] run.1)).
Proof.
  intros run.
  assert (run = (Ok (returned [] run.1), run.2)) as Hrun by (by vm_compute).
  split; [exact Hrun|].
  destruct (@conv_post_condition_check unit linking_converter ()
              conv2d_example _ _ Hrun) as (_ & Hiff & _).
  apply Hiff. by vm_compute.
Defined.

(** With a converter that adds no edge, the check of the convolution fails
    at the first emitted operator, while the transposed convolution
    returns. *)
Lemma isolated_nodes_fail_the_check :
  (@GenericConvOperator.transform unit isolating_converter ()
     conv2d_example).1
  = Raise (AssertionError GenericConvOperator.outdegree_message)
  ∧ (@GenericTransposeConvOperator.transform unit isolating_converter ()
       deconv2d_example).1
    = Ok ().
Proof. by vm_compute. Qed.

(** * What a weight of rank 3 does to the node *)

Section keeps_node.
Context {A B : Type}.





End keeps_node.













Section rank3.
Context {Mapping : Type} `{!GraphConverter Mapping}.

End rank3.



(** * The lowering of a BatchNorm *)

(** The two lists of an operator built at the end of the store. *)
Ltac resolve_emitted i o :=
  unfold resolve; st_simpl; cbn [op inputs outputs];
  rewrite <-!app_assoc; cbn [app];
  rewrite (lookup_app_at _ _ _ i), (lookup_app_at _ _ _ o)
    by (rewrite ?length_app; cbn [length]; lia).

Section batch_norm.
Context {Mapping : Type} `{!GraphConverter Mapping} `{!Numpy}.
Import BatchNormOperator.

Lemma wp_assert_all_buffers_any l (Q : unit → State → Prop) s :
  Q () s → wp any_exn (assert_all_buffers l) Q s.
Proof.
  intros HQ. induction l as [|x l IH]; simpl; [done|].
  apply wp_bind, wp_the_any. intros t _. by destruct (has_buffer t).
Qed.

Lemma batch_norm_outcome (mapping : Mapping) s inp :
  node_input s = Some inp →
  wp any_exn (transform mapping) (λ _ s', batch_norm_lowered s s' inp) s.
Proof.
  intros Hinp. unfold transform.
  wp_any. wp_any. wp_any. wp_any. wp_any.
  apply wp_assert_all_buffers_any.
  repeat wp_any.
  all: repeat match goal with
       | H : np_binop _ _ = _ |- _ => clear H
       | H : np_reshape _ _ = _ |- _ => clear H
       end.
  all: match goal with
       | Hl : heap ?s0 !! self_inputs ?s0 = Some ?l,
         Hn : py_norm ?l input_index = Some ?n,
         Hx : ?l !! ?n = Some (Some ?t) |- _ =>
           apply py_norm_nonneg_inv in Hn; [|by unfold input_index];
           vm_compute in Hn; subst n;
           unfold node_input in Hinp; rewrite Hl in Hinp;
           cbn [mbind option_bind] in Hinp;
           rewrite Hx in Hinp; injection Hinp as ->
       end.
  all: unfold batch_norm_lowered;
       match goal with H : quantization _ = _ |- _ => rewrite H end.
  all: match goal with
       | Hb : first_output_name (current_outputs ?s0) = Some _ |- _ =>
           is_var s0;
           destruct (first_output_name_inv _ _ Hb) as (y & lo & Hlo & _);
           unfold current_outputs in Hlo
       end.
  all: repeat match goal with
       | H : first_output_name _ = _ |- _ => clear H
       end.
  all: match goal with
       | Hl : heap _ !! self_outputs _ = Some ?l,
         Hn : py_norm ?l output_index = Some ?n,
         Hx : ?l !! ?n = Some ?x |- _ =>
           st_simpl_in Hl; rewrite <-?app_assoc in Hl;
           rewrite lookup_app_l in Hl by (apply (lookup_lt_Some _ _ _ Hlo));
           rewrite Hlo in Hl; injection Hl as <-;
           apply py_norm_nonneg_inv in Hn; [|by unfold output_index];
           vm_compute in Hn; subst n
       end.
  - injection Hx4 as <-.
    do 10 eexists. split_and!.
    + st_simpl. rewrite <-!app_assoc. reflexivity.
    + by resolve_emitted 0 1.
    + by resolve_emitted 2 3.
    + by resolve_emitted 4 5.
    + by resolve_emitted 6 7.
    + by rewrite Hlo.
    + done.
    + intros Heq. by rewrite <-Heq in Heqo.
  - injection Hx4 as <-.
    do 6 eexists. split_and!.
    + st_simpl. rewrite <-!app_assoc. reflexivity.
    + by resolve_emitted 0 1.
    + by resolve_emitted 2 3.
    + by rewrite Hlo.
Qed.

(** C1, as the code has it. A lowering of a BatchNorm that returns, on an
    input [inp] with quantization parameters, emits dequantize, multiply,
    add, quantize, in this order; the add reads the output of the multiply,
    the quantize reads the output of the add and writes the declared output
    of the node; but the multiply reads [inp] itself, not the output of the
    dequantize, which no operator reads. On an input without quantization
    parameters it emits the multiply and the add only. *)
Theorem batch_norm_lowering (mapping : Mapping) s s' inp :
  transform mapping s = (Ok (), s') → node_input s = Some inp →
  batch_norm_lowered s s' inp.
Proof.
  intros Hrun Hinp. revert Hrun.
  apply (wp_run any_exn _ (λ _ s', batch_norm_lowered s s' inp)).
  by apply batch_norm_outcome.
Qed.
End batch_norm.

Lemma batch_norm_lowering_witness :
  let run := @BatchNormOperator.transform unit linking_converter
               example_promotion () quantized_batch_norm_example in
  run = (Ok (), run.2)
  ∧ batch_norm_lowered quantized_batch_norm_example run.2
      (value_tensor "x" [1; 4; 8; 8] uint8 (Some uint8_params)).
Proof.
  intros run.
  assert (run = (Ok (), run.2)) as Hrun by (by vm_compute).
  split; [exact Hrun|].
  exact (@batch_norm_lowering unit linking_converter example_promotion ()
           quantized_batch_norm_example _ _ Hrun eq_refl).
Defined.

(** * What the lowerings hand over when they raise *)

Section keeps.
Context {A B X : Type} (f : State → X).

Lemma keeps_ret (a : A) : keeps f (ret a).
Proof. done. Qed.

Lemma keeps_raise e : keeps f (@raise A e).
Proof. done. Qed.

Lemma keeps_lift (r : result A) : keeps f (lift r).
Proof. done. Qed.

Lemma keeps_gets (g : State → A) : keeps f (gets g).
Proof. done. Qed.

Lemma keeps_bind (m : M A) (k : A → M B) :
  keeps f m → (∀ a, keeps f (k a)) → keeps f (bind m k).
Proof.
  intros Hm Hk s. unfold bind. specialize (Hm s).
  destruct (m s) as [[a|e] s1]; simpl in Hm; [|done].
  by rewrite Hk.
Qed.

Lemma keeps_modify (g : State → State) :
  (∀ s, f (g s) = f s) → keeps f (modify g).
Proof. intros Hg s. apply Hg. Qed.

Lemma keeps_new_list l :
  (∀ s h, f (set_heap h s) = f s) → keeps f (new_list l).
Proof. intros Hf s. apply Hf. Qed.

Lemma keeps_read_list r : keeps f (read_list r).
Proof. intros s. unfold read_list. by destruct (_ !! r). Qed.

Lemma keeps_write_list r l :
  (∀ s h, f (set_heap h s) = f s) → keeps f (write_list r l).
Proof. intros Hf s. unfold write_list. case_bool_decide; [apply Hf|done]. Qed.

Lemma keeps_the o : keeps f (the o).
Proof. by destruct o. Qed.

End keeps.

Lemma keeps_mapM {A B X} (f : State → X) (g : A → M B) l :
  (∀ a, keeps f (g a)) → keeps f (mapM g l).
Proof.
  intros Hg. induction l as [|a l IH]; simpl; [done|].
  apply keeps_bind; [done|]. intros b. apply keeps_bind; [done|]. by intros bs.
Qed.

Lemma keeps_add_operator `{!GraphConverter Mapping} {X} (f : State → X) o t :
  (∀ s e g, f (set_graph e g s) = f s) → keeps f (add_operator o t).
Proof. intros Hf s. apply Hf. Qed.

Lemma keeps_try_restore_edges `{!GraphConverter Mapping} {X} (f : State → X)
    (mapping : Mapping) :
  (∀ s e g, f (set_graph e g s) = f s) → keeps f (try_restore_edges mapping).
Proof. intros Hf s. apply Hf. Qed.

Ltac keeps_field_step :=
  cbv zeta;
  lazymatch goal with
  | |- keeps _ (bind _ _) => apply keeps_bind; [|intros ?]
  | |- keeps _ (ret _) => apply keeps_ret
  | |- keeps _ (raise _) => apply keeps_raise
  | |- keeps _ (lift _) => apply keeps_lift
  | |- keeps _ (gets _) => apply keeps_gets
  | |- keeps _ (modify _) => apply keeps_modify; by intros []
  | |- keeps _ (new_list _) => apply keeps_new_list; by intros []
  | |- keeps _ (read_list _) => apply keeps_read_list
  | |- keeps _ (write_list _ _) => apply keeps_write_list; by intros []
  | |- keeps _ (the _) => apply keeps_the
  | |- keeps _ (mapM _ _) => apply keeps_mapM; intros ?
  | |- keeps _ (getitem _ _) => unfold getitem
  | |- keeps _ (setitem _ _ _) => unfold setitem
  | |- keeps _ (new_operator _ _ _ _) => unfold new_operator
  | |- keeps _ (warn _) => unfold warn
  | |- keeps _ outputs_0_name => unfold outputs_0_name
  | |- keeps _ (create_attr_tensor _ _ _) => unfold create_attr_tensor
  | |- keeps _ (create_transform_tensor _ _ _) =>
      unfold create_transform_tensor
  | |- keeps _ (wrap_ops_with_nhwc_nchw_transposes _ _ _) =>
      unfold wrap_ops_with_nhwc_nchw_transposes
  | |- keeps _ extend_conv_params => unfold extend_conv_params
  | |- keeps _ (reshape_output _) => unfold reshape_output
  | |- keeps _ (shape_attr _) => unfold shape_attr
  | |- keeps _ (reshape_op _) => unfold reshape_op
  | |- keeps _ (reshape_op' _) => unfold reshape_op'
  | |- keeps _ (reshape_to_4d _) => unfold reshape_to_4d
  | |- keeps _ (reorder_weight _ _) => unfold reorder_weight
  | |- keeps _ (GenericConvOperator.normalize_dims _ _) =>
      unfold GenericConvOperator.normalize_dims
  | |- keeps _ (GenericConvOperator.select_primitive _ _) =>
      unfold GenericConvOperator.select_primitive
  | |- keeps _ (GenericConvOperator.pad_handling _) =>
      unfold GenericConvOperator.pad_handling
  | |- keeps _ (GenericConvOperator.weight_handling _ _) =>
      unfold GenericConvOperator.weight_handling
  | |- keeps _ (GenericConvOperator.bias_handling _) =>
      unfold GenericConvOperator.bias_handling
  | |- keeps _ (GenericTransposeConvOperator.normalize_dims _) =>
      unfold GenericTransposeConvOperator.normalize_dims
  | |- keeps _ (GenericTransposeConvOperator.pad_handling _ _) =>
      unfold GenericTransposeConvOperator.pad_handling
  | |- keeps _ (GenericTransposeConvOperator.bias_handling _) =>
      unfold GenericTransposeConvOperator.bias_handling
  | |- keeps _ (if ?b then _ else _) => destruct b
  | |- keeps _ (match ?x with _ => _ end) => destruct x
  end.

Lemma hands_over_last_bind {A B} (m : M A) (k : A → M B) :
  keeps handed_over m → (∀ a, hands_over_last (k a)) →
  hands_over_last (bind m k).
Proof.
  intros Hm Hk s e s'. unfold bind. specialize (Hm s).
  destruct (m s) as [[a|e1] s1]; simpl in Hm.
  - intros Hrun. rewrite <-Hm. by eapply Hk.
  - by intros [= _ <-].
Qed.

Section emission_last.
Context {Mapping : Type} `{!GraphConverter Mapping}.

Lemma emission_returns {A} ops t (mapping : Mapping) (a : A) :
  hands_over_last (forM_ ops (λ o, add_operator o t) ;;;
                   try_restore_edges mapping ;;; ret a).
Proof.
  intros s e s'. unfold bind at 1.
  assert (∀ s, (forM_ ops (λ o, add_operator o t) s).1 = Ok ()) as Hops.
  { clear. induction ops as [|o ops IH]; intros s; [done|].
    simpl. unfold bind at 1. simpl. apply IH. }
  specialize (Hops s). destruct (forM_ _ _ s) as [[[]|?] s1]; [done|done].
Qed.

Lemma emission_returns' ops t (mapping : Mapping) :
  hands_over_last (forM_ ops (λ o, add_operator o t) ;;;
                   try_restore_edges mapping).
Proof.
  intros s e s'. unfold bind at 1.
  assert (∀ s, (forM_ ops (λ o, add_operator o t) s).1 = Ok ()) as Hops.
  { clear. induction ops as [|o ops IH]; intros s; [done|].
    simpl. unfold bind at 1. simpl. apply IH. }
  specialize (Hops s). destruct (forM_ _ _ s) as [[[]|?] s1]; [done|done].
Qed.

Ltac to_the_emission :=
  repeat (apply hands_over_last_bind; [by repeat keeps_field_step|intros ?]).

(** X1. When the lowering of a convolution raises before its post-condition
    check, the graph converter has been given nothing: no operator was
    added and the graph is as it was. Every call of [add_operator] comes
    after the last step that can raise. *)
Theorem conv_lowering_hands_over_last (mapping : Mapping) s e s' :
  GenericConvOperator.lower mapping s = (Raise e, s') →
  emitted s' = emitted s ∧ graph s' = graph s.
Proof.
  intros Hrun. cut (handed_over s' = handed_over s); [by intros [= -> ->]|].
  revert s e s' Hrun.
  fold (hands_over_last (GenericConvOperator.lower mapping)).
  unfold GenericConvOperator.lower.
  to_the_emission. apply emission_returns.
Qed.

(** X2. When the lowering of a transposed convolution raises, the graph
    converter has been given nothing: no operator was added and the graph is
    as it was. *)
Theorem transpose_conv_lowering_hands_over_last (mapping : Mapping) s e s' :
  GenericTransposeConvOperator.transform mapping s = (Raise e, s') →
  emitted s' = emitted s ∧ graph s' = graph s.
Proof.
  intros Hrun. cut (handed_over s' = handed_over s); [by intros [= -> ->]|].
  revert s e s' Hrun.
  fold (hands_over_last (GenericTransposeConvOperator.transform mapping)).
  unfold GenericTransposeConvOperator.transform.
  to_the_emission. apply emission_returns'.
Qed.
End emission_last.

Lemma conv_lowering_hands_over_last_witness :
  let run := @GenericConvOperator.lower unit linking_converter ()
               rank5_weight_rank3_input_example in
  run = (Raise ValueError, run.2)
  ∧ attr_count run.2 = 5
  ∧ emitted run.2 = [] ∧ graph run.2 = empty_graph.
Proof.
  intros run.
  assert (run = (Raise ValueError, run.2)) as Hrun by (by vm_compute).
  split; [exact Hrun|]. split; [by vm_compute|].
  exact (@conv_lowering_hands_over_last unit linking_converter ()
           rank5_weight_rank3_input_example _ _ Hrun).
Defined.

Lemma transpose_conv_lowering_hands_over_last_witness :
  let run := @GenericTransposeConvOperator.transform unit linking_converter ()
               deconv_rank3_input_example in
  run = (Raise ValueError, run.2)
  ∧ attr_count run.2 = 2
  ∧ emitted run.2 = [] ∧ graph run.2 = empty_graph.
Proof.
  intros run.
  assert (run = (Raise ValueError, run.2)) as Hrun by (by vm_compute).
  split; [exact Hrun|]. split; [by vm_compute|].
  exact (@transpose_conv_lowering_hands_over_last unit linking_converter ()
           deconv_rank3_input_example _ _ Hrun).
Defined.

(** * The rank guards of the convolution lowerings *)

(** What the functions of numpy and the Python list operations raise. *)
Lemma py_getitem_raises {A} (l : list A) i e :
  py_getitem l i = Raise e → e = IndexError.
Proof. unfold py_getitem. repeat case_match; by intros [= <-]. Qed.

Lemma py_setitem_raises {A} (l : list A) i x e :
  py_setitem l i x = Raise e → e = IndexError.
Proof. unfold py_setitem. repeat case_match; by intros [= <-]. Qed.

Lemma np_transpose_raises a p e : np_transpose a p = Raise e → e = ValueError.
Proof. unfold np_transpose. repeat case_match; by intros [= <-]. Qed.

Lemma np_expand_dims_2_raises a e :
  np_expand_dims_2 a = Raise e → e = ValueError.
Proof. unfold np_expand_dims_2. repeat case_match; by intros [= <-]. Qed.

Lemma np_pad_raises a p e : np_pad a p = Raise e → e = ValueError.
Proof. unfold np_pad. repeat case_match; by intros [= <-]. Qed.

Lemma np_reshape_raises a sh e : np_reshape a sh = Raise e → e = ValueError.
Proof. unfold np_reshape. repeat case_match; by intros [= <-]. Qed.

Lemma np_binop_raises `{!Numpy} a b e :
  np_binop a b = Raise e → e = ValueError.
Proof. unfold np_binop. repeat case_match; by intros [= <-]. Qed.

Section raises_only.
Context (P : exn → Prop).

Lemma raises_only_ret {A} (a : A) : raises_only P (ret a).
Proof. by intros s e s'. Qed.

Lemma raises_only_raise {A} e : P e → raises_only P (@raise A e).
Proof. by intros He s e' s' [= <- _]. Qed.

Lemma raises_only_lift {A} (r : result A) :
  (∀ e, r = Raise e → P e) → raises_only P (lift r).
Proof. intros Hr s e s' [= -> _]. by apply Hr. Qed.

Lemma raises_only_gets {A} (g : State → A) : raises_only P (gets g).
Proof. by intros s e s'. Qed.

Lemma raises_only_modify g : raises_only P (modify g).
Proof. by intros s e s'. Qed.

Lemma raises_only_bind {A B} (m : M A) (k : A → M B) :
  raises_only P m → (∀ a, raises_only P (k a)) → raises_only P (bind m k).
Proof.
  intros Hm Hk s e s'. unfold bind. specialize (Hm s).
  destruct (m s) as [[a|e1] s1].
  - apply Hk.
  - intros [= <- <-]. by eapply Hm.
Qed.

Lemma raises_only_new_list l : raises_only P (new_list l).
Proof. by intros s e s'. Qed.

Lemma raises_only_read_list r :
  P DanglingReference → raises_only P (read_list r).
Proof.
  intros HP s e s'. unfold read_list. by destruct (_ !! r); intros [= <- _].
Qed.

Lemma raises_only_write_list r l :
  P DanglingReference → raises_only P (write_list r l).
Proof.
  intros HP s e s'. unfold write_list. by case_bool_decide; intros [= <- _].
Qed.

Lemma raises_only_the o : P AttributeError → raises_only P (the o).
Proof. intros HP s e s'. by destruct o; intros [= <- _]. Qed.

Lemma raises_only_mapM {A B} (g : A → M B) l :
  (∀ a, raises_only P (g a)) → raises_only P (mapM g l).
Proof.
  intros Hg. induction l as [|a l IH]; simpl; [apply raises_only_ret|].
  apply raises_only_bind; [done|]. intros b.
  apply raises_only_bind; [done|]. intros bs. apply raises_only_ret.
Qed.

Lemma raises_only_forM_ {A} (g : A → M unit) l :
  (∀ a, raises_only P (g a)) → raises_only P (forM_ l g).
Proof.
  intros Hg. induction l as [|a l IH]; simpl; [apply raises_only_ret|].
  apply raises_only_bind; [done|]. by intros _.
Qed.

Lemma raises_only_add_operator `{!GraphConverter Mapping} o t :
  raises_only P (add_operator o t).
Proof. by intros s e s'. Qed.

Lemma raises_only_try_restore_edges `{!GraphConverter Mapping}
    (mapping : Mapping) :
  raises_only P (try_restore_edges mapping).
Proof. by intros s e s'. Qed.

Lemma wp_raises_only {A} (m : M A) s :
  raises_only P m → wp (λ e _, P e) m (λ _ _, True) s.
Proof.
  intros Hm. unfold wp. specialize (Hm s).
  destruct (m s) as [[a|e] s']; [done|]. by eapply Hm.
Qed.
End raises_only.

Ltac no_assertion := by intros ?.

Ltac raised_by_library :=
  let e := fresh "e" in let He := fresh "He" in
  intros e He;
  first [ apply py_getitem_raises in He | apply py_setitem_raises in He
        | apply np_transpose_raises in He
        | apply np_expand_dims_2_raises in He | apply np_pad_raises in He
        | apply np_reshape_raises in He | apply np_binop_raises in He ];
  subst e; no_assertion.

Ltac raises_step :=
  cbv zeta;
  lazymatch goal with
  | |- raises_only _ (bind _ _) => apply raises_only_bind; [|intros ?]
  | |- raises_only _ (ret _) => apply raises_only_ret
  | |- raises_only _ (raise _) => apply raises_only_raise; no_assertion
  | |- raises_only _ (lift _) => apply raises_only_lift; raised_by_library
  | |- raises_only _ (gets _) => apply raises_only_gets
  | |- raises_only _ (modify _) => apply raises_only_modify
  | |- raises_only _ (new_list _) => apply raises_only_new_list
  | |- raises_only _ (read_list _) => apply raises_only_read_list; no_assertion
  | |- raises_only _ (write_list _ _) =>
      apply raises_only_write_list; no_assertion
  | |- raises_only _ (the _) => apply raises_only_the; no_assertion
  | |- raises_only _ (mapM _ _) => apply raises_only_mapM; intros ?
  | |- raises_only _ (forM_ _ _) => apply raises_only_forM_; intros ?
  | |- raises_only _ (add_operator _ _) => apply raises_only_add_operator
  | |- raises_only _ (try_restore_edges _) =>
      apply raises_only_try_restore_edges
  | |- raises_only _ (getitem _ _) => unfold getitem
  | |- raises_only _ (setitem _ _ _) => unfold setitem
  | |- raises_only _ (new_operator _ _ _ _) => unfold new_operator
  | |- raises_only _ (warn _) => unfold warn
  | |- raises_only _ outputs_0_name => unfold outputs_0_name
  | |- raises_only _ (create_attr_tensor _ _ _) => unfold create_attr_tensor
  | |- raises_only _ (create_transform_tensor _ _ _) =>
      unfold create_transform_tensor
  | |- raises_only _ (wrap_ops_with_nhwc_nchw_transposes _ _ _) =>
      unfold wrap_ops_with_nhwc_nchw_transposes
  | |- raises_only _ extend_conv_params => unfold extend_conv_params
  | |- raises_only _ (reshape_output _) => unfold reshape_output
  | |- raises_only _ (shape_attr _) => unfold shape_attr
  | |- raises_only _ (reshape_op _) => unfold reshape_op
  | |- raises_only _ (reshape_op' _) => unfold reshape_op'
  | |- raises_only _ (reshape_to_4d _) => unfold reshape_to_4d
  | |- raises_only _ (reorder_weight _ _) => unfold reorder_weight
  | |- raises_only _ (GenericConvOperator.select_primitive _ _) =>
      unfold GenericConvOperator.select_primitive
  | |- raises_only _ (GenericConvOperator.pad_handling _) =>
      unfold GenericConvOperator.pad_handling
  | |- raises_only _ (GenericConvOperator.weight_handling _ _) =>
      unfold GenericConvOperator.weight_handling
  | |- raises_only _ (GenericConvOperator.bias_handling _) =>
      unfold GenericConvOperator.bias_handling
  | |- raises_only _ (GenericTransposeConvOperator.pad_handling _ _) =>
      unfold GenericTransposeConvOperator.pad_handling
  | |- raises_only _ (GenericTransposeConvOperator.bias_handling _) =>
      unfold GenericTransposeConvOperator.bias_handling
  | |- raises_only _ (if ?b then _ else _) => destruct b
  | |- raises_only _ (match ?x with _ => _ end) => destruct x
  end.

Lemma node_tensors_inv s x w :
  node_input s = Some x → node_weight s = Some w →
  ∃ rest, heap s !! self_inputs s = Some (Some x :: Some w :: rest).
Proof.
  unfold node_input, node_weight.
  destruct (heap s !! self_inputs s) as [[|ox [|ow rest]]|]; try done.
  simpl. intros -> ->. eauto.
Qed.

Lemma wp_raises {A} (m : M A) e0 s0 s :
  wp (λ e s', e = e0 ∧ s' = s0) m (λ _ _, False) s → m s = (Raise e0, s0).
Proof. unfold wp. by destruct (m s) as [[a|e] s']; [|intros [-> ->]]. Qed.

Section guard.
Context {Mapping : Type} `{!GraphConverter Mapping}.

Lemma conv_normalize_dims_no_assertion input_dim weight_dim :
  weight_dim = 3 ∨ weight_dim = 4 ∨ input_dim = 3 →
  raises_only no_assertion
    (GenericConvOperator.normalize_dims input_dim weight_dim).
Proof.
  intros Hdim. unfold GenericConvOperator.normalize_dims.
  destruct (bool_decide (weight_dim = 3) || bool_decide (input_dim = 3))
    eqn:Hdoes.
  - repeat raises_step.
  - apply orb_false_iff in Hdoes as [H3%bool_decide_eq_false
                                       Hx%bool_decide_eq_false].
    rewrite bool_decide_eq_false_2
      by (intros Hne; by destruct Hdim as [?|[?|?]]).
    apply raises_only_ret.
Qed.

Lemma conv_lower_no_assertion (mapping : Mapping) s x w :
  node_input s = Some x → node_weight s = Some w →
  ndim (tensor w) = 3 ∨ ndim (tensor w) = 4 ∨ ndim (tensor x) = 3 →
  wp (λ e _, no_assertion e) (GenericConvOperator.lower mapping)
     (λ _ _, True) s.
Proof.
  intros Hx Hw Hdim.
  destruct (node_tensors_inv _ _ _ Hx Hw) as [rest Hlin].
  unfold GenericConvOperator.lower.
  apply wp_bind, wp_gets.
  apply wp_bind. unfold getitem at 1. apply wp_bind, wp_read_list.
  rewrite Hlin. apply wp_lift.
  rewrite (proj2 (py_getitem_0 (Some x :: Some w :: rest) (Some x)) eq_refl).
  apply wp_bind. unfold getitem at 1. apply wp_bind, wp_read_list.
  rewrite Hlin. apply wp_lift.
  rewrite (proj2 (py_getitem_1 (Some x :: Some w :: rest) (Some w)) eq_refl).
  apply wp_bind, wp_the. apply wp_bind, wp_the. cbv zeta.
  apply wp_raises_only.
  apply raises_only_bind.
  - by apply conv_normalize_dims_no_assertion.
  - intros ?. repeat raises_step.
Qed.

Lemma conv_rank_guard_raises (mapping : Mapping) s x w :
  node_input s = Some x → node_weight s = Some w →
  (ndim (tensor w) ≠ 3 → ndim (tensor w) ≠ 4 → ndim (tensor x) ≠ 3 →
   GenericConvOperator.lower mapping s
   = (Raise (AssertionError rank_message), s)) ∧
  (∀ ops s', GenericConvOperator.lower mapping s = (Ok ops, s') →
             ndim (tensor w) = 3 ∨ ndim (tensor w) = 4).
Proof.
  intros Hx Hw. split.
  - intros H3 H4 Hx3.
    destruct (node_tensors_inv _ _ _ Hx Hw) as [rest Hlin].
    apply wp_raises. unfold GenericConvOperator.lower.
    apply wp_bind, wp_gets.
    apply wp_bind. unfold getitem at 1. apply wp_bind, wp_read_list.
    rewrite Hlin. apply wp_lift.
    rewrite (proj2 (py_getitem_0 (Some x :: Some w :: rest) (Some x)) eq_refl).
    apply wp_bind. unfold getitem at 1. apply wp_bind, wp_read_list.
    rewrite Hlin. apply wp_lift.
    rewrite (proj2 (py_getitem_1 (Some x :: Some w :: rest) (Some w)) eq_refl).
    apply wp_bind, wp_the. apply wp_bind, wp_the. cbv zeta.
    apply wp_bind. unfold GenericConvOperator.normalize_dims.
    change (length (shape ?t)) with (ndim (tensor t)).
    rewrite !bool_decide_eq_false_2 by done. cbn [orb].
    rewrite bool_decide_eq_true_2 by done. by apply wp_raise.
  - intros ops s' Hrun. destruct (lower_returns _ _ _ _ Hrun) as [p Hp].
    destruct (conv_lowered_node _ _ _ _ Hp) as [_ Hw'].
    rewrite Hw in Hw'. injection Hw' as ->.
    lowered_facts Hp. unfold weight_rank3 in Hw4.
    destruct (decide (ndim (tensor (weight_tensor p)) = 3)) as [?|Hne];
      [by left|right].
    rewrite bool_decide_eq_false_2 in Hw4 by done.
    unfold lifted_if in Hw4. by rewrite <-Hw4.
Qed.

Lemma transpose_conv_rank_guard_raises (mapping : Mapping) s w :
  node_weight s = Some w →
  ndim (tensor w) ≠ 3 → ndim (tensor w) ≠ 4 →
  GenericTransposeConvOperator.transform mapping s
  = (Raise (AssertionError rank_message), s).
Proof.
  intros Hw H3 H4.
  unfold node_weight in Hw.
  destruct (heap s !! self_inputs s) as [l|] eqn:Hlin; [|done].
  simpl in Hw. destruct (l !! 1) as [ow|] eqn:Hl1; [|done].
  simpl in Hw. subst ow.
  apply wp_raises. unfold GenericTransposeConvOperator.transform.
  apply wp_bind, wp_gets. apply wp_bind, wp_bind.
  unfold getitem. apply wp_bind, wp_read_list. rewrite Hlin. apply wp_lift.
  rewrite (proj2 (py_getitem_1 _ _) Hl1). apply wp_the. cbv zeta.
  apply wp_bind. unfold GenericTransposeConvOperator.normalize_dims.
  change (length (shape ?t)) with (ndim (tensor t)).
  rewrite bool_decide_eq_false_2 by done.
  rewrite bool_decide_eq_true_2 by done. by apply wp_raise.
Qed.

Lemma transpose_conv_normalize_dims_no_assertion weight_dim :
  weight_dim = 3 ∨ weight_dim = 4 →
  raises_only no_assertion
    (GenericTransposeConvOperator.normalize_dims weight_dim).
Proof.
  intros Hdim. unfold GenericTransposeConvOperator.normalize_dims.
  destruct (bool_decide (weight_dim = 3)) eqn:Hdoes.
  - repeat raises_step.
  - apply bool_decide_eq_false in Hdoes.
    rewrite bool_decide_eq_false_2 by (intros Hne; by destruct Hdim).
    apply raises_only_ret.
Qed.

Lemma transpose_conv_no_assertion (mapping : Mapping) s w :
  node_weight s = Some w →
  ndim (tensor w) = 3 ∨ ndim (tensor w) = 4 →
  wp (λ e _, no_assertion e) (GenericTransposeConvOperator.transform mapping)
     (λ _ _, True) s.
Proof.
  intros Hw Hdim.
  unfold node_weight in Hw.
  destruct (heap s !! self_inputs s) as [l|] eqn:Hlin; [|done].
  simpl in Hw. destruct (l !! 1) as [ow|] eqn:Hl1; [|done].
  simpl in Hw. subst ow.
  unfold GenericTransposeConvOperator.transform.
  apply wp_bind, wp_gets. apply wp_bind, wp_bind.
  unfold getitem. apply wp_bind, wp_read_list. rewrite Hlin. apply wp_lift.
  rewrite (proj2 (py_getitem_1 _ _) Hl1). apply wp_the. cbv zeta.
  apply wp_raises_only.
  apply raises_only_bind.
  - by apply transpose_conv_normalize_dims_no_assertion.
  - intros ?. repeat raises_step.
Qed.

(** X3. The lowering of a convolution, up to its post-condition check,
    raises an assertion error exactly when the weight has neither rank 3 nor
    rank 4 and the input has not rank 3; the message is then that of line
    200 and the node is as it was. A lowering that returns had a weight of
    rank 3 or 4. *)
Theorem conv_rank_guard (mapping : Mapping) s x w :
  node_input s = Some x → node_weight s = Some w →
  (∀ msg s',
     GenericConvOperator.lower mapping s = (Raise (AssertionError msg), s') ↔
     msg = rank_message ∧ s' = s ∧
     ndim (tensor w) ≠ 3 ∧ ndim (tensor w) ≠ 4 ∧ ndim (tensor x) ≠ 3) ∧
  (∀ ops s', GenericConvOperator.lower mapping s = (Ok ops, s') →
             ndim (tensor w) = 3 ∨ ndim (tensor w) = 4).
Proof.
  intros Hx Hw.
  destruct (conv_rank_guard_raises mapping s x w Hx Hw) as [Hraise Hret].
  split; [|done].
  intros msg s'. split.
  - intros Hrun.
    destruct (decide (ndim (tensor w) = 3)) as [H3|H3].
    { pose proof (conv_lower_no_assertion mapping s x w Hx Hw (or_introl H3))
        as Hwp.
      unfold wp in Hwp. rewrite Hrun in Hwp. by destruct (Hwp msg). }
    destruct (decide (ndim (tensor w) = 4)) as [H4|H4].
    { pose proof (conv_lower_no_assertion mapping s x w Hx Hw
                    (or_intror (or_introl H4))) as Hwp.
      unfold wp in Hwp. rewrite Hrun in Hwp. by destruct (Hwp msg). }
    destruct (decide (ndim (tensor x) = 3)) as [Hx3|Hx3].
    { pose proof (conv_lower_no_assertion mapping s x w Hx Hw
                    (or_intror (or_intror Hx3))) as Hwp.
      unfold wp in Hwp. rewrite Hrun in Hwp. by destruct (Hwp msg). }
    rewrite (Hraise H3 H4 Hx3) in Hrun. by injection Hrun as <- <-.
  - intros (-> & -> & H3 & H4 & Hx3). by apply Hraise.
Qed.

(** X4. The lowering of a transposed convolution raises an assertion
    error exactly when the weight has neither rank 3 nor rank 4, whatever the
    rank of the input is; the message is then that of line 354 and the node
    is as it was. *)
Theorem transpose_conv_rank_guard (mapping : Mapping) s w :
  node_weight s = Some w →
  ∀ msg s',
    GenericTransposeConvOperator.transform mapping s
    = (Raise (AssertionError msg), s') ↔
    msg = rank_message ∧ s' = s ∧
    ndim (tensor w) ≠ 3 ∧ ndim (tensor w) ≠ 4.
Proof.
  intros Hw msg s'. split.
  - intros Hrun.
    destruct (decide (ndim (tensor w) = 3)) as [H3|H3].
    { pose proof (transpose_conv_no_assertion mapping s w Hw (or_introl H3))
        as Hwp.
      unfold wp in Hwp. rewrite Hrun in Hwp. by destruct (Hwp msg). }
    destruct (decide (ndim (tensor w) = 4)) as [H4|H4].
    { pose proof (transpose_conv_no_assertion mapping s w Hw (or_intror H4))
        as Hwp.
      unfold wp in Hwp. rewrite Hrun in Hwp. by destruct (Hwp msg). }
    rewrite (transpose_conv_rank_guard_raises mapping s w Hw H3 H4) in Hrun.
    by injection Hrun as <- <-.
  - intros (-> & -> & H3 & H4).
    by apply (transpose_conv_rank_guard_raises mapping s w).
Qed.
End guard.

Lemma conv_rank_guard_witness :
  node_input rank5_weight_example
  = Some (value_tensor "x" [1; 3; 8; 8] float32 None)
  ∧ node_weight rank5_weight_example
    = Some (constant_tensor "w" [4; 3; 3; 3; 3] float32)
  ∧ @GenericConvOperator.lower unit linking_converter () rank5_weight_example
    = (Raise (AssertionError rank_message), rank5_weight_example).
Proof.
  split; [reflexivity|]. split; [reflexivity|].
  apply (@conv_rank_guard unit linking_converter () rank5_weight_example
           (value_tensor "x" [1; 3; 8; 8] float32 None)
           (constant_tensor "w" [4; 3; 3; 3; 3] float32)
           eq_refl eq_refl).
  split; [reflexivity|]. split; [reflexivity|].
  split; [|split]; vm_compute; discriminate.
Defined.

Lemma transpose_conv_rank_guard_witness :
  node_weight rank5_weight_example
  = Some (constant_tensor "w" [4; 3; 3; 3; 3] float32)
  ∧ @GenericTransposeConvOperator.transform unit linking_converter ()
      rank5_weight_example
    = (Raise (AssertionError rank_message), rank5_weight_example).
Proof.
  split; [reflexivity|].
  apply (@transpose_conv_rank_guard unit linking_converter ()
           rank5_weight_example
           (constant_tensor "w" [4; 3; 3; 3; 3] float32) eq_refl).
  split; [reflexivity|]. split; [reflexivity|].
  split; vm_compute; discriminate.
Defined.

(** * Lowerings that do not look at the graph *)

Ltac blind_step_more :=
  first
    [ blind_step
    | lazymatch goal with
      | |- graph_blind (warn _) _ => unfold warn
      | |- graph_blind (GenericConvOperator.normalize_dims _ _) _ =>
          unfold GenericConvOperator.normalize_dims
      | |- graph_blind (GenericConvOperator.select_primitive _ _) _ =>
          unfold GenericConvOperator.select_primitive
      | |- graph_blind (GenericConvOperator.pad_handling _) _ =>
          unfold GenericConvOperator.pad_handling
      | |- graph_blind (GenericConvOperator.weight_handling _ _) _ =>
          unfold GenericConvOperator.weight_handling
      | |- graph_blind (GenericConvOperator.bias_handling _) _ =>
          unfold GenericConvOperator.bias_handling
      end ].

Lemma graph_blind_assert_all_buffers l :
  graph_blind (BatchNormOperator.assert_all_buffers l)
              (BatchNormOperator.assert_all_buffers l).
Proof.
  induction l as [|x l IH]; simpl; [apply graph_blind_ret|].
  apply graph_blind_bind; [apply graph_blind_the|].
  intros t. destruct (has_buffer t); [done|apply graph_blind_raise].
Qed.

(** X5. The lowering of a convolution, up to its post-condition check,
    never looks at the graph: run with any two converters and mappings from
    states that differ in the graph only, it gives the same result (the same
    chain or the same exception) and final states that differ in the graph
    only. *)
Theorem conv_lower_graph_blind {Mapping} (c1 c2 : GraphConverter Mapping)
    m1 m2 :
  graph_blind (@GenericConvOperator.lower _ c1 m1)
              (@GenericConvOperator.lower _ c2 m2).
Proof. unfold GenericConvOperator.lower. repeat blind_step_more. Qed.

(** X6. The lowering of a BatchNorm never looks at the graph: run with any
    two converters and mappings from states that differ in the graph only,
    it gives the same result and final states that differ in the graph
    only. *)
Theorem batch_norm_graph_blind {Mapping} (c1 c2 : GraphConverter Mapping)
    `{!Numpy} m1 m2 :
  graph_blind (@BatchNormOperator.transform _ c1 _ m1)
              (@BatchNormOperator.transform _ c2 _ m2).
Proof.
  unfold BatchNormOperator.transform.
  repeat first [apply graph_blind_assert_all_buffers | blind_step_more].
Qed.

(** * The layout wrapper at its edges *)

Section wrapper_edges.
Import TransformableOperator.

(** The two layout permutations undo each other. *)
Lemma layout_perms_round_trip (sh : list nat) :
  length sh = 4 →
  permute_shape (permute_shape sh nchw2nhwc_perm) nhwc2nchw_perm = sh ∧
  permute_shape (permute_shape sh nhwc2nchw_perm) nchw2nhwc_perm = sh.
Proof. by destruct sh as [|a [|b [|c [|d [|]]]]]. Qed.

(** X8. The layout wrapper returns exactly when the chain is not empty,
    the designated input of its first operator and the designated output of
    its last operator are tensors of rank 4, and the node has a first
    output to name the new tensors after. *)
Theorem wrap_returns_iff ops i o s :
  (∃ r s', wrap_ops_with_nhwc_nchw_transposes ops i o s = (Ok r, s')) ↔
  (∃ w, wrap_site_of ops i o s w).
Proof.
  split.
  - intros (r & s' & Hrun).
    destruct (wrap_ops_returns_inv _ _ _ _ _ _ Hrun) as (w & Hw & _). eauto.
  - intros [w Hw].
    destruct (wp_total_run (wrap_ops_with_nhwc_nchw_transposes ops i o)
                (λ _ _, True) s) as (r & s' & Hrun & _); [|eauto].
    by eapply wp_wrap_ok.
Qed.

(** X9. The two transposes the layout wrapper adds are consistent: the
    output of each has the shape its permutation gives to its input, the
    leading one with [0, 2, 3, 1] and the trailing one with [0, 3, 1, 2],
    which undoes the first. *)
Theorem wrap_transposes_consistent ops i o s r s' :
  wrap_ops_with_nhwc_nchw_transposes ops i o s = (Ok r, s') →
  ∃ pre post x p1 x' y' p2 y,
    r !! 0 = Some pre ∧ last r = Some post ∧
    resolve s' pre = (TRANSPOSE, [Some x; Some p1], [Some x']) ∧
    resolve s' post = (TRANSPOSE, [Some y'; Some p2], [Some y]) ∧
    nd_data (tensor p1) = Some [0; 2; 3; 1]%Z ∧
    nd_data (tensor p2) = Some [0; 3; 1; 2]%Z ∧
    shape x' = permute_shape (shape x) [0; 2; 3; 1]%Z ∧
    shape y = permute_shape (shape y') [0; 3; 1; 2]%Z.
Proof.
  intros Hrun.
  destruct (wrap_ops_returns_inv _ _ _ _ _ _ Hrun) as (w & Hw & -> & ->).
  pose proof (wrap_site_heap _ _ _ _ _ Hw) as Hh.
  exists (pre_transpose s), (post_transpose s), (orig_input w),
    (nchw2nhwc_perm_tensor s w), (new_input s w), (new_output s w),
    (nhwc2nchw_perm_tensor s w), (orig_output w).
  split_and!; try done.
  - unfold wrap_chain. by rewrite app_assoc, last_snoc.
  - unfold resolve, wrap_state, pre_transpose. st_simpl.
    cbn [op inputs outputs].
    rewrite <-(Nat.add_0_r (length (heap s))) at 1.
    rewrite (wrap_heap_fresh s w 0 _ Hh eq_refl).
    replace (S (length (heap s))) with (length (heap s) + 1) by lia.
    by rewrite (wrap_heap_fresh s w 1 _ Hh eq_refl).
  - unfold resolve, wrap_state, post_transpose. st_simpl.
    cbn [op inputs outputs].
    replace (S (S (S (length (heap s))))) with (length (heap s) + 3) by lia.
    replace (S (S (length (heap s)))) with (length (heap s) + 2) by lia.
    rewrite (wrap_heap_fresh s w 2 _ Hh eq_refl).
    by rewrite (wrap_heap_fresh s w 3 _ Hh eq_refl).
  - destruct Hw as (_&_&_&_&_&_&_&_&_&Hd&_).
    unfold new_output, channel_last, shape at 1 2. cbn [tensor nd_shape].
    symmetry. by apply layout_perms_round_trip.
Qed.

Lemma wrap_transposes_consistent_witness :
  let run := wrap_ops_with_nhwc_nchw_transposes [example_conv_op] 0 0
               conv2d_example in
  run = (Ok (returned [] run.1), run.2)
  ∧ ∃ pre post x p1 x' y' p2 y,
      returned [] run.1 !! 0 = Some pre ∧ last (returned [] run.1) = Some post ∧
      resolve run.2 pre = (TRANSPOSE, [Some x; Some p1], [Some x']) ∧
      resolve run.2 post = (TRANSPOSE, [Some y'; Some p2], [Some y]) ∧
      nd_data (tensor p1) = Some [0; 2; 3; 1]%Z ∧
      nd_data (tensor p2) = Some [0; 3; 1; 2]%Z ∧
      shape x' = permute_shape (shape x) [0; 2; 3; 1]%Z ∧
      shape y = permute_shape (shape y') [0; 3; 1; 2]%Z.
Proof.
  intros run.
  assert (run = (Ok (returned [] run.1), run.2)) as Hrun by (by vm_compute).
  split; [exact Hrun|].
  exact (wrap_transposes_consistent [example_conv_op] 0 0 conv2d_example
           _ _ Hrun).
Defined.
End wrapper_edges.

(** * More on the lowering of a BatchNorm *)

Section store_grows.
Lemma store_grows_ret {A} (a : A) : store_grows (ret a).
Proof. intros s. exists []. by rewrite app_nil_r. Qed.

Lemma store_grows_raise {A} e : store_grows (@raise A e).
Proof. intros s. exists []. by rewrite app_nil_r. Qed.

Lemma store_grows_lift {A} (r : result A) : store_grows (lift r).
Proof. intros s. exists []. by rewrite app_nil_r. Qed.

Lemma store_grows_gets {A} (g : State → A) : store_grows (gets g).
Proof. intros s. exists []. by rewrite app_nil_r. Qed.

Lemma store_grows_modify g :
  (∀ s, heap (g s) = heap s) → store_grows (modify g).
Proof. intros Hg s. exists []. simpl. by rewrite Hg, app_nil_r. Qed.

Lemma store_grows_bind {A B} (m : M A) (k : A → M B) :
  store_grows m → (∀ a, store_grows (k a)) → store_grows (bind m k).
Proof.
  intros Hm Hk s. unfold bind. destruct (Hm s) as [ext1 H1].
  destruct (m s) as [[a|e] s1]; simpl in H1; [|by exists ext1].
  destruct (Hk a s1) as [ext2 H2]. exists (ext1 ++ ext2).
  by rewrite H2, H1, app_assoc.
Qed.

Lemma store_grows_new_list l : store_grows (new_list l).
Proof. intros s. by exists [l]. Qed.

Lemma store_grows_read_list r : store_grows (read_list r).
Proof.
  intros s. exists []. unfold read_list.
  destruct (_ !! r); simpl; by rewrite app_nil_r.
Qed.

Lemma store_grows_the o : store_grows (the o).
Proof. destruct o; [apply store_grows_ret|apply store_grows_raise]. Qed.

Lemma store_grows_add_operator `{!GraphConverter Mapping} o t :
  store_grows (add_operator o t).
Proof. intros s. exists []. simpl. by rewrite app_nil_r. Qed.

Lemma store_grows_try_restore_edges `{!GraphConverter Mapping}
    (mapping : Mapping) :
  store_grows (try_restore_edges mapping).
Proof. intros s. exists []. simpl. by rewrite app_nil_r. Qed.
End store_grows.

Ltac grows_step :=
  cbv zeta;
  lazymatch goal with
  | |- store_grows (bind _ _) => apply store_grows_bind; [|intros ?]
  | |- store_grows (ret _) => apply store_grows_ret
  | |- store_grows (raise _) => apply store_grows_raise
  | |- store_grows (lift _) => apply store_grows_lift
  | |- store_grows (gets _) => apply store_grows_gets
  | |- store_grows (modify _) => apply store_grows_modify; by intros []
  | |- store_grows (new_list _) => apply store_grows_new_list
  | |- store_grows (read_list _) => apply store_grows_read_list
  | |- store_grows (the _) => apply store_grows_the
  | |- store_grows (add_operator _ _) => apply store_grows_add_operator
  | |- store_grows (try_restore_edges _) =>
      apply store_grows_try_restore_edges
  | |- store_grows (getitem _ _) => unfold getitem
  | |- store_grows (new_operator _ _ _ _) => unfold new_operator
  | |- store_grows outputs_0_name => unfold outputs_0_name
  | |- store_grows (create_attr_tensor _ _ _) => unfold create_attr_tensor
  | |- store_grows (create_transform_tensor _ _ _) =>
      unfold create_transform_tensor
  | |- store_grows (if ?b then _ else _) => destruct b
  | |- store_grows (match ?x with _ => _ end) => destruct x
  end.

Section batch_norm_extras.
Context {Mapping : Type} `{!GraphConverter Mapping} `{!Numpy}.
Import BatchNormOperator.

Lemma assert_all_buffers_spec l s :
  assert_all_buffers l s = (Ok (), s) ∧ Forall buffered l
  ∨ assert_all_buffers l s = (Raise (AssertionError ""), s)
    ∧ first_without_buffer l
  ∨ assert_all_buffers l s = (Raise AttributeError, s)
    ∧ ¬ Forall buffered l ∧ ¬ first_without_buffer l.
Proof.
  induction l as [|o l IH]; simpl.
  - left. by split.
  - destruct o as [t|]; unfold bind; simpl.
    + destruct (has_buffer t) eqn:Hb.
      * destruct IH as [[-> Hl]|[[-> Hl]|(-> & Hl1 & Hl2)]].
        -- left. split; [done|]. constructor; [by exists t|done].
        -- right. left. split; [done|].
           destruct Hl as (pre & t' & post & -> & Hpre & Ht').
           exists (Some t :: pre), t', post. split_and!; try done.
           constructor; [by exists t|done].
        -- right. right. split; [done|]. split.
           ++ by intros [_ ?]%Forall_cons.
           ++ intros (pre & t' & post & Heq & Hpre & Ht'). apply Hl2.
              destruct pre as [|p pre].
              ** simpl in Heq. injection Heq as <- _. congruence.
              ** simpl in Heq. injection Heq as _ ->.
                 apply Forall_cons in Hpre as [_ Hpre]. by exists pre, t', post.
      * right. left. split; [done|]. by exists [], t, l.
    + right. right. split; [done|]. split.
      * by intros [(?&?&?) _]%Forall_cons.
      * intros (pre & t' & post & Heq & Hpre & Ht').
        destruct pre as [|p pre]; [done|].
        simpl in Heq. injection Heq as <- _.
        by apply Forall_cons in Hpre as [(?&?&?) _].
Qed.

Lemma assert_all_buffers_keeps {X} (f : State → X) l :
  keeps f (assert_all_buffers l).
Proof.
  intros s.
  by destruct (assert_all_buffers_spec l s) as [[-> _]|[[-> _]|[-> _]]].
Qed.

Lemma assert_all_buffers_grows l : store_grows (assert_all_buffers l).
Proof.
  intros s. exists []. rewrite app_nil_r.
  by destruct (assert_all_buffers_spec l s) as [[-> _]|[[-> _]|[-> _]]].
Qed.

Lemma wp_assert_all_buffers E l (Q : unit → State → Prop) s :
  (Forall buffered l → Q () s) →
  (first_without_buffer l → E (AssertionError "") s) →
  (¬ Forall buffered l → ¬ first_without_buffer l → E AttributeError s) →
  wp E (assert_all_buffers l) Q s.
Proof.
  intros HQ H1 H2. unfold wp.
  destruct (assert_all_buffers_spec l s) as [[-> ?]|[[-> ?]|(-> & ? & ?)]];
    auto.
Qed.

Lemma wp_raised {A} E (m : M A) Q s e s' :
  wp E m Q s → m s = (Raise e, s') → E e s'.
Proof. unfold wp. intros Hwp Heq. by rewrite Heq in Hwp. Qed.

Lemma wp_of_raises_only {A} P E (m : M A) (Q : A → State → Prop) s :
  raises_only P m → (∀ e s', P e → E e s') → (∀ a s', Q a s') →
  wp E m Q s.
Proof.
  intros Hm HE HQ. unfold wp. specialize (Hm s).
  destruct (m s) as [[a|e] s']; [apply HQ|]. by eapply HE, Hm.
Qed.

Lemma buffered_not_first l : Forall buffered l → ¬ first_without_buffer l.
Proof.
  intros Hl (pre & t & post & -> & _ & Ht).
  apply Forall_app in Hl as [_ [(t' & [= <-] & Ht') _]%Forall_cons].
  congruence.
Qed.

(** X10. The lowering of a BatchNorm raises an assertion error exactly
    when, among the inputs after the first, a tensor without a buffer comes
    before any entry that is None; the message is empty and the node is as
    it was. A lowering that returns had a buffer on every input after the
    first. *)
Theorem batch_norm_buffer_assertion (mapping : Mapping) s l :
  heap s !! self_inputs s = Some l →
  (∀ msg s', transform mapping s = (Raise (AssertionError msg), s') ↔
             msg = "" ∧ s' = s ∧ first_without_buffer (drop 1 l)) ∧
  (∀ s', transform mapping s = (Ok (), s') → Forall buffered (drop 1 l)).
Proof.
  intros Hl.
  assert (wp (λ e s', ∀ msg, e = AssertionError msg →
                             msg = "" ∧ s' = s
                             ∧ first_without_buffer (drop 1 l))
             (transform mapping) (λ _ _, Forall buffered (drop 1 l)) s)
    as Hwp.
  { unfold transform. apply wp_bind, wp_gets. apply wp_bind, wp_read_list.
    rewrite Hl. apply wp_bind, wp_assert_all_buffers.
    - intros Hbuf.
      apply (wp_of_raises_only no_assertion);
        [|by intros e s' He msg ->; destruct (He msg)|done].
      repeat raises_step.
    - intros Hfirst msg [= <-]. done.
    - by intros _ _ msg. }
  split.
  - intros msg s'. split.
    + intros Hrun. by apply (wp_raised _ _ _ _ _ _ Hwp Hrun).
    + intros (-> & -> & Hfirst). apply wp_raises.
      unfold transform. apply wp_bind, wp_gets. apply wp_bind, wp_read_list.
      rewrite Hl. apply wp_bind, wp_assert_all_buffers.
      * intros Hbuf. by destruct (buffered_not_first _ Hbuf).
      * done.
      * done.
  - intros s' Hrun. by apply (wp_run _ _ _ _ _ _ Hwp Hrun).
Qed.

(** X11. However it ends, the lowering of a BatchNorm changes no list
    that was there: the store only gets new lists, so the inputs and
    outputs of the node hold what they held, and the node still refers to
    the same two lists, with the same parameters and warnings. *)
Theorem batch_norm_touches_no_list (mapping : Mapping) s :
  let s' := (transform mapping s).2 in
  (∃ ext, heap s' = heap s ++ ext) ∧
  (∀ r l, heap s !! r = Some l → heap s' !! r = Some l) ∧
  node_itself s' = node_itself s.
Proof.
  assert (store_grows (transform mapping)) as Hg.
  { unfold transform.
    repeat first [apply assert_all_buffers_grows | grows_step]. }
  assert (keeps node_itself (transform mapping)) as Hk.
  { unfold transform.
    repeat first [ apply assert_all_buffers_keeps | keeps_field_step
                 | apply keeps_add_operator; by intros []
                 | apply keeps_try_restore_edges; by intros [] ]. }
  intros s'. destruct (Hg s) as [ext Hext]. split_and!.
  - by exists ext.
  - intros r l Hr. unfold s'. rewrite Hext. by apply lookup_app_l_Some.
  - apply Hk.
Qed.
End batch_norm_extras.

Lemma broadcast_shapes_nil_r sh : broadcast_shapes sh [] = Some sh.
Proof.
  unfold broadcast_shapes. change (reverse []) with (@nil nat).
  replace (broadcast_rev (reverse sh) []) with (Some (reverse sh))
    by (by destruct (reverse sh)).
  simpl. by rewrite reverse_involutive.
Qed.

Lemma np_reshape_inv a sh b : np_reshape a sh = Ok b → nd_shape b = sh.
Proof. unfold np_reshape. case_bool_decide; [|done]. by intros [= <-]. Qed.

Lemma np_binop_inv `{!Numpy} a b c :
  np_binop a b = Ok c → broadcast_shapes (nd_shape a) (nd_shape b) = Some (nd_shape c).
Proof.
  unfold np_binop. destruct (broadcast_shapes _ _); [|done]. by intros [= <-].
Qed.

Section batch_norm_fold.
Context {Mapping : Type} `{!GraphConverter Mapping} `{!Numpy}.
Import BatchNormOperator.

Lemma batch_norm_fold_outcome (mapping : Mapping) s inp :
  node_input s = Some inp →
  wp any_exn (transform mapping) (λ _ s', batch_norm_folded s s' inp) s.
Proof.
  intros Hinp. unfold transform.
  wp_any. wp_any. wp_any. wp_any. wp_any.
  apply wp_assert_all_buffers_any.
  repeat wp_any.
  all: match goal with
       | Hl : heap ?s0 !! self_inputs ?s0 = Some ?l,
         Hn : py_norm ?l input_index = Some ?n,
         Hx : ?l !! ?n = Some (Some ?t) |- _ =>
           apply py_norm_nonneg_inv in Hn; [|by unfold input_index];
           vm_compute in Hn; subst n;
           unfold node_input in Hinp; rewrite Hl in Hinp;
           cbn [mbind option_bind] in Hinp;
           rewrite Hx in Hinp; injection Hinp as ->
       end.
  all: repeat match goal with
       | H : first_output_name _ = _ |- _ => clear H
       end.
  all: repeat match goal with
       | Hl : heap ?s0 !! self_inputs ?s0 = Some ?l,
         Hl' : heap ?s0 !! self_inputs ?s0 = Some ?l' |- _ =>
           rewrite Hl in Hl'; injection Hl' as <-
       end.
  all: repeat match goal with
       | Hn : py_norm _ ?i = Some ?n |- _ =>
           apply py_norm_nonneg_inv in Hn;
           [|by unfold weight_index, bias_index, running_mean_index,
                       running_variance_index];
           vm_compute in Hn; subst n
       end.
  all: repeat match goal with
       | H : heap _ !! self_outputs _ = Some _ |- _ => clear H
       end.
  all: match goal with
       | Hve : np_binop (tensor ?var) np_scalar_float32 = Ok ?a,
         Hnw : np_binop (tensor ?w) (np_sqrt_float32 ?a) = Ok ?a0,
         Hc : py_getitem (nd_shape ?a0) 0 = Ok ?c,
         Hlw : ?l !! 1 = Some (Some ?w),
         Hlv : ?l !! 4 = Some (Some ?var) |- _ =>
           assert (∃ rest_shape,
                     broadcast_shapes (shape w) (shape var)
                     = Some (c :: rest_shape)) as [rest_shape Hbroadcast];
           [ apply np_binop_inv in Hve, Hnw;
             cbn [np_scalar_float32 np_sqrt_float32 nd_shape] in Hve, Hnw;
             rewrite broadcast_shapes_nil_r in Hve; injection Hve as Hve;
             rewrite <-Hve in Hnw; apply py_getitem_0 in Hc;
             destruct (nd_shape a0) as [|c' rest_shape]; [done|];
             injection Hc as ->; by exists rest_shape
           | pose proof Hlw as Hweight; pose proof Hlv as Hvariance ]
       end.
  all: repeat match goal with
       | H : np_reshape _ _ = Ok _ |- _ => apply np_reshape_inv in H
       | H : np_binop (tensor _) (tensor {| tensor := _; has_buffer := true |})
             = Ok _ |- _ => apply np_binop_inv in H; cbn [tensor] in H
       end.
  all: unfold batch_norm_folded; do 6 eexists;
       eexists _, _, _, _, rest_shape.
  - split.
    { st_simpl. rewrite !elem_of_app, !elem_of_cons.
      left. left. right. left. reflexivity. }
    split.
    { st_simpl. rewrite !elem_of_app, !elem_of_cons.
      left. right. left. reflexivity. }
    split_and!; [by resolve_emitted 2 3|by resolve_emitted 4 5|..]; done.
  - split.
    { st_simpl. rewrite !elem_of_app, !elem_of_cons.
      left. right. left. reflexivity. }
    split.
    { st_simpl. rewrite !elem_of_app, !elem_of_cons.
      right. left. reflexivity. }
    split_and!; [by resolve_emitted 0 1|by resolve_emitted 2 3|..]; done.
Qed.

(** X12. In every lowering of a BatchNorm that returns, the multiply reads
    the input and a constant, the add reads the output of the multiply and
    a constant and carries the fused activation of the node, and both
    constants have the shape (1, C, 1, ..., 1) with as many axes as the
    input, where C is the first axis of the broadcast of weight and running
    variance; the output of the multiply has the broadcast shape of input
    and scale. *)
Theorem batch_norm_folded_constants (mapping : Mapping) s s' inp :
  transform mapping s = (Ok (), s') → node_input s = Some inp →
  batch_norm_folded s s' inp.
Proof.
  intros Hrun Hinp. revert Hrun.
  apply (wp_run any_exn _ (λ _ s', batch_norm_folded s s' inp)).
  by apply batch_norm_fold_outcome.
Qed.
End batch_norm_fold.

Lemma batch_norm_buffer_assertion_witness :
  let run := @BatchNormOperator.transform unit linking_converter
               example_promotion () float_batch_norm_example in
  run = (Ok (), run.2)
  ∧ Forall buffered
      [Some (constant_tensor "weight" [4] float32);
       Some (constant_tensor "bias" [4] float32);
       Some (constant_tensor "running_mean" [4] float32);
       Some (constant_tensor "running_var" [4] float32)].
Proof.
  intros run.
  assert (run = (Ok (), run.2)) as Hrun by (by vm_compute).
  split; [exact Hrun|].
  exact (proj2 (@batch_norm_buffer_assertion unit linking_converter
                  example_promotion () float_batch_norm_example _ eq_refl)
               _ Hrun).
Defined.

Lemma batch_norm_folded_constants_witness :
  let run := @BatchNormOperator.transform unit linking_converter
               example_promotion () float_batch_norm_example in
  run = (Ok (), run.2)
  ∧ batch_norm_folded float_batch_norm_example run.2
      (value_tensor "x" [1; 4; 8; 8] float32 None).
Proof.
  intros run.
  assert (run = (Ok (), run.2)) as Hrun by (by vm_compute).
  split; [exact Hrun|].
  exact (@batch_norm_folded_constants unit linking_converter
           example_promotion () float_batch_norm_example _ _ Hrun eq_refl).
Defined.

(** * The lowering of a transposed convolution, step by step *)

Lemma py_insert_2 {A} (x y : A) (l : list A) z :
  py_insert (x :: y :: l) 2 z = x :: y :: z :: l.
Proof.
  unfold py_insert. change (2 <? 0)%Z with false. cbv beta iota zeta.
  replace (Z.to_nat (2 `min` Z.of_nat (length (x :: y :: l)))) with 2
    by (simpl length; lia).
  done.
Qed.

Lemma py_getitem_before_last {A} (l : list A) a b :
  py_getitem (l ++ [a; b]) (-2) = Ok a.
Proof.
  unfold py_getitem, py_norm. rewrite length_app. cbn [length].
  change (0 <=? -2)%Z with false. cbv iota.
  rewrite (proj2 (Z.leb_le _ _)) by lia.
  replace (Z.to_nat (Z.of_nat (length l + 2) + -2)) with (length l + 0) by lia.
  by rewrite lookup_app_r, Nat.add_0_r, Nat.sub_diag by lia.
Qed.

Lemma py_insert_before_last {A} (l : list A) b z :
  py_insert (l ++ [b]) (Z.of_nat (length (l ++ [b])) - 1) z = l ++ [z; b].
Proof.
  unfold py_insert. rewrite length_app. cbn [length].
  destruct (_ <? 0)%Z eqn:Hneg; [apply Z.ltb_lt in Hneg; lia|].
  cbv zeta.
  replace (Z.to_nat _) with (length l) by lia.
  by rewrite take_app_length, drop_app_length.
Qed.

Section transpose_conv_rules.
Context {Mapping : Type} `{!GraphConverter Mapping}.
Import GenericTransposeConvOperator.

Lemma wp_transpose_conv_pad_handling_any ops conv
    (Q : list BaseOperator * list nat → State → Prop) s :
  ((0 < py_sum (padding s))%Z →
   ∀ pad_h pad_w second lo o lso self_out b,
     padding s !! 0 = Some pad_h → padding s !! 1 = Some pad_w →
     ops !! 1 = Some second →
     heap s !! outputs second = Some lo → lo !! 0 = Some (Some o) →
     heap s !! self_outputs s = Some lso → lso !! 0 = Some (Some self_out) →
     (0 ≤ pad_h)%Z → (0 ≤ pad_w)%Z → ndim (tensor self_out) = 4 →
     name self_out = b →
     Q (py_insert ops 2 (slice_operator s),
        shape (pad_out s b self_out pad_h pad_w))
       (slice_state s b (outputs second) lo o self_out pad_h pad_w)) →
  (¬ (0 < py_sum (padding s))%Z →
   ∀ lo out0, heap s !! outputs conv = Some lo → lo !! 0 = Some (Some out0) →
              Q (ops, shape out0) s) →
  wp any_exn (pad_handling ops conv) Q s.
Proof.
  intros Hpad Hno. unfold pad_handling.
  wp_step. wp_step. apply wp_getitem_any. intros lo0 n0 x0 Hlo0 Hn0 Hx0.
  apply py_norm_nonneg_inv in Hn0; [|done]. vm_compute in Hn0. subst n0.
  wp_the as out0. wp_step. wp_step.
  destruct (bool_decide (0 < py_sum (padding s))%Z) eqn:Hsum; getitems;
    [|by eapply wp_ret, Hno].
  wp_lift as pad_h Hph. wp_lift as pad_w Hpw.
  wp_lift as second Hsecond.
  wp_step. wp_step. apply wp_getitem_any. intros lo n x Hlo Hn Hx.
  apply py_norm_nonneg_inv in Hn; [|done]. vm_compute in Hn. subst n.
  wp_the as o.
  wp_step. apply wp_create_attr_tensor_any. intros b Hb. st_simpl.
  wp_step. apply wp_create_attr_tensor_any. intros b1 Hb1. st_simpl.
  wp_step. apply wp_getitem_any. intros lo' n' so Hlo' Hn' Hso.
  st_simpl_in Hlo'. rewrite Hlo in Hlo'. injection Hlo' as <-.
  apply py_norm_nonneg_inv in Hn'; [|done]. vm_compute in Hn'. subst n'.
  rewrite Hx in Hso. injection Hso as <-.
  wp_step. wp_step. wp_step. wp_step.
  apply wp_getitem_any. intros lso ns xs Hlso Hns Hxs. st_simpl_in Hlso.
  apply py_norm_nonneg_inv in Hns; [|done]. vm_compute in Hns. subst ns.
  wp_the as self_out.
  wp_lift as arr Harr.
  wp_step. apply wp_create_transform_tensor_any. intros b2 Hb2. st_simpl.
  wp_step. apply wp_setitem_any. intros l3 n3 Hl3 Hn3. st_simpl.
  wp_step. apply wp_new_operator. st_simpl. wp_step.
  getitems. st_simpl_in Hl3. st_simpl_in Hb1. st_simpl_in Hb2.
  rewrite current_outputs_counters in Hb1, Hb2. unfold current_outputs in Hb.
  rewrite Hb in Hb1, Hb2. injection Hb1 as <-. injection Hb2 as <-.
  rewrite Hlo in Hl3. injection Hl3 as <-.
  apply py_norm_nonneg_inv in Hn3; [|done]. vm_compute in Hn3. subst n3.
  apply np_pad_inv in Harr as (Hd & Hh & Hw & ->).
  rewrite length_insert.
  assert (name self_out = b) as Hname.
  { rewrite Hlso in Hb. unfold first_output_name in Hb. simpl in Hb.
    rewrite (proj2 (py_getitem_0 _ _) Hxs) in Hb. by injection Hb. }
  replace (attr_count s + 1 + 1) with (attr_count s + 2) by lia.
  by apply (Hpad Hsum pad_h pad_w second lo o lso self_out b).
Qed.

Lemma wp_transpose_conv_bias_handling_any ops
    (Q : list BaseOperator → State → Prop) s :
  (∀ l, heap s !! self_inputs s = Some l →
        ¬ (∃ bias, l !! 2 = Some (Some bias)) → Q ops s) →
  (∀ l bias before_last lo add_out b,
     heap s !! self_inputs s = Some l → l !! 2 = Some (Some bias) →
     py_getitem ops (-2) = Ok before_last →
     heap s !! outputs before_last = Some lo →
     lo !! 0 = Some (Some add_out) →
     first_output_name (current_outputs s) = Some b →
     Q (py_insert ops (Z.of_nat (length ops) - 1) (add_operator_of s))
       (add_state s b (outputs before_last) lo add_out bias)) →
  wp any_exn (bias_handling ops) Q s.
Proof.
  intros Hnone Hsome. unfold bias_handling.
  wp_step. wp_step. wp_step. wp_step.
  destruct (bool_decide (2 < length l)) eqn:Hlen; getitems.
  - wp_lift as ob Hob. apply (py_getitem_nat _ 2) in Hob.
    destruct ob as [bias|].
    + wp_lift as before_last Hbl.
      wp_step. apply wp_getitem_any. intros lo n x Hlo Hn Hx.
      apply py_norm_nonneg_inv in Hn; [|done]. vm_compute in Hn. subst n.
      wp_the as add_out.
      wp_step. apply wp_create_transform_tensor_any. intros b Hb. st_simpl.
      wp_step. apply wp_setitem_any. intros l3 n3 Hl3 Hn3. st_simpl.
      wp_step. apply wp_new_operator. st_simpl. wp_step.
      st_simpl_in Hl3. rewrite Hlo in Hl3. injection Hl3 as <-.
      apply py_norm_nonneg_inv in Hn3; [|done]. vm_compute in Hn3. subst n3.
      rewrite length_insert.
      by apply (Hsome l bias before_last lo add_out b).
    + apply wp_ret. apply (Hnone l Hl). intros [bias Hbias]. congruence.
  - apply wp_ret. apply (Hnone l Hl). intros [bias Hbias].
    apply lookup_lt_Some in Hbias. lia.
Qed.
End transpose_conv_rules.

Lemma lookup_frame {A} (h ext : list A) r l' k l :
  h !! k = Some l → k ≠ r → (<[r := l']> h ++ ext) !! k = Some l.
Proof.
  intros Hk Hne. apply lookup_app_l_Some. by rewrite list_lookup_insert_ne.
Qed.

Lemma lookup_fresh {A} (h ext : list A) r l' j l :
  ext !! j = Some l → (<[r := l']> h ++ ext) !! (length h + j) = Some l.
Proof.
  intros Hj. rewrite (lookup_app_at _ _ _ j); [done|]. by rewrite length_insert.
Qed.

Lemma same_node_refl s : same_node s s.
Proof. by repeat split. Qed.

Lemma same_node_slice_state s b r l o t h w :
  same_node s (slice_state s b r l o t h w).
Proof. by repeat split. Qed.

Lemma same_node_add_state s b r l t bias :
  same_node s (add_state s b r l t bias).
Proof. by repeat split. Qed.

Section transpose_conv_normalize.
Context {Mapping : Type} `{!GraphConverter Mapping}.
Import GenericTransposeConvOperator.

Lemma wp_transpose_conv_normalize_dims_any weight_dim (Q : _ → State → Prop)
    s ox ow rest :
  heap s !! self_inputs s = Some (ox :: ow :: rest) →
  (∀ r s1,
     normalized (bool_decide (weight_dim = 3)) (bool_decide (weight_dim = 3))
                s ox ow rest r s1 →
     weight_dim = 3 ∨ weight_dim = 4 →
     Q r s1) →
  wp any_exn (normalize_dims weight_dim) Q s.
Proof.
  intros Hlin H. unfold normalize_dims.
  destruct (bool_decide (weight_dim = 3)) eqn:Hboth.
  - apply bool_decide_eq_true in Hboth.
    apply wp_bind. unfold extend_conv_params. apply wp_modify.
    rewrite !py_insert_0.
    apply (wp_reshape_to_4d_any true Q s ox ow rest Hlin).
    intros r s1 Hn. apply H; [done|by left].
  - destruct (bool_decide (weight_dim ≠ 4)) eqn:H4; [done|].
    apply bool_decide_eq_false in H4. apply wp_ret, H; [done|].
    right. by destruct (decide (weight_dim = 4)).
Qed.
End transpose_conv_normalize.

(** ** The reshapes of the dimensionality normalization *)

Section reshape_rules.
Import TransformableOperator.

Ltac new_list_at n :=
  cbn [inputs outputs]; rewrite <-?app_assoc; cbn [app];
  rewrite (lookup_app_at _ _ _ n) by (rewrite ?length_app; cbn [length]; lia);
  reflexivity.

Lemma wp_reshape_to_4d_reshaped (both : bool) s ox ow rest :
  heap s !! self_inputs s = Some (ox :: ow :: rest) →
  wp any_exn (reshape_to_4d (if both then 2 else 1))
     (λ r s1, reshaped s r s1)
     (if both
      then set_conv_params (1%Z :: stride s) (0%Z :: padding s)
             (1%Z :: dilation s) (0%Z :: output_padding s) s
      else s).
Proof.
  intros Hlin. unfold reshape_to_4d.
  destruct both.
  - st_simpl. wp_any. wp_any. wp_any. wp_any. st_simpl_in Hl.
    rewrite Hlin in Hl. injection Hl as <-.
    cbn [take mapM]. unfold reshape_output, shape_attr, reshape_op, reshape_op'.
    repeat wp_any. same_base.
    apply first_output_name_inv in Hb as (y & lo_rest & Hlo & Hy).
    pose proof (lookup_lt_Some _ _ _ Hlo) as Hlt.
    pose proof (lookup_lt_Some _ _ _ Hlin) as Hlti.
    rewrite <-app_assoc, lookup_app_l in Hl, Hl0 by done.
    rewrite Hlo in Hl, Hl0. injection Hl as <-. injection Hl0 as <-.
    apply py_norm_nonneg_inv in Hn; [|done]. vm_compute in Hn. subst n.
    injection Hx as <-.
    cbn [take mapM zip_with]. repeat wp_any.
    apply np_expand_dims_2_inv in Hr, Hr0, Hr1. subst a a0 a1.
    clear Hb. subst b.
    unfold reshaped. st_simpl. cbn [fst snd].
    eexists _, _, y, _, lo_rest, _. split_and!.
    + exact Hlin.
    + new_list_at 6.
    + exact Hlo.
    + new_list_at 7.
    + intros [|[|i]] o Hi; [| |done]; injection Hi as <-.
      * eexists t, _. split_and!; [done..|].
        unfold reshape_in_at; eexists; st_simpl.
        split_and!; [done | new_list_at 0 | new_list_at 1 | done..].
      * eexists t0, _. split_and!; [done..|].
        unfold reshape_in_at; eexists; st_simpl.
        split_and!; [done | new_list_at 2 | new_list_at 3 | done..].
    + reflexivity.
    + unfold reshape_out_at; eexists; st_simpl.
      split_and!; [done | new_list_at 4 | new_list_at 5 | done..].
    + cbn [app]. rewrite !Forall_cons, Forall_nil. unfold own_lists.
      st_simpl. cbn [inputs outputs]. rewrite !length_app. cbn [length].
      split_and!; first [done | lia].
  - st_simpl. wp_any. wp_any. wp_any. wp_any. st_simpl_in Hl.
    rewrite Hlin in Hl. injection Hl as <-.
    cbn [take mapM]. unfold reshape_output, shape_attr, reshape_op, reshape_op'.
    rewrite ?take_0. cbn [mapM].
    repeat wp_any. same_base.
    apply first_output_name_inv in Hb as (y & lo_rest & Hlo & Hy).
    pose proof (lookup_lt_Some _ _ _ Hlo) as Hlt.
    pose proof (lookup_lt_Some _ _ _ Hlin) as Hlti.
    rewrite lookup_app_l in Hl, Hl0 by done.
    rewrite Hlo in Hl, Hl0. injection Hl as <-. injection Hl0 as <-.
    apply py_norm_nonneg_inv in Hn; [|done]. vm_compute in Hn. subst n.
    injection Hx as <-.
    cbn [take mapM zip_with]. repeat wp_any.
    apply np_expand_dims_2_inv in Hr, Hr0. subst a a0.
    clear Hb. subst b.
    unfold reshaped. st_simpl. cbn [fst snd].
    eexists _, _, y, _, lo_rest, _. split_and!.
    + exact Hlin.
    + new_list_at 4.
    + exact Hlo.
    + new_list_at 5.
    + intros [|i] o Hi; [|done]; injection Hi as <-.
      eexists t, _. split_and!; [done..|].
      unfold reshape_in_at; eexists; st_simpl.
      split_and!; [done | new_list_at 0 | new_list_at 1 | done..].
    + reflexivity.
    + unfold reshape_out_at; eexists; st_simpl.
      split_and!; [done | new_list_at 2 | new_list_at 3 | done..].
    + cbn [app]. rewrite !Forall_cons, Forall_nil. unfold own_lists.
      st_simpl. cbn [inputs outputs]. rewrite !length_app. cbn [length].
      split_and!; first [done | lia].
Qed.

Lemma reshape_in_at_frame s1 s2 base o t t' :
  reshape_in_at s1 base o t t' →
  (∀ k l, heap s1 !! k = Some l → k ≠ self_inputs s1 → k ≠ self_outputs s1 →
          heap s2 !! k = Some l) →
  own_lists s1 o → reshape_in_at s2 base o t t'.
Proof.
  intros (attr & Hop & Hi & Ho & Hrest) Hfr (Hii & Hio & Hoi & Hoo).
  exists attr. split; [done|]. split; [by apply Hfr|]. split; [by apply Hfr|done].
Qed.

Lemma reshape_out_at_frame s1 s2 o y' y :
  reshape_out_at s1 o y' y →
  (∀ k l, heap s1 !! k = Some l → k ≠ self_inputs s1 → k ≠ self_outputs s1 →
          heap s2 !! k = Some l) →
  own_lists s1 o → reshape_out_at s2 o y' y.
Proof.
  intros (attr & Hop & Hi & Ho & Hrest) Hfr (Hii & Hio & Hoi & Hoo).
  exists attr. split; [done|]. split; [by apply Hfr|]. split; [by apply Hfr|done].
Qed.

(** What [reshaped] says of a node with an input and a weight. *)
Lemma reshaped_inv (both : bool) s r s1 x w rest x' w' rest' y' lo_rest :
  heap s !! self_inputs s = Some (Some x :: Some w :: rest) →
  heap s1 !! self_inputs s1 = Some (Some x' :: Some w' :: rest') →
  heap s1 !! self_outputs s1 = Some (Some y' :: lo_rest) →
  length r.1 + length r.2 = (if both then 3 else 2) →
  reshaped s r s1 →
  ∃ y ri back,
    node_output s = Some y ∧
    r.1 !! 0 = Some ri ∧ reshape_in_at s1 (name y) ri x x' ∧
    (if both
     then ∃ rw, r.1 = [ri; rw] ∧ reshape_in_at s1 (name y) rw w w'
     else r.1 = [ri]) ∧
    r.2 = [back] ∧ reshape_out_at s1 back y' y ∧
    Forall (own_lists s1) (r.1 ++ r.2).
Proof.
  intros Hlin Hlin1 Hlo1 Hlen
    (l & l1 & y & y0 & rest_out & back & Hl & Hl1 & Hy & Hy1 & Hins & Hback
     & Hout & Hown).
  rewrite Hlin in Hl. injection Hl as <-.
  rewrite Hlin1 in Hl1. injection Hl1 as <-.
  rewrite Hlo1 in Hy1. injection Hy1 as <- <-.
  destruct r as [front after]. cbn [fst snd] in *. subst after.
  destruct front as [|ri front]; [by destruct both|].
  destruct (Hins 0 ri eq_refl) as (t & t' & [= <-] & [= <-] & Hri).
  exists y, ri, back. unfold node_output. rewrite Hy.
  split_and!; try done.
  destruct both.
  - destruct front as [|rw [|]]; try (simpl in Hlen; lia).
    destruct (Hins 1 rw eq_refl) as (t & t' & [= <-] & [= <-] & Hrw).
    by exists rw.
  - destruct front; [done|simpl in Hlen; lia].
Qed.

End reshape_rules.

Section conv_normalize_reshaped.
Context {Mapping : Type} `{!GraphConverter Mapping}.
Import GenericConvOperator.

Lemma normalize_dims_reshaped input_dim weight_dim s ox ow rest :
  heap s !! self_inputs s = Some (ox :: ow :: rest) →
  wp any_exn (normalize_dims input_dim weight_dim)
     (λ r s1, bool_decide (weight_dim = 3) || bool_decide (input_dim = 3)
              = true → reshaped s r s1) s.
Proof.
  intros Hlin. unfold normalize_dims.
  destruct (bool_decide (weight_dim = 3) || bool_decide (input_dim = 3))
    eqn:Hdoes.
  - apply wp_bind.
    destruct (bool_decide (weight_dim = 3)) eqn:Hboth.
    + unfold extend_conv_params. apply wp_modify. rewrite !py_insert_0.
      eapply wp_mono;
        [|apply (wp_reshape_to_4d_reshaped true s ox ow rest Hlin)].
      done.
    + apply wp_ret.
      eapply wp_mono;
        [|apply (wp_reshape_to_4d_reshaped false s ox ow rest Hlin)].
      done.
  - destruct (bool_decide (weight_dim ≠ 4)) eqn:H4; [done|].
    by apply wp_ret.
Qed.

Lemma normalize_dims_outcome input_dim weight_dim s ox ow rest :
  heap s !! self_inputs s = Some (ox :: ow :: rest) →
  wp any_exn (normalize_dims input_dim weight_dim)
     (λ r s1,
        (normalized
           (bool_decide (weight_dim = 3) || bool_decide (input_dim = 3))
           (bool_decide (weight_dim = 3)) s ox ow rest r s1
         ∧ (bool_decide (weight_dim = 3) || bool_decide (input_dim = 3)
            = false → weight_dim = 4))
        ∧ (bool_decide (weight_dim = 3) || bool_decide (input_dim = 3)
           = true → reshaped s r s1)) s.
Proof.
  intros Hlin. apply wp_and.
  - by apply (wp_normalize_dims_any _ _ _ _ _ _ _ Hlin).
  - by apply (normalize_dims_reshaped _ _ _ _ _ _ Hlin).
Qed.
End conv_normalize_reshaped.

Section transpose_conv_normalize_reshaped.
Context {Mapping : Type} `{!GraphConverter Mapping}.
Import GenericTransposeConvOperator.

Lemma transpose_conv_normalize_dims_reshaped weight_dim s ox ow rest :
  heap s !! self_inputs s = Some (ox :: ow :: rest) →
  wp any_exn (normalize_dims weight_dim)
     (λ r s1, bool_decide (weight_dim = 3) = true → reshaped s r s1) s.
Proof.
  intros Hlin. unfold normalize_dims.
  destruct (bool_decide (weight_dim = 3)) eqn:Hboth.
  - apply wp_bind. unfold extend_conv_params. apply wp_modify.
    rewrite !py_insert_0.
    eapply wp_mono;
      [|apply (wp_reshape_to_4d_reshaped true s ox ow rest Hlin)].
    done.
  - destruct (bool_decide (weight_dim ≠ 4)) eqn:H4; [done|].
    by apply wp_ret.
Qed.

Lemma transpose_conv_normalize_dims_outcome weight_dim s ox ow rest :
  heap s !! self_inputs s = Some (ox :: ow :: rest) →
  wp any_exn (normalize_dims weight_dim)
     (λ r s1,
        (normalized (bool_decide (weight_dim = 3))
                    (bool_decide (weight_dim = 3)) s ox ow rest r s1
         ∧ (weight_dim = 3 ∨ weight_dim = 4))
        ∧ (bool_decide (weight_dim = 3) = true → reshaped s r s1)) s.
Proof.
  intros Hlin. apply wp_and.
  - by apply (wp_transpose_conv_normalize_dims_any _ _ _ _ _ _ Hlin).
  - by apply (transpose_conv_normalize_dims_reshaped _ _ _ _ _ Hlin).
Qed.
End transpose_conv_normalize_reshaped.

(** The dimensionality normalization changes no list that was there; when
    it lifts, the node gets two new lists. *)
Lemma normalized_store does both s ox ow rest r s1 :
  normalized does both s ox ow rest r s1 →
  ∀ k l, heap s !! k = Some l →
    heap s1 !! k = Some l ∧
    (if does then k ≠ self_inputs s1 ∧ k ≠ self_outputs s1 else s1 = s).
Proof.
  unfold normalized. destruct does.
  - intros (x0 & x' & y & y' & ow' & lo_rest & ext & _ & _ & _ & _ & _
            & Hh & Hi & Ho & _) k l Hk.
    pose proof (lookup_lt_Some _ _ _ Hk) as Hlt.
    rewrite Hh. split; [by apply lookup_app_l_Some|lia].
  - by intros [-> ->] k l Hk.
Qed.

(** What the dimensionality normalization of the transposed convolution
    leaves. *)
Lemma normalized_both_inv both s ox w rest r s1 :
  heap s !! self_inputs s = Some (ox :: Some w :: rest) →
  self_inputs s ≠ self_outputs s → self_outputs s < length (heap s) →
  normalized both both s ox (Some w) rest r s1 →
  ∃ ox' w' lo,
    heap s1 !! self_inputs s1 = Some (ox' :: Some w' :: rest) ∧
    heap s1 !! self_outputs s1 = Some lo ∧
    self_inputs s1 ≠ self_outputs s1 ∧
    lifted_if both w w' ∧
    (if both then ∃ x x', ox = Some x ∧ ox' = Some x' ∧ lifted x x'
     else ox' = ox) ∧
    (if both
     then ∃ y y' lo_rest,
            heap s !! self_outputs s = Some (Some y :: lo_rest) ∧
            lo = Some y' :: lo_rest ∧ lifted y y'
     else heap s !! self_outputs s = Some lo) ∧
    length r.1 = (if both then 2 else 0) ∧
    length r.2 = (if both then 1 else 0) ∧
    Forall (λ o, op o = RESHAPE) (r.1 ++ r.2) ∧
    stride s1 = (if both then 1%Z :: stride s else stride s) ∧
    padding s1 = (if both then 0%Z :: padding s else padding s) ∧
    emitted s1 = emitted s.
Proof.
  intros Hlin Hio Hso. unfold normalized, lifted_if. destruct both.
  - intros (x0 & x' & y & y' & ow' & lo_rest & ext & -> & Hx & Hy & Hy' & Hw
            & Hh & Hi & Ho & Hio1 & Hin & Hout & Hl1 & Hl2 & Hre & Hst & Hpd
            & _ & _ & _ & _ & _ & _ & _ & Hem & _).
    destruct Hw as (w0 & w' & [= <-] & -> & Hw).
    exists (Some x'), w', (Some y' :: lo_rest).
    split_and!; try done; [by exists x0, x'|by exists y, y', lo_rest].
  - intros [-> ->].
    destruct (lookup_lt_is_Some_2 _ _ Hso) as [lo Hlo].
    exists ox, w, lo. by split_and!.
Qed.

(** The site of the layout wrapper in the lowering of a transposed
    convolution: the primitive reads a new list [[weight, input]] and writes
    the outputs list of the node. *)
Lemma wrap_deconv_site conv s1 s2 site ow ox lo :
  s2 = set_heap (heap s1 ++ [[ow; ox]]) s1 →
  inputs conv = length (heap s1) → outputs conv = self_outputs s1 →
  heap s1 !! self_outputs s1 = Some lo →
  wrap_site_of [conv] 1 0 s2 site →
  ∃ x4 y4 lo_rest,
    ox = Some x4 ∧ lo = Some y4 :: lo_rest ∧
    orig_input site = x4 ∧ orig_output site = y4 ∧
    ndim (tensor x4) = 4 ∧ ndim (tensor y4) = 4 ∧
    length (wrap_heap s2 site) = length (heap s1) + 5 ∧
    wrap_heap s2 site !! length (heap s1)
      = Some [ow; Some (new_input s2 site)] ∧
    wrap_heap s2 site !! self_outputs s1
      = Some (Some (new_output s2 site) :: lo_rest) ∧
    (∀ k l, heap s1 !! k = Some l → k ≠ self_outputs s1 →
            wrap_heap s2 site !! k = Some l) ∧
    wrap_heap s2 site !! (length (heap s1) + 1)
      = Some [Some x4; Some (nchw2nhwc_perm_tensor s2 site)] ∧
    wrap_heap s2 site !! (length (heap s1) + 2)
      = Some [Some (new_input s2 site)] ∧
    wrap_heap s2 site !! (length (heap s1) + 3)
      = Some [Some (new_output s2 site);
              Some (nhwc2nchw_perm_tensor s2 site)] ∧
    wrap_heap s2 site !! (length (heap s1) + 4) = Some [Some y4].
Proof.
  intros -> Hci Hco Hlo Hsite.
  pose proof (wrap_site_heap _ _ _ _ _ Hsite) as Hheap.
  pose proof (lookup_lt_Some _ _ _ Hlo) as Hlt.
  destruct Hsite as (Hf & Hl & Hlin & Hni & Hoi & Hlout & Hno & Hoo & Hd1 & Hd2
                     & _).
  injection Hf as Hf. injection Hl as Hl.
  st_simpl_in Hlin. st_simpl_in Hlout.
  rewrite <-Hf, Hci in Hlin. rewrite <-Hl, Hco in Hlout.
  rewrite (lookup_app_at _ _ _ 0) in Hlin by lia. injection Hlin as Hlin.
  rewrite lookup_app_l in Hlout by done. rewrite Hlo in Hlout.
  injection Hlout as Hlout.
  rewrite <-Hlin in Hni, Hoi. rewrite <-Hlout in Hno, Hoo.
  apply py_norm_nonneg_inv in Hni; [|done]. change (Z.to_nat 1) with 1 in Hni.
  apply py_norm_nonneg_inv in Hno; [|done]. change (Z.to_nat 0) with 0 in Hno.
  rewrite Hni in Hoi. injection Hoi as Hoi.
  rewrite Hno in Hoo. destruct lo as [|oy lo_rest]; [done|].
  injection Hoo as Hoo.
  exists (orig_input site), (orig_output site), lo_rest.
  assert (length (wrap_heap (set_heap (heap s1 ++ [[ow; ox]]) s1) site)
          = length (heap s1) + 5) as Hlen.
  { unfold wrap_heap. rewrite !length_insert, !length_app. st_simpl.
    rewrite length_app. simpl. lia. }
  assert (∀ k, (length (heap s1) + S k)
               = length (heap (set_heap (heap s1 ++ [[ow; ox]]) s1)) + k)
    as Hfresh.
  { intros k. st_simpl. rewrite length_app. simpl. lia. }
  split_and!; try done.
  - by rewrite Hoo.
  - unfold wrap_heap. rewrite <-Hf, <-Hl, Hci, Hco.
    rewrite list_lookup_insert_ne by lia.
    rewrite list_lookup_insert_eq.
    + unfold redirected_inputs. by rewrite <-Hlin, Hni.
    + rewrite length_app. st_simpl. rewrite length_app. simpl. lia.
  - unfold wrap_heap. rewrite <-Hl, Hco.
    rewrite list_lookup_insert_eq.
    + unfold redirected_outputs. rewrite <-Hf, <-Hl, Hci, Hco.
      rewrite decide_False by lia. by rewrite <-Hlout, Hno.
    + rewrite length_insert, length_app. st_simpl. rewrite length_app.
      simpl. lia.
  - intros k l Hk Hne. pose proof (lookup_lt_Some _ _ _ Hk) as Hklt.
    unfold wrap_heap. rewrite <-Hf, <-Hl, Hci, Hco.
    rewrite !list_lookup_insert_ne by lia. st_simpl.
    rewrite <-app_assoc. by apply lookup_app_l_Some.
  - rewrite (Hfresh 0). by apply wrap_heap_fresh.
  - rewrite (Hfresh 1). by apply wrap_heap_fresh.
  - rewrite (Hfresh 2). by apply wrap_heap_fresh.
  - rewrite (Hfresh 3). by apply wrap_heap_fresh.
Qed.

Lemma linked_one s a : linked s [a].
Proof. intros [|i] ?? Ha Hb; simplify_eq/=. Qed.

Lemma linked_cons s a b l t :
  first_output s a = Some t → first_input s b = Some t →
  linked s (b :: l) → linked s (a :: b :: l).
Proof.
  intros Ha Hb Hl [|i] a' b' Ha' Hb'.
  - simpl in *. simplify_eq. eauto.
  - by apply (Hl i).
Qed.

Lemma first_output_lookup s o t l :
  heap s !! outputs o = Some (Some t :: l) → first_output s o = Some t.
Proof. unfold first_output. by intros ->. Qed.

Lemma first_input_lookup s o t l :
  heap s !! inputs o = Some (Some t :: l) → first_input s o = Some t.
Proof. unfold first_input. by intros ->. Qed.

Section deconv.
Context {Mapping : Type} `{!GraphConverter Mapping}.
Import GenericTransposeConvOperator.

Lemma transpose_conv_outcome (mapping : Mapping) s :
  two_lists s →
  wp any_exn (transform mapping)
     (λ _ s', ∃ p, deconv_lowered s s' p ∧ deconv_reshaped s s' p) s.
Proof.
  intros [Hio Hso]. unfold transform.
  wp_any. wp_any. wp_any. wp_any. wp_any.
  rename l into lin, x into ow, Hl into Hlin, Hx into How.
  apply py_norm_nonneg_inv in Hn; [|done]. vm_compute in Hn. subst n.
  wp_the as w.
  destruct lin as [|ox [|? rest]]; try done.
  injection How as ->.
  wp_any.
  eapply wp_mono;
    [|apply (transpose_conv_normalize_dims_outcome _ _ _ _ _ Hlin)].
  cbn beta. intros r s1 [[Hnorm Hdim] Hresh].
  pose proof (normalized_store _ _ _ _ _ _ _ _ Hnorm) as Hstore.
  eapply normalized_both_inv in Hnorm; [|exact Hlin|done|done].
  destruct Hnorm as (ox' & w' & lo & Hlin1 & Hlo1 & Hio1 & Hw' & Hx' & Hy'
                     & Hl1 & Hl2 & Hre & Hstride & Hpadding & Hemit).
  wp_any. wp_any. wp_any. wp_any.
  rewrite Hlin1 in Hl. injection Hl as <-.
  change (reverse (take 2 (ox' :: Some w' :: rest))) with [Some w'; ox'].
  wp_any. wp_any. wp_any. wp_any. wp_any. wp_any.
  wp_lift as sh Hsh. wp_lift as sw Hsw. cbv zeta.
  apply py_getitem_0 in Hsh. apply py_getitem_1 in Hsw.
  (* the layout wrapper *)
  apply wp_bind, wp_wrap_any. intros site Hsite.
  set (conv := {| op := TRANSPOSE_CONV; inputs := length (heap s1) |}) in *.
  match type of Hsite with wrap_site_of _ _ _ ?st _ => set (s2 := st) in * end.
  destruct (wrap_deconv_site conv s1 s2 site (Some w') ox' lo eq_refl eq_refl
              eq_refl Hlo1 Hsite)
    as (x4 & y4 & lo_rest & -> & -> & Hoi & Hoo & Hdx & Hdy & Hlen3 & Hci3
        & Hso3 & Hfr3 & Hti3 & Hto3 & Hui3 & Huo3).
  set (xn := new_input s2 site) in *.
  set (yn := new_output s2 site) in *.
  set (pin := nchw2nhwc_perm_tensor s2 site) in *.
  set (pout := nhwc2nchw_perm_tensor s2 site) in *.
  assert (shape xn = permute_shape (shape x4) nchw2nhwc_perm) as Hxn
    by (by rewrite <-Hoi).
  assert (shape yn = permute_shape (shape y4) nchw2nhwc_perm) as Hyn
    by (by rewrite <-Hoo).
  assert (tensor pin = np_array_int32 nchw2nhwc_perm) as Hpin by done.
  assert (tensor pout = np_array_int32 nhwc2nchw_perm) as Hpout by done.
  assert (same_node s1 (wrap_state s2 site)) as Hnode3 by (by repeat split).
  assert (wrap_chain s2 [conv]
          = [pre_transpose s2; conv; post_transpose s2]) as -> by done.
  assert (inputs (pre_transpose s2) = length (heap s1) + 1
          ∧ outputs (pre_transpose s2) = length (heap s1) + 2
          ∧ inputs (post_transpose s2) = length (heap s1) + 3
          ∧ outputs (post_transpose s2) = length (heap s1) + 4
          ∧ op (pre_transpose s2) = TRANSPOSE
          ∧ op (post_transpose s2) = TRANSPOSE)
    as (Hpre_in & Hpre_out & Hpost_in & Hpost_out & Hpre_op & Hpost_op).
  { unfold pre_transpose, post_transpose, s2. st_simpl. cbn [inputs outputs op].
    rewrite length_app. simpl. split_and!; try done; lia. }
  clearbody xn yn pin pout.
  generalize dependent (pre_transpose s2). intros pre.
  generalize dependent (post_transpose s2). intros post.
  intros.
  change (wrap_heap s2 site) with (heap (wrap_state s2 site)) in *.
  generalize dependent (wrap_state s2 site). intros s3. intros.
  clear Hsite Hoi Hoo site. clear s2.
  pose proof (lookup_lt_Some _ _ _ Hlo1) as Hso1.
  pose proof (lookup_lt_Some _ _ _ Hlin1) as Hsi1.
  set (n1 := length (heap s1)) in *.
  assert (outputs conv = self_outputs s1) as Hconv_out by done.
  assert (inputs conv = n1) as Hconv_in by done.
  assert (op conv = TRANSPOSE_CONV) as Hconv_op by done.
  assert (options conv = TransposeConvOptions sh sw VALID) as Hconv_opt by done.
  clearbody conv.
  destruct Hnode3 as (HI3 & HO3 & Hst3 & Hpd3 & _ & _ & _ & _ & _ & Hem3).
  (* the slice *)
  apply wp_bind.
  apply (wp_mono _ _ (λ padded s4, ∃ slices co,
    padded.1 = pre :: conv :: slices ++ [post] ∧
    padded.2 = shape co ∧
    same_node s3 s4 ∧
    length (heap s4) = n1 + 5 + 2 * length slices ∧
    heap s4 !! self_outputs s1 = Some (Some co :: lo_rest) ∧
    (∀ k l, heap s3 !! k = Some l → k ≠ self_outputs s1 →
            heap s4 !! k = Some l) ∧
    length slices
      = (if bool_decide (0 < py_sum (padding s1))%Z then 1 else 0) ∧
    Forall (λ o, op o = SLICE) slices ∧
    (slices = [] ∧ co = yn ∨
     ∃ sl start size ph pw,
       slices = [sl] ∧ inputs sl = n1 + 5 ∧ outputs sl = n1 + 6 ∧
       padding s1 !! 0 = Some ph ∧ padding s1 !! 1 = Some pw ∧
       heap s4 !! (n1 + 5) = Some [Some co; Some start; Some size] ∧
       heap s4 !! (n1 + 6) = Some [Some yn] ∧
       tensor start = np_array_int32 [0; ph; pw; 0]%Z ∧
       tensor size = np_array_of_shape (shape yn) ∧
       shape co = nd_shape (padded_array (tensor yn) ph pw)))).
  2:{ apply wp_transpose_conv_pad_handling_any.
      - intros Hsum pad_h pad_w second lo o lso self_out b Hph Hpw Hsecond
          Hlo Ho Hlso Hself Hph0 Hpw0 Hnd Hb.
        injection Hsecond as <-.
        rewrite Hconv_out, Hso3 in Hlo. injection Hlo as <-.
        rewrite HO3, Hso3 in Hlso. injection Hlso as <-.
        injection Ho as <-. injection Hself as <-.
        rewrite Hpd3 in Hph, Hpw, Hsum.
        exists [slice_operator s3], (pad_out s3 b yn pad_h pad_w).
        rewrite Hconv_out.
        split_and!.
        + apply py_insert_2.
        + done.
        + apply same_node_slice_state.
        + unfold slice_state. st_simpl.
          rewrite length_app, length_insert, Hlen3. simpl. lia.
        + unfold slice_state. st_simpl. by eapply lookup_update_app.
        + intros k l Hk Hne. unfold slice_state. st_simpl.
          by apply lookup_frame.
        + by rewrite bool_decide_eq_true_2.
        + by repeat constructor.
        + right. eexists (slice_operator s3), _, _, pad_h, pad_w.
          unfold slice_operator, slice_state. st_simpl. cbn [inputs outputs].
          rewrite Hlen3.
          split_and!; try done; try lia.
          * replace (n1 + 5) with (length (heap s3) + 0) by lia.
            by apply (lookup_fresh _ _ _ _ 0).
          * replace (n1 + 6) with (length (heap s3) + 1) by lia.
            by apply (lookup_fresh _ _ _ _ 1).
          * done.
          * done.
      - intros Hsum lo out0 Hlo Hout0.
        rewrite Hconv_out, Hso3 in Hlo. injection Hlo as <-.
        injection Hout0 as <-. rewrite Hpd3 in Hsum.
        exists [], yn.
        split_and!; try done;
          first [simpl; lia | by rewrite bool_decide_eq_false_2 | by left]. }
  intros padded s4 (slices & co & Hops4 & Hshape4 & Hnode4 & Hlen4 & Hso4
                    & Hfr4 & Hlslices & Hslices & Hslice).
  destruct padded as [ops4 output_shape]. simpl in Hops4, Hshape4.
  subst ops4 output_shape. cbn [fst snd].
  destruct Hnode4 as (HI4 & HO4 & Hst4 & Hpd4 & _ & _ & _ & _ & _ & Hem4).
  (* the output shape *)
  wp_any. wp_any. wp_any. wp_any. wp_any. wp_any.
  st_simpl_in Hl. rewrite Hconv_in in Hl.
  rewrite (Hfr4 _ _ Hci3) in Hl by lia. injection Hl as <-.
  rewrite py_insert_0.
  match goal with
  | |- wp _ _ _ ?st => set (s6 := st) in *
  end.
  set (osh := {| tensor := np_array_of_shape (shape co) |}) in *.
  (* the weight *)
  apply wp_bind, wp_reorder_weight_any; [by right; left|].
  intros l6 weight b6 Hl6 Hweight Hw4 Hb6.
  assert (heap s6 !! inputs conv = Some [Some osh; Some w'; Some xn]) as Hci6.
  { unfold s6. st_simpl. rewrite Hconv_in. apply list_lookup_insert_eq.
    rewrite Hlen4. lia. }
  rewrite Hci6 in Hl6. injection Hl6 as <-. injection Hweight as <-.
  rewrite py_insert_after_head.
  set (rw := reordered_weight s6 b6 w' nchw2chwn_perm) in *.
  set (permt := weight_perm_tensor s6 b6 nchw2chwn_perm) in *.
  assert (shape rw = permute_shape (shape w') nchw2chwn_perm) as Hrw by done.
  assert (tensor permt = np_array_int32 nchw2chwn_perm) as Hpermt by done.
  assert (inputs (reorder_operator s6) = length (heap s4)
          ∧ outputs (reorder_operator s6) = length (heap s4) + 1
          ∧ op (reorder_operator s6) = TRANSPOSE) as (Hro_in & Hro_out & Hro_op).
  { unfold reorder_operator, s6. st_simpl. cbn [inputs outputs op].
    rewrite length_insert. split_and!; try done; lia. }
  match goal with
  | |- wp _ _ _ ?st => set (s7 := st) in *
  end.
  assert (length (heap s7) = length (heap s4) + 2) as Hlen7.
  { unfold s7, reorder_state, s6. st_simpl.
    rewrite length_app, !length_insert. simpl. lia. }
  assert (heap s7 !! n1 = Some [Some osh; Some rw; Some xn]) as Hci7.
  { unfold s7, reorder_state. rewrite Hconv_in. st_simpl.
    eapply lookup_update_app. by rewrite <-Hconv_in. }
  assert (heap s7 !! length (heap s4) = Some [Some w'; Some permt]) as Hri7.
  { unfold s7, reorder_state, s6. st_simpl.
    rewrite (lookup_app_at _ _ _ 0); [done|]. rewrite !length_insert. lia. }
  assert (heap s7 !! (length (heap s4) + 1) = Some [Some rw]) as Hrout7.
  { unfold s7, reorder_state, s6. st_simpl.
    rewrite (lookup_app_at _ _ _ 1); [done|]. rewrite !length_insert. lia. }
  assert (∀ k l, heap s4 !! k = Some l → k ≠ n1 → heap s7 !! k = Some l)
    as Hfr7.
  { intros k l Hk Hne. unfold s7, reorder_state, s6. st_simpl.
    rewrite Hconv_in. apply lookup_frame; [|done].
    by rewrite list_lookup_insert_ne. }
  assert (same_node s4 s7) as Hnode7 by (by repeat split).
  assert (has_buffer osh = true) as Hosh_buf by done.
  assert (tensor osh = np_array_of_shape (shape co)) as Hosh by done.
  clearbody rw permt s7 osh. clear Hci6 Hb6 Hw Hb. clearbody s6.
  generalize dependent (reorder_operator s6). intros ro. intros.
  clear s6.
  destruct Hnode7 as (HI7 & HO7 & Hst7 & Hpd7 & _ & _ & _ & _ & _ & Hem7).
  assert (heap s7 !! self_outputs s1 = Some (Some co :: lo_rest)) as Hso7.
  { apply Hfr7; [done|lia]. }
  assert (heap s7 !! self_inputs s1 = Some (Some x4 :: Some w' :: rest))
    as Hsi7.
  { apply Hfr7; [|lia]. apply Hfr4; [|done]. by apply Hfr3. }
  assert (heap s7 !! (n1 + 1) = Some [Some x4; Some pin]) as Hti7.
  { apply Hfr7; [|lia]. apply Hfr4; [done|lia]. }
  assert (heap s7 !! (n1 + 2) = Some [Some xn]) as Hto7.
  { apply Hfr7; [|lia]. apply Hfr4; [done|lia]. }
  assert (heap s7 !! (n1 + 3) = Some [Some yn; Some pout]) as Hui7.
  { apply Hfr7; [|lia]. apply Hfr4; [done|lia]. }
  assert (heap s7 !! (n1 + 4) = Some [Some y4]) as Huo7.
  { apply Hfr7; [|lia]. apply Hfr4; [done|lia]. }
  assert (slices = [] ∧ co = yn ∨
          ∃ sl start size ph pw,
            slices = [sl] ∧ inputs sl = n1 + 5 ∧ outputs sl = n1 + 6 ∧
            padding s1 !! 0 = Some ph ∧ padding s1 !! 1 = Some pw ∧
            heap s7 !! (n1 + 5) = Some [Some co; Some start; Some size] ∧
            heap s7 !! (n1 + 6) = Some [Some yn] ∧
            tensor start = np_array_int32 [0; ph; pw; 0]%Z ∧
            tensor size = np_array_of_shape (shape yn) ∧
            shape co = nd_shape (padded_array (tensor yn) ph pw)) as Hslice7.
  { destruct Hslice as [?|(sl & start & size & ph & pw & ? & ? & ? & ? & ?
                             & Hsin & Hsout & ? & ? & ?)]; [by left|right].
    exists sl, start, size, ph, pw. split_and!; try done.
    - apply Hfr7; [done|lia].
    - apply Hfr7; [done|lia]. }
  clear Hslice.
  (* the bias *)
  apply wp_bind.
  apply (wp_mono _ _ (λ ops8 s8, ∃ adds,
    ops8 = pre :: ro :: conv :: slices ++ adds ++ [post] ∧
    same_node s7 s8 ∧
    Forall (λ o, op o = ADD) adds ∧
    length adds = (if has_bias rest then 1 else 0) ∧
    (adds = [] ∧ s8 = s7 ∨
     ∃ ad bias bt rb tail,
       adds = [ad] ∧ rest !! 0 = Some (Some bias) ∧
       rb = (if bool_decide (slices = []) then self_outputs s1 else n1 + 6) ∧
       heap s7 !! rb = Some (Some yn :: tail) ∧
       heap s8 !! rb = Some (Some bt :: tail) ∧
       (∀ k l, heap s7 !! k = Some l → k ≠ rb → heap s8 !! k = Some l) ∧
       heap s8 !! inputs ad = Some [Some bt; Some bias] ∧
       heap s8 !! outputs ad = Some [Some yn] ∧
       tensor bt = tensor yn))).
  2:{ apply wp_transpose_conv_bias_handling_any.
      - intros l Hl Hno. exists []. rewrite HI7, HI4, HI3, Hsi7 in Hl.
        injection Hl as <-.
        assert (has_bias rest = false) as ->.
        { unfold has_bias. destruct (rest !! 0) as [[bias|]|] eqn:Hr; try done.
          destruct Hno. by exists bias. }
        split_and!; try done. by left.
      - intros l bias bl lo add_out b8 Hl Hbias Hbl Hlo Hadd Hb8.
        rewrite HI7, HI4, HI3, Hsi7 in Hl. injection Hl as <-.
        change ((Some x4 :: Some w' :: rest) !! 2) with (rest !! 0) in Hbias.
        assert (has_bias rest = true) as -> by (unfold has_bias; by rewrite Hbias).
        exists [add_operator_of s7].
        destruct Hslice7 as [[-> ->]|(sl & start & size & ph & pw & -> & Hsl_in
                                     & Hsl_out & ? & ? & Hsin & Hsout & ? & ? & ?)].
        + cbn [app] in Hbl |- *.
          pose proof (py_getitem_before_last [pre; ro] conv post) as Hp.
          cbn [app] in Hp. rewrite Hp in Hbl. clear Hp.
          injection Hbl as <-.
          rewrite Hconv_out, Hso7 in Hlo. injection Hlo as <-.
          injection Hadd as <-.
          pose proof (py_insert_before_last [pre; ro; conv] post
                        (add_operator_of s7)) as Hp.
          cbn [app] in Hp. rewrite Hp. clear Hp.
          split_and!; try done; [by repeat constructor|].
          right.
          exists (add_operator_of s7), bias, (bias_transform s7 b8 yn),
            (self_outputs s1), lo_rest.
          rewrite Hconv_out.
          unfold add_state, add_operator_of. st_simpl. cbn [inputs outputs].
          split_and!; try done.
          * by eapply lookup_update_app.
          * intros k l Hk Hne. by apply lookup_frame.
          * rewrite <-(Nat.add_0_r (length (heap s7))).
            by apply (lookup_fresh _ _ _ _ 0).
          * replace (S (length (heap s7))) with (length (heap s7) + 1) by lia.
            by apply (lookup_fresh _ _ _ _ 1).
        + cbn [app] in Hbl |- *.
          pose proof (py_getitem_before_last [pre; ro; conv] sl post) as Hp.
          cbn [app] in Hp. rewrite Hp in Hbl. clear Hp.
          injection Hbl as <-.
          rewrite Hsl_out, Hsout in Hlo. injection Hlo as <-.
          injection Hadd as <-.
          pose proof (py_insert_before_last [pre; ro; conv; sl] post
                        (add_operator_of s7)) as Hp.
          cbn [app] in Hp. rewrite Hp. clear Hp.
          split_and!; try done; [by repeat constructor|].
          right.
          exists (add_operator_of s7), bias, (bias_transform s7 b8 yn),
            (n1 + 6), [].
          rewrite Hsl_out.
          unfold add_state, add_operator_of. st_simpl. cbn [inputs outputs].
          split_and!; try done.
          * by eapply lookup_update_app.
          * intros k l Hk Hne. by apply lookup_frame.
          * rewrite <-(Nat.add_0_r (length (heap s7))).
            by apply (lookup_fresh _ _ _ _ 0).
          * replace (S (length (heap s7))) with (length (heap s7) + 1) by lia.
            by apply (lookup_fresh _ _ _ _ 1). }
  intros ops8 s8 (adds & -> & Hnode8 & Hadds & Hladds & Hadd).
  destruct Hnode8 as (HI8 & HO8 & Hst8 & Hpd8 & _ & _ & _ & _ & _ & Hem8).
  (* the emission *)
  apply wp_bind, wp_emit_all. apply wp_try_restore_edges.
  rewrite emit_all_emitted.
  match goal with
  | |- ∃ p, deconv_lowered _ (set_graph ?E ?G (emit_all ?t ?o ?st)) _ ∧ _ =>
      destruct (emitted_state_fields t o st E G)
        as (Hfh & HfI & HfO & Hfstride & Hfpad & _ & _ & _ & _ & _ & Hfe);
      generalize dependent (set_graph E G (emit_all t o st)); intros sf; intros
  end.
  rewrite Hem8, Hem7, Hem4, Hem3, Hemit in Hfe.
  rewrite Hst8, Hst7, Hst4, Hst3 in Hfstride.
  rewrite Hpd8, Hpd7, Hpd4, Hpd3 in Hfpad.
  rewrite HI8, HI7, HI4, HI3 in HfI. rewrite HO8, HO7, HO4, HO3 in HfO.
  assert (∃ x, ox = Some x
               ∧ lifted_if (bool_decide (length (shape w) = 3)) x x4) as Hx4.
  { destruct (bool_decide _).
    - destruct Hx' as (x & x' & -> & [= <-] & Hx'). by exists x.
    - exists x4. by split. }
  assert (∃ y, node_output s = Some y
               ∧ lifted_if (bool_decide (length (shape w) = 3)) y y4) as Hy4.
  { unfold node_output. destruct (bool_decide _).
    - destruct Hy' as (y & y' & lo_rest' & -> & [= <- _] & Hy'). by exists y.
    - rewrite Hy'. by exists y4. }
  assert (py_sum (padding s1) = py_sum (padding s)) as Hsum.
  { rewrite Hpadding. by destruct (bool_decide _). }
  rewrite Hsum in Hlslices.
  assert (∀ k l, heap s7 !! k = Some l → k ≠ self_outputs s1 →
                 (slices ≠ [] → k ≠ n1 + 6) → heap sf !! k = Some l) as Hfr8.
  { intros k l Hk Hne1 Hne2. rewrite Hfh.
    destruct Hadd as [[_ ->]|(ad & bias & bt & rb & tail & _ & _ & -> & _ & _
                              & Hfr & _)]; [done|].
    apply Hfr; [done|].
    destruct (decide (slices = [])) as [Hs|Hs].
    - by rewrite bool_decide_eq_true_2.
    - rewrite bool_decide_eq_false_2 by done. by apply Hne2. }
  assert (length slices ≤ 1) as Hle.
  { revert Hlslices.
    match goal with
    | |- context [@bool_decide ?P ?d] => destruct (@bool_decide P d); lia
    end. }
  assert (slices ≠ [] → length slices = 1) as Hone.
  { destruct slices; [done|]. simpl in *. lia. }
  pose proof (Hfr8 _ _ Hti7 ltac:(lia) ltac:(lia)) as Hti8.
  pose proof (Hfr8 _ _ Hto7 ltac:(lia) ltac:(lia)) as Hto8.
  pose proof (Hfr8 _ _ Hui7 ltac:(lia) ltac:(lia)) as Hui8.
  pose proof (Hfr8 _ _ Huo7 ltac:(lia) ltac:(lia)) as Huo8.
  pose proof (Hfr8 _ _ Hci7 ltac:(lia) ltac:(lia)) as Hci8.
  pose proof (Hfr8 _ _ Hsi7 ltac:(lia) ltac:(lia)) as Hsi8.
  pose proof (Hfr8 _ _ Hri7 ltac:(lia) ltac:(lia)) as Hri8.
  assert (heap sf !! (length (heap s4) + 1) = Some [Some rw]) as Hrout8.
  { apply Hfr8; [done|lia|]. intros Hs. specialize (Hone Hs). lia. }
  rewrite <-Hpre_in in Hti8. rewrite <-Hpre_out in Hto8.
  rewrite <-Hpost_in in Hui8. rewrite <-Hpost_out in Huo8.
  rewrite <-Hconv_in in Hci8. rewrite <-HfI in Hsi8.
  rewrite <-Hro_in in Hri8. rewrite <-Hro_out in Hrout8.
  rewrite <-Hfstride in Hsh, Hsw.
  rewrite <-HfO in Hconv_out.
  pose proof Hfpad as Hfpad1.
  rewrite Hstride in Hfstride. rewrite Hpadding in Hfpad.
  assert (self_outputs s1 ≠ n1 + 6) as Hso6 by lia.
  assert (∀ k l, heap s !! k = Some l →
                 bool_decide (length (shape w) = 3) = true
                 ∨ k ≠ self_outputs s →
                 heap sf !! k = Some l) as Hkept.
  { intros k l Hk Hcase. destruct (Hstore k l Hk) as [Hk1 Hk2].
    pose proof (lookup_lt_Some _ _ _ Hk1) as Hlt.
    assert (k ≠ self_outputs s1) as Hne.
    { destruct (bool_decide (length (shape w) = 3)).
      - by destruct Hk2.
      - rewrite Hk2. by destruct Hcase. }
    apply Hfr8; [|done|lia]. apply Hfr7; [|lia]. apply Hfr4; [|done].
    by apply Hfr3. }
  assert (bool_decide (length (shape w) = 3) = true →
          ∃ x y reshape_in reshape_weight reshape_out,
            ox = Some x ∧ node_output s = Some y ∧
            r.1 = [reshape_in; reshape_weight] ∧ r.2 = [reshape_out] ∧
            reshape_in_at sf (name y) reshape_in x x4 ∧
            reshape_in_at sf (name y) reshape_weight w w' ∧
            reshape_out_at sf reshape_out y4 y) as Hresh8.
  { intros Hboth. specialize (Hresh Hboth). rewrite Hboth in Hx', Hl1, Hl2.
    destruct Hx' as (x & x' & -> & [= <-] & _).
    assert (length r.1 + length r.2 = 3) as Hl12 by (by rewrite Hl1, Hl2).
    destruct (reshaped_inv true _ _ _ _ _ _ _ _ _ _ _ Hlin Hlin1 Hlo1 Hl12 Hresh)
      as (y & ri & back & HyR & _ & HriR & (rw' & Hr1R & HrwR) & Hr2R & HbackR
          & HownR).
    rewrite Hr1R, Hr2R in HownR. cbn [app] in HownR.
    apply Forall_cons in HownR as [Hown1 HownR].
    apply Forall_cons in HownR as [Hown2 HownR].
    apply Forall_cons in HownR as [Hown3 _].
    assert (∀ k l, heap s1 !! k = Some l → k ≠ self_inputs s1 →
                   k ≠ self_outputs s1 → heap sf !! k = Some l) as Hfr1.
    { intros k l Hk _ Hne. pose proof (lookup_lt_Some _ _ _ Hk) as Hlt.
      apply Hfr8; [|done|lia]. apply Hfr7; [|lia]. apply Hfr4; [|done].
      by apply Hfr3. }
    exists x, y, ri, rw', back. split_and!; try done.
    - by apply (reshape_in_at_frame s1).
    - by apply (reshape_in_at_frame s1).
    - by apply (reshape_out_at_frame s1). }
  clear Hstore Hresh.
  assert (∃ sh0 sw0, stride sf !! 0 = Some sh0 ∧ stride sf !! 1 = Some sw0
                     ∧ options conv = TransposeConvOptions sh0 sw0 VALID)
    as Hopts by (by exists sh, sw).
  assert (∃ perm_in, heap sf !! inputs pre = Some [Some x4; Some perm_in]
                     ∧ tensor perm_in = np_array_int32 nchw2nhwc_perm)
    as Hpin_e by (by exists pin).
  assert (∃ perm_out, heap sf !! inputs post = Some [Some yn; Some perm_out]
                      ∧ tensor perm_out = np_array_int32 nhwc2nchw_perm)
    as Hpout_e by (by exists pout).
  pose proof (first_input_lookup _ _ _ _ Hui8) as Hpost_first.
  destruct Hslice7 as [[-> ->]|(sl & start & size & ph & pw & -> & Hsl_in
                               & Hsl_out & Hph & Hpw & Hsin7 & Hsout7 & Hstart
                               & Hsize & Hco)];
    destruct Hadd as [[-> ->]|(ad & bias & bt & rb & tail & -> & Hbias & ->
                               & Hrb7 & Hrb8 & Hfr & Hai8 & Hao8 & Hbt)].
  - (* neither slice nor add *)
    assert (heap sf !! outputs conv = Some (Some yn :: lo_rest)) as Hco8.
    { by rewrite Hconv_out, HfO, Hfh. }
    pose proof (first_output_lookup _ _ _ _ Hco8) as Hconv_first.
    exists {| d_input := ox; d_weight := w; d_rest := rest;
              d_input_4d := x4; d_weight_4d := w'; d_output_4d := y4;
              d_input_nhwc := xn; d_output_nhwc := yn;
              d_output_shape := osh; d_reordered := rw; d_perm := permt;
              d_conv_out := yn; d_prev := r.1; d_transpose_in := pre;
              d_reorder := ro; d_conv := conv; d_slices := [];
              d_adds := []; d_transpose_out := post; d_next := r.2 |}.
    split; [|exact Hresh8].
    unfold deconv_lowered, deconv_rank3, deconv_chain, deconv_flow.
    cbn [d_input d_weight d_rest d_input_4d d_weight_4d d_output_4d
         d_input_nhwc d_output_nhwc d_output_shape d_reordered d_perm
         d_conv_out d_prev d_transpose_in d_reorder d_conv d_slices d_adds
         d_transpose_out d_next app].
    split_and!; try done.
    eapply linked_cons; [done..|]. apply linked_one.
  - (* an add *)
    rewrite bool_decide_eq_true_2 in Hrb7, Hrb8, Hfr by done.
    rewrite Hso7 in Hrb7. injection Hrb7 as <-.
    rewrite <-Hfh in Hrb8, Hai8, Hao8.
    assert (heap sf !! outputs conv = Some (Some bt :: lo_rest)) as Hco8.
    { by rewrite Hconv_out, HfO. }
    pose proof (first_output_lookup _ _ _ _ Hco8) as Hconv_first.
    pose proof (first_input_lookup _ _ _ _ Hai8) as Had_in.
    pose proof (first_output_lookup _ _ _ _ Hao8) as Had_out.
    exists {| d_input := ox; d_weight := w; d_rest := rest;
              d_input_4d := x4; d_weight_4d := w'; d_output_4d := y4;
              d_input_nhwc := xn; d_output_nhwc := yn;
              d_output_shape := osh; d_reordered := rw; d_perm := permt;
              d_conv_out := bt; d_prev := r.1; d_transpose_in := pre;
              d_reorder := ro; d_conv := conv; d_slices := [];
              d_adds := [ad]; d_transpose_out := post; d_next := r.2 |}.
    split; [|exact Hresh8].
    unfold deconv_lowered, deconv_rank3, deconv_chain, deconv_flow.
    cbn [d_input d_weight d_rest d_input_4d d_weight_4d d_output_4d
         d_input_nhwc d_output_nhwc d_output_shape d_reordered d_perm
         d_conv_out d_prev d_transpose_in d_reorder d_conv d_slices d_adds
         d_transpose_out d_next app].
    split_and!; try done.
    + rewrite Hosh. unfold shape. by rewrite Hbt.
    + intros _. unfold shape. by rewrite Hbt.
    + intros ad' [= <-]. by exists bias, bt.
    + eapply linked_cons; [done..|].
      eapply linked_cons; [done..|]. apply linked_one.
  - (* a slice *)
    rewrite <-Hfh in Hso7, Hsin7, Hsout7.
    rewrite <-Hsl_in in Hsin7. rewrite <-Hsl_out in Hsout7.
    assert (heap sf !! outputs conv = Some (Some co :: lo_rest)) as Hco8.
    { by rewrite Hconv_out, HfO. }
    pose proof (first_output_lookup _ _ _ _ Hco8) as Hconv_first.
    pose proof (first_input_lookup _ _ _ _ Hsin7) as Hsl_first.
    pose proof (first_output_lookup _ _ _ _ Hsout7) as Hsl_last.
    rewrite <-Hfpad1 in Hph, Hpw.
    exists {| d_input := ox; d_weight := w; d_rest := rest;
              d_input_4d := x4; d_weight_4d := w'; d_output_4d := y4;
              d_input_nhwc := xn; d_output_nhwc := yn;
              d_output_shape := osh; d_reordered := rw; d_perm := permt;
              d_conv_out := co; d_prev := r.1; d_transpose_in := pre;
              d_reorder := ro; d_conv := conv; d_slices := [sl];
              d_adds := []; d_transpose_out := post; d_next := r.2 |}.
    split; [|exact Hresh8].
    unfold deconv_lowered, deconv_rank3, deconv_chain, deconv_flow.
    cbn [d_input d_weight d_rest d_input_4d d_weight_4d d_output_4d
         d_input_nhwc d_output_nhwc d_output_shape d_reordered d_perm
         d_conv_out d_prev d_transpose_in d_reorder d_conv d_slices d_adds
         d_transpose_out d_next app].
    split_and!; try done.
    + intros sl' [= <-]. exists start, size, yn, ph, pw. by split_and!.
    + eapply linked_cons; [done..|].
      eapply linked_cons; [done..|]. apply linked_one.
  - (* a slice and an add *)
    rewrite bool_decide_eq_false_2 in Hrb7, Hrb8, Hfr by done.
    rewrite Hsout7 in Hrb7. injection Hrb7 as <-.
    pose proof (Hfr _ _ Hso7 Hso6) as Hso8.
    pose proof (Hfr _ _ Hsin7 ltac:(lia)) as Hsin8.
    rewrite <-Hfh in Hso8, Hsin8, Hrb8, Hai8, Hao8.
    rewrite <-Hsl_in in Hsin8. rewrite <-Hsl_out in Hrb8.
    assert (heap sf !! outputs conv = Some (Some co :: lo_rest)) as Hco8.
    { by rewrite Hconv_out, HfO. }
    pose proof (first_output_lookup _ _ _ _ Hco8) as Hconv_first.
    pose proof (first_input_lookup _ _ _ _ Hsin8) as Hsl_first.
    pose proof (first_output_lookup _ _ _ _ Hrb8) as Hsl_last.
    pose proof (first_input_lookup _ _ _ _ Hai8) as Had_in.
    pose proof (first_output_lookup _ _ _ _ Hao8) as Had_out.
    rewrite <-Hfpad1 in Hph, Hpw.
    exists {| d_input := ox; d_weight := w; d_rest := rest;
              d_input_4d := x4; d_weight_4d := w'; d_output_4d := y4;
              d_input_nhwc := xn; d_output_nhwc := yn;
              d_output_shape := osh; d_reordered := rw; d_perm := permt;
              d_conv_out := co; d_prev := r.1; d_transpose_in := pre;
              d_reorder := ro; d_conv := conv; d_slices := [sl];
              d_adds := [ad]; d_transpose_out := post; d_next := r.2 |}.
    split; [|exact Hresh8].
    unfold deconv_lowered, deconv_rank3, deconv_chain, deconv_flow.
    cbn [d_input d_weight d_rest d_input_4d d_weight_4d d_output_4d
         d_input_nhwc d_output_nhwc d_output_shape d_reordered d_perm
         d_conv_out d_prev d_transpose_in d_reorder d_conv d_slices d_adds
         d_transpose_out d_next app].
    split_and!; try done.
    + intros sl' [= <-]. exists start, size, bt, ph, pw.
      split_and!; try done.
      * rewrite Hsize. unfold shape. by rewrite Hbt.
      * unfold shape. by rewrite Hbt.
    + intros ad' [= <-]. by exists bias, bt.
    + eapply linked_cons; [done..|].
      eapply linked_cons; [done..|].
      eapply linked_cons; [done..|]. apply linked_one.
Qed.
End deconv.

Lemma fmap_op_replicate (k : BuiltinOperator) (l : list BaseOperator) :
  Forall (λ o, op o = k) l → op <$> l = replicate (length l) k.
Proof.
  induction 1 as [|o l Ho _ IH]; [done|]. simpl. by f_equal.
Qed.

Lemma deconv_lowered_kept s s' p :
  deconv_lowered s s' p →
  ∀ k l, heap s !! k = Some l →
         deconv_rank3 p = true ∨ k ≠ self_outputs s →
         heap s' !! k = Some l.
Proof. intros H. repeat (destruct H as [_ H]). exact H. Qed.

Section deconv_theorems.
Context {Mapping : Type} `{!GraphConverter Mapping}.
Import GenericTransposeConvOperator.

Lemma transpose_conv_returns (mapping : Mapping) s s' :
  two_lists s → transform mapping s = (Ok (), s') →
  ∃ p, deconv_lowered s s' p.
Proof.
  intros Hs Hrun.
  destruct (wp_run any_exn _ _ _ _ _ (transpose_conv_outcome mapping s Hs) Hrun)
    as (p & Hp & _).
  by exists p.
Qed.

(** X13. Every lowering of a transposed convolution that returns emits, all
    without the transform flag: two reshapes when the weight has rank 3, the
    leading layout transpose, the weight transpose, the TRANSPOSE_CONV, a
    slice when the padding amounts sum to more than zero, an add when the
    node has a third input that is not None, the trailing layout transpose,
    and one more reshape when the weight has rank 3; in this order, and
    nothing else. *)
Theorem transpose_conv_lowering_chain (mapping : Mapping) s s' ox w rest :
  two_lists s →
  heap s !! self_inputs s = Some (ox :: Some w :: rest) →
  transform mapping s = (Ok (), s') →
  ∃ ops,
    emitted s' = emitted s ++ ((λ o, (o, false)) <$> ops) ∧
    op <$> ops
    = deconv_kinds (bool_decide (ndim (tensor w) = 3))
        (bool_decide (0 < py_sum (padding s))%Z) (has_bias rest).
Proof.
  intros Hs Hlin Hrun.
  destruct (transpose_conv_returns _ _ _ Hs Hrun) as [p Hp].
  destruct Hp as (Hlin' & _ & _ & _ & _ & _ & _ & _ & Hemit & Hprev & Hnext
                  & Hre & Htin & Hreorder & Hconv & Htout & Hslices & Hlslices
                  & Hadds & Hladds & _).
  rewrite Hlin in Hlin'. injection Hlin' as -> -> ->.
  exists (deconv_chain p). split; [done|].
  apply Forall_app in Hre as [Hre1 Hre2].
  unfold deconv_chain, deconv_flow, deconv_kinds.
  rewrite !fmap_app. cbn [fmap list_fmap].
  rewrite Htin, Hreorder, Hconv, Htout.
  rewrite (fmap_op_replicate _ _ Hre1), (fmap_op_replicate _ _ Hre2),
    (fmap_op_replicate _ _ Hslices), (fmap_op_replicate _ _ Hadds).
  rewrite Hprev, Hnext, Hlslices, Hladds. unfold deconv_rank3.
  by destruct (bool_decide (ndim _ = 3)), (bool_decide (0 < _)%Z),
    (has_bias _).
Qed.

(** X14. In every lowering of a transposed convolution that returns, the
    TRANSPOSE_CONV reads three inputs: a constant that holds the shape of its
    own first output, the weight reordered by the permutation [1, 2, 3, 0]
    (the output of the emitted weight transpose), and the input in
    channel-last layout (the output of the leading transpose). Its strides
    are the first two strides of the node and its padding is VALID. *)
Theorem transpose_conv_lowering_primitive (mapping : Mapping) s s' ox w rest :
  two_lists s →
  heap s !! self_inputs s = Some (ox :: Some w :: rest) →
  transform mapping s = (Ok (), s') →
  ∃ transpose_in reorder conv input_4d weight_4d perm_in perm
    input_nhwc reordered output_shape conv_out strideH strideW,
    (transpose_in, false) ∈ emitted s' ∧ (reorder, false) ∈ emitted s' ∧
    (conv, false) ∈ emitted s' ∧
    (* the input, in channel-last layout *)
    resolve s' transpose_in
      = (TRANSPOSE, [Some input_4d; Some perm_in], [Some input_nhwc]) ∧
    tensor perm_in = np_array_int32 [0; 2; 3; 1]%Z ∧
    shape input_nhwc = permute_shape (shape input_4d) [0; 2; 3; 1]%Z ∧
    (* the weight, with its first axis last *)
    lifted_if (bool_decide (ndim (tensor w) = 3)) w weight_4d ∧
    resolve s' reorder
      = (TRANSPOSE, [Some weight_4d; Some perm], [Some reordered]) ∧
    tensor perm = np_array_int32 [1; 2; 3; 0]%Z ∧
    shape reordered = permute_shape (shape weight_4d) [1; 2; 3; 0]%Z ∧
    (* the primitive *)
    op conv = TRANSPOSE_CONV ∧
    options conv = TransposeConvOptions strideH strideW VALID ∧
    stride s' !! 0 = Some strideH ∧ stride s' !! 1 = Some strideW ∧
    heap s' !! inputs conv
      = Some [Some output_shape; Some reordered; Some input_nhwc] ∧
    first_output s' conv = Some conv_out ∧
    has_buffer output_shape = true ∧
    tensor output_shape = np_array_of_shape (shape conv_out).
Proof.
  intros Hs Hlin Hrun.
  destruct (transpose_conv_returns _ _ _ Hs Hrun) as [p Hp].
  destruct Hp as (Hlin' & _ & Hw4 & _ & _ & _ & _ & _ & Hemit & _ & _
                  & _ & Htin & Hreorder & Hconv & _ & _ & _
                  & _ & _ & _ & _ & (sh & sw & Hsh & Hsw & Hopts) & _ & _
                  & (perm_in & Htin_in & Hperm_in) & Htin_out & Hxn
                  & Hre_in & Hperm & Hre_out & Hrw & Hci & Hbuf & Hosh & Hco
                  & _).
  rewrite Hlin in Hlin'. injection Hlin' as -> -> ->.
  exists (d_transpose_in p), (d_reorder p), (d_conv p), (d_input_4d p),
    (d_weight_4d p), perm_in, (d_perm p), (d_input_nhwc p), (d_reordered p),
    (d_output_shape p), (d_conv_out p), sh, sw.
  assert (∀ o, o ∈ deconv_chain p → (o, false) ∈ emitted s') as Hin.
  { intros o Ho. rewrite Hemit. apply elem_of_app. right.
    by apply (list_elem_of_fmap_2 (λ o, (o, false))). }
  unfold resolve. rewrite Htin_in, Htin_out, Hre_in, Hre_out, Htin, Hreorder.
  split_and!; try done.
  - apply Hin. unfold deconv_chain.
    rewrite !elem_of_app, !elem_of_cons. auto.
  - apply Hin. unfold deconv_chain.
    rewrite !elem_of_app, !elem_of_cons. auto.
  - apply Hin. unfold deconv_chain, deconv_flow.
    rewrite !elem_of_app, !elem_of_cons. auto 10.
Qed.

(** X15. In every lowering of a transposed convolution that returns, the
    operators from the TRANSPOSE_CONV to the trailing transpose form a
    connected chain: each reads as its first input the first output of the
    one before it, and the trailing transpose writes the output of the node
    (lifted to four axes when the weight has rank 3). The slice, when there
    is one, starts at [0, pad_h, pad_w, 0], has the size of the channel-last
    output, and reads a tensor that is larger by the padding on both sides
    of the two middle axes; the add, when there is one, reads the bias of
    the node as its second input. *)
Theorem transpose_conv_lowering_flow (mapping : Mapping) s s' ox w rest :
  two_lists s →
  heap s !! self_inputs s = Some (ox :: Some w :: rest) →
  transform mapping s = (Ok (), s') →
  ∃ before conv slices adds transpose_out after output_nhwc output_4d
    perm_out,
    emitted s'
    = emitted s ++ ((λ o, (o, false)) <$>
                    before ++ [conv] ++ slices ++ adds ++ [transpose_out]
                    ++ after) ∧
    op conv = TRANSPOSE_CONV ∧
    linked s' ([conv] ++ slices ++ adds ++ [transpose_out]) ∧
    (* back to the layout of the node *)
    resolve s' transpose_out
      = (TRANSPOSE, [Some output_nhwc; Some perm_out], [Some output_4d]) ∧
    tensor perm_out = np_array_int32 [0; 3; 1; 2]%Z ∧
    shape output_nhwc = permute_shape (shape output_4d) [0; 2; 3; 1]%Z ∧
    (∃ y, node_output s = Some y
          ∧ lifted_if (bool_decide (ndim (tensor w) = 3)) y output_4d) ∧
    (* the slice that takes the padding off *)
    (∀ sl, slices = [sl] →
       ∃ src start size dst pad_h pad_w,
         padding s' !! 0 = Some pad_h ∧ padding s' !! 1 = Some pad_w ∧
         resolve s' sl
           = (SLICE, [Some src; Some start; Some size], [Some dst]) ∧
         tensor start = np_array_int32 [0; pad_h; pad_w; 0]%Z ∧
         tensor size = np_array_of_shape (shape dst) ∧
         shape dst = shape output_nhwc ∧
         shape src
           = nd_shape (padded_array (tensor output_nhwc) pad_h pad_w)) ∧
    (* the add of the bias *)
    (∀ ad, adds = [ad] →
       ∃ add_in bias,
         rest !! 0 = Some (Some bias) ∧
         resolve s' ad
           = (ADD, [Some add_in; Some bias], [Some output_nhwc]) ∧
         tensor add_in = tensor output_nhwc).
Proof.
  intros Hs Hlin Hrun.
  destruct (transpose_conv_returns _ _ _ Hs Hrun) as [p Hp].
  destruct Hp as (Hlin' & _ & _ & _ & Hy & _ & _ & _ & Hemit & _ & _
                  & _ & _ & _ & Hconv & Htout & Hslices & _
                  & Hadds & _ & _ & _ & _ & _ & _
                  & _ & _ & _ & _ & _ & _ & _ & _ & _ & _ & _
                  & (perm_out & Htout_in & Hperm_out) & Htout_out & Hyn
                  & _ & Hslice & Hadd & Hlinked & _).
  rewrite Hlin in Hlin'. injection Hlin' as Hox Hw Hrest.
  exists (d_prev p ++ [d_transpose_in p; d_reorder p]), (d_conv p),
    (d_slices p), (d_adds p), (d_transpose_out p), (d_next p),
    (d_output_nhwc p), (d_output_4d p), perm_out.
  unfold resolve. rewrite Htout_in, Htout_out, Htout.
  split_and!; try done.
  - rewrite Hemit. unfold deconv_chain, deconv_flow.
    by rewrite <-!app_assoc.
  - unfold deconv_rank3 in Hy. by rewrite <-Hw in Hy.
  - intros sl Hsl.
    destruct (Hslice sl Hsl) as (start & size & dst & ph & pw & Hph & Hpw
                                 & Hin & Hout & Hstart & Hsize & Hdst & Hsrc).
    exists (d_conv_out p), start, size, dst, ph, pw.
    rewrite Hin, Hout. rewrite Hsl in Hslices.
    apply Forall_cons in Hslices as [-> _]. by split_and!.
  - intros ad Had.
    destruct (Hadd ad Had) as (bias & add_in & Hbias & Hin & Hout & Ht).
    exists add_in, bias. rewrite Hin, Hout. rewrite Had in Hadds.
    apply Forall_cons in Hadds as [-> _]. rewrite <-Hrest in Hbias.
    by split_and!.
Qed.

(** X16. A lowering of a transposed convolution that returns does not
    write into the inputs of the node: they hold the input and the weight
    (lifted to four axes when the weight has rank 3) and whatever followed
    them, so for a weight of rank 4 they hold exactly what they held; the
    reordered weight and the output shape go into a list of the primitive's
    own. Of the lists that were there before the call, only the outputs of
    the node can have changed, and not even that one when the weight has
    rank 3, since the node then gets new lists. The first output of the
    node is replaced by the first output of the TRANSPOSE_CONV. *)
Theorem transpose_conv_keeps_inputs (mapping : Mapping) s s' ox w rest :
  two_lists s →
  heap s !! self_inputs s = Some (ox :: Some w :: rest) →
  transform mapping s = (Ok (), s') →
  (∃ x input_4d weight_4d,
     ox = Some x ∧
     lifted_if (bool_decide (ndim (tensor w) = 3)) x input_4d ∧
     lifted_if (bool_decide (ndim (tensor w) = 3)) w weight_4d ∧
     heap s' !! self_inputs s'
       = Some (Some input_4d :: Some weight_4d :: rest)) ∧
  (ndim (tensor w) ≠ 3 →
   heap s' !! self_inputs s' = heap s !! self_inputs s) ∧
  (∀ k l, heap s !! k = Some l →
          ndim (tensor w) = 3 ∨ k ≠ self_outputs s →
          heap s' !! k = Some l) ∧
  (∃ conv conv_out,
     (conv, false) ∈ emitted s' ∧ op conv = TRANSPOSE_CONV ∧
     first_output s' conv = Some conv_out ∧
     node_output s' = Some conv_out).
Proof.
  intros Hs Hlin Hrun.
  destruct (transpose_conv_returns _ _ _ Hs Hrun) as [p Hp].
  pose proof (deconv_lowered_kept _ _ _ Hp) as Hkept.
  destruct Hp as (Hlin' & _ & Hw4 & (x & Hx & Hx4) & _ & _ & _ & _ & Hemit
                  & _ & _ & _ & _ & _ & Hconv & _ & _ & _ & _ & _ & _ & _ & _
                  & Hout & Hsi & _ & _ & _ & _ & _ & _ & _ & _ & _ & _ & Hco
                  & _).
  rewrite Hlin in Hlin'. injection Hlin' as Hox Hw Hrest.
  unfold deconv_rank3 in *. rewrite <-Hw, <-Hrest in *.
  split_and!.
  - exists x, (d_input_4d p), (d_weight_4d p). split_and!; try done.
    by rewrite Hox.
  - intros H3. rewrite bool_decide_eq_false_2 in Hx4, Hw4 by done.
    unfold lifted_if in Hx4, Hw4. by rewrite Hsi, Hlin, Hx4, Hw4, Hox, Hx.
  - intros k l Hk [H3|Hne]; apply Hkept; try done; [left|by right].
    by apply bool_decide_eq_true_2.
  - exists (d_conv p), (d_conv_out p). split_and!; try done.
    + rewrite Hemit. apply elem_of_app. right.
      apply (list_elem_of_fmap_2 (λ o, (o, false))).
      unfold deconv_chain, deconv_flow.
      rewrite !elem_of_app, !elem_of_cons. auto 10.
    + unfold first_output in Hco. unfold node_output. by rewrite <-Hout.
Qed.

(** X20. When the weight of a transposed convolution has rank 3, every
    lowering that returns starts the emitted chain with a reshape of the
    input and one of the weight, and ends it with a reshape that writes the
    output of the node as it was at the call. Each of these reshapes carries
    the shape of its output as a constant second input and as its
    [newShape] option; the tensors in four axes have a unit axis at
    position 2, keep data type and quantization, and are named
    [<output>_<tensor>_4d_input] and [<output>_4d_output]. The leading
    transpose reads the reshaped input, the weight transpose the reshaped
    weight, and the last reshape reads what the trailing transpose writes;
    no operator between the reshapes is a reshape. *)
Theorem transpose_conv_lowering_reshapes (mapping : Mapping) s s' ox w rest :
  two_lists s →
  heap s !! self_inputs s = Some (ox :: Some w :: rest) →
  ndim (tensor w) = 3 →
  transform mapping s = (Ok (), s') →
  ∃ ops,
    emitted s' = emitted s ++ ((λ o, (o, false)) <$> ops) ∧
    reshapes_around true s ops s'.
Proof.
  intros Hs Hlin Hrank Hrun.
  destruct (wp_run any_exn _ _ _ _ _ (transpose_conv_outcome mapping s Hs) Hrun)
    as (p & Hp & Hr).
  destruct Hp as (Hlin' & _ & Hw4 & Hx4 & Hy4 & _ & _ & _ & Hemit & _ & _ & _
                  & Htin & Hreorder & Hconv & Htout & Hslices & _ & Hadds & _
                  & _ & _ & _ & _ & _ & (perm_in & Htin_in & _) & _ & _
                  & Hre_in & _ & _ & _ & _ & _ & _ & _ & _ & Htout_out & _).
  rewrite Hlin in Hlin'. injection Hlin' as Hox Hw Hrest.
  assert (deconv_rank3 p = true) as H3.
  { unfold deconv_rank3. rewrite <-Hw. by apply bool_decide_eq_true_2. }
  destruct (Hr H3) as (x & y & ri & rw & back & Hdx & Hy & Hprev & Hnext & Hri
                       & Hrw & Hback).
  rewrite H3 in Hw4, Hx4, Hy4. unfold lifted_if in Hw4, Hx4, Hy4.
  destruct Hx4 as (x0 & Hx0 & Hlx). rewrite Hdx in Hx0. injection Hx0 as <-.
  destruct Hy4 as (y0 & Hy0 & Hly). rewrite Hy in Hy0. injection Hy0 as <-.
  exists (deconv_chain p). split; [done|].
  exists x, y, (d_input_4d p), (d_output_4d p), ri, (d_prev p),
    (d_transpose_in p), ([d_reorder p; d_conv p] ++ d_slices p ++ d_adds p),
    (d_transpose_out p), back.
  split_and!; try done.
  - unfold node_input. rewrite Hlin. simpl. by rewrite Hox.
  - unfold deconv_chain, deconv_flow. rewrite Hnext. cbn [app].
    by rewrite <-!app_assoc.
  - rewrite !Forall_app, !Forall_cons, Htin, Hreorder, Hconv, Htout.
    split_and!; try done.
    + eapply Forall_impl; [exact Hslices|]. by intros o ->.
    + eapply Forall_impl; [exact Hadds|]. by intros o ->.
  - by rewrite Hprev.
  - by apply (first_input_lookup _ _ _ [Some perm_in]).
  - exists (d_weight p), (d_weight_4d p), rw, (d_reorder p).
    split_and!; try done.
    + unfold node_weight. rewrite Hlin. simpl. by rewrite Hw.
    + by apply (first_input_lookup _ _ _ [Some (d_perm p)]).
  - by apply (first_output_lookup _ _ _ []).
Qed.
End deconv_theorems.

Lemma two_lists_fresh_node ins outs st pd dl op g :
  two_lists (fresh_node ins outs st pd dl op g).
Proof. split; simpl; lia. Qed.

Lemma transpose_conv_lowering_chain_witness :
  let run := @GenericTransposeConvOperator.transform unit linking_converter ()
               deconv2d_bias_example in
  run = (Ok (), run.2)
  ∧ emitted_kinds run.2
    = [TRANSPOSE; TRANSPOSE; TRANSPOSE_CONV; SLICE; ADD; TRANSPOSE]
  ∧ Forall (λ x, x.2 = false) (emitted run.2).
Proof.
  intros run.
  assert (run = (Ok (), run.2)) as Hrun by (by vm_compute).
  split; [exact Hrun|].
  destruct (@transpose_conv_lowering_chain unit linking_converter ()
              deconv2d_bias_example run.2 _ _ _
              (two_lists_fresh_node _ _ _ _ _ _ _) eq_refl Hrun)
    as (ops & Hemit & Hkinds).
  unfold emitted_kinds. rewrite Hemit. split.
  - change (emitted deconv2d_bias_example) with (@nil (BaseOperator * bool)).
    cbn [app]. rewrite <-list_fmap_compose. exact Hkinds.
  - apply Forall_app. split; [by constructor|].
    apply Forall_fmap, Forall_true. done.
Defined.

Lemma transpose_conv_lowering_primitive_witness :
  let run := @GenericTransposeConvOperator.transform unit linking_converter ()
               deconv1d_example in
  run = (Ok (), run.2)
  ∧ ∃ conv output_shape reordered input_nhwc conv_out,
      (conv, false) ∈ emitted run.2 ∧
      heap run.2 !! inputs conv
        = Some [Some output_shape; Some reordered; Some input_nhwc] ∧
      first_output run.2 conv = Some conv_out ∧
      tensor output_shape = np_array_of_shape (shape conv_out).
Proof.
  intros run.
  assert (run = (Ok (), run.2)) as Hrun by (by vm_compute).
  split; [exact Hrun|].
  destruct (@transpose_conv_lowering_primitive unit linking_converter ()
              deconv1d_example run.2 _ _ _
              (two_lists_fresh_node _ _ _ _ _ _ _) eq_refl Hrun)
    as (tin & reorder & conv & x4 & w4 & perm_in & perm & xn & rw & osh & co
        & sh & sw & _ & _ & Hin & _ & _ & _ & _ & _ & _ & _ & _ & _ & _ & _
        & Hci & Hco & _ & Hosh).
  exists conv, osh, rw, xn, co.
  exact (conj Hin (conj Hci (conj Hco Hosh))).
Defined.

Lemma transpose_conv_lowering_flow_witness :
  let run := @GenericTransposeConvOperator.transform unit linking_converter ()
               deconv2d_bias_example in
  run = (Ok (), run.2)
  ∧ ∃ conv slices adds transpose_out,
      op conv = TRANSPOSE_CONV ∧
      linked run.2 ([conv] ++ slices ++ adds ++ [transpose_out]).
Proof.
  intros run.
  assert (run = (Ok (), run.2)) as Hrun by (by vm_compute).
  split; [exact Hrun|].
  destruct (@transpose_conv_lowering_flow unit linking_converter ()
              deconv2d_bias_example run.2 _ _ _
              (two_lists_fresh_node _ _ _ _ _ _ _) eq_refl Hrun)
    as (before & conv & slices & adds & tout & after & yn & y4 & perm_out
        & _ & Hconv & Hlinked & _).
  exists conv, slices, adds, tout. exact (conj Hconv Hlinked).
Defined.

Lemma transpose_conv_keeps_inputs_witness :
  let run := @GenericTransposeConvOperator.transform unit linking_converter ()
               deconv2d_example in
  run = (Ok (), run.2)
  ∧ heap run.2 !! self_inputs run.2
    = Some [Some (value_tensor "x" [1; 3; 8; 8] float32 None);
            Some (constant_tensor "w" [3; 4; 3; 3] float32)].
Proof.
  intros run.
  assert (run = (Ok (), run.2)) as Hrun by (by vm_compute).
  split; [exact Hrun|].
  destruct (@transpose_conv_keeps_inputs unit linking_converter ()
              deconv2d_example run.2 _ _ _
              (two_lists_fresh_node _ _ _ _ _ _ _) eq_refl Hrun)
    as (_ & Hsame & _).
  apply Hsame. vm_compute. discriminate.
Defined.

Lemma transpose_conv_lowering_reshapes_witness :
  let run := @GenericTransposeConvOperator.transform unit linking_converter ()
               deconv1d_example in
  run = (Ok (), run.2)
  ∧ ∃ ops, emitted run.2 = (λ o, (o, false)) <$> ops
           ∧ reshapes_around true deconv1d_example ops run.2.
Proof.
  intros run.
  assert (run = (Ok (), run.2)) as Hrun by (by vm_compute).
  split; [exact Hrun|].
  exact (@transpose_conv_lowering_reshapes unit linking_converter ()
           deconv1d_example run.2 _ _ _
           (two_lists_fresh_node _ _ _ _ _ _ _) eq_refl eq_refl Hrun).
Defined.

(** * The flow of data through the lowered convolution *)

(** The site of the layout wrapper in the lowering of a convolution: the
    primitive reads the inputs of the node and writes its outputs. *)
Lemma wrap_conv_site conv s site x' ow rest lo :
  inputs conv ≠ outputs conv →
  heap s !! inputs conv = Some (Some x' :: ow :: rest) →
  heap s !! outputs conv = Some lo →
  wrap_site_of [conv] 0 0 s site →
  ∃ y4 lo_rest,
    lo = Some y4 :: lo_rest ∧
    orig_input site = x' ∧ orig_output site = y4 ∧
    ndim (tensor x') = 4 ∧ ndim (tensor y4) = 4 ∧
    length (wrap_heap s site) = length (heap s) + 4 ∧
    wrap_heap s site !! inputs conv
      = Some (Some (new_input s site) :: ow :: rest) ∧
    wrap_heap s site !! outputs conv
      = Some (Some (new_output s site) :: lo_rest) ∧
    (∀ k l, heap s !! k = Some l → k ≠ inputs conv → k ≠ outputs conv →
            wrap_heap s site !! k = Some l) ∧
    wrap_heap s site !! (length (heap s) + 0)
      = Some [Some x'; Some (nchw2nhwc_perm_tensor s site)] ∧
    wrap_heap s site !! (length (heap s) + 1)
      = Some [Some (new_input s site)] ∧
    wrap_heap s site !! (length (heap s) + 2)
      = Some [Some (new_output s site);
              Some (nhwc2nchw_perm_tensor s site)] ∧
    wrap_heap s site !! (length (heap s) + 3) = Some [Some y4].
Proof.
  intros Hne Hin Hlo Hsite.
  pose proof (wrap_site_heap _ _ _ _ _ Hsite) as Hheap.
  pose proof (lookup_lt_Some _ _ _ Hlo) as Hlt.
  pose proof (lookup_lt_Some _ _ _ Hin) as Hlt'.
  destruct Hsite as (Hf & Hl & Hlin & Hni & Hoi & Hlout & Hno & Hoo & Hd1 & Hd2
                     & _).
  injection Hf as Hf. injection Hl as Hl.
  rewrite <-Hf, Hin in Hlin. rewrite <-Hl, Hlo in Hlout.
  injection Hlin as Hlin. injection Hlout as Hlout.
  rewrite <-Hlin in Hni, Hoi. rewrite <-Hlout in Hno, Hoo.
  apply py_norm_nonneg_inv in Hni; [|done]. change (Z.to_nat 0) with 0 in Hni.
  apply py_norm_nonneg_inv in Hno; [|done]. change (Z.to_nat 0) with 0 in Hno.
  rewrite Hni in Hoi. injection Hoi as Hoi.
  rewrite Hno in Hoo. destruct lo as [|oy lo_rest]; [done|].
  injection Hoo as Hoo.
  exists (orig_output site), lo_rest.
  split_and!; try done.
  - by rewrite Hoo.
  - by rewrite Hoi.
  - unfold wrap_heap. rewrite !length_insert, length_app. simpl. lia.
  - unfold wrap_heap. rewrite <-Hf, <-Hl.
    rewrite list_lookup_insert_ne by done.
    rewrite list_lookup_insert_eq by (rewrite length_app; lia).
    unfold redirected_inputs. by rewrite <-Hlin, Hni.
  - unfold wrap_heap. rewrite <-Hl.
    rewrite list_lookup_insert_eq
      by (rewrite length_insert, length_app; lia).
    unfold redirected_outputs. rewrite <-Hf, <-Hl.
    rewrite decide_False by done. by rewrite <-Hlout, Hno.
  - intros k l Hk Hne1 Hne2.
    unfold wrap_heap. rewrite <-Hf, <-Hl.
    rewrite !list_lookup_insert_ne by done.
    by apply lookup_app_l_Some.
  - rewrite Hoi. by apply wrap_heap_fresh.
  - by apply wrap_heap_fresh.
  - by apply wrap_heap_fresh.
  - by apply wrap_heap_fresh.
Qed.

Lemma normalized_output does both s ox ow rest r s1 :
  two_lists s →
  normalized does both s ox ow rest r s1 →
  ∃ lo lo1,
    heap s !! self_outputs s = Some lo ∧
    heap s1 !! self_outputs s1 = Some lo1 ∧
    self_inputs s1 ≠ self_outputs s1 ∧
    (if does
     then ∃ y y' lo_rest, lo = Some y :: lo_rest ∧ lo1 = Some y' :: lo_rest
                          ∧ lifted y y'
     else lo1 = lo).
Proof.
  intros [Hio Hso]. unfold normalized. destruct does.
  - intros (x0 & x' & y & y' & ow' & lo_rest & ext & _ & _ & Hy & Hy' & _
            & _ & _ & _ & Hio1 & _ & Hout & _).
    exists (Some y :: lo_rest), (Some y' :: lo_rest).
    split_and!; try done. by exists y, y', lo_rest.
  - intros [-> ->]. destruct (lookup_lt_is_Some_2 _ _ Hso) as [lo Hlo].
    by exists lo, lo.
Qed.

Section conv_flow.
Context {Mapping : Type} `{!GraphConverter Mapping}.
Import GenericConvOperator.

Lemma lower_flow_outcome (mapping : Mapping) s :
  two_lists s →
  wp any_exn (lower mapping)
     (λ ops s', conv_flowed s ops s' ∧ conv_reshaped s ops s') s.
Proof.
  intros Htwo. unfold lower.
  wp_any. wp_any. wp_any. wp_any.
  rename l into lin, x into ox, Hl into Hlin, Hx into Hox.
  apply py_norm_nonneg_inv in Hn; [|done]. vm_compute in Hn. subst n.
  wp_any. wp_any. rename x into ow, Hx into How.
  rewrite Hlin in Hl. injection Hl as <-.
  apply py_norm_nonneg_inv in Hn; [|done]. vm_compute in Hn. subst n.
  wp_the as x. wp_the as w.
  destruct lin as [|? [|? rest]]; try done.
  injection Hox as ->. injection How as ->.
  wp_any.
  eapply wp_mono; [|apply (normalize_dims_outcome _ _ _ _ _ _ Hlin)].
  cbn beta. intros r s1 [[Hnorm H4] Hresh].
  pose proof (normalized_store _ _ _ _ _ _ _ _ Hnorm) as Hstore.
  destruct (normalized_output _ _ _ _ _ _ _ _ Htwo Hnorm)
    as (lo & lo1 & Hlo & Hlo1 & Hio1 & Hy).
  apply normalized_inv in Hnorm as (x' & w' & Hlin1 & Hx' & Hw' & Hlen & Hre
    & Hstride & Hpadding & Hdilation & Hop & Hgroups & Hfused & Hwarn & Hemit
    & Hframe); [|by intros ->|done].
  wp_any. wp_any. apply wp_bind.
  apply (wp_mono _ _ (λ b s', s' = s1 ∧ b = w')).
  2:{ destruct (_ || _) eqn:Hdoes.
      - apply wp_bind, wp_getitem_any. intros l n o Hl Hn Ho.
        rewrite Hlin1 in Hl. injection Hl as <-.
        apply py_norm_nonneg_inv in Hn; [|done]. vm_compute in Hn. subst n.
        injection Ho as <-. by apply wp_the_any; intros ? [= <-].
      - apply wp_ret. split; [done|].
        apply orb_false_iff in Hdoes as [Hb _]. rewrite Hb in Hw'.
        exact (eq_sym Hw'). }
  intros ? ? [-> ->].
  apply wp_bind, wp_select_primitive_any. intros sh sw dh dw Hsh Hsw Hdh Hdw.
  rewrite warned_same_node.
  apply wp_bind, wp_wrap_any. intros site Hsite.
  set (conv := conv_primitive _ _ _ _ _ _) in *.
  match type of Hsite with wrap_site_of _ _ _ ?st _ => set (s2 := st) in * end.
  assert (inputs conv = self_inputs s1) as Hconv_in by done.
  assert (outputs conv = self_outputs s1) as Hconv_out by done.
  assert (inputs conv ≠ outputs conv) as Hne by done.
  assert (heap s2 !! inputs conv = Some (Some x' :: Some w' :: rest)) as Hin2
    by done.
  assert (heap s2 !! outputs conv = Some lo1) as Hout2 by done.
  destruct (wrap_conv_site conv s2 site x' (Some w') rest lo1 Hne Hin2 Hout2
              Hsite)
    as (y4 & lo_rest & -> & Hoi & Hoo & Hdx & Hdy & Hlen3 & Hsi3 & Hso3
        & Hfr3 & Hti3 & Hto3 & Hui3 & Huo3).
  set (xn := new_input s2 site) in *.
  set (yn := new_output s2 site) in *.
  set (pin := nchw2nhwc_perm_tensor s2 site) in *.
  set (pout := nhwc2nchw_perm_tensor s2 site) in *.
  assert (shape xn = permute_shape (shape x') nchw2nhwc_perm) as Hxn
    by (by rewrite <-Hoi).
  assert (quantization xn = quantization x') as Hxq by (by rewrite <-Hoi).
  assert (shape yn = permute_shape (shape y4) nchw2nhwc_perm) as Hyn
    by (by rewrite <-Hoo).
  assert (tensor pin = np_array_int32 nchw2nhwc_perm) as Hpin by done.
  assert (tensor pout = np_array_int32 nhwc2nchw_perm) as Hpout by done.
  assert (self_inputs (wrap_state s2 site) = self_inputs s1
          ∧ self_outputs (wrap_state s2 site) = self_outputs s1
          ∧ padding (wrap_state s2 site) = padding s1)
    as (HI3 & HO3 & Hpd3) by done.
  assert (wrap_chain s2 [conv]
          = [pre_transpose s2; conv; post_transpose s2]) as -> by done.
  assert (inputs (pre_transpose s2) = length (heap s1) + 0
          ∧ outputs (pre_transpose s2) = length (heap s1) + 1
          ∧ inputs (post_transpose s2) = length (heap s1) + 2
          ∧ outputs (post_transpose s2) = length (heap s1) + 3
          ∧ op (pre_transpose s2) = TRANSPOSE
          ∧ op (post_transpose s2) = TRANSPOSE)
    as (Hpre_in & Hpre_out & Hpost_in & Hpost_out & Hpre_op & Hpost_op).
  { unfold pre_transpose, post_transpose, s2. st_simpl. cbn [inputs outputs op].
    split_and!; try done; lia. }
  change (heap s2) with (heap s1) in *.
  clearbody xn yn pin pout.
  generalize dependent (pre_transpose s2). intros pre.
  generalize dependent (post_transpose s2). intros post.
  intros.
  change (wrap_heap s2 site) with (heap (wrap_state s2 site)) in *.
  generalize dependent (wrap_state s2 site). intros s3. intros.
  clear Hsite Hoi Hoo site Hin2 Hout2. clear s2.
  pose proof (lookup_lt_Some _ _ _ Hlo1) as Hso1.
  pose proof (lookup_lt_Some _ _ _ Hlin1) as Hsi1.
  set (n1 := length (heap s1)) in *.
  assert (op conv ≠ RESHAPE) as Hconv_op.
  { unfold conv, conv_primitive. cbn [op].
    match goal with |- context [if ?b then _ else _] => by destruct b end. }
  clearbody conv.
  wp_lift as conv0 Hconv0. apply py_getitem_1 in Hconv0.
  injection Hconv0 as <-.
  (* the pad *)
  apply wp_bind.
  apply (wp_mono _ _ (λ ops4 s4, ∃ pads c4,
    ops4 = pre :: pads ++ [conv; post] ∧
    self_inputs s4 = self_inputs s1 ∧ self_outputs s4 = self_outputs s1 ∧
    padding s4 = padding s1 ∧
    length (heap s4) = n1 + 4 + 2 * length pads ∧
    heap s4 !! self_inputs s1 = Some (Some c4 :: Some w' :: rest) ∧
    (∀ k l, heap s3 !! k = Some l → k ≠ self_inputs s1 →
            heap s4 !! k = Some l) ∧
    length pads
      = (if bool_decide (0 < py_sum (padding s1))%Z then 1 else 0) ∧
    Forall (λ o, op o = PAD) pads ∧
    (pads = [] ∧ c4 = xn ∨
     ∃ pad paddings ph pw,
       pads = [pad] ∧ inputs pad = n1 + 4 ∧ outputs pad = n1 + 5 ∧
       padding s1 !! 0 = Some ph ∧ padding s1 !! 1 = Some pw ∧
       (0 ≤ ph)%Z ∧ (0 ≤ pw)%Z ∧
       heap s4 !! (n1 + 4) = Some [Some xn; Some paddings] ∧
       heap s4 !! (n1 + 5) = Some [Some c4] ∧
       has_buffer paddings = true ∧
       tensor paddings = np_array_pairs (pad_amounts ph pw) ∧
       shape c4 = nd_shape (padded_array (tensor xn) ph pw) ∧
       quantization c4 = quantization xn))).
  2:{ apply wp_pad_handling_any.
      - intros Hsum pad_h pad_w first second lo3 pad_input b l Hph Hpw Hfirst
          Hsecond Hlo3 Hpi Hph0 Hpw0 Hnd Hb Hl Hlen'.
        injection Hfirst as <-. injection Hsecond as <-.
        rewrite Hpre_out, Hto3 in Hlo3. injection Hlo3 as <-.
        injection Hpi as <-.
        rewrite Hsi3 in Hl. injection Hl as <-.
        rewrite Hpd3 in Hph, Hpw, Hsum.
        exists [pad_operator s3], (pad_out s3 b xn pad_h pad_w).
        rewrite Hconv_in.
        split_and!.
        + apply py_insert_1.
        + done.
        + done.
        + done.
        + unfold pad_state. st_simpl.
          rewrite length_app, length_insert, Hlen3. simpl. lia.
        + unfold pad_state. st_simpl. eapply lookup_update_app.
          by rewrite <-Hconv_in.
        + intros k l Hk Hne'. unfold pad_state. st_simpl.
          by apply lookup_frame.
        + by rewrite bool_decide_eq_true_2.
        + by repeat constructor.
        + right. eexists (pad_operator s3), (pad_tensor s3 b pad_h pad_w),
            pad_h, pad_w.
          unfold pad_operator, pad_state. st_simpl. cbn [inputs outputs].
          rewrite Hlen3.
          split_and!; try done; try lia.
          * replace (n1 + 4) with (length (heap s3) + 0) by lia.
            by apply (lookup_fresh _ _ _ _ 0).
          * replace (n1 + 5) with (length (heap s3) + 1) by lia.
            by apply (lookup_fresh _ _ _ _ 1).
      - intros Hsum. exists [], xn. rewrite Hpd3 in Hsum.
        split_and!; try done;
          first [simpl; lia | by rewrite <-Hconv_in
                | by rewrite bool_decide_eq_false_2 | by left]. }
  intros ops4 s4 (pads & c4 & -> & HI4 & HO4 & Hpd4 & Hlen4 & Hsi4 & Hfr4
                 & Hlpads & Hpads & Hpad).
  (* the weight *)
  apply wp_bind, wp_weight_handling_any. intros l5 weight b5 Hl5 Hweight Hw4 Hb5.
  rewrite Hconv_in, Hsi4 in Hl5. injection Hl5 as <-. injection Hweight as <-.
  rewrite py_insert_after_head.
  set (rw := reordered_weight s4 b5 w' (weight_perm conv)) in *.
  assert (inputs (reorder_operator s4) = length (heap s4)
          ∧ outputs (reorder_operator s4) = length (heap s4) + 1)
    as (Hro_in & Hro_out).
  { unfold reorder_operator. cbn [inputs outputs]. split; lia. }
  match goal with
  | |- wp _ _ _ ?st => set (s5 := st) in *
  end.
  assert (length (heap s5) = length (heap s4) + 2) as Hlen5.
  { unfold s5, reorder_state. st_simpl.
    rewrite length_app, !length_insert. simpl. lia. }
  assert (heap s5 !! self_inputs s1 = Some (Some c4 :: Some rw :: rest))
    as Hsi5.
  { unfold s5, reorder_state. rewrite Hconv_in. st_simpl.
    by eapply lookup_update_app. }
  assert (∀ k l, heap s4 !! k = Some l → k ≠ self_inputs s1 →
                 heap s5 !! k = Some l) as Hfr5.
  { intros k l Hk Hne'. unfold s5, reorder_state. st_simpl.
    rewrite Hconv_in. by apply lookup_frame. }
  assert (self_inputs s5 = self_inputs s1 ∧ self_outputs s5 = self_outputs s1
          ∧ padding s5 = padding s1) as (HI5 & HO5 & Hpd5) by done.
  assert (∃ perm, heap s5 !! (length (heap s4) + 0) = Some [Some w'; perm])
    as [permw Hri5].
  { eexists. unfold s5, reorder_state. st_simpl.
    by apply (lookup_fresh _ _ _ _ 0). }
  assert (op (reorder_operator s4) = TRANSPOSE) as Hro_op by done.
  clearbody rw s5. clear Hb5.
  generalize dependent (reorder_operator s4). intros ro. intros.
  (* the bias *)
  apply wp_bind.
  apply (wp_mono _ _ (λ _ s6, ∃ tail,
    self_inputs s6 = self_inputs s1 ∧ self_outputs s6 = self_outputs s1 ∧
    padding s6 = padding s1 ∧
    heap s6 !! self_inputs s1 = Some (Some c4 :: tail) ∧
    (∀ k l, heap s5 !! k = Some l → k ≠ self_inputs s1 →
            heap s6 !! k = Some l))).
  2:{ apply wp_bias_handling_any.
      intros lw rw' k0 kernel_num l6 Hlw Hrw Hk0 Hkn Hl6.
      rewrite Hconv_in, Hsi5 in Hl6. injection Hl6 as <-.
      split.
      - intros Hnobias x0 b [= <-] Hb. eexists.
        unfold bias_state. st_simpl. rewrite Hconv_in.
        split_and!; try done.
        + apply list_lookup_insert_eq. by eapply lookup_lt_Some.
        + intros k l Hk Hne'. by rewrite list_lookup_insert_ne.
      - intros Hlen2 bias b0 Hbias Hb0 Hnot. eexists. by split_and!. }
  intros [] s6 (tail & HI6 & HO6 & Hpd6 & Hsi6 & Hfr6).
  (* the emission *)
  apply wp_bind, wp_emit_all. apply wp_bind, wp_try_restore_edges. apply wp_ret.
  match goal with
  | |- conv_flowed _ _ (set_graph ?E ?G (emit_all ?t ?o ?st)) ∧ _ =>
      destruct (emitted_state_fields t o st E G)
        as (Hfh & HfI & HfO & _ & Hfpad & _);
      generalize dependent (set_graph E G (emit_all t o st)); intros sf; intros
  end.
  rewrite HI6 in HfI. rewrite HO6 in HfO. rewrite Hpd6 in Hfpad.
  assert (∀ k l, heap s3 !! k = Some l → k ≠ self_inputs s1 →
                 heap sf !! k = Some l) as Hfr.
  { intros k l Hk Hne'. rewrite Hfh. apply Hfr6; [|done].
    apply Hfr5; [|done]. by apply Hfr4. }
  assert (∀ k l, heap s4 !! k = Some l → k ≠ self_inputs s1 →
                 heap sf !! k = Some l) as Hfr'.
  { intros k l Hk Hne'. rewrite Hfh. apply Hfr6; [|done]. by apply Hfr5. }
  pose proof (Hfr _ _ Hti3 ltac:(lia)) as Hti.
  pose proof (Hfr _ _ Hto3 ltac:(lia)) as Hto.
  pose proof (Hfr _ _ Hui3 ltac:(lia)) as Hui.
  pose proof (Hfr _ _ Huo3 ltac:(lia)) as Huo.
  rewrite Hconv_out in Hso3.
  pose proof (Hfr _ _ Hso3 ltac:(done)) as Hso.
  rewrite <-Hfh in Hsi6.
  rewrite <-Hpre_in in Hti. rewrite <-Hpre_out in Hto.
  rewrite <-Hpost_in in Hui. rewrite <-Hpost_out in Huo.
  rewrite <-Hconv_out in Hso. rewrite <-Hconv_in in Hsi6.
  rewrite <-HfI in Hconv_in. rewrite <-HfO in Hconv_out.
  pose proof (first_output_lookup _ _ _ _ Hto) as Hpre_first.
  pose proof (first_input_lookup _ _ _ _ Hui) as Hpost_first.
  pose proof (first_input_lookup _ _ _ _ Hsi6) as Hconv_first.
  pose proof (first_output_lookup _ _ _ _ Hso) as Hconv_last.
  assert (py_sum (padding s1) = py_sum (padding s)) as Hsum.
  { rewrite Hpadding. by destruct (bool_decide _). }
  rewrite Hsum in Hlpads.
  set (lifts := bool_decide (length (shape w) = 3)
                || bool_decide (length (shape x) = 3)) in *.
  assert (∃ y, node_output s = Some y ∧ lifted_if lifts y y4)
    as (y & Hy0 & Hy4).
  { unfold node_output. rewrite Hlo. destruct lifts.
    - destruct Hy as (y & y' & lo_rest' & -> & [= <- _] & Hy). by exists y.
    - rewrite <-Hy. by exists y4. }
  assert (node_input s = Some x ∧ node_weight s = Some w) as [Hnx Hnw].
  { unfold node_input, node_weight. by rewrite Hlin. }
  assert (∀ k l, heap s !! k = Some l →
                 lifts = true ∨ (k ≠ self_inputs s ∧ k ≠ self_outputs s) →
                 heap sf !! k = Some l) as Hkept.
  { intros k l Hk Hcase. destruct (Hstore k l Hk) as [Hk1 Hk2].
    assert (k ≠ self_inputs s1 ∧ k ≠ self_outputs s1) as [Hne1 Hne2].
    { fold lifts in Hk2. destruct lifts.
      - done.
      - rewrite Hk2. by destruct Hcase. }
    apply Hfr; [|done]. apply Hfr3; [done|..].
    - by rewrite Hconv_in, HfI.
    - by rewrite Hconv_out, HfO. }
  match goal with
  | |- _ ∧ conv_reshaped _ ?o _ => assert (conv_reshaped s o sf) as Hreshf
  end.
  { intros x0 w0 Hx0 Hw0 Hlift.
    rewrite Hnx in Hx0. injection Hx0 as <-.
    rewrite Hnw in Hw0. injection Hw0 as <-.
    assert (lifts = true) as Hlifts.
    { apply orb_true_iff.
      destruct Hlift; [left|right]; by apply bool_decide_eq_true_2. }
    specialize (Hresh Hlifts). rewrite Hlifts in Hx', Hy4.
    fold lifts in Hlen. rewrite Hlifts in Hlen.
    destruct (reshaped_inv _ _ _ _ _ _ _ _ _ _ _ _ Hlin Hlin1 Hlo1 Hlen Hresh)
      as (y0 & ri & back & HyR & Hri0 & HriR & HrwR & Hr2R & HbackR & HownR).
    rewrite Hy0 in HyR. injection HyR as <-.
    assert (∀ k l, heap s1 !! k = Some l → k ≠ self_inputs s1 →
                   k ≠ self_outputs s1 → heap sf !! k = Some l) as Hfr1.
    { intros k l Hk Hne1 Hne2. apply Hfr; [|done]. apply Hfr3; [done|..].
      - by rewrite Hconv_in, HfI.
      - by rewrite Hconv_out, HfO. }
    assert (first_input sf ro = Some w') as Hro_first.
    { apply (first_input_lookup _ _ _ [permw]). rewrite Hro_in, Hfh.
      rewrite Nat.add_0_r in Hri5. apply Hfr6; [done|lia]. }
    assert (Forall (own_lists s1) r.1 ∧ own_lists s1 back) as [Hown1 Hown2].
    { rewrite Hr2R in HownR. apply Forall_app in HownR as [? Hb].
      by apply Forall_cons in Hb as [? _]. }
    exists x, y, x', y4, ri, r.1, pre, ([ro] ++ pads ++ [conv]), post, back.
    split_and!; try done.
    - rewrite Hr2R. cbn [app]. rewrite <-!app_assoc. reflexivity.
    - rewrite !Forall_app, !Forall_cons, Hpre_op, Hro_op, Hpost_op.
      split_and!; try done.
      eapply Forall_impl; [exact Hpads|]. by intros o ->.
    - apply (reshape_in_at_frame s1); [done..|].
      by eapply Forall_lookup_1 in Hown1.
    - by apply (first_input_lookup _ _ _ [Some pin]).
    - change (ndim (tensor w)) with (length (shape w)).
      revert HrwR. destruct (bool_decide (length (shape w) = 3)); intros HrwR.
      + destruct HrwR as (rw0 & Hr1R & HrwR).
        exists w, w', rw0, ro. split_and!; try done.
        apply (reshape_in_at_frame s1); [done..|].
        rewrite Hr1R in Hown1. by eapply (Forall_lookup_1 _ _ 1) in Hown1.
      + done.
    - by apply (first_output_lookup _ _ _ []).
    - by apply (reshape_out_at_frame s1). }
  split; [|exact Hreshf]. clear Hreshf Hresh.
  unfold conv_flowed.
  exists r.1, pre, ro, pads, conv, post, r.2, x, w, y, x', y4, xn, yn, c4,
    pin, pout.
  cbv zeta. unfold resolve. rewrite Hti, Hto, Hui, Huo, Hpre_op, Hpost_op.
  fold lifts.
  split_and!; try done.
  - cbn [app]. by rewrite <-app_assoc.
  - intros ->. by destruct Hpad as [[_ ->]|(? & ? & ? & ? & ? & _)].
  - intros pad ->.
    destruct Hpad as [[? _]|(pad' & paddings & ph & pw & [= <-] & Hpin_r
                             & Hpout_r & Hph & Hpw & Hph0 & Hpw0 & Hpi & Hpo
                             & Hbuf & Hpt & Hshape & Hq)]; [done|].
    exists paddings, ph, pw.
    apply Forall_cons in Hpads as [-> _].
    rewrite Hpin_r, Hpout_r.
    rewrite (Hfr' _ _ Hpi ltac:(lia)), (Hfr' _ _ Hpo ltac:(lia)).
    rewrite Hfpad. by split_and!.
  - destruct Hpad as [[-> ->]|(pad & paddings & ph & pw & -> & Hpin_r
                              & Hpout_r & Hph & Hpw & Hph0 & Hpw0 & Hpi & Hpo
                              & Hbuf & Hpt & Hshape & Hq)].
    + cbn [app]. eapply linked_cons; [done..|].
      eapply linked_cons; [done..|]. apply linked_one.
    + pose proof (Hfr' _ _ Hpi ltac:(lia)) as Hpi'.
      pose proof (Hfr' _ _ Hpo ltac:(lia)) as Hpo'.
      rewrite <-Hpin_r in Hpi'. rewrite <-Hpout_r in Hpo'.
      pose proof (first_input_lookup _ _ _ _ Hpi') as Hpad_first.
      pose proof (first_output_lookup _ _ _ _ Hpo') as Hpad_last.
      cbn [app]. eapply linked_cons; [done..|].
      eapply linked_cons; [done..|].
      eapply linked_cons; [done..|]. apply linked_one.
Qed.

(** X17. In every lowering of a convolution that returns, the data flows
    through a connected chain from the leading transpose to the trailing
    one: each operator reads as its first input the first output of the one
    before it, the primitive reads the inputs of the node and writes its
    outputs, and the trailing transpose writes the output of the node. When
    the padding amounts sum to more than zero there is one pad between the
    leading transpose and the primitive: both amounts are then not negative,
    its constant is [[0, 0], [pad_h, pad_h], [pad_w, pad_w], [0, 0]], and
    its output, larger by the padding on both sides of the two middle axes,
    keeps the quantization of its input. Otherwise the primitive reads the
    output of the leading transpose itself. *)
Theorem conv_lowering_flow (mapping : Mapping) s ops s' :
  two_lists s → lower mapping s = (Ok ops, s') → conv_flowed s ops s'.
Proof.
  intros Hs Hrun.
  by destruct (wp_run any_exn _ _ _ _ _ (lower_flow_outcome mapping s Hs) Hrun).
Qed.

(** X18. A lowering of a convolution that returns changes no list that was
    there before the call, except the inputs and the outputs of the node
    themselves; and when the weight or the input has rank 3 it changes none
    at all, since the node then gets new lists: the lists the node was
    constructed with still hold what they held. *)
Theorem conv_lowering_keeps_lists (mapping : Mapping) s ops s' x w :
  two_lists s → node_input s = Some x → node_weight s = Some w →
  lower mapping s = (Ok ops, s') →
  (∀ k l, heap s !! k = Some l →
          (ndim (tensor w) = 3 ∨ ndim (tensor x) = 3)
          ∨ (k ≠ self_inputs s ∧ k ≠ self_outputs s) →
          heap s' !! k = Some l) ∧
  (ndim (tensor w) = 3 ∨ ndim (tensor x) = 3 →
   heap s' !! self_inputs s = heap s !! self_inputs s ∧
   heap s' !! self_outputs s = heap s !! self_outputs s).
Proof.
  intros Hs Hx Hw Hrun.
  assert (conv_flowed s ops s') as Hflow.
  { by destruct (wp_run any_exn _ _ _ _ _ (lower_flow_outcome mapping s Hs)
                    Hrun). }
  destruct Hflow as (before & tin & ro & pads & conv & tout & after & x0 & w0
                     & y & x4 & y4 & xn & yn & cin & pin & pout & Hflow).
  cbv zeta in Hflow. destruct Hflow as (Hx0 & Hw0 & Hy0 & Hflow).
  rewrite Hx in Hx0. injection Hx0 as <-.
  rewrite Hw in Hw0. injection Hw0 as <-.
  repeat (destruct Hflow as [_ Hflow]).
  assert (∀ k l, heap s !! k = Some l →
                 (ndim (tensor w) = 3 ∨ ndim (tensor x) = 3)
                 ∨ (k ≠ self_inputs s ∧ k ≠ self_outputs s) →
                 heap s' !! k = Some l) as Hkept.
  { intros k l Hk [Hlift|Hne]; apply Hflow; try done; [left|by right].
    apply orb_true_iff.
    destruct Hlift; [left|right]; by apply bool_decide_eq_true_2. }
  split; [done|].
  intros Hlift. destruct Hs as [_ Hso].
  unfold node_input in Hx.
  destruct (heap s !! self_inputs s) as [lin|] eqn:Hlin; [|done].
  destruct (lookup_lt_is_Some_2 _ _ Hso) as [lo Hlo].
  rewrite Hlo. split; apply Hkept; auto.
Qed.

(** X19. When the weight or the input of a convolution has rank 3, every
    lowering that returns starts its chain with a reshape of the input, and
    one of the weight when the weight has rank 3, and ends it with a
    reshape that writes the output of the node as it was at the call. Each
    of these reshapes carries the shape of its output as a constant second
    input and as its [newShape] option; the tensors in four axes have a unit
    axis at position 2, keep data type and quantization, and are named
    [<output>_<tensor>_4d_input] and [<output>_4d_output]. The leading
    transpose reads the reshaped input, the weight transpose the reshaped
    weight, and the last reshape reads what the trailing transpose writes;
    no operator between the reshapes is a reshape. *)
Theorem conv_lowering_reshapes (mapping : Mapping) s ops s' x w :
  two_lists s → node_input s = Some x → node_weight s = Some w →
  ndim (tensor w) = 3 ∨ ndim (tensor x) = 3 →
  lower mapping s = (Ok ops, s') →
  reshapes_around (bool_decide (ndim (tensor w) = 3)) s ops s'.
Proof.
  intros Hs Hx Hw Hlift Hrun.
  destruct (wp_run any_exn _ _ _ _ _ (lower_flow_outcome mapping s Hs) Hrun)
    as [_ Hre].
  exact (Hre x w Hx Hw Hlift).
Qed.
End conv_flow.

Lemma conv_lowering_flow_witness :
  let run := @GenericConvOperator.lower unit linking_converter ()
               conv2d_example in
  run = (Ok (returned [] run.1), run.2)
  ∧ conv_flowed conv2d_example (returned [] run.1) run.2.
Proof.
  intros run.
  assert (run = (Ok (returned [] run.1), run.2)) as Hrun by (by vm_compute).
  split; [exact Hrun|].
  exact (@conv_lowering_flow unit linking_converter () conv2d_example _ _
           (two_lists_fresh_node _ _ _ _ _ _ _) Hrun).
Defined.

Lemma conv_lowering_keeps_lists_witness :
  let run := @GenericConvOperator.lower unit linking_converter ()
               conv1d_example in
  run = (Ok (returned [] run.1), run.2)
  ∧ heap run.2 !! 0
    = Some [Some (value_tensor "x" [1; 3; 8] float32 None);
            Some (constant_tensor "w" [4; 3; 3] float32)]
  ∧ heap run.2 !! 1 = Some [Some (value_tensor "y" [1; 4; 6] float32 None)].
Proof.
  intros run.
  assert (run = (Ok (returned [] run.1), run.2)) as Hrun by (by vm_compute).
  split; [exact Hrun|].
  destruct (@conv_lowering_keeps_lists unit linking_converter ()
              conv1d_example _ _
              (value_tensor "x" [1; 3; 8] float32 None)
              (constant_tensor "w" [4; 3; 3] float32)
              (two_lists_fresh_node _ _ _ _ _ _ _) eq_refl eq_refl Hrun)
    as [_ Hsame].
  exact (Hsame (or_introl eq_refl)).
Defined.

Lemma conv_lowering_reshapes_witness :
  let run := @GenericConvOperator.lower unit linking_converter ()
               conv1d_example in
  run = (Ok (returned [] run.1), run.2)
  ∧ reshapes_around true conv1d_example (returned [] run.1) run.2.
Proof.
  intros run.
  assert (run = (Ok (returned [] run.1), run.2)) as Hrun by (by vm_compute).
  split; [exact Hrun|].
  exact (@conv_lowering_reshapes unit linking_converter () conv1d_example _ _
           (value_tensor "x" [1; 3; 8] float32 None)
           (constant_tensor "w" [4; 3; 3] float32)
           (two_lists_fresh_node _ _ _ _ _ _ _) eq_refl eq_refl
           (or_introl eq_refl) Hrun).
Defined.
